(* ===== verification/_CoqProject ===== *)
-Q . S2P
Prelude.v
Py.v
Struct.v
Fs.v
Sha1.v
Repo.v
Objects.v
Index.v
Refs.v
Tree.v
Porcelain.v
Cipher.v
Json.v
Grid.v
Sudoku.v
SudokuSolve.v
SudokuCheck.v
SudokuGen.v
Life.v
LifeSpec.v
LifeUI.v
LifeFile.v
Vk.v
VkSpec.v
