(* ===== verification/Prelude.v ===== *)
(** * cs1024: a verification development of the course's Python programs

    The repository holds five programs under [src/]: the Caesar and
    Vigenère ciphers ([homework01]), a sudoku solver and generator
    ([homework02/sudoku.py]), Conway's Game of Life with a console and a
    pygame front end ([homework03]), pyvcs ([homework04/pyvcs]), a
    minimal clone of git, and a client of the VK social network's HTTP
    API ([homework05/vkapi]: [friends.py], [wall.py]).  pyvcs is a content-addressed object store
    ([objects.py]), a binary staging index ([index.py]), tree and commit
    construction ([tree.py]), reference handling ([refs.py]), repository
    discovery and creation ([repo.py]) and the commands add, commit and
    checkout ([porcelain.py]); its modules talk to each other only through
    the file system: [update_index] stores blobs through [hash_object] and
    rewrites the index file, [write_tree] reads the index entries and
    stores trees, [commit] reads HEAD through the refs module, [checkout]
    reads objects back and writes the working tree.  The sudoku functions
    call each other on a grid that [solve] mutates in place; the Game of
    Life is a class whose methods the two front ends call in a loop.

    ** How the development is organised

    - [Prelude] (this file): bytes, Python's exceptions, the [result] monad
      and the state-and-error monad [stm] every stateful operation runs in,
      its notation [x <- c ;; k] in [vcs_scope], the rewrite database
      [vcs_simpl] and the hint database [vcs], the frame lemmas of the
      section [Preserve], and generic lemmas on lists and filters.
    - [Py]: the Python built-ins the sources call, written from CPython's
      documented behaviour: indexing and slicing with their [IndexError],
      UTF-8 [str.encode]/[bytes.decode] on U+0000..U+00FF, text-mode
      reading with universal newlines (["\r\n"] and ["\r"] read as
      ["\n"]), [bytes.split], [str.strip]/[lstrip]/[split()] with the
      characters [str.isspace] accepts, [bytes.fromhex], [bytes.hex],
      [int()], [str()] of an integer, [format] codes and the stable
      [sorted].
    - [Struct]: [struct.pack]/[struct.unpack] for the codes the index uses.
    - [Fs]: the world: a file system as a finite map from absolute paths to
      files and directories, pathlib's path arithmetic and the primitives
      [exists], [open(..).read()], [open(.., "wb").write], [mkdir],
      [glob("*")], [os.remove], [os.stat].  SHA-1 and zlib are the type
      classes [Hasher] and [Codec]; the theorems hold for every instance.
    - [Sha1]: FIPS 180-4 SHA-1 on 32-bit words with their wrap-around.
    - [Repo], [Objects], [Index], [Refs], [Tree], [Porcelain]: one file per
      pyvcs module, each function a definition of the same name in
      [stm world]; [Objects] also holds the relation [store_step] every
      writer preserves.
    - [Cipher]: [caesar.py] and [vigenere.py]: the character loop [s_accum]
      the four functions share, the abstract cipher [rot], and
      [caesar_breaker].
    - [Grid]: the specification-side view of a list of rows shared by the
      sudoku and the Game of Life: [at_], [upd], [shape], with the lemmas
      reading [grid[i][j]] and writing [grid[i][j] = v] in range.
    - [Sudoku]: [sudoku.py] function by function: [group] (and the mutation
      of its argument), [create_grid], [read_sudoku], [get_row], [get_col],
      [get_block], [get_diagonal], [display] (printed lines),
      [find_empty_positions], [find_possible_values], [solve] in [stm grid]
      on the shared grid, [check_solution], [generate_sudoku].
    - [SudokuSolve]: the specification ([wf]: a 9x9 grid of digits and
      ["."] with no repeated digit in a row, column or block; [solution];
      [dots]) and the correctness of [solve] and [create_grid].
    - [SudokuCheck]: rows, columns and blocks as units, a pigeonhole
      argument, and [check_solution] as the decision procedure of
      [wf /\ full].
    - [SudokuGen]: [generate_sudoku]: the count of blanks, the solvability
      of the puzzle, termination and divergence.
    - [Life]: [life.py]: the record [life] for a [GameOfLife] object and its
      methods; [step] and [checking] in [stm life]; [from_file] and [save]
      on the world.
    - [Json]: the Python values [json.loads] builds, with [key in doc],
      [doc[key]], iteration and [str()] as Python evaluates them.
    - [Vk]: [get_friends], [get_mutual], [get_posts_2500] (the VKScript
      text its f-string builds) and [get_wall_execute], in [stm] over the
      log of the calls made ([session.get], [session.post],
      [time.sleep]); the server is a function from the calls so far and
      the new request to a response, [VK_CONFIG] a pair of parameters.
    - [VkSpec]: what the client does with each kind of answer, the calls
      [get_mutual] makes and their bounds, and the errors of [wall.py].
    - [LifeSpec]: Conway's rules on the Moore neighbourhood clipped to the
      board ([next_ref]), the equivalence of [get_next_generation] with it,
      [step] and the generation limit.
    - [LifeUI]: [Console.run] and [GUI.run] (events of each frame as a
      list) and what they do given that [checking] always raises.
    - [LifeFile]: the text [save] writes and the round trip through
      [from_file].

    Python's sets are iterated in an order the language leaves open: the
    sudoku theorems take the iteration order as a parameter [set_iter] with
    the hypothesis [Hperm] that it lists the set's elements in some order,
    and hold for every such order (the witnesses use [elements]).  Random
    draws are inputs: a list of [randint(0, 8)] values for the generator,
    a function of the position for [create_grid] of the Game of Life.

    ** Fuel and bounds

    Loops that are not structural carry fuel, and a theorem states that the
    fuel given is always enough or that the loop diverges for every fuel:
    [read_tree] gets the length of its input plus one; [group] the length
    of its list plus one (enough for [n > 0], and [group_diverges] shows
    every fuel runs out for [n <= 0]); each [while] of [get_diagonal]
    [2 * len(grid) + 1] ([get_diagonal_total]).  Python's recursion limit is
    [recursion_limit] (1000): the fuel of [add], [write_tree],
    [ref_resolve]/[resolve_head] and [solve], whose depth is at most the
    number of empty cells plus one, at most 82.  [generate_sudoku]'s loop
    runs on the draws it is given and reports [NoTermination] when they
    run out; [generate_sudoku_correct] shows that draws visiting every
    cell, in any order, always end it with a puzzle.  The front ends' loops
    run on the frames or a fuel; running out is never a result.  The two [while] loops of [checkout] get the number
    of paths of the world plus one.

    ** What the theorems show (see PROJECT.json for the list of claims)

    - round trips: stored objects, packed index entries, index files, tree
      payloads and references read back as written; the ciphers invert;
      a Game of Life saved to a file loads back;
    - functional correctness and equivalence: [solve] returns a solution
      of the puzzle whenever one exists (and restores the grid when none
      does), [check_solution] decides the specification, [group] computes
      the slices, [get_next_generation] is Conway's rule;
    - refinement: the cipher loops compute the abstract rotation [rot];
    - invariants, safety and types: [hash_object] keeps the store well
      formed, [commit] changes nothing outside [objects], [step] keeps a
      game well formed, [create_grid] gives a 9x9 grid of sudoku cells;
    - bounds: [get_mutual] sends one request per hundred targets and
      never more than three requests between two sleeps, whatever the
      server answers;
    - termination and liveness: [read_tree] never runs out of fuel, the
      generator's loop ends once the draws cover the board, a game reaches
      its generation limit;
    - error behaviour and findings: missing objects, a detached [HEAD],
      re-staging, a failed [write_index], [commit] never moving the
      branch, [caesar_breaker] never trying shift 25, [get_diagonal]
      raising [IndexError] against its doctests, [generate_sudoku] and
      [group] diverging, and [checking] raising [TypeError] (it compares
      the method [elements_sum] with a number), which stops the console
      after one step and keeps the pygame front end from ever stepping;
      in the VK client, a failed request without an ["error"] raising
      [KeyError], [get_mutual] sending the whole target list in every
      round, [get_posts_2500] indexing an array with ["items"], and
      [get_wall_execute] fetching nothing for [count = 0].

    ** What is not modelled

    zlib's algorithm (the class [Codec]); drawing with curses and pygame
    ([draw_borders], [draw_lines], [draw_grid]) and the timing of frames;
    Unicode beyond U+00FF; JSON numbers with a fraction or an exponent;
    the VK API's own behaviour (the theorems hold for every server) and
    the VKScript the client sends, which runs on VK's side and is
    modelled as the text the client builds; pandas' [json_normalize]
    (a parameter), and [DataFrame.append] as pandas 1.x defines it (it was
    removed in pandas 2.0).  Characters are Latin-1: [chr] of a code point
    above 255, reached only by [decrypt_caesar] with a negative shift, is
    an [Exception] in the model.  Printing is the list of lines printed.
    [checkout] writing the files of every ancestor commit is, as the
    design's open question says, taken as specified and not reported. *)

From stdpp Require Export base gmap strings list.
From Stdlib Require Export ZArith Lia.
From Stdlib Require Strings.String.
From Stdlib Require Export Strings.Ascii.
From Stdlib Require Export Strings.Byte.

Declare Scope vcs_scope.
Delimit Scope vcs_scope with vcs.
Open Scope vcs_scope.

(** ** Bytes *)

Abbreviation bytes := (list byte).

#[export] Instance byte_eq_decision : EqDecision byte := Byte.byte_eq_dec.

(** The unsigned value of a byte, as Python's [bytes[i]] returns it. *)
Definition bval (b : byte) : Z := Z.of_N (Byte.to_N b).

(** [bytes([z % 256])]: the byte of an integer, wrapping. *)
Definition byte_of_Z (z : Z) : byte :=
  match Byte.of_N (Z.to_N (z mod 256)) with
  | Some b => b
  | None => x00
  end.

(** ** Python exceptions *)

Inductive exn :=
| FileNotFoundError
| FileExistsError
| IsADirectoryError
| NotADirectoryError
| OSError
| ValueError
| IndexError
| KeyError
| ZeroDivisionError
| UnboundLocalError
| AttributeError
| TypeError
| StructError
| ZlibError
| UnicodeDecodeError
| RecursionError
| Exception (msg : string)
(** [vkapi.exceptions.APIError(msg)], with [str] of its argument. *)
| APIError (msg : string)
(** Not a Python exception: the loop being modelled ran out of fuel.  The
    theorems show for which inputs the Python code itself never returns. *)
| NoTermination.

#[export] Instance exn_eq_decision : EqDecision exn.
Proof. solve_decision. Defined.

Inductive result (A : Type) :=
| Ok (a : A)
| Err (e : exn).
Arguments Ok {A} a.
Arguments Err {A} e.

(** Pure code that may raise runs in [result], with stdpp's monad
    notation [x ← r; k]. *)
#[export] Instance result_ret : MRet result := fun A a => Ok a.
#[export] Instance result_bind : MBind result :=
  fun A B f r => match r with Ok a => f a | Err e => Err e end.

Lemma bind_ok {A B} (x : A) (k : A -> result B) : (Ok x ≫= k) = k x.
Proof. done. Qed.

(** ** The state-and-error monad

    A Python statement runs on a state [S] and either returns or raises; in
    both cases the state it leaves behind is observable. *)

Definition stm (S A : Type) : Type := S -> result A * S.

Section Monad.
Context {S : Type}.

Definition sret {A} (a : A) : stm S A := fun s => (Ok a, s).
Definition sthrow {A} (e : exn) : stm S A := fun s => (Err e, s).
Definition sbind {A B} (c : stm S A) (k : A -> stm S B) : stm S B :=
  fun s => match c s with
           | (Ok a, s') => k a s'
           | (Err e, s') => (Err e, s')
           end.
Definition sget : stm S S := fun s => (Ok s, s).
Definition sput (s : S) : stm S unit := fun _ => (Ok tt, s).

(** Lift a pure computation that may fail. *)
Definition slift {A} (r : result A) : stm S A := fun s => (r, s).

(** Lift an option, raising [e] on [None]. *)
Definition sof_option {A} (e : exn) (o : option A) : stm S A :=
  fun s => match o with Some a => (Ok a, s) | None => (Err e, s) end.

(** [for x in xs: body(x)] *)
Fixpoint sfor {A} (xs : list A) (body : A -> stm S unit) : stm S unit :=
  match xs with
  | [] => sret tt
  | x :: xs' => sbind (body x) (fun _ => sfor xs' body)
  end.

(** [for x in xs: acc = body(acc, x)] *)
Fixpoint sfoldl {A B} (body : B -> A -> stm S B) (xs : list A) (acc : B) : stm S B :=
  match xs with
  | [] => sret acc
  | x :: xs' => sbind (body acc x) (fun acc' => sfoldl body xs' acc')
  end.

Lemma sbind_ret_l {A B} (a : A) (k : A -> stm S B) : sbind (sret a) k = k a.
Proof. reflexivity. Qed.

Lemma sbind_throw {A B} (e : exn) (k : A -> stm S B) : sbind (sthrow e) k = sthrow e.
Proof. reflexivity. Qed.

Lemma sbind_assoc {A B C} (c : stm S A) (k1 : A -> stm S B) (k2 : B -> stm S C) s :
  sbind (sbind c k1) k2 s = sbind c (fun a => sbind (k1 a) k2) s.
Proof. unfold sbind. by destruct (c s) as [[a|e] s']. Qed.

Lemma sbind_apply {A B} (c : stm S A) (k : A -> stm S B) s a s' :
  c s = (Ok a, s') -> sbind c k s = k a s'.
Proof. unfold sbind. by intros ->. Qed.

Lemma sbind_apply_err {A B} (c : stm S A) (k : A -> stm S B) s e s' :
  c s = (Err e, s') -> sbind c k s = (Err e, s').
Proof. unfold sbind. by intros ->. Qed.

Lemma sfoldl_cons_err {A B} (body : B -> A -> stm S B) x xs acc s e s' :
  body acc x s = (Err e, s') -> sfoldl body (x :: xs) acc s = (Err e, s').
Proof. intros H. simpl. by apply sbind_apply_err. Qed.
End Monad.

Notation "x <- c1 ;; c2" := (sbind c1 (fun x => c2))
  (at level 60, c1 at next level, right associativity) : vcs_scope.
Notation "c1 ;;; c2" := (sbind c1 (fun _ => c2))
  (at level 60, right associativity) : vcs_scope.

(** ** Frame reasoning: what a statement may change

    [preserves R c]: whatever [c] returns or raises, the state it leaves is
    related to the state it started from.  With [R] reflexive and
    transitive the property goes through sequencing and loops, so a
    property of the primitives lifts to the handlers that call them. *)

Section Preserve.
Context {S : Type} (R : S -> S -> Prop) `{!Reflexive R} `{!Transitive R}.

Definition preserves {A} (c : stm S A) : Prop := forall s r s', c s = (r, s') -> R s s'.

(** A statement that leaves the state as it found it. *)
Definition readonly {A} (c : stm S A) : Prop := forall s, snd (c s) = s.

Lemma preserves_readonly {A} (c : stm S A) : readonly c -> preserves c.
Proof. intros Hc s r s' E. specialize (Hc s). rewrite E in Hc. simpl in Hc. subst. reflexivity. Qed.

Lemma preserves_ret {A} (a : A) : preserves (sret a).
Proof. intros s r s' [=]. subst. reflexivity. Qed.

Lemma preserves_throw {A} e : preserves (@sthrow S A e).
Proof. intros s r s' [=]. subst. reflexivity. Qed.

Lemma preserves_bind {A B} (c : stm S A) (k : A -> stm S B) :
  preserves c -> (forall a, preserves (k a)) -> preserves (sbind c k).
Proof.
  intros Hc Hk s r s'. unfold sbind. destruct (c s) as [[a|e] s1] eqn:E.
  - intros E2. transitivity s1; [exact (Hc _ _ _ E) | exact (Hk a _ _ _ E2)].
  - intros [= _ <-]. exact (Hc _ _ _ E).
Qed.

Lemma preserves_sfoldl {A B} (body : B -> A -> stm S B) xs acc :
  (forall acc x, preserves (body acc x)) -> preserves (sfoldl body xs acc).
Proof.
  intros Hb. revert acc. induction xs as [|x xs IH]; intros acc; simpl.
  - apply preserves_ret.
  - apply preserves_bind; [apply Hb | intros; apply IH].
Qed.

Lemma preserves_sfor {A} (xs : list A) (body : A -> stm S unit) :
  (forall x, preserves (body x)) -> preserves (sfor xs body).
Proof.
  intros Hb. induction xs as [|x xs IH]; simpl; [apply preserves_ret|].
  apply preserves_bind; [apply Hb | intros; apply IH].
Qed.

Lemma readonly_bind {A B} (c : stm S A) (k : A -> stm S B) :
  readonly c -> (forall a, readonly (k a)) -> readonly (sbind c k).
Proof.
  intros Hc Hk s. unfold sbind. specialize (Hc s). destruct (c s) as [[a|e] s1]; simpl in *; subst; [apply Hk|done].
Qed.

End Preserve.

(** Split a statement into the primitives it sequences. *)
Ltac preserve_steps :=
  repeat match goal with
  | |- forall _, _ => intros ?
  | |- preserves _ (sbind _ _) => apply preserves_bind
  | |- preserves _ (sfoldl _ _ _) => apply preserves_sfoldl
  | |- preserves _ (sfor _ _) => apply preserves_sfor
  | |- preserves _ (if _ then _ else _) => case_match
  | |- preserves _ (match _ with _ => _ end) => case_match
  | |- readonly (sbind _ _) => apply readonly_bind
  | |- readonly (if _ then _ else _) => case_match
  | |- readonly (match _ with _ => _ end) => case_match
  end.

(** Python's default recursion limit. *)
Definition recursion_limit : nat := 1000.

(** [while cond: body] in pure code, with fuel; running out of fuel is
    [NoTermination], never a result. *)
Fixpoint py_while {S} (fuel : nat) (cond : S -> bool) (body : S -> result S) (s : S) : result S :=
  match fuel with
  | O => Err NoTermination
  | Datatypes.S f => if cond s then match body s with Ok s' => py_while f cond body s' | Err e => Err e end else Ok s
  end.

(** ** Automation *)

Create HintDb vcs discriminated.
Create Rewrite HintDb vcs_simpl.

#[export] Hint Resolve preserves_ret preserves_throw preserves_readonly : vcs.

#[export] Hint Rewrite @sbind_ret_l @sbind_throw @sbind_assoc : vcs_simpl.

(** Step over the first statement of a computation whose outcome is known
    from the equation [H : c s = (Ok a, s')]. *)
Ltac sstep H := erewrite sbind_apply by (exact H || apply H || reflexivity); cbv beta.

(** Run a monadic computation on a concrete state as far as it computes. *)
Ltac srun := repeat (unfold sbind, sret, sthrow, sget, sput, slift, sof_option in *; simpl in *).

(** ** Generic list lemmas shared by the components *)

Lemma take_drop_app {A} (l1 l2 : list A) :
  take (length l1) (l1 ++ l2) = l1 /\ drop (length l1) (l1 ++ l2) = l2.
Proof. split; [apply take_app_length | apply drop_app_length]. Qed.

(** Skipping a prefix and the separator after it. *)
Lemma drop_after_sep {A} (l r : list A) x : drop (S (length l)) (l ++ x :: r) = r.
Proof. induction l as [|y l IH]; simpl; [done|]. apply IH. Qed.

#[export] Hint Resolve take_app_length drop_app_length : vcs.
#[export] Hint Rewrite @take_app_length @drop_app_length : vcs_simpl.

(** ** Filters: the elements of a list that pass a test *)

Lemma filter_ext_in {A} (P Q : A -> Prop) `{forall x, Decision (P x)} `{forall x, Decision (Q x)} (l : list A) :
  (forall y, y ∈ l -> P y <-> Q y) -> filter P l = filter Q l.
Proof.
  induction l as [|y l IH]; intros HPQ; [done|]. rewrite !filter_cons, IH by (intros z Hz; apply HPQ; by right).
  destruct (decide (P y)), (decide (Q y)); try done; exfalso; pose proof (HPQ y ltac:(by left)); tauto.
Qed.

Lemma filter_none {A} (P : A -> Prop) `{forall x, Decision (P x)} (l : list A) :
  Forall (fun x => ~ P x) l -> filter P l = [].
Proof. induction 1; [done|]. by rewrite filter_cons_False. Qed.

Lemma filter_all {A} (P : A -> Prop) `{forall x, Decision (P x)} (l : list A) :
  Forall P l -> filter P l = l.
Proof. induction 1; [done|]. rewrite filter_cons_True; congruence. Qed.

Lemma filter_length_lt {A} (P Q : A -> Prop) `{forall x, Decision (P x)} `{forall x, Decision (Q x)} (l : list A) x :
  (forall y, Q y -> P y) -> x ∈ l -> P x -> ~ Q x -> (length (filter Q l) < length (filter P l))%nat.
Proof.
  intros HQP. induction l as [|y l IH]; intros Hx Px Qx; [inversion Hx|].
  assert (Hle : (length (filter Q l) <= length (filter P l))%nat).
  { clear IH Hx. induction l as [|z l IHl]; [done|]. rewrite !filter_cons.
    destruct (decide (Q z)), (decide (P z)); simpl; try lia. naive_solver. }
  rewrite !filter_cons. apply elem_of_cons in Hx as [->|Hx].
  - destruct (decide (Q y)); [done|]. destruct (decide (P y)); [|done]. simpl. lia.
  - specialize (IH Hx Px Qx). destruct (decide (Q y)), (decide (P y)); simpl; try lia. naive_solver.
Qed.

Lemma filter_length_S {A} `{EqDecision A} (P Q : A -> Prop) `{forall x, Decision (P x)} `{forall x, Decision (Q x)} (l : list A) x :
  NoDup l -> x ∈ l -> ~ P x -> Q x -> (forall y, y ∈ l -> y <> x -> P y <-> Q y) ->
  length (filter Q l) = S (length (filter P l)).
Proof.
  intros Hnd Hx Px Qx HPQ. induction l as [|y l IH]; [inversion Hx|].
  apply NoDup_cons in Hnd as [Hy Hnd]. rewrite !filter_cons.
  destruct (decide (y = x)) as [->|Hne].
  - rewrite decide_True, decide_False by done. simpl. f_equal.
    f_equal. apply filter_ext_in. intros z Hz. symmetry. apply HPQ; [by right | congruence].
  - apply elem_of_cons in Hx as [->|Hx]; [done|].
    assert (IH' : length (filter Q l) = S (length (filter P l))) by (apply IH; auto; intros z Hz; apply HPQ; by right).
    pose proof (HPQ y ltac:(by left) Hne).
    destruct (decide (P y)) as [Py|Py], (decide (Q y)) as [Qy|Qy]; simpl; rewrite ?IH'; tauto.
Qed.

(** A loop whose every successful round moves a measure down inside
    [0..B) runs at most [B] rounds: [B + 1] rounds of fuel never run out. *)
Section While.
Context {S : Type} (cond : S -> bool) (body : S -> result S) (mu : S -> Z) (B : Z).
Hypothesis Hstep : forall s s', cond s = true -> body s = Ok s' -> (0 <= mu s < B /\ mu s' < mu s)%Z.
Hypothesis Hbody : forall s, body s <> Err NoTermination.

Lemma py_while_measure fuel s :
  (0 <= mu s < B -> mu s + 2 <= Z.of_nat fuel)%Z -> (1 <= fuel)%nat -> py_while fuel cond body s <> Err NoTermination.
Proof.
  revert s. induction fuel as [|f IH]; intros s Hm Hf; [lia|]. cbn [py_while].
  destruct (cond s) eqn:Hc; [|done].
  destruct (body s) as [s'|e] eqn:Hb; [|intros [= ->]; by apply (Hbody s)].
  destruct (Hstep s s' Hc Hb) as [Hr Hd]. specialize (Hm Hr). apply IH; lia.
Qed.

Lemma py_while_bounded fuel s : (B + 1 <= Z.of_nat fuel)%Z -> (1 <= fuel)%nat -> py_while fuel cond body s <> Err NoTermination.
Proof. intros Hf H1. apply py_while_measure; lia. Qed.
End While.
