(* ===== verification/Py.v ===== *)
(** * Python built-ins used by pyvcs

    The operations of [str], [bytes] and [int] that the sources call, written
    from CPython's documented behaviour.  A Python [str] is a Rocq [string],
    whose characters are the code points U+0000..U+00FF; [encode] and
    [decode] are UTF-8 on that range.  Functions that raise return an
    [option] ([None] is the [ValueError] or [UnicodeDecodeError]); the
    components turn it into the exception. *)

From S2P Require Import Prelude.

Open Scope Z_scope.

(** ** Characters and code points *)

Definition cp (c : ascii) : Z := Z.of_N (Ascii.N_of_ascii c).
Definition chr (z : Z) : ascii := Ascii.ascii_of_N (Z.to_N z).

(** [c.isspace()] for a [str] character: the ASCII whitespace [\t] to
    [\r] and the space, the separators U+001C..U+001F, NEL (U+0085) and
    NO-BREAK SPACE (U+00A0).  [str.strip()] and [str.split()] use it. *)
Definition is_space (c : ascii) : bool :=
  let n := cp c in
  (n =? 32) || ((9 <=? n) && (n <=? 13)) || ((28 <=? n) && (n <=? 31)) || (n =? 133) || (n =? 160).

(** The ASCII whitespace [bytes.fromhex] skips: space and [\t] to [\r]. *)
Definition is_ascii_space (c : ascii) : bool :=
  let n := cp c in (n =? 32) || ((9 <=? n) && (n <=? 13)).

(** ** [str.encode()] and [bytes.decode()] (UTF-8) *)

Definition utf8_char (c : ascii) : bytes :=
  let n := cp c in
  if n <? 128 then [byte_of_Z n]
  else [byte_of_Z (192 + n / 64); byte_of_Z (128 + n mod 64)].

Fixpoint encode (s : string) : bytes :=
  match s with
  | EmptyString => []
  | String c s' => utf8_char c ++ encode s'
  end.

Fixpoint decode (b : bytes) : option string :=
  match b with
  | [] => Some EmptyString
  | x :: rest =>
      if bval x <? 128 then String (chr (bval x)) <$> decode rest
      else if (bval x =? 194) || (bval x =? 195) then
        match rest with
        | y :: rest' =>
            if (128 <=? bval y) && (bval y <? 192)
            then String (chr ((bval x - 192) * 64 + (bval y - 128))) <$> decode rest'
            else None
        | [] => None
        end
      else None
  end.

(** A string is ASCII when every code point is below 128. *)
Fixpoint is_ascii (s : string) : bool :=
  match s with
  | EmptyString => true
  | String c s' => (cp c <? 128) && is_ascii s'
  end.

(** ** [bytes] methods *)

(** [data.index(x)]: the position of the first [x]; [ValueError] if none. *)
Fixpoint b_index (x : byte) (l : bytes) : option nat :=
  match l with
  | [] => None
  | y :: l' => if decide (y = x) then Some 0%nat else S <$> b_index x l'
  end.

(** [data.split(sep)] for a one-byte separator. *)
Fixpoint b_split (sep : byte) (l : bytes) : list bytes :=
  match l with
  | [] => [[]]
  | y :: l' =>
      if decide (y = sep) then [] :: b_split sep l'
      else match b_split sep l' with
           | chunk :: rest => (y :: chunk) :: rest
           | [] => [[y]]
           end
  end.

(** [data.split(sep, maxsplit=1)]. *)
Definition b_split1 (sep : byte) (l : bytes) : list bytes :=
  match b_index sep l with
  | Some i => [take i l; drop (S i) l]
  | None => [l]
  end.

(** [data.rstrip(b"\x00")]. *)
Fixpoint drop_nuls (l : bytes) : bytes :=
  match l with
  | x00 :: l' => drop_nuls l'
  | _ => l
  end.

Definition b_rstrip_nul (l : bytes) : bytes := reverse (drop_nuls (reverse l)).

(** ** [str] methods *)

Fixpoint s_index (c : ascii) (s : string) : option nat :=
  match s with
  | EmptyString => None
  | String d s' => if decide (d = c) then Some 0%nat else S <$> s_index c s'
  end.

(** [s.split(sep, 1)] for a one-character separator. *)
Definition s_split1 (sep : ascii) (s : string) : list string :=
  match s_index sep s with
  | Some i => [String.substring 0 i s; String.substring (S i) (String.length s) s]
  | None => [s]
  end.

(** [s.split(sep)] for a one-character separator. *)
Fixpoint s_split (sep : ascii) (s : string) : list string :=
  match s with
  | EmptyString => [EmptyString]
  | String c s' =>
      if decide (c = sep) then EmptyString :: s_split sep s'
      else match s_split sep s' with
           | w :: rest => String c w :: rest
           | [] => [String c EmptyString]
           end
  end.

(** [s.lstrip(chars)]: drop the leading characters that belong to [chars]
    (a set of characters, not a prefix). *)
Fixpoint s_lstrip (chars : string) (s : string) : string :=
  match s with
  | EmptyString => EmptyString
  | String c s' => if bool_decide (is_Some (s_index c chars)) then s_lstrip chars s' else s
  end.

Fixpoint s_lstrip_ws (s : string) : string :=
  match s with
  | EmptyString => EmptyString
  | String c s' => if is_space c then s_lstrip_ws s' else s
  end.

Definition s_rev (s : string) : string :=
  String.string_of_list_ascii (reverse (String.list_ascii_of_string s)).

(** [s.strip()] *)
Definition s_strip (s : string) : string := s_rev (s_lstrip_ws (s_rev (s_lstrip_ws s))).

(** [s.split()] with no argument: split on runs of whitespace. *)
Fixpoint s_split_ws_acc (cur : string) (s : string) : list string :=
  match s with
  | EmptyString => if String.eqb cur EmptyString then [] else [s_rev cur]
  | String c s' =>
      if is_space c then
        (if String.eqb cur EmptyString then [] else [s_rev cur]) ++ s_split_ws_acc EmptyString s'
      else s_split_ws_acc (String c cur) s'
  end.
Definition s_split_ws (s : string) : list string := s_split_ws_acc EmptyString s.

(** A file opened in text mode ([open(p)], [open(p, "r")]) reads with
    universal newlines: ["\r\n"] and ["\r"] become ["\n"]. *)
Fixpoint universal_newlines (s : string) : string :=
  match s with
  | EmptyString => EmptyString
  | String c s' =>
      if bool_decide (c = "013"%char) then
        match s' with
        | String "010"%char s'' => String "010"%char (universal_newlines s'')
        | _ => String "010"%char (universal_newlines s')
        end
      else String c (universal_newlines s')
  end.

(** [needle in hay] *)
Fixpoint s_contains (needle hay : string) : bool :=
  String.prefix needle hay ||
  match hay with
  | EmptyString => false
  | String _ hay' => s_contains needle hay'
  end.

(** [sep.join(l)] *)
Fixpoint s_join (sep : string) (l : list string) : string :=
  match l with
  | [] => EmptyString
  | [x] => x
  | x :: l' => (x +:+ sep +:+ s_join sep l')%stdpp
  end.

(** The last element of a non-empty Python list, [l[-1]]. *)
Definition py_last {A} (d : A) (l : list A) : A := List.last l d.

(** ** Integers to text: [str(n)], [format(n, "o")], [format(n, "02")] *)

Definition digit_char (d : Z) : ascii :=
  if d <? 10 then chr (48 + d) else chr (87 + d).

Definition char_digit (c : ascii) : option Z :=
  let n := cp c in
  if (48 <=? n) && (n <=? 57) then Some (n - 48)
  else if (97 <=? n) && (n <=? 102) then Some (n - 87)
  else if (65 <=? n) && (n <=? 70) then Some (n - 55)
  else None.

(** Most-significant-first digits of [n >= 0] in base [b >= 2]; [fuel]
    bounds the number of digits. *)
Fixpoint digits (fuel : nat) (b n : Z) (acc : list Z) : list Z :=
  match fuel with
  | O => acc
  | S f => if n <? b then n :: acc else digits f b (n / b) (n mod b :: acc)
  end.

Definition digits_of (b n : Z) : list Z := digits (S (Z.to_nat (Z.log2 (Z.abs n)))) b n [].

Definition string_of_digits (ds : list Z) : string :=
  String.string_of_list_ascii (digit_char <$> ds).

Definition str_base (b n : Z) : string :=
  if n <? 0 then String "-" (string_of_digits (digits_of b (- n)))
  else string_of_digits (digits_of b n).

(** [str(n)] *)
Definition str_of_Z (n : Z) : string := str_base 10 n.
(** [f"{n:o}"] *)
Definition fmt_o (n : Z) : string := str_base 8 n.

Fixpoint zeros (k : nat) : string :=
  match k with O => EmptyString | S k' => String "0" (zeros k') end.

(** [f"{n:0w}"]: decimal, zero-padded after the sign to width [w]. *)
Definition fmt_0w (w : nat) (n : Z) : string :=
  let ds := string_of_digits (digits_of 10 (Z.abs n)) in
  let sign := if n <? 0 then "-"%string else EmptyString in
  (sign +:+ zeros (w - String.length sign - String.length ds) +:+ ds)%stdpp.

(** ** Text to integers: [int(s)] and [int(s, 8)]

    CPython accepts surrounding whitespace, one sign, digits of the base with
    single underscores between them, and for base 8 the prefix [0o]. *)

Fixpoint parse_digits (b : Z) (acc : Z) (prev_us : bool) (seen : bool) (s : string) : option Z :=
  match s with
  | EmptyString => if seen && negb prev_us then Some acc else None
  | String c s' =>
      if cp c =? 95 then
        if seen && negb prev_us then parse_digits b acc true seen s' else None
      else match char_digit c with
           | Some d => if d <? b then parse_digits b (acc * b + d) false true s' else None
           | None => None
           end
  end.

Definition strip_base_prefix (b : Z) (s : string) : string :=
  match s with
  | String "0" (String c s') =>
      if (b =? 8) && ((cp c =? 111) || (cp c =? 79)) then
        match s' with String "_" s'' => s'' | _ => s' end
      else s
  | _ => s
  end.

Definition py_int (b : Z) (s : string) : option Z :=
  match s_strip s with
  | String "-" s' => Z.opp <$> parse_digits b 0 false false (strip_base_prefix b s')
  | String "+" s' => parse_digits b 0 false false (strip_base_prefix b s')
  | s' => parse_digits b 0 false false (strip_base_prefix b s')
  end.

(** ** [bytes.hex()] and [bytes.fromhex(s)] *)

Definition hex_byte (b : byte) : string :=
  String (digit_char (bval b / 16)) (String (digit_char (bval b mod 16)) EmptyString).

Fixpoint hex (l : bytes) : string :=
  match l with
  | [] => EmptyString
  | b :: l' => (hex_byte b +:+ hex l')%stdpp
  end.

(** [bytes.fromhex] skips whitespace between byte pairs. *)
Fixpoint fromhex (s : string) : option bytes :=
  match s with
  | EmptyString => Some []
  | String c s' =>
      if is_ascii_space c then fromhex s'
      else match s' with
           | String c2 s'' =>
               match char_digit c, char_digit c2 with
               | Some hi, Some lo => cons (byte_of_Z (hi * 16 + lo)) <$> fromhex s''
               | _, _ => None
               end
           | EmptyString => None
           end
  end.

(** [range(start, stop, step)] for a positive step. *)
Definition py_range (start stop step : nat) : list nat :=
  (fun k => start + step * k)%nat <$> seq 0 ((stop - start + step - 1) / step).

(** ** [sorted(l, key=k)]: a stable sort on string keys *)

Section Sort.
Context {A : Type} (key : A -> string).

Fixpoint insert_by (x : A) (l : list A) : list A :=
  match l with
  | [] => [x]
  | y :: l' => if String.leb (key x) (key y) then x :: y :: l' else y :: insert_by x l'
  end.

Fixpoint sort_by (l : list A) : list A :=
  match l with
  | [] => []
  | x :: l' => insert_by x (sort_by l')
  end.
End Sort.

(** ** Lemmas *)

Lemma cp_range c : 0 <= cp c < 256.
Proof.
  unfold cp. pose proof (Ascii.N_ascii_bounded c). lia.
Qed.

Lemma chr_cp c : chr (cp c) = c.
Proof. unfold chr, cp. by rewrite N2Z.id, Ascii.ascii_N_embedding. Qed.

Lemma cp_inj c d : cp c = cp d -> c = d.
Proof. intros E. by rewrite <- (chr_cp c), <- (chr_cp d), E. Qed.

Lemma bval_inj a b : bval a = bval b -> a = b.
Proof.
  unfold bval. intros E. apply N2Z.inj in E.
  pose proof (Byte.of_to_N a) as Ea. pose proof (Byte.of_to_N b) as Eb. congruence.
Qed.

Lemma bval_range_py b : 0 <= bval b < 256.
Proof. unfold bval. pose proof (Byte.to_N_bounded b). lia. Qed.

Lemma bval_of_Z_small z : 0 <= z < 256 -> bval (byte_of_Z z) = z.
Proof.
  intros Hz. unfold byte_of_Z, bval. rewrite Z.mod_small by lia.
  destruct (Byte.of_N (Z.to_N z)) as [b|] eqn:E.
  - apply Byte.to_of_N in E. lia.
  - apply Byte.of_N_None_iff in E. lia.
Qed.

Lemma decode_utf8_char c rest :
  decode (utf8_char c ++ rest) = String c <$> decode rest.
Proof.
  pose proof (cp_range c) as Hc. unfold utf8_char.
  destruct (Z.ltb_spec (cp c) 128) as [Hlt|Hge]; simpl.
  - rewrite bval_of_Z_small by lia. rewrite (proj2 (Z.ltb_lt _ _) Hlt), chr_cp. done.
  - pose proof (Z.mod_pos_bound (cp c) 64 ltac:(lia)).
    pose proof (Z.div_mod (cp c) 64 ltac:(lia)).
    assert (Hq : cp c / 64 = 2 \/ cp c / 64 = 3) by lia.
    rewrite !bval_of_Z_small by lia.
    replace (192 + cp c / 64 <? 128) with false by (symmetry; apply Z.ltb_ge; lia).
    replace ((192 + cp c / 64 =? 194) || (192 + cp c / 64 =? 195)) with true
      by (destruct Hq as [-> | ->]; reflexivity).
    replace ((128 <=? 128 + cp c mod 64) && (128 + cp c mod 64 <? 192)) with true
      by (symmetry; apply andb_true_iff; split; [apply Z.leb_le | apply Z.ltb_lt]; lia).
    replace ((192 + cp c / 64 - 192) * 64 + (128 + cp c mod 64 - 128)) with (cp c) by lia.
    by rewrite chr_cp.
Qed.

(** [bytes.decode] inverts [str.encode]. *)
Lemma decode_encode s : decode (encode s) = Some s.
Proof.
  induction s as [|c s IH]; [done|]. simpl. by rewrite decode_utf8_char, IH.
Qed.

Lemma encode_app s1 s2 : encode (s1 +:+ s2)%stdpp = encode s1 ++ encode s2.
Proof. induction s1 as [|c s1 IH]; [done|]. simpl. by rewrite IH, app_assoc. Qed.

(** An ASCII character absent from a string is absent from its encoding. *)
Lemma encode_notin c s :
  cp c < 128 -> s_index c s = None -> byte_of_Z (cp c) ∉ encode s.
Proof.
  intros Hc. induction s as [|d s IH]; simpl; [intros _; apply not_elem_of_nil|].
  case_decide as Hdc; [done|]. destruct (s_index c s); [done|]. intros _.
  rewrite elem_of_app. intros [Hin|Hin]; [|by apply IH].
  pose proof (cp_range c). pose proof (cp_range d). unfold utf8_char in Hin.
  destruct (Z.ltb_spec (cp d) 128).
  - apply list_elem_of_singleton in Hin. apply (f_equal bval) in Hin.
    rewrite !bval_of_Z_small in Hin by lia. by apply Hdc, cp_inj.
  - pose proof (Z.mod_pos_bound (cp d) 64 ltac:(lia)).
    pose proof (Z.div_mod (cp d) 64 ltac:(lia)).
    revert Hin. rewrite !elem_of_cons, elem_of_nil.
    intros [E|[E|[]]]; apply (f_equal bval) in E; rewrite !bval_of_Z_small in E by lia; lia.
Qed.

Lemma b_index_app_sep sep l r :
  sep ∉ l -> b_index sep (l ++ sep :: r) = Some (length l).
Proof.
  induction l as [|y l IH]; intros Hn; simpl; [by rewrite decide_True|].
  rewrite not_elem_of_cons in Hn. rewrite decide_False by (intros ->; tauto).
  by rewrite IH by tauto.
Qed.

Lemma b_split_app_sep sep l r :
  sep ∉ l -> b_split sep (l ++ sep :: r) = l :: b_split sep r.
Proof.
  induction l as [|y l IH]; intros Hn; simpl; [by rewrite decide_True|].
  rewrite not_elem_of_cons in Hn. rewrite decide_False by (intros ->; tauto).
  by rewrite IH by tauto.
Qed.

Lemma b_split_nosep sep l : sep ∉ l -> b_split sep l = [l].
Proof.
  induction l as [|y l IH]; intros Hn; simpl; [done|].
  rewrite not_elem_of_cons in Hn. rewrite decide_False by (intros ->; tauto).
  by rewrite IH by tauto.
Qed.

Lemma b_split1_app_sep sep l r :
  sep ∉ l -> b_split1 sep (l ++ sep :: r) = [l; r].
Proof.
  intros Hn. unfold b_split1. rewrite b_index_app_sep by done.
  rewrite take_app_length. f_equal. f_equal. clear. by induction l.
Qed.

#[export] Hint Rewrite decode_encode encode_app : vcs_simpl.

Lemma cp_chr z : 0 <= z < 256 -> cp (chr z) = z.
Proof.
  intros Hz. unfold cp, chr. rewrite Ascii.N_ascii_embedding by lia. lia.
Qed.

Lemma s_index_app_none c s1 s2 :
  s_index c s1 = None -> s_index c s2 = None -> s_index c (s1 +:+ s2)%stdpp = None.
Proof.
  induction s1 as [|d s1 IH]; simpl; [done|]. case_decide; [done|].
  destruct (s_index c s1); [done|]. intros _ H2. by rewrite IH.
Qed.

Lemma digits_range fuel b n acc :
  2 <= b -> 0 <= n -> Forall (fun d => 0 <= d < b) acc ->
  Forall (fun d => 0 <= d < b) (digits fuel b n acc).
Proof.
  revert n acc. induction fuel as [|f IH]; intros n acc Hb Hn Hacc; simpl; [done|].
  destruct (Z.ltb_spec n b).
  - by constructor; [lia|].
  - apply IH; [lia | apply Z.div_pos; lia |]. constructor; [|done].
    apply Z.mod_pos_bound; lia.
Qed.

(** Only the characters '0'..'9' occur in decimal digits. *)
Lemma s_index_digits c ds :
  Forall (fun d => 0 <= d < 10) ds -> (cp c < 48 \/ 57 < cp c) ->
  s_index c (string_of_digits ds) = None.
Proof.
  intros Hds Hc. unfold string_of_digits. induction Hds as [|d ds Hd _ IH]; [done|]. simpl.
  rewrite decide_False; [by setoid_rewrite IH|]. intros E.
  unfold digit_char in E. rewrite (proj2 (Z.ltb_lt d 10)) in E by lia.
  apply (f_equal cp) in E. rewrite cp_chr in E by lia. lia.
Qed.

(** [str(n)] contains neither NUL nor a space nor any character below '-'. *)
Lemma s_index_str_of_Z c n : cp c < 45 -> s_index c (str_of_Z n) = None.
Proof.
  intros Hc. unfold str_of_Z, str_base, digits_of.
  assert (Hd : forall m, 0 <= m -> s_index c (string_of_digits (digits (S (Z.to_nat (Z.log2 (Z.abs m)))) 10 m [])) = None).
  { intros m Hm. apply s_index_digits; [apply digits_range; [lia|lia|constructor] | left; lia]. }
  destruct (Z.ltb_spec n 0).
  - cbn [s_index]. rewrite decide_False by (intros <-; vm_compute in Hc; discriminate).
    rewrite Hd; [done | lia].
  - apply Hd; lia.
Qed.

(** A predicate on every character of a string. *)
Fixpoint s_forall (P : ascii -> bool) (s : string) : bool :=
  match s with
  | EmptyString => true
  | String c s' => P c && s_forall P s'
  end.

Definition is_hex_digit (c : ascii) : bool :=
  ((48 <=? cp c) && (cp c <=? 57)) || ((97 <=? cp c) && (cp c <=? 102)).

Lemma s_forall_app P s1 s2 : s_forall P (s1 +:+ s2)%stdpp = s_forall P s1 && s_forall P s2.
Proof. induction s1 as [|c s1 IH]; simpl; [done|]. by rewrite IH, andb_assoc. Qed.

Lemma s_forall_substring P n m s :
  s_forall P s = true -> s_forall P (String.substring n m s) = true.
Proof.
  revert n m. induction s as [|c s IH]; intros n m Hs; [by destruct n, m|].
  simpl in Hs. apply andb_true_iff in Hs as [Hc Hs].
  destruct n as [|n], m as [|m]; simpl; [done | rewrite Hc; simpl; by apply IH | by apply IH | by apply IH].
Qed.

Lemma length_substring n m s :
  (n + m <= String.length s)%nat -> String.length (String.substring n m s) = m.
Proof.
  revert n m. induction s as [|c s IH]; intros n m Hl; simpl in Hl.
  - destruct n, m; simpl; lia.
  - destruct n as [|n], m as [|m]; simpl; [done | f_equal; apply IH; lia | apply IH; lia | apply IH; lia].
Qed.

Lemma digit_char_hex d : 0 <= d < 16 -> is_hex_digit (digit_char d) = true.
Proof.
  intros Hd. unfold digit_char, is_hex_digit.
  destruct (Z.ltb_spec d 10); rewrite cp_chr by lia; apply orb_true_iff;
    [left | right]; apply andb_true_iff; split; apply Z.leb_le; lia.
Qed.

Lemma hex_all_digits l : s_forall is_hex_digit (hex l) = true.
Proof.
  induction l as [|b l IH]; [done|]. cbn [hex]. rewrite s_forall_app, IH, andb_true_r.
  pose proof (bval_range_py b) as Hb. unfold hex_byte. simpl.
  rewrite !digit_char_hex; [done| |]; [apply Z.mod_pos_bound; lia | split; [apply Z.div_pos|apply Z.div_lt_upper_bound]; lia].
Qed.

Lemma length_append s1 s2 : String.length (s1 +:+ s2)%stdpp = (String.length s1 + String.length s2)%nat.
Proof. induction s1 as [|c s1 IH]; simpl; [done|]. by rewrite IH. Qed.

Lemma length_hex l : String.length (hex l) = (2 * length l)%nat.
Proof. induction l as [|b l IH]; [done|]. cbn [hex]. rewrite length_append, IH. simpl. lia. Qed.

Section SortLemmas.
Context {A : Type} (key : A -> string).

Lemma insert_by_perm (x : A) l : insert_by key x l ≡ₚ x :: l.
Proof.
  induction l as [|y l IH]; simpl; [done|].
  destruct (String.leb _ _); [done|]. rewrite IH. apply perm_swap.
Qed.

Lemma sort_by_perm (l : list A) : sort_by key l ≡ₚ l.
Proof. induction l as [|x l IH]; simpl; [done|]. by rewrite insert_by_perm, IH. Qed.
End SortLemmas.

Lemma b_index_lt x l i : b_index x l = Some i -> (i < length l)%nat.
Proof.
  revert i. induction l as [|y l IH]; intros i; simpl; [done|].
  case_decide; [intros [= <-]; lia|]. destruct (b_index x l) eqn:E; simpl; [|done].
  intros [= <-]. specialize (IH n eq_refl). lia.
Qed.

Lemma substring_prefix_prefix a b s : (a <= b)%nat ->
  String.substring 0 a (String.substring 0 b s) = String.substring 0 a s.
Proof.
  revert a b. induction s as [|c s IH]; intros a b Hab; [by destruct a, b|].
  destruct a as [|a], b as [|b]; simpl; try done; [lia|]. f_equal. apply IH. lia.
Qed.

Lemma append_cons c x y : (String c x +:+ y)%stdpp = String c (x +:+ y)%stdpp.
Proof. reflexivity. Qed.

Lemma s_append_assoc a b c : (a +:+ (b +:+ c))%stdpp = ((a +:+ b) +:+ c)%stdpp.
Proof. induction a as [|x a IH]; [done|]. by rewrite !append_cons, IH. Qed.

Lemma substring_full s : String.substring 0 (String.length s) s = s.
Proof. induction s as [|c s IH]; simpl; [done|]. by rewrite IH. Qed.

Lemma substring_split a s : (a <= String.length s)%nat ->
  (String.substring 0 a s +:+ String.substring a (String.length s - a) s)%stdpp = s.
Proof.
  revert a. induction s as [|c s IH]; intros a Ha; [by destruct a|].
  destruct a as [|a]; simpl in *.
  - by rewrite substring_full.
  - rewrite append_cons. f_equal. apply IH. lia.
Qed.

(** ** Printing digits and reading them back *)

Definition digits_val (b : Z) (ds : list Z) : Z := fold_left (fun acc d => acc * b + d) ds 0.

Lemma fold_digits_shift b ds a :
  fold_left (fun acc d => acc * b + d) ds a = a * b ^ Z.of_nat (length ds) + digits_val b ds.
Proof.
  unfold digits_val. revert a. induction ds as [|d ds IH]; intros a; simpl; [lia|].
  rewrite (IH (a * b + d)), (IH (0 * b + d)), Nat2Z.inj_succ, Z.pow_succ_r by lia. lia.
Qed.

Lemma digits_val_cons b d ds :
  digits_val b (d :: ds) = d * b ^ Z.of_nat (length ds) + digits_val b ds.
Proof. unfold digits_val at 1. simpl. rewrite fold_digits_shift. lia. Qed.

Lemma digits_spec fuel b n acc :
  2 <= b -> 0 <= n < b ^ Z.of_nat fuel ->
  digits_val b (digits fuel b n acc) = n * b ^ Z.of_nat (length acc) + digits_val b acc.
Proof.
  revert n acc. induction fuel as [|f IH]; intros n acc Hb Hn; simpl in *.
  - assert (n = 0) as -> by lia. lia.
  - destruct (Z.ltb_spec n b).
    + apply digits_val_cons.
    + rewrite Nat2Z.inj_succ, Z.pow_succ_r in Hn by lia.
      rewrite IH; [| lia | split; [apply Z.div_pos; lia | apply Z.div_lt_upper_bound; lia]].
      rewrite digits_val_cons. simpl length. rewrite Nat2Z.inj_succ, Z.pow_succ_r by lia.
      pose proof (Z.div_mod n b ltac:(lia)) as E.
      remember (n / b) as q. remember (n mod b) as r. rewrite E. ring.
Qed.

Lemma digits_of_val b n : 2 <= b -> 0 <= n -> digits_val b (digits_of b n) = n.
Proof.
  intros Hb Hn. unfold digits_of. rewrite digits_spec; [unfold digits_val; simpl; lia | lia |].
  split; [lia|]. rewrite Nat2Z.inj_succ, Z2Nat.id by (apply Z.log2_nonneg).
  destruct (Z.eq_dec n 0) as [->|Hne]; [simpl; lia|].
  rewrite Z.abs_eq by lia. pose proof (Z.log2_spec n ltac:(lia)) as [_ Hlt].
  eapply Z.lt_le_trans; [exact Hlt|]. apply Z.pow_le_mono_l. lia.
Qed.

Lemma digits_of_range b n : 2 <= b -> 0 <= n -> Forall (fun d => 0 <= d < b) (digits_of b n).
Proof. intros. unfold digits_of. apply digits_range; [lia | lia | constructor]. Qed.

Lemma digits_nonempty fuel b n acc :
  (0 < fuel)%nat \/ acc <> [] -> exists d ds, digits fuel b n acc = d :: ds.
Proof.
  revert n acc. induction fuel as [|f IH]; intros n acc Hne; simpl.
  - destruct acc as [|d ds]; [destruct Hne; [lia | done] | by eauto].
  - case_match; [by eauto|]. apply IH. by right.
Qed.

Lemma cp_digit_char d : 0 <= d < 10 -> cp (digit_char d) = 48 + d.
Proof. intros Hd. unfold digit_char. rewrite (proj2 (Z.ltb_lt d 10)) by lia. apply cp_chr. lia. Qed.

(** [str(n)] for [n >= 0] is a nonempty run of decimal digits. *)
Lemma str_of_Z_digits n :
  0 <= n -> exists d ds, str_of_Z n = string_of_digits (d :: ds) /\ Forall (fun d => 0 <= d < 10) (d :: ds)
    /\ digits_val 10 (d :: ds) = n.
Proof.
  intros Hn. unfold str_of_Z, str_base. rewrite (proj2 (Z.ltb_ge n 0)) by lia.
  destruct (digits_nonempty (S (Z.to_nat (Z.log2 (Z.abs n)))) 10 n []) as (d & ds & E); [left; lia|].
  exists d, ds. unfold digits_of in *. rewrite <- E. split; [done|].
  split; [apply digits_range; [lia | lia | constructor]|]. rewrite E, <- E. by apply digits_of_val.
Qed.

Lemma length_encode_ascii s : is_ascii s = true -> length (encode s) = String.length s.
Proof.
  induction s as [|c s IH]; [done|]. simpl. intros [Hc Hs]%andb_true_iff.
  unfold utf8_char. rewrite Hc. simpl. by rewrite IH.
Qed.

Lemma drop_nuls_replicate k l : drop_nuls (replicate k x00 ++ l) = drop_nuls l.
Proof. induction k; simpl; done. Qed.

Lemma drop_nuls_notin l : x00 ∉ l -> drop_nuls l = l.
Proof. destruct l as [|x l]; [done|]. intros Hx. destruct x; try done. by destruct Hx; left. Qed.

(** Stripping the NUL padding of a NUL-free buffer gives the buffer back. *)
Lemma b_rstrip_nul_pad l k : x00 ∉ l -> b_rstrip_nul (l ++ replicate k x00) = l.
Proof.
  intros Hl. unfold b_rstrip_nul. rewrite reverse_app, reverse_replicate, drop_nuls_replicate.
  rewrite drop_nuls_notin; [apply reverse_involutive|]. by rewrite elem_of_reverse.
Qed.

Lemma lt_div_ceil k a s : (0 < s)%nat -> (k < (a + s - 1) / s)%nat <-> (s * k < a)%nat.
Proof.
  intros Hs. split; intros H.
  - destruct (Nat.lt_ge_cases (s * k) a) as [|Hge]; [done|].
    enough ((a + s - 1) / s <= k)%nat by lia. apply Nat.lt_succ_r, Nat.Div0.div_lt_upper_bound; lia.
  - apply Nat.le_succ_l, Nat.div_le_lower_bound; lia.
Qed.

(** The [k]-th value of [range(start, stop, step)]. *)
Lemma lookup_py_range start stop step k j :
  (0 < step)%nat ->
  py_range start stop step !! k = Some j <-> j = (start + step * k)%nat /\ (start + step * k < stop)%nat.
Proof.
  intros Hs. unfold py_range. rewrite list_lookup_fmap, fmap_Some.
  split.
  - intros (x & Hx & ->). apply lookup_seq in Hx as [-> Hx]. rewrite lt_div_ceil in Hx by done. lia.
  - intros [-> Hlt]. exists k. rewrite lookup_seq, lt_div_ceil by done. lia.
Qed.

(** ** [str.strip()] on text without whitespace, [int()] of printed digits *)

Lemma s_forall_list P s : s_forall P s = forallb P (String.list_ascii_of_string s).
Proof. induction s as [|c s IH]; simpl; [done|]. by rewrite IH. Qed.

Lemma s_rev_involutive s : s_rev (s_rev s) = s.
Proof.
  unfold s_rev. rewrite String.list_ascii_of_string_of_list_ascii, reverse_involutive.
  apply String.string_of_list_ascii_of_string.
Qed.

Lemma s_forall_rev P s : s_forall P (s_rev s) = s_forall P s.
Proof.
  unfold s_rev. rewrite !s_forall_list, String.list_ascii_of_string_of_list_ascii.
  induction (String.list_ascii_of_string s) as [|c l IH]; [done|].
  rewrite reverse_cons, forallb_app, IH. simpl. by destruct (P c), (forallb P l).
Qed.

Lemma s_lstrip_ws_nospace s : s_forall (fun c => negb (is_space c)) s = true -> s_lstrip_ws s = s.
Proof. destruct s as [|c s]; simpl; [done|]. intros [H _]%andb_true_iff. apply negb_true_iff in H. by rewrite H. Qed.

Lemma s_strip_nospace s : s_forall (fun c => negb (is_space c)) s = true -> s_strip s = s.
Proof.
  intros H. unfold s_strip. rewrite (s_lstrip_ws_nospace s H), (s_lstrip_ws_nospace (s_rev s)).
  - apply s_rev_involutive.
  - by rewrite s_forall_rev.
Qed.

Lemma digits_nospace ds :
  Forall (fun d => 0 <= d < 10) ds -> s_forall (fun c => negb (is_space c)) (string_of_digits ds) = true.
Proof.
  induction ds as [|d ds IH]; intros Hds; [done|]. apply Forall_cons in Hds as [Hd Hds].
  cbn [string_of_digits fmap list_fmap String.string_of_list_ascii s_forall]. fold (string_of_digits ds).
  rewrite IH by done. unfold is_space. rewrite cp_digit_char by done.
  assert (Hd' : d = 0 \/ d = 1 \/ d = 2 \/ d = 3 \/ d = 4 \/ d = 5 \/ d = 6 \/ d = 7 \/ d = 8 \/ d = 9) by lia.
  by repeat (destruct Hd' as [->|Hd']; [reflexivity|]); subst.
Qed.

Lemma char_digit_digit_char d : 0 <= d < 10 -> char_digit (digit_char d) = Some d.
Proof.
  intros Hd. unfold char_digit. rewrite cp_digit_char by done.
  rewrite (proj2 (andb_true_iff _ _)) by (split; apply Z.leb_le; lia). f_equal. lia.
Qed.

Lemma parse_digits_digits b acc seen ds :
  2 <= b <= 10 -> ds <> [] -> Forall (fun d => 0 <= d < b) ds ->
  parse_digits b acc false seen (string_of_digits ds) = Some (fold_left (fun a d => a * b + d) ds acc).
Proof.
  intros Hb. revert acc seen. induction ds as [|d ds IH]; intros acc seen Hne Hds; [done|].
  apply Forall_cons in Hds as [Hd Hds].
  cbn [string_of_digits fmap list_fmap String.string_of_list_ascii parse_digits]. fold (string_of_digits ds).
  rewrite cp_digit_char by lia. rewrite (proj2 (Z.eqb_neq _ _)) by lia.
  rewrite char_digit_digit_char by lia. rewrite (proj2 (Z.ltb_lt _ _)) by lia.
  destruct ds as [|d' ds']; [reflexivity|]. by apply IH.
Qed.

Lemma strip_base_prefix_10 s : strip_base_prefix 10 s = s.
Proof. unfold strip_base_prefix. by repeat case_match. Qed.

Lemma py_int_nosign b s :
  s_strip s = s -> (forall t, s <> String "-" t) -> (forall t, s <> String "+" t) ->
  py_int b s = parse_digits b 0 false false (strip_base_prefix b s).
Proof.
  intros Hs Hm Hp. unfold py_int. rewrite Hs. destruct s as [|c t]; [done|].
  destruct c as [[] [] [] [] [] [] [] []];
    first [reflexivity | exfalso; by eapply Hm | exfalso; by eapply Hp].
Qed.

(** [int(s)] of a nonempty run of decimal digits. *)
Lemma py_int_digits ds :
  ds <> [] -> Forall (fun d => 0 <= d < 10) ds -> py_int 10 (string_of_digits ds) = Some (digits_val 10 ds).
Proof.
  intros Hne Hds. rewrite py_int_nosign, strip_base_prefix_10.
  - by rewrite parse_digits_digits by (done || lia).
  - by apply s_strip_nospace, digits_nospace.
  - destruct ds as [|d ds]; [done|]. apply Forall_cons in Hds as [Hd _]. intros t [= E _].
    apply (f_equal cp) in E. rewrite cp_digit_char in E by done. change (cp "-") with 45 in E. lia.
  - destruct ds as [|d ds]; [done|]. apply Forall_cons in Hds as [Hd _]. intros t [= E _].
    apply (f_equal cp) in E. rewrite cp_digit_char in E by done. change (cp "+") with 43 in E. lia.
Qed.

(** [int(f"{m:o}")]: the octal digits of [m] read back in decimal. *)
Definition octal_as_decimal (m : Z) : Z := digits_val 10 (digits_of 8 m).

Lemma py_int_fmt_o m : 0 <= m -> py_int 10 (fmt_o m) = Some (octal_as_decimal m).
Proof.
  intros Hm. unfold fmt_o, str_base, octal_as_decimal. rewrite (proj2 (Z.ltb_ge m 0)) by lia.
  destruct (digits_nonempty (S (Z.to_nat (Z.log2 (Z.abs m)))) 8 m []) as (d & ds & E); [left; lia|].
  apply py_int_digits; [unfold digits_of; by rewrite E|].
  eapply Forall_impl; [apply digits_of_range; lia | simpl; lia].
Qed.

Lemma fmt_o_digits m : 0 <= m -> fmt_o m = string_of_digits (digits_of 8 m).
Proof. intros Hm. unfold fmt_o, str_base. by rewrite (proj2 (Z.ltb_ge m 0)) by lia. Qed.

Lemma digits_of_8_dec m : 0 <= m -> Forall (fun d => 0 <= d < 10) (digits_of 8 m).
Proof. intros Hm. eapply Forall_impl; [apply digits_of_range; lia | simpl; lia]. Qed.

(** ** [str.lstrip(chars)] strips every character of [chars] *)

Lemma s_index_app_some c s1 s2 i : s_index c s1 = Some i -> s_index c (s1 +:+ s2)%stdpp = Some i.
Proof.
  revert i. induction s1 as [|d s1 IH]; intros i; simpl; [done|]. case_decide; [done|].
  destruct (s_index c s1) as [j|] eqn:E; [|done]. intros [= <-]. by rewrite (IH j).
Qed.

Lemma s_index_app_r c s1 s2 : is_Some (s_index c s2) -> is_Some (s_index c (s1 +:+ s2)%stdpp).
Proof.
  induction s1 as [|d s1 IH]; simpl; [done|]. intros H. case_decide; [done|].
  destruct (IH H) as [j ->]. by eexists.
Qed.

(** [lstrip] with a set holding every character of the text strips it all. *)
Lemma s_lstrip_all cs s :
  s_forall (fun c => bool_decide (is_Some (s_index c cs))) s = true -> s_lstrip cs s = EmptyString.
Proof.
  induction s as [|c s IH]; simpl; [done|]. intros [Hc Hs]%andb_true_iff. by rewrite Hc, IH.
Qed.

Lemma s_forall_self pre s :
  s_forall (fun c => bool_decide (is_Some (s_index c (pre +:+ s)%stdpp))) s = true.
Proof.
  revert pre. induction s as [|c s IH]; intros pre; simpl; [done|]. apply andb_true_iff. split.
  - apply bool_decide_eq_true, s_index_app_r. simpl. rewrite decide_True by done. by eexists.
  - specialize (IH (pre +:+ String c EmptyString)%stdpp). rewrite <- s_append_assoc in IH. exact IH.
Qed.

(** What [lstrip(cs)] leaves, added to the set, lets the set strip everything. *)
Lemma s_lstrip_extend cs x s : s_lstrip (cs +:+ x +:+ s_lstrip cs s)%stdpp s = EmptyString.
Proof.
  induction s as [|c s IH]; [done|]. cbn [s_lstrip].
  destruct (decide (is_Some (s_index c cs))) as [[i Hi]|Hc].
  - rewrite (bool_decide_true (is_Some (s_index c cs))) by (by eexists).
    rewrite bool_decide_true by (rewrite (s_index_app_some _ _ _ i Hi); by eexists). exact IH.
  - rewrite (bool_decide_false (is_Some (s_index c cs))) by done.
    change (s_lstrip (cs +:+ x +:+ String c s)%stdpp (String c s) = EmptyString).
    apply s_lstrip_all. rewrite s_append_assoc. apply (s_forall_self (cs +:+ x)%stdpp (String c s)).
Qed.

Lemma s_lstrip_mono cs x s : s_lstrip cs s = EmptyString -> s_lstrip (cs +:+ x)%stdpp s = EmptyString.
Proof.
  induction s as [|c s IH]; simpl; [done|]. case_bool_decide as Hc; [|done].
  destruct Hc as [i Hi]. rewrite bool_decide_true by (rewrite (s_index_app_some _ _ _ i Hi); by eexists).
  exact IH.
Qed.

Lemma s_index_lstrip c cs s : s_index c s = None -> s_index c (s_lstrip cs s) = None.
Proof.
  induction s as [|d s IH]; [done|]. cbn [s_index]. case_decide as Hd; [done|].
  destruct (s_index c s) eqn:E; [done|]. intros _. cbn [s_lstrip]. case_bool_decide; [by apply IH|].
  cbn [s_index]. rewrite decide_False by done. by rewrite E.
Qed.

Lemma s_split_snoc_sep c s : s_split c (s +:+ String c EmptyString)%stdpp = s_split c s ++ [EmptyString].
Proof.
  induction s as [|d s IH]; simpl; [by rewrite decide_True|]. rewrite IH. case_decide; [done|].
  destruct (s_split c s) as [|w r] eqn:E; [destruct s; simpl in E; [done|]; repeat case_match; done|]. done.
Qed.

(** ** [str.isupper()], [str.islower()] and [chr] on one character

    Python decides case from the Unicode database; on the code points
    U+0000..U+00FF the text model covers, the cased characters are these. *)

Definition py_isupper (c : ascii) : bool :=
  let n := cp c in ((65 <=? n) && (n <=? 90)) || ((192 <=? n) && (n <=? 214)) || ((216 <=? n) && (n <=? 222)).

Definition py_islower (c : ascii) : bool :=
  let n := cp c in
  ((97 <=? n) && (n <=? 122)) || (n =? 170) || (n =? 181) || (n =? 186) ||
  ((223 <=? n) && (n <=? 246)) || ((248 <=? n) && (n <=? 255)).

(** [chr(code)]: [ValueError] below 0; a code point above U+00FF is
    outside the text model and reported as such. *)
Definition py_chr (code : Z) : result ascii :=
  if code <? 0 then Err ValueError
  else if code <? 256 then Ok (chr code)
  else Err (Exception "code point outside the modelled range").

(** ** Python lists: indexing, item assignment and slices *)

(** The position [l[i]] designates: a negative index counts from the end. *)
Definition py_norm (n : nat) (i : Z) : option nat :=
  let j := if i <? 0 then i + Z.of_nat n else i in
  if (0 <=? j) && (j <? Z.of_nat n) then Some (Z.to_nat j) else None.

(** [l[i]], raising [IndexError] out of range. *)
Definition py_get {A} (l : list A) (i : Z) : result A :=
  match py_norm (length l) i with
  | Some k => match l !! k with Some x => Ok x | None => Err IndexError end
  | None => Err IndexError
  end.

(** [l[i] = x], raising [IndexError] out of range. *)
Definition py_set {A} (l : list A) (i : Z) (x : A) : result (list A) :=
  match py_norm (length l) i with
  | Some k => Ok (<[k := x]> l)
  | None => Err IndexError
  end.

(** A slice bound, clamped to [0..n] after counting a negative one from the end. *)
Definition py_bound (n : nat) (i : Z) : nat :=
  Z.to_nat (if i <? 0 then Z.max 0 (i + Z.of_nat n) else Z.min i (Z.of_nat n)).

(** [l[a:b]] *)
Definition py_slice {A} (l : list A) (a b : Z) : list A :=
  let a' := py_bound (length l) a in
  take (py_bound (length l) b - a') (drop a' l).

(** [l[:b]] and [del l[:b]] *)
Definition py_prefix {A} (l : list A) (b : Z) : list A := take (py_bound (length l) b) l.
Definition py_del_prefix {A} (l : list A) (b : Z) : list A := drop (py_bound (length l) b) l.

Lemma py_get_ok {A} (l : list A) i x : 0 <= i -> l !! Z.to_nat i = Some x -> py_get l i = Ok x.
Proof.
  intros Hi Hx. pose proof (lookup_lt_Some _ _ _ Hx). unfold py_get, py_norm.
  destruct (Z.ltb_spec i 0); [lia|]. rewrite (proj2 (andb_true_iff _ _)) by lia. by rewrite Hx.
Qed.

Lemma py_set_ok {A} (l : list A) i x : 0 <= i -> (Z.to_nat i < length l)%nat -> py_set l i x = Ok (<[Z.to_nat i := x]> l).
Proof.
  intros Hi Hx. unfold py_set, py_norm.
  destruct (Z.ltb_spec i 0); [lia|]. by rewrite (proj2 (andb_true_iff _ _)) by lia.
Qed.

(** [s.center(w)] with spaces: CPython puts [marg / 2 + (marg & w & 1)]
    of the [marg = w - len(s)] spaces on the left. *)
Definition py_center (s : string) (w : nat) : string :=
  let marg := (w - String.length s)%nat in
  let left := (marg / 2 + Nat.land (Nat.land marg w) 1)%nat in
  (String.concat "" (repeat " " left) +:+ s +:+ String.concat "" (repeat " " (marg - left)))%stdpp.

Lemma py_get_range {A} (l : list A) i x : py_get l i = Ok x -> - Z.of_nat (length l) <= i < Z.of_nat (length l).
Proof.
  unfold py_get, py_norm. destruct (Z.ltb_spec i 0), (0 <=? _) eqn:E1, (_ <? _) eqn:E2; simpl; try discriminate;
    apply Z.leb_le in E1; apply Z.ltb_lt in E2; lia.
Qed.

Lemma py_get_err {A} (l : list A) i e : py_get l i = Err e -> e = IndexError.
Proof. unfold py_get. destruct (py_norm _ _); [destruct (l !! _)|]; congruence. Qed.
