(* ===== verification/Struct.v ===== *)
(** * Python's [struct] module, for the formats the index uses

    [index.py] builds its format strings at run time ("!10I20sh" followed by
    the name length and the padding), so the model parses the format string
    as [struct] does: a byte-order character, then codes with optional
    decimal counts.  Only the big-endian orders [!] and [>] (standard sizes,
    no alignment) and the codes [I] (unsigned 32-bit), [h] (signed 16-bit),
    [s] (byte string) and [x] (pad byte) occur in the sources; any other
    format is a [struct.error] of the model.  [pack] checks the number and
    the range of its arguments, [unpack] the exact length of its buffer. *)

From S2P Require Import Prelude Py.

Open Scope Z_scope.

Inductive fcode := FI | Fh | Fs (n : nat) | Fx (n : nat).

Inductive sval := VInt (z : Z) | VBytes (b : bytes).

#[export] Instance sval_eq_decision : EqDecision sval.
Proof. solve_decision. Defined.

(** ** Format strings *)

Fixpoint parse_count (acc : nat) (s : string) : nat * string :=
  match s with
  | String c s' =>
      if (48 <=? cp c) && (cp c <=? 57)
      then parse_count (acc * 10 + Z.to_nat (cp c - 48))%nat s'
      else (acc, s)
  | EmptyString => (acc, s)
  end.

Definition has_digit (s : string) : bool :=
  match s with String c _ => (48 <=? cp c) && (cp c <=? 57) | _ => false end.

(** The codes of a format body; [fuel] is the length of the string. *)
Fixpoint parse_codes (fuel : nat) (s : string) : option (list fcode) :=
  match fuel with
  | O => None
  | S f =>
      match s with
      | EmptyString => Some []
      | _ =>
          let '(n, rest) := if has_digit s then parse_count 0 s else (1%nat, s) in
          match rest with
          | String "I" rest' => app (replicate n FI) <$> parse_codes f rest'
          | String "h" rest' => app (replicate n Fh) <$> parse_codes f rest'
          | String "s" rest' => cons (Fs n) <$> parse_codes f rest'
          | String "x" rest' => cons (Fx n) <$> parse_codes f rest'
          | _ => None
          end
      end
  end.

Definition parse_format (s : string) : option (list fcode) :=
  match s with
  | String c body =>
      if (cp c =? 33) || (cp c =? 62) then parse_codes (S (String.length body)) body else None
  | EmptyString => None
  end.

Definition code_size (c : fcode) : nat :=
  match c with FI => 4 | Fh => 2 | Fs n => n | Fx n => n end.

(** [struct.calcsize] *)
Definition calcsize (cs : list fcode) : nat := sum_list (code_size <$> cs).

(** ** Big-endian integers *)

Fixpoint be_bytes (n : nat) (z : Z) : bytes :=
  match n with
  | O => []
  | S n' => be_bytes n' (z / 256) ++ [byte_of_Z z]
  end.

Definition be_val (l : bytes) : Z := fold_left (fun acc b => acc * 256 + bval b) l 0.

(** ** [struct.pack] and [struct.unpack] on parsed formats *)

Fixpoint pack_codes (cs : list fcode) (vs : list sval) : option bytes :=
  match cs, vs with
  | [], [] => Some []
  | Fx n :: cs', _ => app (replicate n x00) <$> pack_codes cs' vs
  | FI :: cs', VInt z :: vs' =>
      if (0 <=? z) && (z <? 2 ^ 32) then app (be_bytes 4 z) <$> pack_codes cs' vs' else None
  | Fh :: cs', VInt z :: vs' =>
      if (- 2 ^ 15 <=? z) && (z <? 2 ^ 15) then app (be_bytes 2 z) <$> pack_codes cs' vs' else None
  | Fs n :: cs', VBytes b :: vs' =>
      app (take n b ++ replicate (n - length b) x00) <$> pack_codes cs' vs'
  | _, _ => None
  end.

Definition signed16 (v : Z) : Z := if v <? 2 ^ 15 then v else v - 2 ^ 16.

Fixpoint unpack_codes (cs : list fcode) (data : bytes) : list sval :=
  match cs with
  | [] => []
  | Fx n :: cs' => unpack_codes cs' (drop n data)
  | FI :: cs' => VInt (be_val (take 4 data)) :: unpack_codes cs' (drop 4 data)
  | Fh :: cs' => VInt (signed16 (be_val (take 2 data))) :: unpack_codes cs' (drop 2 data)
  | Fs n :: cs' => VBytes (take n data) :: unpack_codes cs' (drop n data)
  end.

(** [struct.pack(fmt, *vs)]; [None] is [struct.error]. *)
Definition pack (fmt : string) (vs : list sval) : option bytes :=
  cs ← parse_format fmt; pack_codes cs vs.

(** [struct.unpack(fmt, data)]: the buffer must have exactly [calcsize]. *)
Definition unpack (fmt : string) (data : bytes) : option (list sval) :=
  cs ← parse_format fmt;
  if decide (length data = calcsize cs) then Some (unpack_codes cs data) else None.

(** ** Lemmas *)

Lemma length_be_bytes n z : length (be_bytes n z) = n.
Proof. revert z; induction n; intros z; simpl; [done|]. rewrite length_app, IHn. simpl. lia. Qed.

Lemma bval_range b : 0 <= bval b < 256.
Proof.
  unfold bval. pose proof (Byte.to_N_bounded b). lia.
Qed.

Lemma bval_byte_of_Z z : bval (byte_of_Z z) = z mod 256.
Proof.
  unfold byte_of_Z, bval.
  pose proof (Z.mod_pos_bound z 256 ltac:(lia)) as Hb.
  destruct (Byte.of_N (Z.to_N (z mod 256))) as [b|] eqn:E.
  - apply Byte.to_of_N in E. lia.
  - apply Byte.of_N_None_iff in E. lia.
Qed.

Lemma be_val_app l1 l2 :
  be_val (l1 ++ l2) = be_val l1 * 256 ^ Z.of_nat (length l2) + be_val l2.
Proof.
  unfold be_val. rewrite fold_left_app. remember (fold_left _ l1 0) as a. clear Heqa.
  assert (Hgen : forall a0, fold_left (fun acc b => acc * 256 + bval b) l2 a0
                  = a0 * 256 ^ Z.of_nat (length l2) + fold_left (fun acc b => acc * 256 + bval b) l2 0).
  { induction l2 as [|x l2 IH]; intros a0; simpl; [lia|].
    rewrite (IH (a0 * 256 + bval x)), (IH (0 * 256 + bval x)).
    rewrite Nat2Z.inj_succ, Z.pow_succ_r by lia. lia. }
  apply Hgen.
Qed.

Lemma be_val_single b : be_val [b] = bval b.
Proof. reflexivity. Qed.

Lemma be_val_be_bytes n z : be_val (be_bytes n z) = z mod 256 ^ Z.of_nat n.
Proof.
  revert z; induction n as [|n IH]; intros z; simpl.
  - by rewrite Z.mod_1_r.
  - rewrite be_val_app, IH, be_val_single, bval_byte_of_Z. simpl.
    replace (256 ^ Z.of_nat (S n)) with (256 * 256 ^ Z.of_nat n)
      by (rewrite Nat2Z.inj_succ, Z.pow_succ_r; lia).
    rewrite Z.rem_mul_r by lia. lia.
Qed.

Lemma be_val_range l : 0 <= be_val l < 256 ^ Z.of_nat (length l).
Proof.
  induction l as [|x l IH] using rev_ind; [by compute|].
  rewrite be_val_app, be_val_single, length_app, Nat2Z.inj_add, Z.pow_add_r by lia.
  pose proof (bval_range x). simpl. nia.
Qed.

#[export] Hint Rewrite length_be_bytes be_val_be_bytes : vcs_simpl.

(** ** Reading back the counts a format string prints *)

Lemma parse_count_digits k ds rest :
  Forall (fun d => 0 <= d < 10) ds ->
  parse_count k (string_of_digits ds +:+ rest)%stdpp =
  parse_count (fold_left (fun a d => a * 10 + Z.to_nat d)%nat ds k) rest.
Proof.
  revert k. induction ds as [|d ds IH]; intros k Hds; [done|]. apply Forall_cons in Hds as [Hd Hds].
  cbn [string_of_digits fmap list_fmap String.string_of_list_ascii]. rewrite append_cons.
  cbn [parse_count]. rewrite cp_digit_char by done.
  rewrite (proj2 (andb_true_iff _ _)) by lia. rewrite IH by done.
  by replace (48 + d - 48) with d by lia.
Qed.

Lemma fold_nat_digits k ds :
  Forall (fun d => 0 <= d) ds ->
  Z.of_nat (fold_left (fun a d => a * 10 + Z.to_nat d)%nat ds k) =
  Z.of_nat k * 10 ^ Z.of_nat (length ds) + digits_val 10 ds.
Proof.
  revert k. induction ds as [|d ds IH]; intros k Hds; [unfold digits_val; simpl; lia|].
  apply Forall_cons in Hds as [Hd Hds]. simpl. rewrite IH, digits_val_cons by done.
  rewrite Nat2Z.inj_succ, Z.pow_succ_r by lia. lia.
Qed.

Lemma parse_count_stop k rest : has_digit rest = false -> parse_count k rest = (k, rest).
Proof. destruct rest; simpl; [done|]. by intros ->. Qed.

(** [int] of the digits [str(n)] prints is [n]. *)
Lemma parse_count_str_of_Z n rest :
  0 <= n -> has_digit rest = false -> parse_count 0 (str_of_Z n +:+ rest)%stdpp = (Z.to_nat n, rest).
Proof.
  intros Hn Hr. destruct (str_of_Z_digits n Hn) as (d & ds & -> & Hds & Hv).
  rewrite parse_count_digits, parse_count_stop by done. f_equal.
  apply Nat2Z.inj. rewrite fold_nat_digits by (eapply Forall_impl; [done | simpl; lia]). lia.
Qed.

Lemma has_digit_str_of_Z n rest : 0 <= n -> has_digit (str_of_Z n +:+ rest)%stdpp = true.
Proof.
  intros Hn. destruct (str_of_Z_digits n Hn) as (d & ds & -> & Hds & _).
  apply Forall_cons in Hds as [Hd _]. cbn [string_of_digits fmap list_fmap String.string_of_list_ascii].
  rewrite append_cons. simpl. rewrite cp_digit_char by done. apply andb_true_iff. lia.
Qed.

Lemma str_of_Z_app_nonempty n rest : 0 <= n -> (str_of_Z n +:+ rest)%stdpp <> EmptyString.
Proof. intros Hn E. pose proof (has_digit_str_of_Z n rest Hn) as H. by rewrite E in H. Qed.

(** A count printed with [str] before a code letter is parsed as that count. *)
Lemma parse_codes_count f n rest :
  0 <= n -> has_digit rest = false ->
  parse_codes (S f) (str_of_Z n +:+ rest)%stdpp =
  match rest with
  | String "I" rest' => app (replicate (Z.to_nat n) FI) <$> parse_codes f rest'
  | String "h" rest' => app (replicate (Z.to_nat n) Fh) <$> parse_codes f rest'
  | String "s" rest' => cons (Fs (Z.to_nat n)) <$> parse_codes f rest'
  | String "x" rest' => cons (Fx (Z.to_nat n)) <$> parse_codes f rest'
  | _ => None
  end.
Proof.
  intros Hn Hr. cbn [parse_codes].
  destruct (str_of_Z n +:+ rest)%stdpp eqn:E; [by destruct (str_of_Z_app_nonempty n rest Hn)|].
  rewrite <- E, has_digit_str_of_Z, parse_count_str_of_Z by done. reflexivity.
Qed.

(** ** [pack_codes] and [unpack_codes] one code at a time *)

Lemma pack_codes_FI z cs vs :
  0 <= z < 2 ^ 32 -> pack_codes (FI :: cs) (VInt z :: vs) = app (be_bytes 4 z) <$> pack_codes cs vs.
Proof. intros Hz. simpl. by rewrite (proj2 (andb_true_iff _ _)) by lia. Qed.

Lemma pack_codes_Fh z cs vs :
  - 2 ^ 15 <= z < 2 ^ 15 -> pack_codes (Fh :: cs) (VInt z :: vs) = app (be_bytes 2 z) <$> pack_codes cs vs.
Proof. intros Hz. simpl. by rewrite (proj2 (andb_true_iff _ _)) by lia. Qed.

Lemma pack_codes_Fs n b cs vs :
  pack_codes (Fs n :: cs) (VBytes b :: vs) = app (take n b ++ replicate (n - length b) x00) <$> pack_codes cs vs.
Proof. done. Qed.

Lemma pack_codes_Fx n cs vs : pack_codes (Fx n :: cs) vs = app (replicate n x00) <$> pack_codes cs vs.
Proof. by destruct vs. Qed.

Lemma unpack_codes_FI z cs rest :
  unpack_codes (FI :: cs) (be_bytes 4 z ++ rest) = VInt (z mod 2 ^ 32) :: unpack_codes cs rest.
Proof.
  cbn [unpack_codes]. rewrite take_app_length', drop_app_length' by (by rewrite length_be_bytes).
  by rewrite be_val_be_bytes.
Qed.

Lemma signed16_mod z : - 2 ^ 15 <= z < 2 ^ 15 -> signed16 (z mod 2 ^ 16) = z.
Proof.
  intros Hz. unfold signed16. destruct (Z.leb_spec 0 z).
  - rewrite Z.mod_small by lia. by rewrite (proj2 (Z.ltb_lt _ _)) by lia.
  - assert (E : z mod 2 ^ 16 = z + 2 ^ 16) by (symmetry; apply (Z.mod_unique _ _ (-1)); lia).
    rewrite E, (proj2 (Z.ltb_ge _ _)) by lia. lia.
Qed.

Lemma unpack_codes_Fh z cs rest :
  - 2 ^ 15 <= z < 2 ^ 15 ->
  unpack_codes (Fh :: cs) (be_bytes 2 z ++ rest) = VInt z :: unpack_codes cs rest.
Proof.
  intros Hz. cbn [unpack_codes].
  rewrite take_app_length', drop_app_length' by (by rewrite length_be_bytes).
  rewrite be_val_be_bytes. f_equal. f_equal. apply signed16_mod, Hz.
Qed.

Lemma unpack_codes_Fs n b cs rest :
  length b = n -> unpack_codes (Fs n :: cs) (b ++ rest) = VBytes b :: unpack_codes cs rest.
Proof. intros <-. cbn [unpack_codes]. by rewrite take_app_length, drop_app_length. Qed.
