(* ===== verification/Fs.v ===== *)
(** * The world pyvcs runs in: file system, pathlib, os, environment

    The file system is a finite map from absolute paths (lists of
    components below "/") to nodes, each a directory or a file with its
    bytes and stat metadata; the root directory always exists.  A pathlib
    [Path] is a [pypath]: whether it is absolute, and its components, with
    pathlib's normalisation (empty and "." components dropped, ".." kept
    until the operating system resolves it against the working directory).
    Every primitive returns a computation of [stm world]; its errors are
    the [OSError] subclasses Linux raises.  [glob("*")] lists a directory
    in name order, one of the orders the operating system may return. *)

From S2P Require Import Prelude Py.

Open Scope Z_scope.

(** ** Paths *)

Record pypath := mkpath { p_abs : bool; p_parts : list string }.

#[export] Instance pypath_eq_decision : EqDecision pypath.
Proof. solve_decision. Defined.

(** [Path(s)] *)
Definition path_of_string (s : string) : pypath :=
  {| p_abs := String.prefix "/" s;
     p_parts := filter (fun c => c <> EmptyString /\ c <> ".")%string (s_split "/" s) |}.

(** [str(p)] *)
Definition path_str (p : pypath) : string :=
  if p_abs p then ("/" +:+ s_join "/" (p_parts p))%stdpp
  else match p_parts p with [] => "."%string | ps => s_join "/" ps end.

(** [p / q] *)
Definition path_join (p q : pypath) : pypath :=
  if p_abs q then q else {| p_abs := p_abs p; p_parts := p_parts p ++ p_parts q |}.

(** [p / "name"] *)
Definition path_slash (p : pypath) (s : string) : pypath := path_join p (path_of_string s).

(** [p.parent]: a relative path with no components is its own parent. *)
Definition path_parent (p : pypath) : pypath :=
  {| p_abs := p_abs p; p_parts := take (length (p_parts p) - 1)%nat (p_parts p) |}.

(** [p.name] *)
Definition path_name (p : pypath) : string := List.last (p_parts p) EmptyString.

(** The operating system resolves ".." against the path built so far. *)
Fixpoint os_resolve (acc : list string) (parts : list string) : list string :=
  match parts with
  | [] => acc
  | c :: ps =>
      if String.eqb c ".." then os_resolve (take (length acc - 1)%nat acc) ps
      else os_resolve (acc ++ [c]) ps
  end.

(** ** Files and metadata *)

Record meta := mkmeta {
  st_mode : Z; st_ino : Z; st_dev : Z; st_uid : Z; st_gid : Z;
  st_ctime : Z; st_mtime : Z }.

Inductive node := NFile (data : bytes) (m : meta) | NDir.

Definition S_IFMT : Z := 61440.      (* 0o170000 *)
Definition S_IFDIR : Z := 16384.     (* 0o040000 *)
Definition S_IFREG : Z := 32768.     (* 0o100000 *)

(** [stat.S_ISDIR(mode)] *)
Definition S_ISDIR (mode : Z) : bool := Z.land mode S_IFMT =? S_IFDIR.

Record world := mkworld {
  w_fs : gmap (list string) node;
  w_cwd : list string;
  w_env : gmap string string;
  w_clock : Z;
  w_timezone : Z;
  w_next_ino : Z;
  w_umask_mode : Z;
  w_out : list string }.

Abbreviation IO := (stm world).

Definition set_fs (w : world) (fs : gmap (list string) node) : world :=
  {| w_fs := fs; w_cwd := w_cwd w; w_env := w_env w; w_clock := w_clock w;
     w_timezone := w_timezone w; w_next_ino := w_next_ino w;
     w_umask_mode := w_umask_mode w; w_out := w_out w |}.

Definition bump_ino (w : world) : world :=
  {| w_fs := w_fs w; w_cwd := w_cwd w; w_env := w_env w; w_clock := w_clock w;
     w_timezone := w_timezone w; w_next_ino := w_next_ino w + 1;
     w_umask_mode := w_umask_mode w; w_out := w_out w |}.

Definition add_out (w : world) (line : string) : world :=
  {| w_fs := w_fs w; w_cwd := w_cwd w; w_env := w_env w; w_clock := w_clock w;
     w_timezone := w_timezone w; w_next_ino := w_next_ino w;
     w_umask_mode := w_umask_mode w; w_out := w_out w ++ [line] |}.

(** The absolute location of a path, as the kernel resolves it. *)
Definition abs_of (w : world) (p : pypath) : list string :=
  os_resolve [] ((if p_abs p then [] else w_cwd w) ++ p_parts p).

Definition node_at (w : world) (loc : list string) : option node :=
  match loc with [] => Some NDir | _ => w_fs w !! loc end.

Definition lookup_path (w : world) (p : pypath) : option node := node_at w (abs_of w p).

(** ** Primitives *)

(** [p.exists()] *)
Definition p_exists (p : pypath) : IO bool :=
  fun w => (Ok (bool_decide (is_Some (lookup_path w p))), w).

(** [p.is_dir()] *)
Definition p_is_dir (p : pypath) : IO bool :=
  fun w => (Ok (match lookup_path w p with Some NDir => true | _ => false end), w).

(** [open(p, "rb").read()] *)
Definition read_bytes (p : pypath) : IO bytes :=
  fun w => match lookup_path w p with
           | Some (NFile d _) => (Ok d, w)
           | Some NDir => (Err IsADirectoryError, w)
           | None => (Err FileNotFoundError, w)
           end.

(** The directory that must hold a new entry at [loc]. *)
Definition parent_ok (w : world) (loc : list string) : result unit :=
  match node_at w (take (length loc - 1)%nat loc) with
  | Some NDir => Ok tt
  | Some (NFile _ _) => Err NotADirectoryError
  | None => Err FileNotFoundError
  end.

Definition fresh_meta (w : world) : meta :=
  {| st_mode := S_IFREG + w_umask_mode w; st_ino := w_next_ino w; st_dev := 0;
     st_uid := 0; st_gid := 0; st_ctime := w_clock w; st_mtime := w_clock w |}.

(** [open(p, "wb")]: create the file or truncate it. *)
Definition open_wb (p : pypath) : IO unit :=
  fun w =>
    let loc := abs_of w p in
    match loc, node_at w loc with
    | [], _ => (Err IsADirectoryError, w)
    | _, Some NDir => (Err IsADirectoryError, w)
    | _, Some (NFile _ m) =>
        (Ok tt, set_fs w (<[loc := NFile [] {| st_mode := st_mode m; st_ino := st_ino m;
           st_dev := st_dev m; st_uid := st_uid m; st_gid := st_gid m;
           st_ctime := w_clock w; st_mtime := w_clock w |}]> (w_fs w)))
    | _, None =>
        match parent_ok w loc with
        | Ok _ => (Ok tt, bump_ino (set_fs w (<[loc := NFile [] (fresh_meta w)]> (w_fs w))))
        | Err e => (Err e, w)
        end
    end.

(** [file.write(data)] on a file opened by [open_wb]: append. *)
Definition fwrite (p : pypath) (data : bytes) : IO unit :=
  fun w =>
    let loc := abs_of w p in
    match node_at w loc with
    | Some (NFile d m) => (Ok tt, set_fs w (<[loc := NFile (d ++ data) m]> (w_fs w)))
    | _ => (Err OSError, w)
    end.

(** [with p.open("wb") as f: f.write(data)] *)
Definition write_bytes (p : pypath) (data : bytes) : IO unit :=
  open_wb p ;;; fwrite p data.

(** [p.mkdir()] *)
Definition mkdir (p : pypath) : IO unit :=
  fun w =>
    let loc := abs_of w p in
    match node_at w loc with
    | Some _ => (Err FileExistsError, w)
    | None => match parent_ok w loc with
              | Ok _ => (Ok tt, set_fs w (<[loc := NDir]> (w_fs w)))
              | Err e => (Err e, w)
              end
    end.

(** [os.makedirs(p)] (with [exist_ok=False]). *)
Fixpoint makedirs_loc (pre : list string) (rest : list string) (fs : gmap (list string) node)
  : result (gmap (list string) node) :=
  match rest with
  | [] => Ok fs
  | c :: rest' =>
      let loc := pre ++ [c] in
      match fs !! loc with
      | Some NDir => makedirs_loc loc rest' fs
      | Some (NFile _ _) => Err NotADirectoryError
      | None => makedirs_loc loc rest' (<[loc := NDir]> fs)
      end
  end.

Definition makedirs (p : pypath) : IO unit :=
  fun w =>
    let loc := abs_of w p in
    match node_at w loc with
    | Some _ => (Err FileExistsError, w)
    | None => match makedirs_loc [] loc (w_fs w) with
              | Ok fs => (Ok tt, set_fs w fs)
              | Err e => (Err e, w)
              end
    end.

(** The names directly inside the directory at [loc], in name order. *)
Definition children (w : world) (loc : list string) : list string :=
  sort_by id (omap (fun kv : list string * node =>
                     match kv.1 with
                     | [] => None
                     | _ => if decide (take (length kv.1 - 1)%nat kv.1 = loc)
                            then Some (List.last kv.1 EmptyString) else None
                     end) (map_to_list (w_fs w))).

(** [p.glob("*")]: the entries of a directory (hidden ones included, as
    pathlib lists them), or nothing when [p] is not a directory. *)
Definition glob_star (p : pypath) : IO (list pypath) :=
  fun w =>
    let loc := abs_of w p in
    match node_at w loc with
    | Some NDir =>
        (Ok (path_slash p <$> children w loc), w)
    | _ => (Ok [], w)
    end.

(** [os.remove(p)] *)
Definition os_remove (p : pypath) : IO unit :=
  fun w =>
    let loc := abs_of w p in
    match node_at w loc with
    | Some (NFile _ _) => (Ok tt, set_fs w (delete loc (w_fs w)))
    | Some NDir => (Err IsADirectoryError, w)
    | None => (Err FileNotFoundError, w)
    end.

(** [os.rmdir(p)] *)
Definition os_rmdir (p : pypath) : IO unit :=
  fun w =>
    let loc := abs_of w p in
    match loc, node_at w loc with
    | [], _ => (Err OSError, w)
    | _, Some NDir =>
        if decide (children w loc = []) then (Ok tt, set_fs w (delete loc (w_fs w)))
        else (Err OSError, w)
    | _, Some (NFile _ _) => (Err NotADirectoryError, w)
    | _, None => (Err FileNotFoundError, w)
    end.

(** [os.stat(p)]: the metadata and the size. *)
Definition os_stat (p : pypath) : IO (meta * Z) :=
  fun w => match lookup_path w p with
           | Some (NFile d m) => (Ok (m, Z.of_nat (length d)), w)
           | Some NDir => (Ok (mkmeta (S_IFDIR + 493) 0 0 0 0 (w_clock w) (w_clock w), 4096), w)
           | None => (Err FileNotFoundError, w)
           end.

(** [p.chmod(mode)]: replace the permission bits. *)
Definition chmod (p : pypath) (mode : Z) : IO unit :=
  fun w =>
    let loc := abs_of w p in
    match node_at w loc with
    | Some (NFile d m) =>
        (Ok tt, set_fs w (<[loc := NFile d {| st_mode := Z.lor (Z.land (st_mode m) S_IFMT) (Z.land mode 4095);
             st_ino := st_ino m; st_dev := st_dev m; st_uid := st_uid m; st_gid := st_gid m;
             st_ctime := st_ctime m; st_mtime := st_mtime m |}]> (w_fs w)))
    | Some NDir => (Ok tt, w)
    | None => (Err FileNotFoundError, w)
    end.

(** [os.environ.get(k)] *)
Definition getenv (k : string) : IO (option string) := fun w => (Ok (w_env w !! k), w).

(** [print(line)] *)
Definition print (line : string) : IO unit := fun w => (Ok tt, add_out w line).

(** ** The libraries the code calls: SHA-1 and zlib *)

Class Hasher := {
  sha1 : bytes -> bytes;
  sha1_length : forall b, length (sha1 b) = 20%nat }.

Class Codec := {
  compress : bytes -> bytes;
  decompress : bytes -> option bytes;
  decompress_compress : forall b, decompress (compress b) = Some b }.

(** zlib's stored form: the identity satisfies the [Codec] law. *)
#[export] Program Instance identity_codec : Codec := {
  compress b := b;
  decompress b := Some b }.
Next Obligation. reflexivity. Qed.

(** ** Lemmas on the primitives *)

Lemma node_at_set_fs w fs loc : loc <> [] -> node_at (set_fs w fs) loc = fs !! loc.
Proof. by destruct loc. Qed.

Lemma abs_of_set_fs w fs p : abs_of (set_fs w fs) p = abs_of w p.
Proof. reflexivity. Qed.

Lemma abs_of_bump w p : abs_of (bump_ino w) p = abs_of w p.
Proof. reflexivity. Qed.

#[export] Hint Rewrite abs_of_set_fs abs_of_bump : vcs_simpl.

(** A plain path component: no "/", not empty, not "." or "..". *)
Definition plain (s : string) : Prop :=
  s <> EmptyString /\ s <> "."%string /\ s <> ".."%string /\ s_index "/" s = None.

#[export] Instance plain_dec s : Decision (plain s).
Proof. unfold plain. apply _. Defined.

Lemma s_split_nosep sep s : s_index sep s = None -> s_split sep s = [s].
Proof.
  induction s as [|c s IH]; simpl; [done|]. case_decide; [done|].
  destruct (s_index sep s); [done|]. intros _. by rewrite IH.
Qed.

Lemma path_of_string_plain s : plain s -> path_of_string s = {| p_abs := false; p_parts := [s] |}.
Proof.
  intros (Hne & Hdot & Hdd & Hsl). unfold path_of_string. rewrite s_split_nosep by done.
  f_equal.
  - destruct s as [|c s']; [done|]. cbn [s_index] in Hsl. case_decide as Hc; [done|].
    cbn -[Ascii.ascii_dec]. destruct (Ascii.ascii_dec "/" c) as [E|E]; [by subst | done].
  - simpl. rewrite filter_cons_True by tauto. done.
Qed.

Lemma os_resolve_snoc acc l s :
  s <> ".."%string -> os_resolve acc (l ++ [s]) = os_resolve acc l ++ [s].
Proof.
  intros Hs. revert acc. induction l as [|c l IH]; intros acc; simpl.
  - destruct (String.eqb_spec s ".."); [done|]. by simpl.
  - by destruct (String.eqb c "..").
Qed.

(** A trailing "/" changes nothing in a path. *)
Lemma path_of_string_slash d : d <> EmptyString -> path_of_string (d +:+ "/")%stdpp = path_of_string d.
Proof.
  intros Hd. unfold path_of_string. f_equal.
  - destruct d as [|c d]; [done|]. rewrite append_cons. cbn [String.prefix]. destruct (ascii_dec _ _); [|done]. by destruct d.
  - rewrite s_split_snoc_sep, filter_app. rewrite filter_cons_False by (intros [[] _]; done).
    by rewrite filter_nil, app_nil_r.
Qed.

Lemma abs_of_slash w p s : plain s -> abs_of w (path_slash p s) = abs_of w p ++ [s].
Proof.
  intros Hs. unfold path_slash, path_join, abs_of. rewrite path_of_string_plain by done.
  simpl. rewrite app_assoc, os_resolve_snoc; [done|]. apply Hs.
Qed.

Lemma plain_hex s : s <> EmptyString -> s_forall is_hex_digit s = true -> plain s.
Proof.
  intros Hne Hs. split; [done|]. split; [intros ->; discriminate|].
  split; [intros ->; discriminate|].
  induction s as [|c s IH]; [done|]. simpl in Hs. apply andb_true_iff in Hs as [Hc Hs].
  simpl. rewrite decide_False.
  - destruct s; [done|]. by rewrite IH.
  - intros ->. discriminate.
Qed.

#[export] Hint Rewrite abs_of_slash using (assumption || apply plain_hex; auto) : vcs_simpl.

#[export] Instance meta_eq_decision : EqDecision meta.
Proof. solve_decision. Defined.
#[export] Instance node_eq_decision : EqDecision node.
Proof. solve_decision. Defined.

(** ** Specifications of the primitives used by the components *)

(** Two worlds that resolve paths and read the environment alike. *)
Definition same_ctx (w w' : world) : Prop := w_env w' = w_env w /\ w_cwd w' = w_cwd w.

Lemma same_ctx_refl w : same_ctx w w.
Proof. done. Qed.

Lemma same_ctx_trans w1 w2 w3 : same_ctx w1 w2 -> same_ctx w2 w3 -> same_ctx w1 w3.
Proof. unfold same_ctx. intros [-> ->] [-> ->]. done. Qed.

Lemma same_ctx_abs_of w w' p : same_ctx w w' -> abs_of w' p = abs_of w p.
Proof. unfold same_ctx, abs_of. by intros [_ ->]. Qed.

#[export] Hint Resolve same_ctx_refl same_ctx_trans : vcs.

Lemma node_at_cons w l : l <> [] -> node_at w l = w_fs w !! l.
Proof. by destruct l. Qed.

Lemma p_exists_run p w : p_exists p w = (Ok (bool_decide (is_Some (lookup_path w p))), w).
Proof. reflexivity. Qed.

Lemma p_is_dir_run p w :
  p_is_dir p w = (Ok (match lookup_path w p with Some NDir => true | _ => false end), w).
Proof. reflexivity. Qed.

(** The parent directory of a location. *)
Definition parent_loc (loc : list string) : list string := take (length loc - 1)%nat loc.

(** [open(p, "w")] can create or truncate [p]: it is not the root, not a
    directory, and its parent is a directory. *)
Definition writable (w : world) (p : pypath) : Prop :=
  let loc := abs_of w p in
  loc <> [] /\ w_fs w !! loc <> Some NDir /\ node_at w (parent_loc loc) = Some NDir.

#[global] Instance writable_dec w p : Decision (writable w p).
Proof. unfold writable. apply _. Defined.

Lemma parent_loc_snoc l s : parent_loc (l ++ [s]) = l.
Proof.
  unfold parent_loc. rewrite length_app. simpl.
  replace (length l + 1 - 1)%nat with (length l) by lia. apply take_app_length.
Qed.

Lemma mkdir_spec w p :
  abs_of w p <> [] -> w_fs w !! abs_of w p = None ->
  node_at w (parent_loc (abs_of w p)) = Some NDir ->
  mkdir p w = (Ok tt, set_fs w (<[abs_of w p := NDir]> (w_fs w))).
Proof.
  intros Hne Hnone Hpar. unfold mkdir, parent_ok.
  destruct (abs_of w p) as [|c l] eqn:E; [done|]. unfold parent_loc in Hpar.
  simpl in *. rewrite Hnone. by rewrite Hpar.
Qed.

Lemma write_bytes_spec w p data :
  abs_of w p <> [] -> w_fs w !! abs_of w p <> Some NDir ->
  node_at w (parent_loc (abs_of w p)) = Some NDir ->
  exists m w', write_bytes p data w = (Ok tt, w') /\
    w_fs w' = <[abs_of w p := NFile data m]> (w_fs w) /\ same_ctx w w' /\
    st_ctime m = w_clock w /\ st_mtime m = w_clock w /\ w_clock w' = w_clock w.
Proof.
  intros Hne Hnd Hpar. unfold write_bytes, sbind, open_wb, fwrite, parent_ok.
  destruct (abs_of w p) as [|c l] eqn:E; [done|]. unfold parent_loc in Hpar. simpl in *.
  destruct (w_fs w !! (c :: l)) as [[d m|]|] eqn:Hn; [| done |].
  - rewrite abs_of_set_fs, E. simpl. rewrite lookup_insert_eq. eexists _, _.
    split; [reflexivity|]. split; [simpl; by rewrite insert_insert_eq | done].
  - rewrite Hpar. simpl. rewrite abs_of_bump, abs_of_set_fs, E. simpl. rewrite lookup_insert_eq.
    eexists _, _. split; [reflexivity|]. split; [simpl; by rewrite insert_insert_eq | done].
Qed.

(** [open(p, "wb")] leaves an empty file at [p], whatever was there. *)
Lemma open_wb_spec w p :
  abs_of w p <> [] -> w_fs w !! abs_of w p <> Some NDir ->
  node_at w (parent_loc (abs_of w p)) = Some NDir ->
  exists m w', open_wb p w = (Ok tt, w') /\
    w_fs w' = <[abs_of w p := NFile [] m]> (w_fs w) /\ same_ctx w w' /\ w_clock w' = w_clock w.
Proof.
  intros Hne Hnd Hpar. unfold open_wb, parent_ok.
  destruct (abs_of w p) as [|c l] eqn:E; [done|]. unfold parent_loc in Hpar. simpl in *.
  destruct (w_fs w !! (c :: l)) as [[d m|]|] eqn:Hn; [| done |].
  - eexists _, _. split; [reflexivity|]. done.
  - rewrite Hpar. eexists _, _. split; [reflexivity|]. done.
Qed.

(** What a write leaves is what a later lookup finds. *)
Lemma lookup_written w w' p d m :
  abs_of w p <> [] -> same_ctx w w' -> w_fs w' = <[abs_of w p := NFile d m]> (w_fs w) ->
  lookup_path w' p = Some (NFile d m).
Proof.
  intros Hne Hc Hfs. unfold lookup_path. rewrite (same_ctx_abs_of _ _ _ Hc), node_at_cons, Hfs by done.
  apply lookup_insert_eq.
Qed.

(** Listing a missing directory gives nothing. *)
Lemma glob_star_missing p w : lookup_path w p = None -> glob_star p w = (Ok [], w).
Proof. unfold glob_star, lookup_path. by intros ->. Qed.

Lemma set_fs_id w : set_fs w (w_fs w) = w.
Proof. by destruct w. Qed.

Lemma set_fs_set_fs w a b : set_fs (set_fs w a) b = set_fs w b.
Proof. reflexivity. Qed.

(** Rewriting a file with the bytes it holds, at the time it was written,
    changes nothing. *)
Lemma write_bytes_same w p c m :
  abs_of w p <> [] -> w_fs w !! abs_of w p = Some (NFile c m) ->
  st_ctime m = w_clock w -> st_mtime m = w_clock w ->
  write_bytes p c w = (Ok tt, w).
Proof.
  intros Hne Hl Hct Hmt. destruct m as [mo ino dev uid gid ct mt]. simpl in Hct, Hmt. subst ct mt.
  unfold write_bytes, sbind, open_wb, fwrite.
  destruct (abs_of w p) as [|x l] eqn:E; [done|]. simpl. rewrite Hl.
  rewrite abs_of_set_fs, E. simpl. rewrite lookup_insert_eq. simpl.
  rewrite set_fs_set_fs, insert_insert_eq, insert_id by done. by rewrite set_fs_id.
Qed.

(** ** A concrete world for the examples: an empty working directory
    [/home/r], umask 022, at time 1700000000. *)
Definition demo_world : world :=
  {| w_fs := <[["home"] := NDir]> (<[["home"; "r"] := NDir]> ∅); w_cwd := ["home"; "r"];
     w_env := ∅; w_clock := 1700000000; w_timezone := 0; w_next_ino := 1; w_umask_mode := 420;
     w_out := [] |}.

Lemma elem_of_children w loc s v :
  w_fs w !! (loc ++ [s]) = Some v -> s ∈ children w loc.
Proof.
  intros Hl. unfold children. rewrite sort_by_perm, list_elem_of_omap.
  exists (loc ++ [s], v). split; [by apply elem_of_map_to_list|]. simpl.
  destruct (loc ++ [s]) as [|c l] eqn:E; [by destruct loc|]. rewrite <- E.
  rewrite decide_True by apply parent_loc_snoc. by rewrite List.last_last.
Qed.

Lemma path_parent_slash p s : plain s -> path_parent (path_slash p s) = p.
Proof.
  intros Hs. unfold path_slash, path_join. rewrite path_of_string_plain by done. simpl.
  destruct p as [a ps]. unfold path_parent. simpl. f_equal. apply parent_loc_snoc.
Qed.

Lemma path_name_slash p s : plain s -> path_name (path_slash p s) = s.
Proof.
  intros Hs. unfold path_slash, path_join. rewrite path_of_string_plain by done.
  unfold path_name. simpl. apply List.last_last.
Qed.

(** ** Primitives that only read *)

Lemma readonly_p_exists p : readonly (p_exists p).
Proof. done. Qed.
Lemma readonly_p_is_dir p : readonly (p_is_dir p).
Proof. done. Qed.
Lemma readonly_read_bytes p : readonly (read_bytes p).
Proof. intros w. unfold read_bytes. by repeat case_match. Qed.
Lemma readonly_glob_star p : readonly (glob_star p).
Proof. intros w. unfold glob_star. by repeat case_match. Qed.
Lemma readonly_os_stat p : readonly (os_stat p).
Proof. intros w. unfold os_stat. by repeat case_match. Qed.
Lemma readonly_getenv k : readonly (getenv k).
Proof. done. Qed.
Lemma readonly_sret {A} (a : A) : @readonly world A (sret a).
Proof. done. Qed.
Lemma readonly_sthrow {A} e : @readonly world A (sthrow e).
Proof. done. Qed.
Lemma readonly_slift {A} (r : result A) : @readonly world A (slift r).
Proof. done. Qed.
Lemma readonly_sof_option {A} e (o : option A) : @readonly world A (sof_option e o).
Proof. intros w. unfold sof_option. by destruct o. Qed.
Lemma readonly_sget : @readonly world world sget.
Proof. done. Qed.

#[export] Hint Resolve readonly_p_exists readonly_p_is_dir readonly_read_bytes readonly_glob_star
  readonly_os_stat readonly_getenv readonly_sret readonly_sthrow readonly_slift readonly_sof_option
  readonly_sget : vcs.
