(* ===== verification/Sha1.v ===== *)
(** * SHA-1 as a concrete [Hasher]

    [hashlib.sha1] is a library the sources only call; the theorems of the
    development hold for any [Hasher].  This file gives the FIPS 180-4
    algorithm on 32-bit words kept in [Z] with their wrap-around written
    out, so that the concrete scenarios compute git's real object ids. *)

From S2P Require Import Prelude Py Struct Fs.

Open Scope Z_scope.

Module Sha1.

Definition w32 (z : Z) : Z := z mod 2 ^ 32.

Definition rotl (n : Z) (x : Z) : Z :=
  Z.lor (w32 (Z.shiftl x n)) (Z.shiftr x (32 - n)).

(** The message padded to a multiple of 64 bytes. *)
Definition pad (msg : bytes) : bytes :=
  let len := length msg in
  let k := ((119 - len mod 64) mod 64)%nat in
  msg ++ [x80] ++ replicate k x00 ++ be_bytes 8 (Z.of_nat len * 8).

(** The 16 big-endian words of a block. *)
Fixpoint words (n : nat) (blk : bytes) : list Z :=
  match n with
  | O => []
  | S n' => be_val (take 4 blk) :: words n' (drop 4 blk)
  end.

(** The 80-word message schedule, built from the first 16. *)
Fixpoint schedule (n : nat) (ws : list Z) : list Z :=
  match n with
  | O => ws
  | S n' =>
      let i := length ws in
      let g j := nth (i - j)%nat ws 0 in
      schedule n' (ws ++ [rotl 1 (Z.lxor (Z.lxor (g 3%nat) (g 8%nat)) (Z.lxor (g 14%nat) (g 16%nat)))])
  end.

Definition f_k (t : nat) (b c d : Z) : Z * Z :=
  if (t <? 20)%nat then (Z.lor (Z.land b c) (Z.land (Z.lnot b) d), 1518500249)
  else if (t <? 40)%nat then (Z.lxor b (Z.lxor c d), 1859775393)
  else if (t <? 60)%nat then (Z.lor (Z.lor (Z.land b c) (Z.land b d)) (Z.land c d), 2400959708)
  else (Z.lxor b (Z.lxor c d), 3395469782).

Record hstate := { ha : Z; hb : Z; hc : Z; hd : Z; he : Z }.

Definition round (ws : list Z) (st : hstate) (t : nat) : hstate :=
  let '(f, k) := f_k t (hb st) (hc st) (hd st) in
  let tmp := w32 (rotl 5 (ha st) + w32 f + he st + k + nth t ws 0) in
  {| ha := tmp; hb := ha st; hc := rotl 30 (hb st); hd := hc st; he := hd st |}.

Definition compress_block (h : hstate) (blk : bytes) : hstate :=
  let ws := schedule 64 (words 16 blk) in
  let r := fold_left (round ws) (seq 0 80) h in
  {| ha := w32 (ha h + ha r); hb := w32 (hb h + hb r); hc := w32 (hc h + hc r);
     hd := w32 (hd h + hd r); he := w32 (he h + he r) |}.

Fixpoint blocks (fuel : nat) (m : bytes) (h : hstate) : hstate :=
  match fuel, m with
  | O, _ | _, [] => h
  | S f, _ => blocks f (drop 64 m) (compress_block h (take 64 m))
  end.

Definition h0 : hstate :=
  {| ha := 1732584193; hb := 4023233417; hc := 2562383102; hd := 271733878; he := 3285377520 |}.

Definition digest (msg : bytes) : bytes :=
  let m := pad msg in
  let h := blocks (length m) m h0 in
  be_bytes 4 (ha h) ++ be_bytes 4 (hb h) ++ be_bytes 4 (hc h) ++ be_bytes 4 (hd h) ++ be_bytes 4 (he h).

Lemma length_digest msg : length (digest msg) = 20%nat.
Proof. unfold digest. by rewrite !length_app, !length_be_bytes. Qed.

End Sha1.

#[export] Instance sha1_hasher : Hasher := {| sha1 := Sha1.digest; sha1_length := Sha1.length_digest |}.
