(* ===== verification/Objects.v ===== *)
(** * The object store ([objects.py])

    An object is framed as ["<fmt> <len>\x00" ++ payload], named by the hex
    SHA-1 of the frame and stored zlib-compressed at
    [objects/<sha[:2]>/<sha[2:]>] under the repository directory.  The
    section is parameterised by the [Hasher] and [Codec] the code calls.
    Parsers of stored payloads ([read_tree], [commit_parse]) are pure
    functions returning a [result]; the file operations run in [IO]. *)

From S2P Require Import Prelude Py Fs Sha1 Repo.

Open Scope Z_scope.

Module Objects.
Section Objects.
Context `{Hasher} `{Codec}.

(** [(fmt + " " + str(len(data))).encode() + b"\00" + data] *)
Definition frame (fmt : string) (data : bytes) : bytes :=
  encode (fmt +:+ " " +:+ str_of_Z (Z.of_nat (length data)))%stdpp ++ [x00] ++ data.

(** [sha[:2]] and [sha[2:]] *)
Definition sha_dir (sha : string) : string := String.substring 0 2 sha.
Definition sha_file (sha : string) : string := String.substring 2 (String.length sha - 2) sha.

Definition objects_dir : IO pypath :=
  root <- Repo.repo_find (path_of_string ".") ;; sret (path_slash root "objects").

Definition hash_object (data : bytes) (fmt : string) (write : bool) : IO string :=
  let sha := hex (sha1 (frame fmt data)) in
  if write then
    objs <- objects_dir ;;
    let obj_dir := path_slash objs (sha_dir sha) in
    ex <- p_exists obj_dir ;;
    (if ex then sret tt else mkdir obj_dir) ;;;
    write_bytes (path_slash obj_dir (sha_file sha)) (compress (frame fmt data)) ;;;
    sret sha
  else sret sha.

(** The names [file.parent.name + file.name] of a bucket whose prefix is
    [obj_name]. *)
Definition matching_names (obj_name : string) (files : list pypath) : list string :=
  filter (fun cur => String.substring 0 (String.length obj_name) cur = obj_name)
    ((fun file => path_name (path_parent file) +:+ path_name file)%stdpp <$> files).

Definition resolve_object (obj_name : string) (gitdir : pypath) : IO (list string) :=
  if (String.length obj_name <? 4)%nat || (40 <? String.length obj_name)%nat
  then sthrow (Exception ("Not a valid object name " +:+ obj_name)%stdpp)
  else
    objs <- objects_dir ;;
    files <- glob_star (path_slash objs (String.substring 0 2 obj_name)) ;;
    match matching_names obj_name files with
    | [] => sthrow (Exception ("Not a valid object name " +:+ obj_name)%stdpp)
    | l => sret l
    end.

Definition find_object (obj_name : string) (gitdir : pypath) : IO string :=
  root <- Repo.repo_find gitdir ;;
  let objects := path_slash root "objects" in
  ex <- p_exists (path_slash objects obj_name) ;;
  if ex then sret (path_str (path_slash objects obj_name))
  else sthrow (Exception ("Object " +:+ obj_name +:+ " does not exist")%stdpp).

(** The value of [read_object] once the decompressed frame is known. *)
Definition parse_frame (data : bytes) : result (string * bytes) :=
  let fmt_b := default [] (head (b_split " "%byte (default [] (head (b_split x00 data))))) in
  match decode fmt_b with
  | None => Err UnicodeDecodeError
  | Some fmt =>
      match b_split1 x00 data with
      | [_; payload] => Ok (fmt, payload)
      | _ => Err IndexError
      end
  end.

Definition read_object (sha : string) (gitdir : pypath) : IO (string * bytes) :=
  objs <- objects_dir ;;
  raw <- read_bytes (path_slash (path_slash objs (sha_dir sha)) (sha_file sha)) ;;
  data <- sof_option ZlibError (decompress raw) ;;
  slift (parse_frame data).

(** One iteration of the [while data:] loop of [read_tree]. *)
Definition tree_record (data : bytes) : result (Z * string * string * bytes) :=
  match b_index x00 data with
  | None => Err ValueError
  | Some start =>
      match b_split " "%byte (take start data) with
      | [mode_b; name_b] =>
          match decode mode_b, decode name_b with
          | Some mode, Some name =>
              match py_int 10 mode with
              | Some m => Ok (m, name, hex (take 20 (drop (S start) data)), drop (start + 21) data)
              | None => Err ValueError
              end
          | None, _ => Err UnicodeDecodeError
          | _, None => Err UnicodeDecodeError
          end
      | _ => Err ValueError
      end
  end.

Fixpoint read_tree_loop (fuel : nat) (data : bytes) : result (list (Z * string * string)) :=
  match fuel with
  | O => Err NoTermination
  | S f =>
      match data with
      | [] => Ok []
      | _ =>
          match tree_record data with
          | Err e => Err e
          | Ok (m, name, sha, rest) =>
              match read_tree_loop f rest with
              | Ok tl => Ok ((m, name, sha) :: tl)
              | Err e => Err e
              end
          end
      end
  end.

Definition read_tree (data : bytes) : result (list (Z * string * string)) :=
  read_tree_loop (S (length data)) data.

Definition cat_line (mode : Z) (kind : string) (sha name : string) : string :=
  (fmt_0w 6 mode +:+ " " +:+ kind +:+ " " +:+ sha +:+ String "009" EmptyString +:+ name)%stdpp.

Definition cat_file (obj_name : string) (pretty : bool) : IO unit :=
  gitdir <- Repo.repo_find (path_of_string ".") ;;
  r <- read_object obj_name gitdir ;;
  let '(fmt, content) := r in
  if String.eqb fmt "blob" || String.eqb fmt "commit" then
    s <- sof_option UnicodeDecodeError (decode content) ;; print s
  else
    entries <- slift (read_tree content) ;;
    sfor entries (fun e =>
      let '(mode, name, sha) := e in
      if negb (mode =? 40000) then print (cat_line mode "blob" sha name)
      else print (cat_line mode "tree" sha name)).

(** The values [find_tree_files] collects: the [tree_sha] it was given
    (bytes, for [read_tree] to accept it) and hex names (str). *)
Inductive pyval := PBytes (b : bytes) | PStr (s : string).

(** [find_tree_files(sha, path)] on a hex name: [read_tree] of a
    non-empty [str] raises [TypeError] at [data.index(b"\00")]. *)
Definition find_tree_files_str (sha : string) : result (list pyval) :=
  if String.eqb sha EmptyString then Ok [PStr sha] else Err TypeError.

(** One iteration of the [for mode, path, sha in ...] loop. *)
Definition find_tree_files_step (acc : result (list pyval)) (e : Z * string * string) : result (list pyval) :=
  match acc with
  | Err e => Err e
  | Ok objs =>
      let '(mode, path, sha) := e in
      if S_ISDIR mode then
        match find_tree_files_str sha with
        | Ok more => Ok (objs ++ more)
        | Err e => Err e
        end
      else Ok (objs ++ [PStr sha])
  end.

Definition find_tree_files (tree_sha : bytes) : result (list pyval) :=
  match read_tree tree_sha with
  | Err e => Err e
  | Ok entries => fold_left find_tree_files_step entries (Ok [PBytes tree_sha])
  end.

(** The values of the dictionary [commit_parse] returns. *)
Inductive cval := CStr (s : string) | CList (l : list string).

Definition header_line (i : string) : bool :=
  s_contains "tree" i || s_contains "parent" i || s_contains "author" i || s_contains "committer" i.

Fixpoint commit_parse_lines (lines : list bytes) (res : gmap string cval) : result (gmap string cval) :=
  match lines with
  | [] => Ok res
  | l :: ls =>
      match decode l with
      | None => Err UnicodeDecodeError
      | Some i =>
          if header_line i then
            match s_split1 " " i with
            | [name; val] => commit_parse_lines ls (<[name := CStr val]> res)
            | _ => Err ValueError
            end
          else
            match res !! "message"%string with
            | Some (CList m) => commit_parse_lines ls (<["message"%string := CList (m ++ [i])]> res)
            | Some (CStr _) => Err AttributeError
            | None => Err KeyError
            end
      end
  end.

Definition commit_parse (raw : bytes) : result (gmap string cval) :=
  commit_parse_lines (b_split "010"%byte raw) {["message"%string := CList []]}.

(** ** The store and its shape *)

(** Where the objects live: [<repo>/objects]. *)
Definition objects_loc (w : world) : list string := abs_of w (Repo.repo_dir w) ++ ["objects"].

Fixpoint strip_prefix (pre k : list string) : option (list string) :=
  match pre, k with
  | [], _ => Some k
  | p :: pre', c :: k' => if String.eqb p c then strip_prefix pre' k' else None
  | _, [] => None
  end.

(** The buckets [objects/xx] are directories, the objects in them are not. *)
Definition store_entry_ok (O k : list string) (v : node) : Prop :=
  match strip_prefix O k with
  | Some [_] => v = NDir
  | Some [_; _] => v <> NDir
  | _ => True
  end.

#[global] Instance store_entry_ok_dec O k v : Decision (store_entry_ok O k v).
Proof. unfold store_entry_ok. repeat case_match; apply _. Defined.

Definition store_wf (w : world) : Prop :=
  w_fs w !! objects_loc w = Some NDir /\ map_Forall (store_entry_ok (objects_loc w)) (w_fs w).

#[global] Instance store_wf_dec w : Decision (store_wf w).
Proof. unfold store_wf. apply _. Defined.

(** A type tag the frame can carry: no space, no NUL. *)
Definition fmt_ok (fmt : string) : Prop := s_index " " fmt = None /\ s_index "000" fmt = None.

(** The repository is in place and the store well formed. *)
Definition store_inv (w : world) : Prop := Repo.repo_here w /\ store_wf w.

#[global] Instance store_inv_dec w : Decision (store_inv w).
Proof. unfold store_inv, Repo.repo_here. apply _. Defined.

(** A step of the program that only touches the object store: it keeps the
    invariant, the context, and every path outside [objects]. *)
Definition store_step (w w' : world) : Prop :=
  store_inv w -> store_inv w' /\ same_ctx w w' /\
                 (forall k, ~ objects_loc w `prefix_of` k -> w_fs w' !! k = w_fs w !! k).

#[global] Instance fmt_ok_dec fmt : Decision (fmt_ok fmt).
Proof. unfold fmt_ok. apply _. Defined.

End Objects.

(** ** Lemmas *)

Section Lemmas.
Context `{Hasher} `{Codec}.

Lemma strip_prefix_app pre l : strip_prefix pre (pre ++ l) = Some l.
Proof. induction pre as [|p pre IH]; simpl; [done|]. by rewrite String.eqb_refl. Qed.

Lemma plain_objects : plain "objects".
Proof. repeat split; discriminate. Qed.

Lemma objects_dir_here w :
  Repo.repo_here w -> objects_dir w = (Ok (path_slash (Repo.repo_dir w) "objects"), w).
Proof. intros Hr. unfold objects_dir, sbind. by rewrite Repo.repo_find_here. Qed.

Lemma abs_objects w : abs_of w (path_slash (Repo.repo_dir w) "objects") = objects_loc w.
Proof. apply abs_of_slash, plain_objects. Qed.

Lemma objects_loc_same w w' : same_ctx w w' -> objects_loc w' = objects_loc w.
Proof.
  intros Hc. unfold objects_loc, Repo.repo_dir. destruct Hc as [He Hcwd].
  rewrite He. f_equal. by apply same_ctx_abs_of.
Qed.

Lemma repo_here_grow w w' :
  same_ctx w w' -> (forall k, is_Some (w_fs w !! k) -> is_Some (w_fs w' !! k)) ->
  Repo.repo_here w -> Repo.repo_here w'.
Proof.
  intros Hc Hgrow. unfold Repo.repo_here, Repo.repo_dir, lookup_path.
  destruct Hc as [He Hcwd]. rewrite He, (same_ctx_abs_of w w') by (split; auto).
  unfold node_at. destruct (abs_of w _); [done|]. apply Hgrow.
Qed.

(** The two components of an object's name are plain path components. *)
Lemma sha_dir_plain x : plain (sha_dir (hex (sha1 x))).
Proof.
  apply plain_hex.
  - intros E. apply (f_equal String.length) in E. unfold sha_dir in E.
    rewrite length_substring in E; [done|]. rewrite length_hex, sha1_length. lia.
  - apply s_forall_substring, hex_all_digits.
Qed.

Lemma sha_file_plain x : plain (sha_file (hex (sha1 x))).
Proof.
  apply plain_hex.
  - intros E. apply (f_equal String.length) in E. unfold sha_file in E.
    rewrite length_substring in E; rewrite ?length_hex, ?sha1_length in *; simpl in *; lia.
  - apply s_forall_substring, hex_all_digits.
Qed.

(** The frame of an object parses back to its tag and payload. *)
Lemma parse_frame_frame fmt data : fmt_ok fmt -> parse_frame (frame fmt data) = Ok (fmt, data).
Proof.
  intros [Hsp Hnul]. unfold parse_frame, frame.
  remember (str_of_Z (Z.of_nat (length data))) as n eqn:En.
  assert (Hx : x00 ∉ encode (fmt +:+ " " +:+ n)%stdpp).
  { change x00 with (byte_of_Z (cp "000")). apply encode_notin; [reflexivity|].
    apply s_index_app_none; [done|]. apply s_index_app_none; [reflexivity|].
    subst n. apply s_index_str_of_Z. reflexivity. }
  change ([x00] ++ data) with (x00 :: data).
  rewrite (b_split_app_sep x00 _ data Hx), (b_split1_app_sep x00 _ _ Hx). cbn [head default].
  rewrite !encode_app.
  assert (Hs : " "%byte ∉ encode fmt).
  { change " "%byte with (byte_of_Z (cp " ")). apply encode_notin; [reflexivity | done]. }
  change (encode " ") with [" "%byte]. cbn [app].
  unfold id. rewrite (b_split_app_sep " "%byte (encode fmt) _ Hs). cbn [head default]. by rewrite decode_encode.
Qed.

Lemma store_wf_bucket w d v :
  store_wf w -> w_fs w !! (objects_loc w ++ [d]) = Some v -> v = NDir.
Proof.
  intros [_ Hf] Hl. specialize (Hf _ _ Hl). unfold store_entry_ok in Hf.
  by rewrite strip_prefix_app in Hf.
Qed.

Lemma store_wf_object w d f :
  store_wf w -> w_fs w !! (objects_loc w ++ [d; f]) <> Some NDir.
Proof.
  intros [_ Hf] Hl. specialize (Hf _ _ Hl). unfold store_entry_ok in Hf.
  by rewrite strip_prefix_app in Hf.
Qed.

Lemma store_wf_insert w w' l v :
  same_ctx w w' -> w_fs w' = <[objects_loc w ++ l := v]> (w_fs w) -> l <> [] ->
  store_entry_ok (objects_loc w) (objects_loc w ++ l) v -> store_wf w -> store_wf w'.
Proof.
  intros Hc Hfs Hl Hok [Ho Hf]. unfold store_wf. rewrite (objects_loc_same w w' Hc), Hfs.
  split.
  - rewrite lookup_insert_ne; [done|]. intros E.
    apply (f_equal length) in E. rewrite length_app in E. destruct l; [done|]. simpl in E. lia.
  - by apply map_Forall_insert_2.
Qed.

Lemma objects_loc_nonempty w l : objects_loc w ++ l <> [].
Proof. unfold objects_loc. by destruct (abs_of w _). Qed.

Lemma objects_loc_ne w : objects_loc w <> [].
Proof. rewrite <- (app_nil_r (objects_loc w)). apply objects_loc_nonempty. Qed.

Lemma store_entry_ok_bucket O d : store_entry_ok O (O ++ [d]) NDir.
Proof. unfold store_entry_ok. by rewrite strip_prefix_app. Qed.

Lemma store_entry_ok_object O d f c m : store_entry_ok O (O ++ [d; f]) (NFile c m).
Proof. unfold store_entry_ok. by rewrite strip_prefix_app. Qed.

(** Writing an object file into an existing bucket keeps the store's shape. *)
Lemma write_in_bucket w p d f c :
  abs_of w p = objects_loc w ++ [d; f] -> w_fs w !! (objects_loc w ++ [d]) = Some NDir ->
  store_wf w ->
  exists m w', write_bytes p c w = (Ok tt, w') /\
    w_fs w' = <[objects_loc w ++ [d; f] := NFile c m]> (w_fs w) /\ same_ctx w w' /\ store_wf w' /\
    st_ctime m = w_clock w /\ st_mtime m = w_clock w /\ w_clock w' = w_clock w.
Proof.
  intros Hp Hb Hwf. destruct (write_bytes_spec w p c) as (m & w' & Hrun & Hfs & Hc & Hct & Hmt & Hclk).
  - rewrite Hp. apply objects_loc_nonempty.
  - rewrite Hp. by apply store_wf_object.
  - rewrite Hp, (app_assoc _ [d] [f]), parent_loc_snoc.
    by rewrite node_at_cons by apply objects_loc_nonempty.
  - rewrite Hp in Hfs. exists m, w'. split; [done|]. split; [done|]. split; [done|].
    split; [eapply store_wf_insert; eauto using store_entry_ok_object | done].
Qed.

Lemma abs_bucket w sha :
  plain (sha_dir sha) ->
  abs_of w (path_slash (path_slash (Repo.repo_dir w) "objects") (sha_dir sha)) = objects_loc w ++ [sha_dir sha].
Proof. intros Pd. by rewrite abs_of_slash, abs_objects. Qed.

Lemma abs_object w sha :
  plain (sha_dir sha) -> plain (sha_file sha) ->
  abs_of w (path_slash (path_slash (path_slash (Repo.repo_dir w) "objects") (sha_dir sha)) (sha_file sha))
  = objects_loc w ++ [sha_dir sha; sha_file sha].
Proof. intros Pd Pf. by rewrite abs_of_slash, abs_bucket, <- app_assoc. Qed.

(** Storing an object: what [hash_object data fmt True] leaves on disk. *)
Lemma hash_object_write_spec w data fmt :
  Repo.repo_here w -> store_wf w ->
  let sha := hex (sha1 (frame fmt data)) in
  exists w' m, hash_object data fmt true w = (Ok sha, w') /\
    w_fs w' !! (objects_loc w ++ [sha_dir sha; sha_file sha]) = Some (NFile (compress (frame fmt data)) m) /\
    w_fs w' !! (objects_loc w ++ [sha_dir sha]) = Some NDir /\
    (forall k, is_Some (w_fs w !! k) -> is_Some (w_fs w' !! k)) /\
    same_ctx w w' /\ store_wf w' /\
    st_ctime m = w_clock w' /\ st_mtime m = w_clock w' /\
    (forall k, ~ objects_loc w `prefix_of` k -> w_fs w' !! k = w_fs w !! k).
Proof.
  intros Hr Hwf sha.
  pose proof (sha_dir_plain (frame fmt data)) as Pd. pose proof (sha_file_plain (frame fmt data)) as Pf.
  fold sha in Pd, Pf. unfold hash_object. fold sha. cbv zeta.
  sstep (objects_dir_here w Hr). sstep (p_exists_run (path_slash (path_slash (Repo.repo_dir w) "objects") (sha_dir sha)) w).
  unfold lookup_path. rewrite abs_bucket by done.
  rewrite node_at_cons by apply objects_loc_nonempty. case_bool_decide as Hb.
  - destruct Hb as [v Hv]. pose proof (store_wf_bucket _ _ _ Hwf Hv); subst v.
    rewrite sbind_ret_l.
    destruct (write_in_bucket w _ (sha_dir sha) (sha_file sha) (compress (frame fmt data)) (abs_object w sha Pd Pf) Hv Hwf)
      as (m & w' & Hrun & Hfs & Hc & Hwf' & Hct & Hmt & Hclk).
    sstep Hrun. exists w', m. split; [done|]. rewrite Hfs, lookup_insert_eq. split; [done|].
    rewrite lookup_insert_ne by (intros E; apply (f_equal length) in E; rewrite !length_app in E; simpl in E; lia).
    split; [done|]. split; [intros k Hk; rewrite lookup_insert; case_decide; eauto|].
    rewrite Hclk. do 4 (split; [done|]). intros k Hk. rewrite lookup_insert_ne; [done|].
    intros <-. apply Hk. by eexists.
  - assert (Hn : w_fs w !! (objects_loc w ++ [sha_dir sha]) = None) by (destruct (w_fs w !! _); [exfalso; eauto | done]).
    set (P := path_slash (path_slash (Repo.repo_dir w) "objects") (sha_dir sha)).
    assert (Hmk : mkdir P w = (Ok tt, set_fs w (<[abs_of w P := NDir]> (w_fs w)))).
    { apply mkdir_spec; unfold P; rewrite abs_bucket by done; [apply objects_loc_nonempty | done |].
      rewrite parent_loc_snoc, node_at_cons by apply objects_loc_ne. apply Hwf. }
    unfold P in Hmk. rewrite abs_bucket in Hmk by done. sstep Hmk.
    set (w1 := set_fs w (<[objects_loc w ++ [sha_dir sha] := NDir]> (w_fs w))).
    assert (Hc1 : same_ctx w w1) by done.
    assert (Hwf1 : store_wf w1).
    { eapply store_wf_insert; [done | reflexivity | done | apply store_entry_ok_bucket | done]. }
    assert (Hb1 : w_fs w1 !! (objects_loc w1 ++ [sha_dir sha]) = Some NDir).
    { rewrite (objects_loc_same w w1 Hc1). apply lookup_insert_eq. }
    destruct (write_in_bucket w1 _ (sha_dir sha) (sha_file sha) (compress (frame fmt data)) (abs_object w1 sha Pd Pf) Hb1 Hwf1)
      as (m & w' & Hrun & Hfs & Hc & Hwf' & Hct & Hmt & Hclk).
    sstep Hrun. rewrite (objects_loc_same w w1 Hc1) in Hfs, Hb1. exists w', m. split; [done|].
    rewrite Hfs, lookup_insert_eq. split; [done|].
    rewrite lookup_insert_ne by (intros E; apply (f_equal length) in E; rewrite !length_app in E; simpl in E; lia).
    split; [done|]. split; [|split; [eauto with vcs | rewrite Hclk; split; [done|]]].
    + intros k Hk. rewrite lookup_insert. case_decide; [done|]. simpl. rewrite lookup_insert.
      case_decide; [done|]. done.
    + do 2 (split; [done|]). intros k Hk.
      assert (Hne : forall x, objects_loc w ++ x <> k) by (intros x <-; apply Hk; by eexists).
      rewrite lookup_insert_ne by apply Hne. unfold w1. simpl. by rewrite lookup_insert_ne by apply Hne.
Qed.

#[global] Instance store_step_refl : Reflexive store_step.
Proof. intros w Hw. split; [done|]. split; [apply same_ctx_refl | done]. Qed.

#[global] Instance store_step_trans : Transitive store_step.
Proof.
  intros w1 w2 w3 H12 H23 Hi1. destruct (H12 Hi1) as (Hi2 & Hc12 & Hf12).
  destruct (H23 Hi2) as (Hi3 & Hc23 & Hf23). split; [done|]. split; [eauto with vcs|].
  intros k Hk. rewrite Hf23, Hf12; [done | done |]. by rewrite (objects_loc_same w1 w2 Hc12).
Qed.

(** [hash_object] only ever writes inside the object store. *)
Lemma hash_object_preserves data fmt write : preserves store_step (hash_object data fmt write).
Proof.
  intros w r w' Hrun [Hr Hwf]. destruct write.
  - destruct (hash_object_write_spec w data fmt Hr Hwf) as (w1 & m & Hrun1 & _ & _ & Hg & Hc & Hwf1 & _ & _ & Hf).
    rewrite Hrun1 in Hrun. injection Hrun as <- <-.
    split; [split; [eapply repo_here_grow; eauto | done] | done].
  - injection Hrun as <- <-. apply store_step_refl. split; done.
Qed.


Lemma read_object_at w sha g c m :
  Repo.repo_here w -> plain (sha_dir sha) -> plain (sha_file sha) ->
  w_fs w !! (objects_loc w ++ [sha_dir sha; sha_file sha]) = Some (NFile c m) ->
  read_object sha g w = (match decompress c with Some d => parse_frame d | None => Err ZlibError end, w).
Proof.
  intros Hr Pd Pf Hl. unfold read_object. sstep (objects_dir_here w Hr).
  assert (Hrd : read_bytes (path_slash (path_slash (path_slash (Repo.repo_dir w) "objects") (sha_dir sha)) (sha_file sha)) w = (Ok c, w)).
  { unfold read_bytes, lookup_path. rewrite abs_object, node_at_cons, Hl by (done || apply objects_loc_nonempty). done. }
  sstep Hrd. unfold sbind, sof_option, slift. by destruct (decompress c).
Qed.

(** ** Properties of the object store *)

(** C3 (round trip): storing a payload under a tag without spaces or NUL
    bytes returns the hex SHA-1 of its frame, and reading that name back
    returns exactly the tag and the payload. *)
Theorem hash_object_read_object w data fmt g :
  Repo.repo_here w -> store_wf w -> fmt_ok fmt ->
  exists w', hash_object data fmt true w = (Ok (hex (sha1 (frame fmt data))), w') /\
             read_object (hex (sha1 (frame fmt data))) g w' = (Ok (fmt, data), w').
Proof.
  intros Hr Hwf Hf.
  destruct (hash_object_write_spec w data fmt Hr Hwf) as (w' & m & Hrun & Hl & _ & Hg & Hc & _).
  exists w'. split; [done|].
  rewrite (read_object_at w' _ g (compress (frame fmt data)) m); [| eapply repo_here_grow; eauto
    | apply sha_dir_plain | apply sha_file_plain | by rewrite (objects_loc_same w w' Hc)].
  by rewrite decompress_compress, parse_frame_frame.
Qed.

(** C11 [hash_object] keeps the repository in place and the
    store's shape: buckets are directories and objects are files. *)
Theorem hash_object_store_wf w data fmt :
  Repo.repo_here w -> store_wf w ->
  Repo.repo_here (snd (hash_object data fmt true w)) /\ store_wf (snd (hash_object data fmt true w)).
Proof.
  intros Hr Hwf.
  destruct (hash_object_write_spec w data fmt Hr Hwf) as (w' & m & Hrun & _ & _ & Hg & Hc & Hwf' & _).
  rewrite Hrun. split; [eapply repo_here_grow; eauto | done].
Qed.

(** Storing the same payload a second time returns the
    same name and leaves the world exactly as the first write left it. *)
Theorem hash_object_idempotent w data fmt :
  Repo.repo_here w -> store_wf w ->
  let '(r, w1) := hash_object data fmt true w in hash_object data fmt true w1 = (r, w1).
Proof.
  intros Hr Hwf.
  destruct (hash_object_write_spec w data fmt Hr Hwf) as (w1 & m & Hrun & Hl & Hb & Hg & Hc & Hwf1 & Hct & Hmt & _).
  rewrite Hrun. set (sha := hex (sha1 (frame fmt data))) in *.
  pose proof (sha_dir_plain (frame fmt data)) as Pd. pose proof (sha_file_plain (frame fmt data)) as Pf.
  fold sha in Pd, Pf. assert (Hr1 : Repo.repo_here w1) by (eapply repo_here_grow; eauto).
  rewrite <- (objects_loc_same w w1 Hc) in Hl, Hb.
  unfold hash_object. fold sha. cbv zeta.
  sstep (objects_dir_here w1 Hr1).
  sstep (p_exists_run (path_slash (path_slash (Repo.repo_dir w1) "objects") (sha_dir sha)) w1).
  unfold lookup_path. rewrite abs_bucket, node_at_cons, Hb by (done || apply objects_loc_nonempty).
  rewrite bool_decide_true by done. rewrite sbind_ret_l.
  sstep (write_bytes_same w1 _ _ m ltac:(rewrite abs_object by done; apply objects_loc_nonempty)
           ltac:(rewrite abs_object by done; exact Hl) Hct Hmt).
  reflexivity.
Qed.

(** ** Reading trees *)

Lemma tree_record_not_fuel data : tree_record data <> Err NoTermination.
Proof. unfold tree_record. repeat case_match; discriminate. Qed.

Lemma tree_record_rest data m n sha rest :
  tree_record data = Ok (m, n, sha, rest) -> (length rest < length data)%nat.
Proof.
  unfold tree_record. destruct (b_index x00 data) as [start|] eqn:Hi; [|done].
  apply b_index_lt in Hi. repeat case_match; intros E; inversion E; subst.
  rewrite length_drop. lia.
Qed.

Lemma read_tree_loop_fuel n data :
  (length data < n)%nat -> read_tree_loop n data <> Err NoTermination.
Proof.
  revert data. induction n as [|n IH]; intros data Hl; [lia|]. simpl.
  destruct data as [|b d']; [done|].
  destruct (tree_record (b :: d')) as [[[[m nm] sha] rest]|e] eqn:E.
  - pose proof (tree_record_rest _ _ _ _ _ E). specialize (IH rest ltac:(lia)).
    destruct (read_tree_loop n rest); congruence.
  - intros [= ->]. by apply (tree_record_not_fuel (b :: d')).
Qed.

(** C23 The [while data:] loop of [read_tree] always ends:
    every iteration consumes at least the 21 bytes after a NUL, so the
    fuel [len(data) + 1] is never exhausted, whatever the payload. *)
Theorem read_tree_terminates data : read_tree data <> Err NoTermination.
Proof. apply read_tree_loop_fuel. lia. Qed.

(** ** Resolving abbreviated names *)

Lemma sha_split sha : (2 <= String.length sha)%nat -> (sha_dir sha +:+ sha_file sha)%stdpp = sha.
Proof. intros Hl. apply substring_split. done. Qed.

Lemma length_sha x : String.length (hex (sha1 x)) = 40%nat.
Proof. by rewrite length_hex, sha1_length. Qed.

(** After an object is stored, every prefix of its name
    of 4 to 40 characters resolves to a list of candidates that contains
    the full name. *)
Theorem resolve_object_prefix w data fmt g k :
  Repo.repo_here w -> store_wf w -> (4 <= k <= 40)%nat ->
  let sha := hex (sha1 (frame fmt data)) in
  let w' := snd (hash_object data fmt true w) in
  exists l, resolve_object (String.substring 0 k sha) g w' = (Ok l, w') /\ sha ∈ l.
Proof.
  intros Hr Hwf Hk sha w'.
  destruct (hash_object_write_spec w data fmt Hr Hwf) as (w1 & m & Hrun & Hl & Hb & Hg & Hc & _).
  subst w'. rewrite Hrun. simpl. fold sha in Hl, Hb.
  pose proof (sha_dir_plain (frame fmt data)) as Pd. pose proof (sha_file_plain (frame fmt data)) as Pf.
  fold sha in Pd, Pf. assert (Hr1 : Repo.repo_here w1) by (eapply repo_here_grow; eauto).
  rewrite <- (objects_loc_same w w1 Hc) in Hl, Hb.
  pose proof (length_sha (frame fmt data)) as Hlen. fold sha in Hlen.
  assert (Hk' : String.length (String.substring 0 k sha) = k) by (apply length_substring; lia).
  unfold resolve_object. rewrite Hk'.
  replace ((k <? 4)%nat || (40 <? k)%nat) with false
    by (symmetry; apply orb_false_iff; split; apply Nat.ltb_ge; lia).
  sstep (objects_dir_here w1 Hr1).
  rewrite substring_prefix_prefix by lia. fold (sha_dir sha).
  set (P := path_slash (path_slash (Repo.repo_dir w1) "objects") (sha_dir sha)).
  assert (Hg1 : glob_star P w1 = (Ok (path_slash P <$> children w1 (objects_loc w1 ++ [sha_dir sha])), w1)).
  { unfold glob_star. unfold P. rewrite abs_bucket, node_at_cons, Hb by (done || apply objects_loc_nonempty).
    done. }
  sstep Hg1.
  assert (Hin : sha ∈ matching_names (String.substring 0 k sha) (path_slash P <$> children w1 (objects_loc w1 ++ [sha_dir sha]))).
  { unfold matching_names. apply list_elem_of_filter. split.
    - by rewrite Hk'.
    - apply list_elem_of_fmap. exists (path_slash P (sha_file sha)). split.
      + unfold P. by rewrite path_parent_slash, !path_name_slash, sha_split by (done || lia).
      + apply list_elem_of_fmap. exists (sha_file sha). split; [done|].
        eapply elem_of_children. rewrite <- app_assoc. exact Hl. }
  destruct (matching_names _ _) as [|x l] eqn:E; [by apply not_elem_of_nil in Hin|].
  eexists. split; [reflexivity | done].
Qed.

(** Reading a name whose object file is absent raises
    [FileNotFoundError] and changes nothing. *)
Theorem read_object_missing w sha g :
  Repo.repo_here w -> plain (sha_dir sha) -> plain (sha_file sha) ->
  w_fs w !! (objects_loc w ++ [sha_dir sha; sha_file sha]) = None ->
  read_object sha g w = (Err FileNotFoundError, w).
Proof.
  intros Hr Pd Pf Hl. unfold read_object. sstep (objects_dir_here w Hr).
  unfold sbind at 1, read_bytes, lookup_path.
  by rewrite abs_object, node_at_cons, Hl by (done || apply objects_loc_nonempty).
Qed.

(** ** Parsing commits *)

Definition message_clean (res : gmap string cval) : Prop :=
  forall m, res !! "message"%string = Some (CList m) -> Forall (fun i => header_line i = false) m.

Lemma commit_parse_lines_clean ls res r :
  commit_parse_lines ls res = Ok r -> message_clean res -> message_clean r.
Proof.
  revert res. induction ls as [|l ls IH]; intros res Hrun Hres; simpl in Hrun; [injection Hrun as <-; exact Hres|].
  destruct (decode l) as [i|]; [|done].
  destruct (header_line i) eqn:Hh.
  - destruct (s_split1 " " i) as [|name [|val [|]]]; try done.
    apply (IH _ Hrun). intros m. rewrite lookup_insert. case_decide; [by intros [=]|]. apply Hres.
  - destruct (res !! "message"%string) as [[s|m0]|] eqn:Hm; try done.
    apply (IH _ Hrun). intros m. rewrite lookup_insert_eq. intros [= <-].
    apply Forall_app. split; [by apply Hres | by constructor].
Qed.

(** The message [commit_parse] returns never contains a line
    that mentions "tree", "parent", "author" or "committer": such lines of
    the free-text message are taken for header fields. *)
Theorem commit_parse_drops_keyword_lines raw r m :
  commit_parse raw = Ok r -> r !! "message"%string = Some (CList m) ->
  Forall (fun i => header_line i = false) m.
Proof.
  intros Hrun. apply (commit_parse_lines_clean _ _ _ Hrun).
  intros m'. rewrite lookup_singleton_eq. by intros [= <-].
Qed.

Lemma find_tree_files_fold es acc :
  Forall (fun e : Z * string * string => e.1.1 ∈ [40000; 100644; 100755]) es ->
  fold_left find_tree_files_step es (Ok acc) = Ok (acc ++ ((fun e : Z * string * string => PStr e.2) <$> es)).
Proof.
  intros Hes. revert acc. induction Hes as [|[[mode nm] sha] es Hm _ IH]; intros acc; simpl.
  - by rewrite app_nil_r.
  - simpl in Hm. replace (S_ISDIR mode) with false
      by (apply list_elem_of_In in Hm; destruct Hm as [<-|[<-|[<-|[]]]]; reflexivity).
    rewrite IH. by rewrite <- app_assoc.
Qed.

(** [find_tree_files] tests [stat.S_ISDIR] on the mode that
    [read_tree] returns, which is the octal text read as a decimal number
    (a subtree reads back as 40000).  [S_ISDIR(40000)] is false, so on a
    tree of files and subtrees it never descends: each subtree contributes
    its own name and none of its contents. *)
Theorem find_tree_files_flat data entries :
  read_tree data = Ok entries ->
  Forall (fun e : Z * string * string => e.1.1 ∈ [40000; 100644; 100755]) entries ->
  find_tree_files data = Ok (PBytes data :: ((fun e : Z * string * string => PStr e.2) <$> entries)).
Proof.
  intros Hrt Hmodes. unfold find_tree_files. rewrite Hrt.
  by rewrite find_tree_files_fold.
Qed.

End Lemmas.

(** ** Witnesses on the demo repository *)

Lemma hash_object_read_object_witness :
Repo.repo_here demo_repo /\ store_wf demo_repo /\ fmt_ok "blob" /\
exists w', hash_object (encode "hi") "blob" true demo_repo
             = (Ok "32f95c0d1244a78b2be1bab8de17906fabb2c4a8"%string, w') /\
           read_object "32f95c0d1244a78b2be1bab8de17906fabb2c4a8" (path_of_string ".pyvcs") w'
             = (Ok ("blob"%string, encode "hi"), w').
Proof.
assert (Hr : Repo.repo_here demo_repo) by (vm_compute; eexists; reflexivity).
assert (Hw : store_wf demo_repo) by (apply (bool_decide_unpack _); vm_compute; reflexivity).
assert (Hf : fmt_ok "blob") by (apply (bool_decide_unpack _); vm_compute; reflexivity).
split; [exact Hr|]. split; [exact Hw|]. split; [exact Hf|].
assert (Hn : hex (sha1 (frame "blob" (encode "hi"))) = "32f95c0d1244a78b2be1bab8de17906fabb2c4a8"%string)
  by (vm_compute; reflexivity).
rewrite <- Hn. apply hash_object_read_object; assumption.
Defined.

Lemma hash_object_store_wf_witness :
Repo.repo_here demo_repo /\ store_wf demo_repo /\
Repo.repo_here (snd (hash_object (encode "hi") "blob" true demo_repo)) /\
store_wf (snd (hash_object (encode "hi") "blob" true demo_repo)).
Proof.
assert (Hr : Repo.repo_here demo_repo) by (vm_compute; eexists; reflexivity).
assert (Hw : store_wf demo_repo) by (apply (bool_decide_unpack _); vm_compute; reflexivity).
split; [exact Hr|]. split; [exact Hw|]. apply hash_object_store_wf; assumption.
Defined.

Lemma hash_object_idempotent_witness :
Repo.repo_here demo_repo /\ store_wf demo_repo /\
let '(r, w1) := hash_object (encode "hi") "blob" true demo_repo in
hash_object (encode "hi") "blob" true w1 = (r, w1).
Proof.
assert (Hr : Repo.repo_here demo_repo) by (vm_compute; eexists; reflexivity).
assert (Hw : store_wf demo_repo) by (apply (bool_decide_unpack _); vm_compute; reflexivity).
split; [exact Hr|]. split; [exact Hw|]. apply hash_object_idempotent; assumption.
Defined.

Lemma resolve_object_prefix_witness :
Repo.repo_here demo_repo /\ store_wf demo_repo /\ (4 <= 7 <= 40)%nat /\
exists l, resolve_object "32f95c0" (path_of_string ".pyvcs") (snd (hash_object (encode "hi") "blob" true demo_repo))
          = (Ok l, snd (hash_object (encode "hi") "blob" true demo_repo)) /\
          "32f95c0d1244a78b2be1bab8de17906fabb2c4a8"%string ∈ l.
Proof.
assert (Hr : Repo.repo_here demo_repo) by (vm_compute; eexists; reflexivity).
assert (Hw : store_wf demo_repo) by (apply (bool_decide_unpack _); vm_compute; reflexivity).
split; [exact Hr|]. split; [exact Hw|]. split; [lia|].
assert (Hn : hex (sha1 (frame "blob" (encode "hi"))) = "32f95c0d1244a78b2be1bab8de17906fabb2c4a8"%string)
  by (vm_compute; reflexivity).
rewrite <- Hn. change "32f95c0"%string with (String.substring 0 7 (hex (sha1 (frame "blob" (encode "hi"))))).
apply (resolve_object_prefix demo_repo (encode "hi") "blob" (path_of_string ".pyvcs") 7); [exact Hr | exact Hw | lia].
Defined.

Lemma read_object_missing_witness :
let sha := "e69de29bb2d1d6434b8b29ae775ad8c2e48c5391"%string in
Repo.repo_here demo_repo /\ plain (sha_dir sha) /\ plain (sha_file sha) /\
w_fs demo_repo !! (objects_loc demo_repo ++ [sha_dir sha; sha_file sha]) = None /\
read_object sha (path_of_string ".pyvcs") demo_repo = (Err FileNotFoundError, demo_repo).
Proof.
intros sha.
assert (Hr : Repo.repo_here demo_repo) by (vm_compute; eexists; reflexivity).
assert (Pd : plain (sha_dir sha)) by (apply (bool_decide_unpack _); vm_compute; reflexivity).
assert (Pf : plain (sha_file sha)) by (apply (bool_decide_unpack _); vm_compute; reflexivity).
assert (Hl : w_fs demo_repo !! (objects_loc demo_repo ++ [sha_dir sha; sha_file sha]) = None)
  by (vm_compute; reflexivity).
split; [exact Hr|]. split; [exact Pd|]. split; [exact Pf|]. split; [exact Hl|].
apply read_object_missing; assumption.
Defined.

(** A commit whose message says "fix tree bug": the line becomes a field. *)
Definition demo_commit_raw : bytes :=
encode ("tree 4b825dc642cb6eb9a060e54bf8d69288fbee4904" +:+ String "010" "author A <a@b> 1 +0000"
        +:+ String "010" "committer A <a@b> 1 +0000" +:+ String "010" (String "010" "fix tree bug")
        +:+ String "010" EmptyString)%stdpp.

Lemma commit_parse_drops_keyword_lines_witness :
exists r m, commit_parse demo_commit_raw = Ok r /\ r !! "message"%string = Some (CList m) /\
  Forall (fun i => header_line i = false) m /\ r !! "fix"%string = Some (CStr "tree bug").
Proof.
assert (Hc : match commit_parse demo_commit_raw with
             | Ok r => r !! "message"%string = Some (CList ["";""]%string) /\
                       r !! "fix"%string = Some (CStr "tree bug")
             | Err _ => False end) by (vm_compute; split; reflexivity).
destruct (commit_parse demo_commit_raw) as [r|e] eqn:E; [|done].
destruct Hc as [Hm Hf]. exists r, ["";""]%string.
split; [done|]. split; [exact Hm|]. split; [|exact Hf].
exact (commit_parse_drops_keyword_lines demo_commit_raw r _ E Hm).
Defined.

(** A tree payload with a file "a" and a subtree "dir", as [write_tree]
  encodes them. *)
Definition demo_tree_payload : bytes :=
encode "100644 a" ++ [x00] ++ replicate 20 x01 ++ encode "40000 dir" ++ [x00] ++ replicate 20 x02.

Lemma find_tree_files_flat_witness :
exists entries, read_tree demo_tree_payload = Ok entries /\
  Forall (fun e : Z * string * string => e.1.1 ∈ [40000; 100644; 100755]) entries /\
  find_tree_files demo_tree_payload
    = Ok (PBytes demo_tree_payload :: ((fun e : Z * string * string => PStr e.2) <$> entries)).
Proof.
destruct (read_tree demo_tree_payload) as [entries|e] eqn:E; [|vm_compute in E; discriminate].
assert (Hf : Forall (fun e : Z * string * string => e.1.1 ∈ [40000; 100644; 100755]) entries)
  by (vm_compute in E; injection E as <-; repeat constructor).
exists entries. split; [done|]. split; [exact Hf|]. exact (find_tree_files_flat _ _ E Hf).
Defined.

End Objects.
