(* ===== verification/Index.v ===== *)
(** * The staging index ([index.py])

    An index entry is the named tuple [GitIndexEntry]; [pack] builds its
    struct format at run time from the name's length and pads the entry to a
    multiple of 8 bytes, [unpack] reads it back.  The index file is the
    header "DIRC", version 2, the entry count, the packed entries and the
    SHA-1 of all of that.  [read_index] finds each entry's end by looking
    for a NUL at positions 63, 71, 79, ... and never looks at the magic, the
    version or the checksum.  [update_index] stores each file as a blob and
    appends an entry, then writes the entries sorted by name. *)

From S2P Require Import Prelude Py Struct Fs Sha1 Repo Objects.

Open Scope Z_scope.

Module Index.

Record GitIndexEntry := mkentry {
  ctime_s : Z; ctime_n : Z; mtime_s : Z; mtime_n : Z; dev : Z; ino : Z; mode : Z;
  uid : Z; gid : Z; size : Z; sha1 : bytes; flags : Z; name : string }.

#[global] Instance entry_eq_decision : EqDecision GitIndexEntry.
Proof. solve_decision. Defined.

(** The format string [pack] builds. *)
Definition pack_format (name : string) : string :=
  let n := Z.of_nat (String.length name) in
  ("!10I20sh" +:+ str_of_Z n +:+ "s" +:+ str_of_Z (8 - (62 + n) mod 8) +:+ "x")%stdpp.

Definition pack (e : GitIndexEntry) : option bytes :=
  Struct.pack (pack_format (name e))
    [VInt (ctime_s e); VInt (ctime_n e); VInt (mtime_s e); VInt (mtime_n e); VInt (dev e);
     VInt (Z.land (ino e) 4294967295); VInt (mode e); VInt (uid e); VInt (gid e); VInt (size e);
     VBytes (sha1 e); VInt (flags e); VBytes (encode (name e))].

Definition unpack_format (data : bytes) : string :=
  (">10I20sh" +:+ str_of_Z (Z.of_nat (length data) - 62) +:+ "s")%stdpp.

Definition unpack (data : bytes) : result GitIndexEntry :=
  match Struct.unpack (unpack_format data) data with
  | Some [VInt a; VInt b; VInt c; VInt d; VInt e; VInt f; VInt g; VInt h; VInt i; VInt j;
          VBytes k; VInt l; VBytes m] =>
      match decode (b_rstrip_nul m) with
      | Some nm => Ok (mkentry a b c d e f g h i j k l nm)
      | None => Err UnicodeDecodeError
      end
  | _ => Err StructError
  end.

(** The inner [for j in range(63, len(copy), 8)] loop: the last byte of the
    entry that starts [copy]. *)
Definition entry_end (copy : bytes) : Z :=
  match list_find (fun j => copy !! j = Some x00) (py_range 63 (length copy) 8) with
  | Some (_, j) => Z.of_nat j
  | None => Z.of_nat (length copy) - 1
  end.

(** The outer [for _ in range(count)] loop. *)
Fixpoint read_entries (n : nat) (copy : bytes) : result (list GitIndexEntry) :=
  match n with
  | O => Ok []
  | S n' =>
      let e := entry_end copy in
      match unpack (take (Z.to_nat (e + 1)) copy) with
      | Err x => Err x
      | Ok ent =>
          let copy' := if Z.of_nat (length copy) >? e then drop (Z.to_nat (e + 1)) copy else copy in
          match read_entries n' copy' with
          | Ok rest => Ok (ent :: rest)
          | Err x => Err x
          end
      end
  end.

(** [struct.unpack(">I", header[8:])[0]] *)
Definition entry_count (data : bytes) : result Z :=
  match Struct.unpack ">I" (drop 8 (take 12 data)) with
  | Some [VInt c] => Ok c
  | _ => Err StructError
  end.

Definition read_index (gitdir : pypath) : IO (list GitIndexEntry) :=
  let index := path_slash gitdir "index" in
  ex <- p_exists index ;;
  if negb ex then sret [] else
  data <- read_bytes index ;;
  cnt <- slift (entry_count data) ;;
  slift (read_entries (Z.to_nat cnt) (drop 12 data)).

(** The bytes before the checksum: header, count, packed entries. *)
Fixpoint pack_all (entries : list GitIndexEntry) : option bytes :=
  match entries with
  | [] => Some []
  | e :: es => b ← pack e; rest ← pack_all es; Some (b ++ rest)
  end.

Definition index_body (entries : list GitIndexEntry) : option bytes :=
  cnt ← Struct.pack ">I" [VInt (Z.of_nat (length entries))];
  packed ← pack_all entries;
  Some (encode "DIRC" ++ [x00; x00; x00; x02] ++ cnt ++ packed).

(** ** What a packable entry is *)

Definition u32 (z : Z) : Prop := 0 <= z < 2 ^ 32.

(** The fields [struct.pack] accepts: nine unsigned 32-bit integers (the
    inode is masked by [pack] itself), a signed 16-bit flags word and a
    20-byte object id. *)
Definition entry_ok (e : GitIndexEntry) : Prop :=
  Forall u32 [ctime_s e; ctime_n e; mtime_s e; mtime_n e; dev e; mode e; uid e; gid e; size e] /\
  - 2 ^ 15 <= flags e < 2 ^ 15 /\ length (sha1 e) = 20%nat.

#[global] Instance entry_ok_dec e : Decision (entry_ok e).
Proof. unfold entry_ok, u32. apply _. Defined.

(** Names that survive [pack] then [unpack]: ASCII, without NUL. *)
Definition name_ok (nm : string) : Prop := is_ascii nm = true /\ s_index "000" nm = None.

#[global] Instance name_ok_dec nm : Decision (name_ok nm).
Proof. unfold name_ok. apply _. Defined.

(** The entry [unpack] gives back: [pack] keeps the low 32 bits of the inode. *)
Definition mask_ino (e : GitIndexEntry) : GitIndexEntry :=
  mkentry (ctime_s e) (ctime_n e) (mtime_s e) (mtime_n e) (dev e) (Z.land (ino e) 4294967295)
    (mode e) (uid e) (gid e) (size e) (sha1 e) (flags e) (name e).

(** The padding [8 - (62 + len(name)) % 8] and the 62 bytes before the name. *)
Definition entry_pad (nm : string) : nat := Z.to_nat (8 - (62 + Z.of_nat (String.length nm)) mod 8).

Definition entry_header (e : GitIndexEntry) : bytes :=
  be_bytes 4 (ctime_s e) ++ be_bytes 4 (ctime_n e) ++ be_bytes 4 (mtime_s e) ++ be_bytes 4 (mtime_n e) ++
  be_bytes 4 (dev e) ++ be_bytes 4 (Z.land (ino e) 4294967295) ++ be_bytes 4 (mode e) ++
  be_bytes 4 (uid e) ++ be_bytes 4 (gid e) ++ be_bytes 4 (size e) ++ sha1 e ++ be_bytes 2 (flags e).

(** The bytes of one packed entry with an ASCII name. *)
Definition packed_entry (e : GitIndexEntry) : bytes :=
  entry_header e ++ encode (name e) ++ replicate (entry_pad (name e)) x00.

(** What [read_index] parses: an 8-byte header (never checked), the entry
    count, the packed entries, then anything (the checksum is never checked). *)
Definition index_layout (hdr : bytes) (entries : list GitIndexEntry) (trailer : bytes) : bytes :=
  hdr ++ be_bytes 4 (Z.of_nat (length entries)) ++ mjoin (packed_entry <$> entries) ++ trailer.

Definition entry_good (e : GitIndexEntry) : Prop := entry_ok e /\ name_ok (name e).

#[global] Instance entry_good_dec e : Decision (entry_good e).
Proof. unfold entry_good. apply _. Defined.

(** [open(index, "wb")] can create or truncate the index file. *)
Definition index_writable (w : world) (gitdir : pypath) : Prop :=
  writable w (path_slash gitdir "index").

#[global] Instance index_writable_dec w gitdir : Decision (index_writable w gitdir).
Proof. unfold index_writable. apply _. Defined.

Section WithHasher.
Context `{Hasher} `{Codec}.

(** [with index.open("wb") as file: ...]: the file is truncated before the
    entries are packed, so a [struct.error] leaves it empty. *)
Definition write_index (gitdir : pypath) (entries : list GitIndexEntry) : IO unit :=
  let index := path_slash gitdir "index" in
  open_wb index ;;;
  data <- sof_option StructError (index_body entries) ;;
  fwrite index (data ++ Fs.sha1 data).

Definition ls_line (details : bool) (e : GitIndexEntry) : string :=
  if details then (fmt_o (mode e) +:+ " " +:+ hex (sha1 e) +:+ " 0" +:+ String "009" (name e))%stdpp
  else name e.

Definition ls_files (gitdir : pypath) (details : bool) : IO unit :=
  entries <- read_index gitdir ;;
  sfor entries (fun e => print (ls_line details e)).

(** The entry [update_index] builds for a file. *)
Definition stat_entry (st : meta) (sz : Z) (sha : bytes) (path : pypath) : GitIndexEntry :=
  {| ctime_s := st_ctime st; ctime_n := 0; mtime_s := st_mtime st; mtime_n := 0;
     dev := st_dev st; ino := st_ino st; mode := st_mode st; uid := st_uid st; gid := st_gid st;
     size := sz; sha1 := sha; flags := 7; name := path_str path |}.

(** One iteration of [for path in paths]. *)
Definition stage_one (entr : list GitIndexEntry) (path : pypath) : IO (list GitIndexEntry) :=
  data <- read_bytes path ;;
  st <- os_stat path ;;
  sha <- Objects.hash_object data "blob" true ;;
  raw <- sof_option ValueError (fromhex sha) ;;
  sret (entr ++ [stat_entry st.1 st.2 raw path]).

Definition update_index (gitdir : pypath) (paths : list pypath) (write : bool) : IO unit :=
  entr <- read_index gitdir ;;
  entr' <- sfoldl stage_one paths entr ;;
  if write then write_index gitdir (sort_by name entr') else sret tt.

End WithHasher.

(** ** Packing and unpacking one entry *)

Lemma parse_codes_entry_prefix f X :
  parse_codes (S (S (S f))) ("10I20sh" +:+ X)%stdpp =
  (fun cs => replicate 10 FI ++ Fs 20 :: Fh :: cs) <$> parse_codes f X.
Proof. simpl. change ("" +:+ X)%stdpp with X. by destruct (parse_codes f X). Qed.

Lemma entry_pad_range nm : (1 <= entry_pad nm <= 8)%nat.
Proof. unfold entry_pad. pose proof (Z.mod_pos_bound (62 + Z.of_nat (String.length nm)) 8). lia. Qed.

Lemma entry_pad_align nm : ((62 + String.length nm + entry_pad nm) mod 8 = 0)%nat.
Proof.
  unfold entry_pad. apply Nat2Z.inj. set (n := Z.of_nat (String.length nm)).
  pose proof (Z.div_mod (62 + n) 8 ltac:(lia)). pose proof (Z.mod_pos_bound (62 + n) 8 ltac:(lia)).
  rewrite Nat2Z.inj_mod, !Nat2Z.inj_add, Z2Nat.id by lia. fold n.
  replace (Z.of_nat 62 + n + (8 - (62 + n) mod 8)) with (((62 + n) / 8 + 1) * 8) by lia.
  by rewrite Z_mod_mult.
Qed.

Lemma parse_pack_format nm :
  parse_format (pack_format nm) =
  Some (replicate 10 FI ++ [Fs 20; Fh; Fs (String.length nm); Fx (entry_pad nm)]).
Proof.
  unfold parse_format, pack_format, entry_pad. set (n := Z.of_nat (String.length nm)).
  assert (0 <= 8 - (62 + n) mod 8) by (pose proof (Z.mod_pos_bound (62 + n) 8); lia).
  set (X := (str_of_Z n +:+ _)%stdpp).
  change ("!10I20sh" +:+ X)%stdpp with (String "!" ("10I20sh" +:+ X))%stdpp.
  cbv iota beta. rewrite length_append. simpl String.length.
  replace ((cp "!" =? 33) || _) with true by reflexivity.
  replace (7 + String.length X)%nat with (S (S (S (4 + String.length X))))%nat by lia.
  rewrite parse_codes_entry_prefix. subst X. rewrite parse_codes_count by (lia || done).
  rewrite !append_cons. change ("" +:+ ?y)%stdpp with y. cbv iota beta.
  cbn [Nat.add]. rewrite parse_codes_count by (lia || done). cbv iota beta.
  cbn [parse_codes fmap option_fmap option_map]. unfold n at 1. by rewrite Nat2Z.id.
Qed.

Lemma land_mask_u32 z : u32 (Z.land z 4294967295).
Proof. change 4294967295 with (Z.ones 32). rewrite Z.land_ones by lia. apply Z.mod_pos_bound. lia. Qed.

Lemma entry_ok_fields e :
  entry_ok e ->
  u32 (ctime_s e) /\ u32 (ctime_n e) /\ u32 (mtime_s e) /\ u32 (mtime_n e) /\ u32 (dev e) /\
  u32 (mode e) /\ u32 (uid e) /\ u32 (gid e) /\ u32 (size e) /\
  - 2 ^ 15 <= flags e < 2 ^ 15 /\ length (sha1 e) = 20%nat.
Proof. intros [Hf Hr]. rewrite !Forall_cons in Hf. tauto. Qed.

(** The bytes [pack] produces: the 62-byte header, the name's bytes cut or
    NUL-filled to [len(name)], then the padding. *)
Lemma pack_spec e :
  entry_ok e ->
  pack e = Some (entry_header e ++
                 (take (String.length (name e)) (encode (name e)) ++
                  replicate (String.length (name e) - length (encode (name e))) x00) ++
                 replicate (entry_pad (name e)) x00).
Proof.
  intros (?&?&?&?&?&?&?&?&?&?&Hsha)%entry_ok_fields. unfold pack, Struct.pack.
  rewrite parse_pack_format. cbn [mbind option_bind replicate app].
  pose proof (land_mask_u32 (ino e)).
  repeat (rewrite pack_codes_FI by assumption).
  rewrite pack_codes_Fs, pack_codes_Fh, pack_codes_Fs, pack_codes_Fx by assumption.
  rewrite take_ge, Hsha, Nat.sub_diag by lia. cbn. unfold entry_header.
  by rewrite !app_nil_r, <- !app_assoc.
Qed.

Lemma length_entry_header e : length (sha1 e) = 20%nat -> length (entry_header e) = 62%nat.
Proof. intros Hs. unfold entry_header. rewrite !length_app, !length_be_bytes, Hs. done. Qed.

(** For an ASCII name the bytes are the name's own. *)
Lemma pack_ascii e :
  entry_ok e -> is_ascii (name e) = true ->
  pack e = Some (entry_header e ++ encode (name e) ++ replicate (entry_pad (name e)) x00).
Proof.
  intros He Ha. rewrite pack_spec by done. pose proof (length_encode_ascii _ Ha) as Hl.
  rewrite Hl, Nat.sub_diag, take_ge by lia. by rewrite app_nil_r.
Qed.

Lemma parse_unpack_format m :
  0 <= m -> parse_format (">10I20sh" +:+ str_of_Z m +:+ "s")%stdpp =
            Some (replicate 10 FI ++ [Fs 20; Fh; Fs (Z.to_nat m)]).
Proof.
  intros Hm. unfold parse_format. set (X := (str_of_Z m +:+ _)%stdpp).
  change (">10I20sh" +:+ X)%stdpp with (String ">" ("10I20sh" +:+ X))%stdpp.
  cbv iota beta. rewrite length_append. simpl String.length.
  replace ((cp ">" =? 33) || _) with true by reflexivity.
  replace (7 + String.length X)%nat with (S (S (S (4 + String.length X))))%nat by lia.
  rewrite parse_codes_entry_prefix. subst X. rewrite parse_codes_count by (lia || done).
  cbn [Nat.add]. by cbn [parse_codes fmap option_fmap option_map].
Qed.

Lemma u32_mod z : u32 z -> z mod 2 ^ 32 = z.
Proof. intros Hz. by apply Z.mod_small. Qed.

(** [unpack] reads back a packed entry with an ASCII, NUL-free name. *)
Lemma unpack_entry e :
  entry_ok e -> name_ok (name e) ->
  unpack (entry_header e ++ encode (name e) ++ replicate (entry_pad (name e)) x00) = Ok (mask_ino e).
Proof.
  intros He [Ha Hn]. pose proof (entry_ok_fields e He) as (?&?&?&?&?&?&?&?&?&?&Hsha).
  pose proof (length_encode_ascii _ Ha) as Hl.
  set (k := (String.length (name e) + entry_pad (name e))%nat).
  assert (Hlen : length (entry_header e ++ encode (name e) ++ replicate (entry_pad (name e)) x00) = (62 + k)%nat)
    by (rewrite !length_app, length_entry_header, Hl, length_replicate by done; lia).
  unfold unpack, unpack_format, Struct.unpack. rewrite Hlen.
  replace (Z.of_nat (62 + k) - 62) with (Z.of_nat k) by lia.
  rewrite parse_unpack_format by lia. cbn [mbind option_bind]. rewrite Nat2Z.id.
  rewrite decide_True by (unfold calcsize; simpl; lia).
  unfold entry_header. rewrite <- !app_assoc. cbn [replicate app].
  repeat rewrite unpack_codes_FI. rewrite unpack_codes_Fs, unpack_codes_Fh by done.
  cbn [unpack_codes]. rewrite take_ge by (rewrite length_app, Hl, length_replicate; lia).
  rewrite !u32_mod by (done || apply land_mask_u32).
  rewrite b_rstrip_nul_pad, decode_encode; [done|]. apply (encode_notin "000"); [reflexivity | done].
Qed.

(** ** Finding where an entry ends *)

(** [entry_end] stops at the first NUL among positions 63, 71, ...; an entry
    of [L] bytes ends there when its last byte is the first such NUL. *)
Lemma entry_end_at copy L :
  (64 <= L)%nat -> (L mod 8 = 0)%nat -> (L <= length copy)%nat -> copy !! (L - 1)%nat = Some x00 ->
  (forall j, (63 <= j < L - 1)%nat -> ((j + 1) mod 8 = 0)%nat -> copy !! j <> Some x00) ->
  entry_end copy = Z.of_nat L - 1.
Proof.
  intros HL Hm Hlen Hz Hj. unfold entry_end. pose proof (Nat.div_mod_eq L 8).
  rewrite (proj2 (list_find_Some _ _ (L / 8 - 8) (L - 1)%nat)); [lia|].
  split; [|split; [done|]].
  - apply lookup_py_range; lia.
  - intros k y Hk Hlt. apply lookup_py_range in Hk as [-> ?]; [|lia]. apply Hj; [lia|].
    replace (63 + 8 * k + 1)%nat with ((k + 8) * 8)%nat by lia. apply Nat.Div0.mod_mul.
Qed.

Lemma length_packed_entry e :
  entry_ok e -> is_ascii (name e) = true ->
  length (packed_entry e) = (62 + String.length (name e) + entry_pad (name e))%nat.
Proof.
  intros He Ha. pose proof (entry_ok_fields e He) as (_&_&_&_&_&_&_&_&_&_&Hs).
  unfold packed_entry. rewrite !length_app, length_entry_header, length_encode_ascii, length_replicate by done.
  lia.
Qed.

Lemma entry_end_packed e rest :
  entry_ok e -> name_ok (name e) ->
  entry_end (packed_entry e ++ rest) = Z.of_nat (length (packed_entry e)) - 1.
Proof.
  intros He [Ha Hn]. pose proof (entry_ok_fields e He) as (_&_&_&_&_&_&_&_&_&_&Hs).
  pose proof (length_packed_entry e He Ha) as Hl. pose proof (entry_pad_range (name e)).
  pose proof (entry_pad_align (name e)). pose proof (length_encode_ascii _ Ha) as He'.
  pose proof (encode_notin "000" (name e) ltac:(reflexivity) Hn) as Hnul.
  pose proof (Nat.div_mod_eq (62 + String.length (name e) + entry_pad (name e)) 8).
  rewrite Hl. apply entry_end_at; [lia | done | rewrite length_app; lia | |].
  - pose proof (length_entry_header e Hs). rewrite lookup_app_l by lia. unfold packed_entry.
    rewrite !lookup_app_r by lia. apply lookup_replicate. split; [done | lia].
  - intros j ? ?. pose proof (length_entry_header e Hs). pose proof (Nat.div_mod_eq (j + 1) 8).
    rewrite lookup_app_l by lia. unfold packed_entry. rewrite lookup_app_r, lookup_app_l by lia.
    intros Hj%list_elem_of_lookup_2. by apply Hnul.
Qed.

(** ** Reading and writing the whole index *)

Lemma read_entries_packed es rest :
  Forall entry_good es ->
  read_entries (length es) (mjoin (packed_entry <$> es) ++ rest) = Ok (mask_ino <$> es).
Proof.
  induction es as [|e es IH]; intros Hes; [done|]. apply Forall_cons in Hes as [[He Hn] Hes].
  rewrite fmap_cons. change (mjoin (?x :: ?l)) with (x ++ mjoin l). cbn [length read_entries].
  rewrite <- app_assoc.
  rewrite entry_end_packed by done. replace (Z.to_nat _) with (length (packed_entry e)) by lia.
  rewrite take_app_length. unfold packed_entry at 1. rewrite unpack_entry by done.
  rewrite length_app, (proj2 (Z.gtb_lt _ _)) by lia. rewrite drop_app_length, IH by done. done.
Qed.

Lemma pack_all_packed es :
  Forall entry_good es -> pack_all es = Some (mjoin (packed_entry <$> es)).
Proof.
  induction es as [|e es IH]; intros Hes; [done|]. apply Forall_cons in Hes as [[He [Ha _]] Hes].
  cbn [pack_all]. rewrite pack_ascii, IH by done. done.
Qed.

Lemma pack_count n : 0 <= n < 2 ^ 32 -> Struct.pack ">I" [VInt n] = Some (be_bytes 4 n).
Proof.
  intros Hn. unfold Struct.pack. change (parse_format ">I") with (Some [FI]). cbn [mbind option_bind].
  rewrite pack_codes_FI by done. reflexivity.
Qed.

Lemma index_body_layout es :
  Forall entry_good es -> Z.of_nat (length es) < 2 ^ 32 ->
  index_body es = Some (index_layout (encode "DIRC" ++ [x00; x00; x00; x02]) es []).
Proof.
  intros Hes Hlen. unfold index_body, index_layout. rewrite pack_count by lia.
  cbn [mbind option_bind]. rewrite pack_all_packed by done. by rewrite app_nil_r, <- app_assoc.
Qed.

Lemma entry_count_layout hdr es tr :
  length hdr = 8%nat -> Z.of_nat (length es) < 2 ^ 32 ->
  entry_count (index_layout hdr es tr) = Ok (Z.of_nat (length es)).
Proof.
  intros Hh Hlen. unfold entry_count, index_layout.
  rewrite app_assoc, take_app_length', drop_app_length' by (rewrite ?length_app, ?length_be_bytes; lia).
  unfold Struct.unpack. change (parse_format ">I") with (Some [FI]). cbn [mbind option_bind].
  rewrite decide_True by (rewrite length_be_bytes; reflexivity).
  rewrite <- (app_nil_r (be_bytes 4 _)), unpack_codes_FI. simpl. by rewrite Z.mod_small by lia.
Qed.

Lemma index_layout_app hdr es tr x : index_layout hdr es tr ++ x = index_layout hdr es (tr ++ x).
Proof. unfold index_layout. by rewrite <- !app_assoc. Qed.

Lemma length_packed_bytes e :
  length (take (String.length (name e)) (encode (name e)) ++
          replicate (String.length (name e) - length (encode (name e))) x00) = String.length (name e).
Proof. rewrite length_app, length_take, length_replicate. lia. Qed.

Lemma read_index_readonly gitdir : readonly (read_index gitdir).
Proof. unfold read_index. preserve_steps; eauto with vcs. Qed.

Section IndexIO.
Context `{Hasher} `{Codec}.

(** [read_index] on an existing index file: the count, then the entries. *)
Lemma read_index_data gitdir w d m :
  lookup_path w (path_slash gitdir "index") = Some (NFile d m) ->
  read_index gitdir w =
  (match entry_count d with Ok cnt => read_entries (Z.to_nat cnt) (drop 12 d) | Err x => Err x end, w).
Proof.
  intros Hl. unfold read_index. cbv zeta.
  erewrite sbind_apply by apply p_exists_run. cbv beta. rewrite Hl, bool_decide_true by done. cbn [negb].
  cbv iota. erewrite sbind_apply by (unfold read_bytes; rewrite Hl; reflexivity). cbv beta.
  unfold sbind, slift. by destruct (entry_count d).
Qed.

Lemma read_index_layout gitdir w hdr es tr m :
  lookup_path w (path_slash gitdir "index") = Some (NFile (index_layout hdr es tr) m) ->
  length hdr = 8%nat -> Z.of_nat (length es) < 2 ^ 32 -> Forall entry_good es ->
  read_index gitdir w = (Ok (mask_ino <$> es), w).
Proof.
  intros Hl Hh Hn Hes. rewrite (read_index_data _ _ _ _ Hl), entry_count_layout by done.
  unfold index_layout. rewrite app_assoc, drop_app_length' by (rewrite length_app, length_be_bytes; lia).
  by rewrite Nat2Z.id, read_entries_packed.
Qed.

Lemma write_index_body gitdir es data w :
  index_body es = Some data ->
  write_index gitdir es w = write_bytes (path_slash gitdir "index") (data ++ Fs.sha1 data) w.
Proof.
  intros Hb. unfold write_index, write_bytes, sbind. rewrite Hb.
  by destruct (open_wb _ w) as [[[]|] w1].
Qed.

(** One iteration of the staging loop only ever appends. *)
Lemma stage_one_appends entr p w r w' :
  stage_one entr p w = (Ok r, w') -> exists e, r = entr ++ [e] /\ name e = path_str p.
Proof.
  unfold stage_one, sbind, sof_option, sret.
  repeat (case_match; simplify_eq/=); intros; simplify_eq/=; eauto.
Qed.

Lemma sfoldl_stage_one paths entr w r w' :
  sfoldl stage_one paths entr w = (Ok r, w') ->
  exists news, r = entr ++ news /\ name <$> news = path_str <$> paths.
Proof.
  revert entr w. induction paths as [|p ps IH]; intros entr w Hrun.
  - injection Hrun as <- _. exists []. by rewrite app_nil_r.
  - cbn [sfoldl] in Hrun. unfold sbind at 1 in Hrun.
    destruct (stage_one entr p w) as [[r1|x] w1] eqn:Hs; [|done].
    apply stage_one_appends in Hs as (e & -> & He). apply IH in Hrun as (news & -> & Hn).
    exists (e :: news). rewrite <- app_assoc. split; [done|]. by rewrite !fmap_cons, He, Hn.
Qed.

End IndexIO.

Lemma pack_count_range n b : Struct.pack ">I" [VInt n] = Some b -> 0 <= n < 2 ^ 32.
Proof.
  unfold Struct.pack. change (parse_format ">I") with (Some [FI]). cbn [mbind option_bind pack_codes].
  destruct (Z.leb_spec 0 n), (Z.ltb_spec n (2 ^ 32)); simpl; done || lia.
Qed.

Lemma index_body_count es body : index_body es = Some body -> Z.of_nat (length es) < 2 ^ 32.
Proof.
  unfold index_body. destruct (Struct.pack _ _) eqn:E; [|done]. intros _.
  apply pack_count_range in E. lia.
Qed.

Lemma index_body_good es body :
  Forall entry_good es -> index_body es = Some body ->
  body = index_layout (encode "DIRC" ++ [x00; x00; x00; x02]) es [].
Proof.
  intros Hes Hb. pose proof (index_body_count _ _ Hb). rewrite index_body_layout in Hb by done. congruence.
Qed.

(** [pack] of an entry whose fields fit the format gives a
    multiple of 8 bytes: the 62 fixed bytes, [len(name)] bytes for the
    name, then between one and eight NUL bytes. *)
Theorem pack_length e :
  entry_ok e ->
  exists b, pack e = Some b /\ (length b mod 8 = 0)%nat /\
            (63 + String.length (name e) <= length b <= 70 + String.length (name e))%nat.
Proof.
  intros He. pose proof (entry_ok_fields e He) as (_&_&_&_&_&_&_&_&_&_&Hs).
  eexists. split; [apply pack_spec, He|].
  rewrite !length_app, length_entry_header, <- length_app, length_packed_bytes, length_replicate by done.
  pose proof (entry_pad_range (name e)). pose proof (entry_pad_align (name e)).
  rewrite Nat.add_assoc. split; [done | lia].
Qed.

(** C10 (round trip): an entry with fields that fit and an ASCII name
    without NUL is read back by [unpack] from the bytes [pack] gives,
    except that the inode keeps only its low 32 bits. *)
Theorem unpack_pack e b : entry_good e -> pack e = Some b -> unpack b = Ok (mask_ino e).
Proof.
  intros [He [Ha Hn]] Hp. rewrite pack_ascii in Hp by done. injection Hp as <-.
  by apply unpack_entry.
Qed.

Section IndexClaims.
Context `{Hasher} `{Codec}.

(** C4 (round trip): writing a list of good entries to a writable index
    and reading the index back gives the entries, inodes masked. *)
Theorem write_index_read_index gitdir es w :
  Forall entry_good es -> Z.of_nat (length es) < 2 ^ 32 -> index_writable w gitdir ->
  exists w', write_index gitdir es w = (Ok tt, w') /\ read_index gitdir w' = (Ok (mask_ino <$> es), w').
Proof.
  intros Hes Hn (Hne & Hnd & Hpar).
  rewrite (write_index_body _ _ _ _ (index_body_layout es Hes Hn)).
  edestruct write_bytes_spec as (m & w' & Hrun & Hfs & Hctx & _); [exact Hne | exact Hnd | exact Hpar |].
  exists w'. split; [exact Hrun|]. rewrite index_layout_app in Hfs.
  eapply read_index_layout; [eapply lookup_written; eassumption | done | done | done].
Qed.

(** C32 [read_index] checks neither the "DIRC" magic, the
    version nor the trailing SHA-1: replace the first 8 bytes of what
    [write_index] packs by anything and append anything, and the entries
    are still read. *)
Theorem read_index_unchecked gitdir w es body hdr tr m :
  Forall entry_good es -> index_body es = Some body -> length hdr = 8%nat ->
  lookup_path w (path_slash gitdir "index") = Some (NFile (hdr ++ drop 8 body ++ tr) m) ->
  read_index gitdir w = (Ok (mask_ino <$> es), w).
Proof.
  intros Hes Hb Hh Hl. pose proof (index_body_count _ _ Hb).
  rewrite (index_body_good es body) in Hl by done. unfold index_layout in Hl.
  rewrite drop_app_length', app_nil_r, <- !app_assoc in Hl by done.
  eapply (read_index_layout _ _ hdr es tr m); [exact Hl | done..].
Qed.

(** C34 (finding): when an entry does not fit the format (a negative or
    too large time or size, say), [write_index] raises [struct.error]
    after [open("wb")] has already emptied the index, and [read_index]
    then raises [struct.error] too: the staged files are lost. *)
Theorem write_index_truncates gitdir es w :
  index_body es = None -> index_writable w gitdir ->
  exists w', write_index gitdir es w = (Err StructError, w') /\ read_index gitdir w' = (Err StructError, w').
Proof.
  intros Hb (Hne & Hnd & Hpar).
  edestruct open_wb_spec as (m & w' & Hrun & Hfs & Hctx & _); [exact Hne | exact Hnd | exact Hpar |].
  exists w'. unfold write_index. cbv zeta. erewrite sbind_apply by exact Hrun. cbv beta.
  unfold sbind, sof_option. rewrite Hb. split; [done|].
  by rewrite (read_index_data _ _ _ _ (lookup_written _ _ _ _ _ Hne Hctx Hfs)).
Qed.

(** C33 (finding): [update_index] appends an entry for each staged path
    and never replaces one: staging a path that is already in the index
    writes an index with two entries of that name. *)
Theorem update_index_duplicates gitdir paths p old w w' :
  read_index gitdir w = (Ok old, w) -> p ∈ paths -> Exists (fun e => name e = path_str p) old ->
  update_index gitdir paths true w = (Ok tt, w') ->
  exists entries w1, write_index gitdir entries w1 = (Ok tt, w') /\
    (2 <= length (filter (fun e => name e = path_str p) entries))%nat.
Proof.
  intros Hr Hp Hold Hrun. unfold update_index in Hrun. erewrite sbind_apply in Hrun by exact Hr.
  cbv beta in Hrun. unfold sbind at 1 in Hrun.
  destruct (sfoldl stage_one paths old w) as [[r|x] w1] eqn:Hf; [|done].
  apply sfoldl_stage_one in Hf as (news & -> & Hn). exists (sort_by name (old ++ news)), w1.
  split; [exact Hrun|]. rewrite (sort_by_perm name (old ++ news)), filter_app, length_app.
  assert (Exists (fun e => name e = path_str p) news) as Hnew.
  { apply Exists_exists. apply (list_elem_of_fmap_2 path_str) in Hp. rewrite <- Hn in Hp.
    apply list_elem_of_fmap in Hp as (e & He & Hin). exists e. by split. }
  apply Exists_exists in Hold as (e1 & He1 & Hn1), Hnew as (e2 & He2 & Hn2).
  pose proof (proj2 (list_elem_of_filter (fun e => name e = path_str p) old e1) (conj Hn1 He1)) as Hf1.
  pose proof (proj2 (list_elem_of_filter (fun e => name e = path_str p) news e2) (conj Hn2 He2)) as Hf2.
  destruct (filter _ old); [by apply not_elem_of_nil in Hf1|].
  destruct (filter _ news); [by apply not_elem_of_nil in Hf2|]. simpl. lia.
Qed.

End IndexClaims.

(** ** Witnesses on the demo repository *)

Definition demo_sha : bytes := default [] (fromhex "32f95c0d1244a78b2be1bab8de17906fabb2c4a8").

Definition demo_entry : GitIndexEntry :=
  mkentry 1690000000 0 1690000001 0 5 77 33188 1000 1000 2 demo_sha 7 "a.txt".

Definition demo_packed : bytes := default [] (pack demo_entry).

(** An entry of a file modified before 1970: [struct] cannot pack it. *)
Definition demo_old_entry : GitIndexEntry :=
  mkentry 1690000000 0 (-1) 0 5 77 33188 1000 1000 2 demo_sha 7 "a.txt".

Definition demo_gitdir : pypath := path_of_string ".pyvcs".

(** The demo repository with an index whose magic, version and checksum
    are all wrong. *)
Definition demo_bad_hdr : bytes := encode "XXXX" ++ [x00; x00; x00; x09].

Definition demo_body : bytes := default [] (index_body [demo_entry]).

Definition demo_meta : meta := mkmeta 33188 9 0 0 0 1 1.

Definition demo_forged : world :=
  set_fs demo_repo (<[["home"; "r"; ".pyvcs"; "index"] :=
    NFile (demo_bad_hdr ++ drop 8 demo_body ++ encode "junk") demo_meta]> (w_fs demo_repo)).

(** The demo repository with "a.txt" in the working directory, staged once. *)
Definition demo_with_file : world :=
  set_fs demo_repo (<[["home"; "r"; "a.txt"] :=
    NFile (encode "hi") (mkmeta 33188 77 5 1000 1000 1690000000 1690000001)]> (w_fs demo_repo)).

Definition demo_staged : world :=
  snd (update_index demo_gitdir [path_of_string "a.txt"] true demo_with_file).

Definition demo_staged_entries : list GitIndexEntry :=
  match fst (read_index demo_gitdir demo_staged) with Ok l => l | Err _ => [] end.

Lemma pack_length_witness :
  entry_ok demo_entry /\
  exists b, pack demo_entry = Some b /\ (length b mod 8 = 0)%nat /\
            (63 + String.length (name demo_entry) <= length b <= 70 + String.length (name demo_entry))%nat.
Proof.
assert (He : entry_ok demo_entry) by (apply (bool_decide_unpack _); vm_compute; reflexivity).
split; [exact He|]. apply pack_length; exact He.
Defined.

Lemma unpack_pack_witness :
  entry_good demo_entry /\ pack demo_entry = Some demo_packed /\
  unpack demo_packed = Ok (mask_ino demo_entry).
Proof.
assert (He : entry_good demo_entry) by (apply (bool_decide_unpack _); vm_compute; reflexivity).
assert (Hp : pack demo_entry = Some demo_packed) by (vm_compute; reflexivity).
split; [exact He|]. split; [exact Hp|]. apply unpack_pack; assumption.
Defined.

Lemma write_index_read_index_witness :
  Forall entry_good [demo_entry] /\ Z.of_nat (length [demo_entry]) < 2 ^ 32 /\
  index_writable demo_repo demo_gitdir /\
  exists w', write_index demo_gitdir [demo_entry] demo_repo = (Ok tt, w') /\
             read_index demo_gitdir w' = (Ok (mask_ino <$> [demo_entry]), w').
Proof.
assert (Hg : Forall entry_good [demo_entry]) by (apply (bool_decide_unpack _); vm_compute; reflexivity).
assert (Hn : Z.of_nat (length [demo_entry]) < 2 ^ 32) by (simpl; lia).
assert (Hw : index_writable demo_repo demo_gitdir) by (apply (bool_decide_unpack _); vm_compute; reflexivity).
split; [exact Hg|]. split; [exact Hn|]. split; [exact Hw|]. apply write_index_read_index; assumption.
Defined.

Lemma read_index_unchecked_witness :
  Forall entry_good [demo_entry] /\ index_body [demo_entry] = Some demo_body /\
  length demo_bad_hdr = 8%nat /\
  lookup_path demo_forged (path_slash demo_gitdir "index") =
    Some (NFile (demo_bad_hdr ++ drop 8 demo_body ++ encode "junk") demo_meta) /\
  read_index demo_gitdir demo_forged = (Ok (mask_ino <$> [demo_entry]), demo_forged).
Proof.
assert (Hg : Forall entry_good [demo_entry]) by (apply (bool_decide_unpack _); vm_compute; reflexivity).
assert (Hb : index_body [demo_entry] = Some demo_body) by (vm_compute; reflexivity).
assert (Hh : length demo_bad_hdr = 8%nat) by reflexivity.
assert (Hl : lookup_path demo_forged (path_slash demo_gitdir "index") =
  Some (NFile (demo_bad_hdr ++ drop 8 demo_body ++ encode "junk") demo_meta)) by (vm_compute; reflexivity).
split; [exact Hg|]. split; [exact Hb|]. split; [exact Hh|]. split; [exact Hl|].
eapply read_index_unchecked; eassumption.
Defined.

Lemma write_index_truncates_witness :
  index_body [demo_old_entry] = None /\ index_writable demo_repo demo_gitdir /\
  exists w', write_index demo_gitdir [demo_old_entry] demo_repo = (Err StructError, w') /\
             read_index demo_gitdir w' = (Err StructError, w').
Proof.
assert (Hb : index_body [demo_old_entry] = None) by (vm_compute; reflexivity).
assert (Hw : index_writable demo_repo demo_gitdir) by (apply (bool_decide_unpack _); vm_compute; reflexivity).
split; [exact Hb|]. split; [exact Hw|]. apply write_index_truncates; assumption.
Defined.

Lemma update_index_duplicates_witness :
  read_index demo_gitdir demo_staged = (Ok demo_staged_entries, demo_staged) /\
  path_of_string "a.txt" ∈ [path_of_string "a.txt"] /\
  Exists (fun e => name e = path_str (path_of_string "a.txt")) demo_staged_entries /\
  update_index demo_gitdir [path_of_string "a.txt"] true demo_staged =
    (Ok tt, snd (update_index demo_gitdir [path_of_string "a.txt"] true demo_staged)) /\
  exists entries w1, write_index demo_gitdir entries w1 =
      (Ok tt, snd (update_index demo_gitdir [path_of_string "a.txt"] true demo_staged)) /\
    (2 <= length (filter (fun e => name e = path_str (path_of_string "a.txt")) entries))%nat.
Proof.
assert (Hr : read_index demo_gitdir demo_staged = (Ok demo_staged_entries, demo_staged)) by (vm_compute; reflexivity).
assert (Hp : path_of_string "a.txt" ∈ [path_of_string "a.txt"]) by (left).
assert (Hx : Exists (fun e => name e = path_str (path_of_string "a.txt")) demo_staged_entries)
  by (apply (bool_decide_unpack _); vm_compute; reflexivity).
assert (Hu : update_index demo_gitdir [path_of_string "a.txt"] true demo_staged =
    (Ok tt, snd (update_index demo_gitdir [path_of_string "a.txt"] true demo_staged))) by (vm_compute; reflexivity).
split; [exact Hr|]. split; [exact Hp|]. split; [exact Hx|]. split; [exact Hu|].
eapply update_index_duplicates; eassumption.
Defined.

End Index.
