(* ===== verification/Refs.v ===== *)
(** * References ([refs.py])

    A reference is a text file under the repository directory.  [HEAD]
    normally holds "ref: refs/heads/<branch>"; [get_ref] returns the second
    word of [HEAD], or "" when [HEAD] does not have exactly two words (a
    detached [HEAD] holding a commit id).  [ref_resolve] and [resolve_head]
    call each other; the pair is modelled as one fixpoint whose fuel stands
    for Python's recursion limit, so that a [HEAD] naming itself raises
    [RecursionError] as the program does.  Every text file is read as
    Python's text mode reads it: decoded, then ["\r\n"] and ["\r"]
    turned into ["\n"] ([Py.universal_newlines]); [strip] and [split]
    remove what [str.isspace] accepts ([Py.is_space]). *)

From S2P Require Import Prelude Py Fs Repo.

Open Scope Z_scope.

Module Refs.

(** [with p.open() as f: f.read()]: the bytes decoded as UTF-8, read in
    text mode with universal newlines. *)
Definition read_text (p : pypath) : IO string :=
  d <- read_bytes p ;; t <- sof_option UnicodeDecodeError (decode d) ;; sret (universal_newlines t).

(** [with p.open() as f:] when the body does not read [f]. *)
Definition open_r (p : pypath) : IO unit := read_bytes p ;;; sret tt.

Definition update_ref (gitdir : pypath) (ref : string) (new_value : string) : IO unit :=
  Repo.write_text (path_slash gitdir ref) new_value.

Definition symbolic_ref (gitdir : pypath) (name ref : string) : IO unit :=
  Repo.write_text (path_slash gitdir name) ref.

(** The word [get_ref] keeps from the text of [HEAD]. *)
Definition ref_of_head (s : string) : string :=
  match s_split_ws (s_strip s) with [_; r] => r | _ => EmptyString end.

Definition get_ref (gitdir : pypath) : IO string :=
  s <- read_text (path_slash gitdir "HEAD") ;; sret (ref_of_head s).

Definition is_detached (gitdir : pypath) : IO bool :=
  r <- get_ref gitdir ;; sret (String.eqb r EmptyString).

(** The body of [resolve_head], given the [ref_resolve] it calls. *)
Definition resolve_head_with (rr : pypath -> string -> IO (option string)) (gitdir : pypath)
  : IO (option string) :=
  open_r (path_slash gitdir "HEAD") ;;; r <- get_ref gitdir ;; rr gitdir r.

(** [ref_resolve], with [resolve_head] unfolded into it. *)
Fixpoint ref_resolve_fuel (fuel : nat) (gitdir : pypath) (refname : string) : IO (option string) :=
  match fuel with
  | O => sthrow RecursionError
  | S f =>
      follow <- (if String.eqb refname "HEAD" then d <- is_detached gitdir ;; sret (negb d)
                 else sret false) ;;
      if follow then resolve_head_with (ref_resolve_fuel f) gitdir
      else
        let p := path_slash gitdir refname in
        ex <- p_exists p ;;
        if ex then s <- read_text p ;; sret (Some (s_strip s)) else sret None
  end.

Definition ref_resolve (gitdir : pypath) (refname : string) : IO (option string) :=
  ref_resolve_fuel recursion_limit gitdir refname.

Definition resolve_head (gitdir : pypath) : IO (option string) :=
  resolve_head_with ref_resolve gitdir.

(** ** Lemmas *)

Lemma read_text_file p w d m t :
  lookup_path w p = Some (NFile d m) -> decode d = Some t -> read_text p w = (Ok (universal_newlines t), w).
Proof. intros Hl Hd. unfold read_text, sbind, read_bytes, sof_option. by rewrite Hl, Hd. Qed.

(** A text file that reads is a file that exists and opens. *)
Lemma read_text_ok p w t w' :
  read_text p w = (Ok t, w') -> w' = w /\ (exists d m, lookup_path w p = Some (NFile d m)).
Proof.
  unfold read_text, sbind, read_bytes, sof_option.
  destruct (lookup_path w p) as [[d m|]|]; [|done|done]. destruct (decode d); intros [=]; eauto.
Qed.

Lemma open_r_ok p w t : read_text p w = (Ok t, w) -> open_r p w = (Ok tt, w).
Proof.
  intros (_ & d & m & Hl)%read_text_ok. unfold open_r, sbind, read_bytes. by rewrite Hl.
Qed.

Lemma p_exists_text p w t : read_text p w = (Ok t, w) -> p_exists p w = (Ok true, w).
Proof.
  intros (_ & d & m & Hl)%read_text_ok. rewrite p_exists_run, Hl. by rewrite bool_decide_true.
Qed.

Section Head.
Variables (gitdir : pypath) (w : world) (s : string).
Hypothesis Hhead : read_text (path_slash gitdir "HEAD") w = (Ok s, w).

Lemma get_ref_file : get_ref gitdir w = (Ok (ref_of_head s), w).
Proof. unfold get_ref. by erewrite sbind_apply by exact Hhead. Qed.

Lemma is_detached_file : is_detached gitdir w = (Ok (String.eqb (ref_of_head s) EmptyString), w).
Proof. unfold is_detached. by erewrite sbind_apply by apply get_ref_file. Qed.

Lemma resolve_head_with_file rr : resolve_head_with rr gitdir w = rr gitdir (ref_of_head s) w.
Proof.
  unfold resolve_head_with. erewrite sbind_apply by exact (open_r_ok _ _ _ Hhead). cbv beta.
  by erewrite sbind_apply by apply get_ref_file.
Qed.

Lemma ref_resolve_follow f :
  ref_resolve_fuel (S f) gitdir "HEAD" w =
  (if String.eqb (ref_of_head s) EmptyString
   then (ex <- p_exists (path_slash gitdir "HEAD") ;;
         if ex then t <- read_text (path_slash gitdir "HEAD") ;; sret (Some (s_strip t)) else sret None) w
   else ref_resolve_fuel f gitdir (ref_of_head s) w).
Proof.
  cbn [ref_resolve_fuel String.eqb Ascii.eqb Bool.eqb].
  erewrite sbind_apply by (erewrite sbind_apply by apply is_detached_file; reflexivity).
  cbv beta. destruct (String.eqb (ref_of_head s) EmptyString); [done|]. apply resolve_head_with_file.
Qed.

(** Following an attached [HEAD] costs one unit of fuel. *)
Lemma ref_resolve_head_step f :
  ref_of_head s <> EmptyString ->
  ref_resolve_fuel (S f) gitdir "HEAD" w = ref_resolve_fuel f gitdir (ref_of_head s) w.
Proof. intros Hne. by rewrite ref_resolve_follow, (proj2 (String.eqb_neq _ _) Hne). Qed.

(** A detached [HEAD] is read as a plain reference. *)
Lemma ref_resolve_detached f :
  ref_of_head s = EmptyString -> ref_resolve_fuel (S f) gitdir "HEAD" w = (Ok (Some (s_strip s)), w).
Proof.
  intros He. rewrite ref_resolve_follow, He. simpl String.eqb. cbv iota.
  erewrite sbind_apply by exact (p_exists_text _ _ _ Hhead). cbv beta iota.
  by erewrite sbind_apply by exact Hhead.
Qed.

End Head.

(** Any other name is read from its file, when there is one. *)
Lemma ref_resolve_plain f gitdir refname w :
  refname <> "HEAD"%string ->
  ref_resolve_fuel (S f) gitdir refname w =
  (ex <- p_exists (path_slash gitdir refname) ;;
   if ex then t <- read_text (path_slash gitdir refname) ;; sret (Some (s_strip t)) else sret None) w.
Proof.
  intros Hne. cbn [ref_resolve_fuel]. rewrite (proj2 (String.eqb_neq _ _) Hne).
  by rewrite sbind_ret_l.
Qed.

Lemma ref_resolve_file f gitdir refname w t :
  refname <> "HEAD"%string -> read_text (path_slash gitdir refname) w = (Ok t, w) ->
  ref_resolve_fuel (S f) gitdir refname w = (Ok (Some (s_strip t)), w).
Proof.
  intros Hne Ht. rewrite ref_resolve_plain by done.
  erewrite sbind_apply by exact (p_exists_text _ _ _ Ht). cbv beta iota.
  by erewrite sbind_apply by exact Ht.
Qed.

Lemma path_slash_empty p : path_slash p "" = p.
Proof. destruct p as [a ps]. unfold path_slash, path_join. simpl. by rewrite app_nil_r. Qed.

(** Resolving references reads files and writes nothing. *)
Lemma read_text_readonly p : readonly (read_text p).
Proof. unfold read_text. preserve_steps; eauto with vcs. Qed.

Lemma get_ref_readonly g : readonly (get_ref g).
Proof. unfold get_ref. preserve_steps; eauto using read_text_readonly with vcs. Qed.

Lemma ref_resolve_fuel_readonly fuel g r : readonly (ref_resolve_fuel fuel g r).
Proof.
  revert r. induction fuel as [|f IH]; intros r; simpl; [eauto with vcs|].
  unfold resolve_head_with, is_detached, open_r. preserve_steps; eauto using read_text_readonly, get_ref_readonly with vcs.
Qed.

Lemma resolve_head_readonly g : readonly (resolve_head g).
Proof.
  unfold resolve_head, resolve_head_with, open_r, ref_resolve.
  preserve_steps; eauto using get_ref_readonly, ref_resolve_fuel_readonly with vcs.
Qed.

(** ** Properties of references *)

(** C12 (round trip): writing a value to a reference other than [HEAD]
    and resolving that reference gives the value as text mode reads it
    back (["\r\n"] and ["\r"] turned into ["\n"]), without its
    surrounding whitespace. *)
Theorem update_ref_resolve gitdir ref v w :
  ref <> "HEAD"%string -> writable w (path_slash gitdir ref) ->
  exists w', update_ref gitdir ref v w = (Ok tt, w') /\
             ref_resolve gitdir ref w' = (Ok (Some (s_strip (universal_newlines v))), w').
Proof.
  intros Hne (Hn & Hd & Hp). unfold update_ref, Repo.write_text.
  edestruct write_bytes_spec as (m & w' & Hrun & Hfs & Hc & _); [exact Hn | exact Hd | exact Hp |].
  exists w'. split; [exact Hrun|]. apply ref_resolve_file; [done|].
  eapply read_text_file; [eapply lookup_written; eassumption | apply decode_encode].
Qed.

(** C13 (functional): with [HEAD] naming a branch, [resolve_head] returns
    the text of that branch's file as text mode reads it (line ends
    translated to ["\n"]), stripped of Python whitespace. *)
Theorem resolve_head_attached gitdir w s t :
  read_text (path_slash gitdir "HEAD") w = (Ok s, w) ->
  ref_of_head s <> EmptyString -> ref_of_head s <> "HEAD"%string ->
  read_text (path_slash gitdir (ref_of_head s)) w = (Ok t, w) ->
  resolve_head gitdir w = (Ok (Some (s_strip t)), w).
Proof.
  intros Hh He Hne Ht. unfold resolve_head. rewrite (resolve_head_with_file _ _ _ Hh).
  by apply ref_resolve_file.
Qed.

(** C36 (finding): with a detached [HEAD] (one word, a commit id),
    [ref_resolve(gitdir, "HEAD")] reads the id, but [resolve_head] asks for
    the reference "", opens [gitdir / ""], the repository directory
    itself, and raises [IsADirectoryError]. *)
Theorem resolve_head_detached gitdir w s :
  read_text (path_slash gitdir "HEAD") w = (Ok s, w) -> ref_of_head s = EmptyString ->
  lookup_path w gitdir = Some NDir ->
  ref_resolve gitdir "HEAD" w = (Ok (Some (s_strip s)), w) /\
  resolve_head gitdir w = (Err IsADirectoryError, w).
Proof.
  intros Hh He Hd. split; [by apply ref_resolve_detached|].
  unfold resolve_head. rewrite (resolve_head_with_file _ _ _ Hh), He. unfold ref_resolve.
  change recursion_limit with (S (pred recursion_limit)). rewrite ref_resolve_plain by done. rewrite path_slash_empty.
  erewrite sbind_apply by apply p_exists_run. cbv beta. rewrite Hd, bool_decide_true by done.
  unfold read_text, sbind, read_bytes. by rewrite Hd.
Qed.

(** C37 (termination): a [HEAD] that names itself ("ref: HEAD") sends
    [ref_resolve] and [resolve_head] into endless mutual recursion: with
    any fuel, that is at any recursion limit, the result is
    [RecursionError]. *)
Theorem ref_resolve_cycle gitdir w s fuel :
  read_text (path_slash gitdir "HEAD") w = (Ok s, w) -> ref_of_head s = "HEAD"%string ->
  ref_resolve_fuel fuel gitdir "HEAD" w = (Err RecursionError, w).
Proof.
  intros Hh He. induction fuel as [|f IH]; [done|].
  rewrite (ref_resolve_head_step _ _ _ Hh f) by (rewrite He; discriminate). by rewrite He.
Qed.

(** ** Witnesses on the demo repository *)

Definition demo_gitdir : pypath := path_of_string ".pyvcs".

Definition demo_id : string := "32f95c0d1244a78b2be1bab8de17906fabb2c4a8".

Definition demo_master : world :=
  snd (update_ref demo_gitdir "refs/heads/master" (demo_id +:+ String "010" EmptyString)%stdpp demo_repo).

Definition demo_detached : world :=
  snd (symbolic_ref demo_gitdir "HEAD" (demo_id +:+ String "010" EmptyString)%stdpp demo_repo).

Definition demo_cycle : world := snd (symbolic_ref demo_gitdir "HEAD" "ref: HEAD" demo_repo).

Lemma update_ref_resolve_witness :
  "refs/heads/master"%string <> "HEAD"%string /\ writable demo_repo (path_slash demo_gitdir "refs/heads/master") /\
  exists w', update_ref demo_gitdir "refs/heads/master" demo_id demo_repo = (Ok tt, w') /\
             ref_resolve demo_gitdir "refs/heads/master" w' = (Ok (Some (s_strip (universal_newlines demo_id))), w').
Proof.
assert (Hne : "refs/heads/master"%string <> "HEAD"%string) by discriminate.
assert (Hw : writable demo_repo (path_slash demo_gitdir "refs/heads/master"))
  by (apply (bool_decide_unpack _); vm_compute; reflexivity).
split; [exact Hne|]. split; [exact Hw|]. apply update_ref_resolve; assumption.
Defined.

Lemma resolve_head_attached_witness :
  read_text (path_slash demo_gitdir "HEAD") demo_master = (Ok ("ref: refs/heads/master" +:+ String "010" EmptyString)%stdpp, demo_master) /\
  resolve_head demo_gitdir demo_master = (Ok (Some demo_id), demo_master).
Proof.
assert (Hh : read_text (path_slash demo_gitdir "HEAD") demo_master =
  (Ok ("ref: refs/heads/master" +:+ String "010" EmptyString)%stdpp, demo_master)) by (vm_compute; reflexivity).
assert (Ht : read_text (path_slash demo_gitdir "refs/heads/master") demo_master =
  (Ok (demo_id +:+ String "010" EmptyString)%stdpp, demo_master)) by (vm_compute; reflexivity).
split; [exact Hh|].
assert (E : Some demo_id = Some (s_strip (demo_id +:+ String "010" EmptyString)%stdpp)) by (vm_compute; reflexivity).
rewrite E. apply (resolve_head_attached _ _ _ _ Hh); [vm_compute; discriminate | vm_compute; discriminate | exact Ht].
Defined.

Lemma resolve_head_detached_witness :
  read_text (path_slash demo_gitdir "HEAD") demo_detached = (Ok (demo_id +:+ String "010" EmptyString)%stdpp, demo_detached) /\
  ref_of_head (demo_id +:+ String "010" EmptyString)%stdpp = EmptyString /\
  lookup_path demo_detached demo_gitdir = Some NDir /\
  ref_resolve demo_gitdir "HEAD" demo_detached = (Ok (Some (s_strip (demo_id +:+ String "010" EmptyString)%stdpp)), demo_detached) /\
  resolve_head demo_gitdir demo_detached = (Err IsADirectoryError, demo_detached).
Proof.
assert (Hh : read_text (path_slash demo_gitdir "HEAD") demo_detached =
  (Ok (demo_id +:+ String "010" EmptyString)%stdpp, demo_detached)) by (vm_compute; reflexivity).
assert (He : ref_of_head (demo_id +:+ String "010" EmptyString)%stdpp = EmptyString) by (vm_compute; reflexivity).
assert (Hd : lookup_path demo_detached demo_gitdir = Some NDir) by (vm_compute; reflexivity).
split; [exact Hh|]. split; [exact He|]. split; [exact Hd|]. apply resolve_head_detached; assumption.
Defined.

Lemma ref_resolve_cycle_witness :
  read_text (path_slash demo_gitdir "HEAD") demo_cycle = (Ok "ref: HEAD"%string, demo_cycle) /\
  ref_of_head "ref: HEAD" = "HEAD"%string /\
  ref_resolve demo_gitdir "HEAD" demo_cycle = (Err RecursionError, demo_cycle).
Proof.
assert (Hh : read_text (path_slash demo_gitdir "HEAD") demo_cycle = (Ok "ref: HEAD"%string, demo_cycle))
  by (vm_compute; reflexivity).
assert (He : ref_of_head "ref: HEAD" = "HEAD"%string) by (vm_compute; reflexivity).
split; [exact Hh|]. split; [exact He|]. apply (ref_resolve_cycle _ _ _ recursion_limit Hh He).
Defined.

End Refs.
