(* ===== verification/Tree.v ===== *)
(** * Trees and commits ([tree.py])

    [write_tree] lists the directory [gitdir.parent / dirname], puts every
    index entry whose name is one of the listed paths into the tree, groups
    the others by [entry.name.lstrip(dirname).split("/", 1)[0]] (an
    insertion-ordered dict), writes one subtree per group by a recursive
    call, sorts the records by path and stores the tree object.  The
    recursion is modelled with fuel standing for Python's recursion limit.
    [commit_tree] formats the commit text from the environment, the clock
    and the timezone and stores the commit object. *)

From S2P Require Import Prelude Py Fs Sha1 Repo Objects Index Refs.

Open Scope Z_scope.

Module Tree.

(** A record of [tree_content]: mode, path, raw object id. *)
Definition titem : Type := Z * string * bytes.

Definition titem_path (x : titem) : string := x.1.2.

(** [subtrees[dname].append(entry)], creating the key at the end if new. *)
Fixpoint dict_append {A} (k : string) (v : A) (d : list (string * list A)) : list (string * list A) :=
  match d with
  | [] => [(k, [v])]
  | (k', vs) :: d' => if String.eqb k k' then (k', vs ++ [v]) :: d' else (k', vs) :: dict_append k v d'
  end.

(** [entry.name.lstrip(dirname).split("/", 1)[0]] *)
Definition dname_of (dirname nm : string) : string :=
  default EmptyString (head (s_split1 "/" (s_lstrip dirname nm))).

Section WithHasher.
Context `{Hasher} `{Codec}.

(** One iteration of the [for entry in index] loop. *)
Definition classify_step (gitdir : pypath) (dirname : string) (files : list string)
    (acc : list titem * list (string * list Index.GitIndexEntry)) (e : Index.GitIndexEntry)
    : list titem * list (string * list Index.GitIndexEntry) :=
  let '(tc, subs) := acc in
  if decide (Index.name e ∈ files)
  then (tc ++ [(Index.mode e, path_str (path_slash (path_parent gitdir) (Index.name e)), Index.sha1 e)], subs)
  else (tc, dict_append (dname_of dirname (Index.name e)) e subs).

Definition classify (gitdir : pypath) (dirname : string) (files : list string)
    (index : list Index.GitIndexEntry) : list titem * list (string * list Index.GitIndexEntry) :=
  fold_left (classify_step gitdir dirname files) index ([], []).

(** The directory a subtree is written from. *)
Definition sub_dirname (dirname nm : string) : string :=
  if String.eqb dirname EmptyString then nm else (dirname +:+ "/" +:+ nm)%stdpp.

(** [elem[1].split('/')[-1]] *)
Definition tree_name (x : titem) : string := py_last EmptyString (s_split "/" x.1.2).

(** [f"{elem[0]:o} {elem[1].split('/')[-1]}".encode() + b"\00" + elem[2]] *)
Definition tree_line (x : titem) : bytes := encode (fmt_o x.1.1 +:+ " " +:+ tree_name x)%stdpp ++ [x00] ++ x.2.

Definition tree_data (tc : list titem) : bytes := mjoin (tree_line <$> tc).

(** Records [read_tree] reads back: a mode, a name without NUL or space,
    a 20-byte id. *)
Definition titem_ok (x : titem) : Prop :=
  0 <= x.1.1 /\ length x.2 = 20%nat /\ s_index "000" (tree_name x) = None /\ s_index " " (tree_name x) = None.

#[global] Instance titem_ok_dec x : Decision (titem_ok x).
Proof. unfold titem_ok. apply _. Defined.

(** What [read_tree] gives for a record: the octal mode text read in
    decimal, the name, the hex id. *)
Definition tree_view (x : titem) : Z * string * string := (octal_as_decimal x.1.1, tree_name x, hex x.2).

Fixpoint write_tree_fuel (fuel : nat) (gitdir : pypath) (index : list Index.GitIndexEntry)
    (dirname : string) : IO string :=
  match fuel with
  | O => sthrow RecursionError
  | S f =>
      xs <- glob_star (path_slash (path_parent gitdir) dirname) ;;
      let '(tc, subs) := classify gitdir dirname (path_str <$> xs) index in
      tc' <- sfoldl (fun tc '(nm, es) =>
               sha <- write_tree_fuel f gitdir es (sub_dirname dirname nm) ;;
               raw <- sof_option ValueError (fromhex sha) ;;
               sret (tc ++ [(16384, path_str (path_slash (path_slash (path_parent gitdir) dirname) nm), raw)]))
             subs tc ;;
      Objects.hash_object (tree_data (sort_by titem_path tc')) "tree" true
  end.

Definition write_tree (gitdir : pypath) (index : list Index.GitIndexEntry) (dirname : string) : IO string :=
  write_tree_fuel recursion_limit gitdir index dirname.

(** [time.timezone] as [+HHMM] / [-HHMM] (the sign is that of the offset
    east of UTC). *)
Definition tz_string (tz : Z) : string :=
  ((if tz >? 0 then "-" else "+") +:+ fmt_0w 2 (Z.abs tz / 60 / 60) +:+ fmt_0w 2 (Z.abs tz / 60 mod 60))%stdpp.

(** The lines of the commit text; an absent author is printed as "None". *)
Definition commit_lines (tree message : string) (parent author : option string) (now tz : Z) : list string :=
  let a := default "None"%string author in
  let stamp := (a +:+ " " +:+ str_of_Z now +:+ " " +:+ tz_string tz)%stdpp in
  (["tree " +:+ tree] ++ (match parent with Some p => ["parent " +:+ p] | None => [] end) ++
   ["author " +:+ stamp; "committer " +:+ stamp;
    String "010" (message +:+ String "010" EmptyString)])%stdpp.

(** The commit text [commit_tree] stores. *)
Definition commit_text (tree message : string) (parent author : option string) (now tz : Z) : bytes :=
  encode (s_join (String "010" EmptyString) (commit_lines tree message parent author now tz)).

(** The author [commit_tree] uses: the argument, else
    "$GIT_AUTHOR_NAME <$GIT_AUTHOR_EMAIL>" when both are set. *)
Definition commit_author (author : option string) : IO (option string) :=
  match author with
  | Some a => sret (Some a)
  | None =>
      nm <- getenv "GIT_AUTHOR_NAME" ;;
      em <- getenv "GIT_AUTHOR_EMAIL" ;;
      match nm, em with
      | Some n, Some e => sret (Some (n +:+ " " +:+ "<" +:+ e +:+ ">")%stdpp)
      | _, _ => sret None
      end
  end.

Definition commit_tree (gitdir : pypath) (tree message : string) (parent author : option string) : IO string :=
  a <- commit_author author ;;
  w <- sget ;;
  Objects.hash_object (commit_text tree message parent a (w_clock w) (w_timezone w)) "commit" true.

End WithHasher.

(** ** The tree format read back *)

Lemma encode_space : encode " " = [" "%byte].
Proof. reflexivity. Qed.
Lemma tree_record_line x rest :
  titem_ok x -> Objects.tree_record (tree_line x ++ rest) = Ok (octal_as_decimal x.1.1, tree_name x, hex x.2, rest).
Proof.
  destruct x as [[m p] sha]. intros (Hm & Hs & Hnul & Hsp). simpl in *.
  pose proof (digits_of_8_dec m Hm) as Hd.
  set (nm := tree_name (m, p, sha)) in *. set (L := encode (fmt_o m +:+ " " +:+ nm)%stdpp).
  assert (HL : x00 ∉ L).
  { apply (encode_notin "000"); [reflexivity|]. apply s_index_app_none; [rewrite fmt_o_digits by done; by apply s_index_digits; [|left; reflexivity]|].
    by apply s_index_app_none. }
  unfold tree_line, Objects.tree_record. fold nm L. cbn [fst snd].
  rewrite <- app_assoc. cbn [app]. rewrite b_index_app_sep by done. rewrite take_app_length.
  unfold L. rewrite !encode_app, encode_space. cbn [app].
  rewrite b_split_app_sep, b_split_nosep.
  - rewrite !decode_encode, py_int_fmt_o by done.
    remember (encode (fmt_o m) ++ " "%byte :: encode nm) as L'.
    rewrite drop_after_sep, take_app_length' by done.
    replace (length L' + 21)%nat with (S (length L') + 20)%nat by lia.
    by rewrite <- drop_drop, drop_after_sep, drop_app_length' by done.
  - apply (encode_notin " "); [reflexivity | done].
  - apply (encode_notin " "); [reflexivity|]. rewrite fmt_o_digits by done. apply s_index_digits; [done | left; reflexivity].
Qed.

Lemma length_tree_line x : titem_ok x -> (21 <= length (tree_line x))%nat.
Proof. intros (_ & Hs & _). unfold tree_line. rewrite !length_app, Hs. simpl. lia. Qed.

Lemma read_tree_loop_data n tc :
  Forall titem_ok tc -> (length (tree_data tc) < n)%nat ->
  Objects.read_tree_loop n (tree_data tc) = Ok (tree_view <$> tc).
Proof.
  revert n. induction tc as [|x tc IH]; intros n Hok Hn; destruct n as [|n]; try (simpl in *; lia); [done|].
  apply Forall_cons in Hok as [Hx Hok]. pose proof (length_tree_line x Hx).
  change (tree_data (x :: tc)) with (tree_line x ++ tree_data tc) in *. rewrite length_app in Hn.
  destruct (tree_line x ++ tree_data tc) as [|b d] eqn:E; [apply (f_equal length) in E; rewrite length_app in E; simpl in E; lia|].
  cbn [Objects.read_tree_loop]. rewrite <- E, tree_record_line, IH by (done || lia). done.
Qed.

(** C24 (round trip): [read_tree] reads back the records [write_tree]
    formats, except that the mode comes back as its octal text read in
    decimal (40000 for a directory, 100644 for a file). *)
Theorem read_tree_tree_data tc : Forall titem_ok tc -> Objects.read_tree (tree_data tc) = Ok (tree_view <$> tc).
Proof. intros Hok. apply read_tree_loop_data; [done | lia]. Qed.

(** ** Grouping entries *)

Lemma classify_done g d files done acc :
  Forall (fun x => Index.name x ∈ files) done ->
  exists tc, fold_left (classify_step g d files) done (acc, []) = (tc, []).
Proof.
  revert acc. induction done as [|x done IH]; intros acc Hd; [by eexists|].
  apply Forall_cons in Hd as [Hx Hd]. simpl. rewrite decide_True by done. apply IH, Hd.
Qed.

Lemma classify_keep_head g d files k e es subs tc rest :
  exists tc' es' subs', fold_left (classify_step g d files) rest (tc, (k, e :: es) :: subs) =
                        (tc', (k, e :: es') :: subs').
Proof.
  revert tc es subs. induction rest as [|x rest IH]; intros tc es subs; [by eauto|].
  simpl. case_decide; [apply IH|]. simpl. destruct (String.eqb _ k); [apply IH | apply IH].
Qed.

(** The first entry that is not a listed file opens the first group. *)
Lemma classify_head g d files done e rest :
  Forall (fun x => Index.name x ∈ files) done -> Index.name e ∉ files ->
  exists tc es subs, classify g d files (done ++ e :: rest) = (tc, (dname_of d (Index.name e), e :: es) :: subs).
Proof.
  intros Hd He. unfold classify. rewrite fold_left_app.
  destruct (classify_done g d files done [] Hd) as [tc Htc]. rewrite Htc. simpl.
  rewrite decide_False by done. apply (classify_keep_head g d files _ e [] []).
Qed.

Section Loop.
Context `{Hasher} `{Codec}.

(** Once [dirname] holds every character of a name that is not on disk,
    [lstrip] eats the whole name, the group is "", and the recursive call
    lists the same missing directory again. *)
Lemma write_tree_loop fuel g e rest d w :
  d <> EmptyString -> s_lstrip d (Index.name e) = EmptyString ->
  lookup_path w (path_slash (path_parent g) d) = None ->
  write_tree_fuel fuel g (e :: rest) d w = (Err RecursionError, w).
Proof.
  revert e rest d. induction fuel as [|f IH]; intros e rest d Hd Hs Hl; [done|].
  cbn [write_tree_fuel]. erewrite sbind_apply by exact (glob_star_missing _ _ Hl). cbv beta.
  destruct (classify_head g d [] [] e rest) as (tc & es & subs & Hc); [done | apply not_elem_of_nil |].
  simpl in Hc. change (path_str <$> []) with (@nil string). rewrite Hc. unfold dname_of. rewrite Hs. cbn [s_split1 s_index head default].
  apply sbind_apply_err, sfoldl_cons_err, sbind_apply_err.
  unfold sub_dirname. rewrite (proj2 (String.eqb_neq _ _) Hd). change ("/" +:+ "")%stdpp with "/"%string.
  apply IH.
  - by destruct d.
  - by apply s_lstrip_mono.
  - unfold path_slash in *. by rewrite path_of_string_slash.
Qed.

(** [write_tree] and [commit_tree] write only objects. *)
Lemma write_tree_preserves fuel g index d : preserves Objects.store_step (write_tree_fuel fuel g index d).
Proof.
  revert index d. induction fuel as [|f IH]; intros index d; cbn [write_tree_fuel]; [apply preserves_throw; apply _|].
  preserve_steps; eauto using Objects.hash_object_preserves with vcs typeclass_instances.
Qed.

Lemma commit_tree_preserves g tree msg parent author :
  preserves Objects.store_step (commit_tree g tree msg parent author).
Proof.
  unfold commit_tree, commit_author. preserve_steps; eauto using Objects.hash_object_preserves with vcs typeclass_instances.
Qed.

(** C35 (finding): a staged file that is no longer on disk makes
    [write_tree] recurse forever: the name is not among the listed files,
    so it becomes a subtree; one level down [dirname] holds every
    character of the name, [lstrip] removes it entirely, and the same
    missing directory is listed again with a trailing "/".  With any
    fuel, that is at any recursion limit, the result is [RecursionError]. *)
Theorem write_tree_missing_file fuel g d done e rest w xs :
  d <> EmptyString -> glob_star (path_slash (path_parent g) d) w = (Ok xs, w) ->
  Forall (fun x => Index.name x ∈ (path_str <$> xs)) done -> (Index.name e ∉ (path_str <$> xs)) ->
  s_index "/" (Index.name e) = None ->
  lookup_path w (path_slash (path_parent g) (d +:+ "/" +:+ s_lstrip d (Index.name e))%stdpp) = None ->
  write_tree_fuel fuel g (done ++ e :: rest) d w = (Err RecursionError, w).
Proof.
  intros Hd Hg Hdone He Hs Hl. destruct fuel as [|f]; [done|].
  cbn [write_tree_fuel]. erewrite sbind_apply by exact Hg. cbv beta.
  destruct (classify_head g d (path_str <$> xs) done e rest) as (tc & es & subs & Hc); [done | done |].
  rewrite Hc. unfold dname_of, s_split1. rewrite (s_index_lstrip _ _ _ Hs). cbn [head default].
  apply sbind_apply_err, sfoldl_cons_err, sbind_apply_err.
  unfold sub_dirname. rewrite (proj2 (String.eqb_neq _ _) Hd).
  apply write_tree_loop; [by destruct d | apply s_lstrip_extend | exact Hl].
Qed.

Lemma commit_author_unset w :
  w_env w !! "GIT_AUTHOR_NAME"%string = None -> commit_author None w = (Ok None, w).
Proof. intros He. unfold commit_author, sbind, getenv. rewrite He. by destruct (w_env w !! _). Qed.

(** Without an author argument and without
    [$GIT_AUTHOR_NAME], [commit_tree] stores a commit whose author and
    committer lines read "None <time> <zone>": the text read back is the
    commit text built with no author, returned under the SHA-1 of its frame. *)
Theorem commit_tree_no_author g tree msg parent w :
  Repo.repo_here w -> Objects.store_wf w -> w_env w !! "GIT_AUTHOR_NAME"%string = None ->
  let text := commit_text tree msg parent None (w_clock w) (w_timezone w) in
  exists w', commit_tree g tree msg parent None w = (Ok (hex (sha1 (Objects.frame "commit" text))), w') /\
             Objects.read_object (hex (sha1 (Objects.frame "commit" text))) g w' = (Ok ("commit"%string, text), w').
Proof.
  intros Hr Hwf He text. unfold commit_tree.
  erewrite sbind_apply by exact (commit_author_unset w He). cbv beta. unfold sbind at 1, sget.
  destruct (Objects.hash_object_write_spec w text "commit" Hr Hwf) as (w' & m & Hrun & Hl & _ & Hg & Hc & _).
  exists w'. split; [exact Hrun|].
  rewrite (Objects.read_object_at w' _ g (compress (Objects.frame "commit" text)) m);
    [| eapply Objects.repo_here_grow; eauto | apply Objects.sha_dir_plain | apply Objects.sha_file_plain
     | by rewrite (Objects.objects_loc_same w w' Hc)].
  rewrite decompress_compress, Objects.parse_frame_frame; [done|]. split; reflexivity.
Qed.

End Loop.

(** ** Witnesses on the demo repository *)

Definition demo_gitdir : pypath := path_of_string ".pyvcs".

Definition demo_items : list titem := [(33188, "a.txt"%string, Index.demo_sha); (16384, "d"%string, Index.demo_sha)].

(** "a.txt" staged, then deleted from the working directory. *)
Definition demo_deleted : world :=
  set_fs Index.demo_staged (delete ["home"; "r"; "a.txt"] (w_fs Index.demo_staged)).

Definition demo_listing : list pypath := [path_slash (path_slash (path_parent demo_gitdir) ".") ".pyvcs"].

Lemma read_tree_tree_data_witness :
  Forall titem_ok demo_items /\
  Objects.read_tree (tree_data demo_items) = Ok (tree_view <$> demo_items).
Proof.
assert (Hok : Forall titem_ok demo_items) by (apply (bool_decide_unpack _); vm_compute; reflexivity).
split; [exact Hok|]. apply read_tree_tree_data; exact Hok.
Defined.

Lemma write_tree_missing_file_witness :
  "."%string <> EmptyString /\
  glob_star (path_slash (path_parent demo_gitdir) ".") demo_deleted = (Ok demo_listing, demo_deleted) /\
  Forall (fun x => Index.name x ∈ (path_str <$> demo_listing)) [] /\
  (Index.name Index.demo_entry ∉ (path_str <$> demo_listing)) /\
  s_index "/" (Index.name Index.demo_entry) = None /\
  lookup_path demo_deleted (path_slash (path_parent demo_gitdir) ("." +:+ "/" +:+ s_lstrip "." (Index.name Index.demo_entry))%stdpp) = None /\
  write_tree demo_gitdir [Index.demo_entry] "." demo_deleted = (Err RecursionError, demo_deleted).
Proof.
assert (Hd : "."%string <> EmptyString) by discriminate.
assert (Hg : glob_star (path_slash (path_parent demo_gitdir) ".") demo_deleted = (Ok demo_listing, demo_deleted))
  by (vm_compute; reflexivity).
assert (Hdone : Forall (fun x => Index.name x ∈ (path_str <$> demo_listing)) []) by constructor.
assert (He : Index.name Index.demo_entry ∉ (path_str <$> demo_listing)) by (apply (bool_decide_unpack _); vm_compute; reflexivity).
assert (Hs : s_index "/" (Index.name Index.demo_entry) = None) by (vm_compute; reflexivity).
assert (Hl : lookup_path demo_deleted (path_slash (path_parent demo_gitdir) ("." +:+ "/" +:+ s_lstrip "." (Index.name Index.demo_entry))%stdpp) = None)
  by (vm_compute; reflexivity).
do 6 (split; [assumption|]).
exact (write_tree_missing_file recursion_limit demo_gitdir "." [] Index.demo_entry [] demo_deleted demo_listing Hd Hg Hdone He Hs Hl).
Defined.

Lemma commit_tree_no_author_witness :
  Repo.repo_here demo_repo /\ Objects.store_wf demo_repo /\ w_env demo_repo !! "GIT_AUTHOR_NAME"%string = None /\
  exists w', commit_tree demo_gitdir "959186c87f11cedbc03fb0aa728575ce3dbf3335" "msg" None None demo_repo =
    (Ok "44460d55e369bf3cfc2cba6c870c73c8df5c2ec2"%string, w') /\ Objects.read_object "44460d55e369bf3cfc2cba6c870c73c8df5c2ec2" demo_gitdir w' =
    (Ok ("commit"%string, commit_text "959186c87f11cedbc03fb0aa728575ce3dbf3335" "msg" None None 1700000000 0), w').
Proof.
assert (Hr : Repo.repo_here demo_repo) by (vm_compute; eexists; reflexivity).
assert (Hw : Objects.store_wf demo_repo) by (apply (bool_decide_unpack _); vm_compute; reflexivity).
assert (He : w_env demo_repo !! "GIT_AUTHOR_NAME"%string = None) by reflexivity.
split; [exact Hr|]. split; [exact Hw|]. split; [exact He|].
assert (Hn : hex (sha1 (Objects.frame "commit" (commit_text "959186c87f11cedbc03fb0aa728575ce3dbf3335" "msg" None None 1700000000 0)))
  = "44460d55e369bf3cfc2cba6c870c73c8df5c2ec2"%string) by (vm_compute; reflexivity).
rewrite <- Hn. exact (commit_tree_no_author demo_gitdir "959186c87f11cedbc03fb0aa728575ce3dbf3335" "msg" None demo_repo Hr Hw He).
Defined.

End Tree.
