(* ===== verification/Porcelain.v ===== *)
(** * The user commands ([porcelain.py])

    [add] stages files, descending into directories through [glob("*")];
    [commit] writes the tree of the index and a commit whose parent is
    what [HEAD] resolves to; [checkout] removes the staged files, then
    walks the commit and its ancestors, writing every file and directory
    of their trees that is not already on disk, and finally removes the
    empty top-level directories.  The recursion of [add] has the recursion
    limit as fuel; the two [while] loops of [checkout] have the number of
    paths of the world as fuel, which is enough when the objects form no
    cycle and every tree path becomes a distinct directory. *)

From S2P Require Import Prelude Py Fs Sha1 Repo Objects Index Refs Tree.

Open Scope Z_scope.

Module Porcelain.

(** [commit_data[k]] for a string field. *)
Definition cdata_str (d : gmap string Objects.cval) (k : string) : result string :=
  match d !! k with
  | Some (Objects.CStr s) => Ok s
  | Some (Objects.CList _) => Err TypeError
  | None => Err KeyError
  end.

(** The exceptions [except OSError] catches. *)
Definition is_oserror (e : exn) : bool :=
  match e with
  | FileNotFoundError | FileExistsError | IsADirectoryError | NotADirectoryError | OSError => true
  | _ => false
  end.

(** [try: c except OSError: pass] *)
Definition try_oserror (c : IO unit) : IO unit :=
  fun w => match c w with
           | (Err e, w') => if is_oserror e then (Ok tt, w') else (Err e, w')
           | r => r
           end.

(** The [while head and tail] loop of [os.removedirs]: remove ancestors
    until one cannot be removed. *)
Fixpoint removedirs_up (fuel : nat) (head : pypath) : IO unit :=
  match fuel with
  | O => sret tt
  | S f =>
      if negb (p_abs head) && bool_decide (p_parts head = []) then sret tt
      else fun w => match os_rmdir head w with
                    | (Err _, w') => (Ok tt, w')
                    | (Ok _, w') =>
                        if bool_decide (p_parts head = []) then (Ok tt, w')
                        else removedirs_up f (path_parent head) w'
                    end
  end.

(** [os.removedirs(p)] *)
Definition removedirs (p : pypath) : IO unit :=
  os_rmdir p ;;; removedirs_up (length (p_parts p)) (path_parent p).

Section WithHasher.
Context `{Hasher} `{Codec}.

Fixpoint add_fuel (fuel : nat) (gitdir : pypath) (paths : list pypath) : IO unit :=
  match fuel with
  | O => sthrow RecursionError
  | S f =>
      sfor paths (fun path =>
        isd <- p_is_dir path ;;
        if negb isd then Index.update_index gitdir [path] true
        else xs <- glob_star path ;; add_fuel f gitdir xs)
  end.

Definition add (gitdir : pypath) (paths : list pypath) : IO unit := add_fuel recursion_limit gitdir paths.

Definition commit (gitdir : pypath) (message : string) (author : option string) : IO string :=
  idx <- Index.read_index gitdir ;;
  tree <- Tree.write_tree gitdir idx (path_str (path_parent gitdir)) ;;
  parent_commit <- Refs.resolve_head gitdir ;;
  Tree.commit_tree gitdir tree message parent_commit author.

(** One iteration of [for file_data in tree_content]. *)
Definition checkout_entry (gitdir tree_path : pypath) (trees : list (list (Z * string * string) * pypath))
    (file_data : Z * string * string) : IO (list (list (Z * string * string) * pypath)) :=
  let '(mode, nm, sha) := file_data in
  r <- Objects.read_object sha gitdir ;;
  let '(fmt, data) := r in
  let p := path_slash tree_path nm in
  if negb (String.eqb fmt "tree") then
    ex <- p_exists p ;;
    (if ex then sret tt
     else open_wb p ;;; fwrite p data ;;;
          m <- sof_option ValueError (py_int 8 (str_of_Z mode)) ;; chmod p m) ;;;
    sret trees
  else
    ex <- p_exists p ;;
    (if ex then sret tt else mkdir p) ;;;
    t <- slift (Objects.read_tree data) ;;
    sret (trees ++ [(t, p)]).

(** The inner [while trees:] loop, popping from the end. *)
Fixpoint checkout_trees (fuel : nat) (gitdir : pypath) (trees : list (list (Z * string * string) * pypath)) : IO unit :=
  match fuel with
  | O => sthrow NoTermination
  | S f =>
      match last trees with
      | None => sret tt
      | Some (tree_content, tree_path) =>
          trees' <- sfoldl (checkout_entry gitdir tree_path) tree_content (removelast trees) ;;
          checkout_trees f gitdir trees'
      end
  end.

(** The outer [while doing:] loop over the commit and its parents. *)
Fixpoint checkout_commits (fuel : nat) (gitdir : pypath) (commit_data : gmap string Objects.cval) : IO unit :=
  match fuel with
  | O => sthrow NoTermination
  | S f =>
      tsha <- slift (cdata_str commit_data "tree") ;;
      r <- Objects.read_object tsha gitdir ;;
      t <- slift (Objects.read_tree r.2) ;;
      w <- sget ;;
      checkout_trees (S (size (w_fs w))) gitdir [(t, path_parent gitdir)] ;;;
      if bool_decide (is_Some (commit_data !! "parent"%string)) then
        psha <- slift (cdata_str commit_data "parent") ;;
        r' <- Objects.read_object psha gitdir ;;
        cd <- slift (Objects.commit_parse r'.2) ;;
        checkout_commits f gitdir cd
      else sret tt
  end.

Definition checkout (gitdir : pypath) (obj_name : string) : IO unit :=
  entries <- Index.read_index gitdir ;;
  sfor entries (fun e =>
    let p := path_of_string (Index.name e) in
    ex <- p_exists p ;; if ex then os_remove p else sret tt) ;;;
  r <- Objects.read_object obj_name gitdir ;;
  commit_data <- slift (Objects.commit_parse r.2) ;;
  w <- sget ;;
  checkout_commits (S (size (w_fs w))) gitdir commit_data ;;;
  ds <- glob_star (path_parent gitdir) ;;
  sfor ds (fun d =>
    isd <- p_is_dir d ;;
    if isd && negb (bool_decide (d = gitdir)) then try_oserror (removedirs d) else sret tt).

End WithHasher.

(** ** Properties of the commands *)

Section Props.
Context `{Hasher} `{Codec}.

Lemma commit_preserves gitdir msg author : preserves Objects.store_step (commit gitdir msg author).
Proof.
  unfold commit, Tree.write_tree. preserve_steps;
    eauto using Index.read_index_readonly, Tree.write_tree_preserves, Refs.resolve_head_readonly,
      Tree.commit_tree_preserves with vcs typeclass_instances.
Qed.

(** C14 (finding): [commit] writes objects and nothing else: whether it
    succeeds or raises, it keeps the repository and the store well formed
    and leaves every path outside [objects] as it was, in particular [HEAD]
    and every file under [refs]: the branch is never moved to the new
    commit. *)
Theorem commit_keeps_refs gitdir msg author w r w' :
  Objects.store_inv w -> commit gitdir msg author w = (r, w') ->
  Objects.store_inv w' /\
  (forall k, ~ Objects.objects_loc w `prefix_of` k -> w_fs w' !! k = w_fs w !! k).
Proof.
  intros Hi Hrun. destruct (commit_preserves gitdir msg author w r w' Hrun Hi) as (Hi' & _ & Hf).
  by split.
Qed.

End Props.

(** ** Scenarios on the demo repository *)

Definition demo_gitdir : pypath := path_of_string ".pyvcs".

Definition res_default {A} (d : A) (r : result A) : A := match r with Ok a => a | Err _ => d end.

(** "a.txt" holding "hi" and "b.txt" holding "bye", both staged. *)
Definition demo_two_files : world :=
  set_fs demo_repo (<[["home"; "r"; "b.txt"] := NFile (encode "bye") (mkmeta 33188 78 5 1000 1000 1690000000 1690000001)]>
    (<[["home"; "r"; "a.txt"] := NFile (encode "hi") (mkmeta 33188 77 5 1000 1000 1690000000 1690000001)]>
      (w_fs demo_repo))).

Definition demo_w1 : world :=
  snd (Index.update_index demo_gitdir [path_of_string "a.txt"; path_of_string "b.txt"] true demo_two_files).

(** The first commit: both files. *)
Definition demo_c1 : string := res_default EmptyString (fst (commit demo_gitdir "one" None demo_w1)).
Definition demo_w2 : world := snd (commit demo_gitdir "one" None demo_w1).

Lemma commit_keeps_refs_witness :
  Objects.store_inv demo_w1 /\ commit demo_gitdir "one" None demo_w1 = (Ok demo_c1, demo_w2) /\
  Objects.store_inv demo_w2 /\
  (forall k, ~ Objects.objects_loc demo_w1 `prefix_of` k -> w_fs demo_w2 !! k = w_fs demo_w1 !! k).
Proof.
assert (Hi : Objects.store_inv demo_w1) by (apply (bool_decide_unpack _); vm_compute; reflexivity).
assert (Hr : commit demo_gitdir "one" None demo_w1 = (Ok demo_c1, demo_w2)) by (vm_compute; reflexivity).
split; [exact Hi|]. split; [exact Hr|]. exact (commit_keeps_refs demo_gitdir "one" None demo_w1 _ _ Hi Hr).
Defined.

(** On the demo repository, checking out the first
    commit after "a.txt" was changed on disk brings back its committed
    text. *)
Example checkout_restores_file :
  match checkout demo_gitdir demo_c1
          (set_fs demo_w2 (<[["home"; "r"; "a.txt"] := NFile (encode "changed") (mkmeta 33188 77 5 1000 1000 1 1)]> (w_fs demo_w2))) with
  | (Ok _, w) => option_map (fun n => match n with NFile d _ => d | NDir => [] end) (lookup_path w (path_of_string "a.txt")) = Some (encode "hi")
  | (Err _, _) => False
  end.
Proof. vm_compute. reflexivity. Qed.

End Porcelain.
