(* ===== verification/Cipher.v ===== *)
(** * The classical ciphers ([homework01/caesar.py], [homework01/vigenere.py])

    Both ciphers walk the text one character at a time, appending to an
    accumulator ([ciphertext += sym]); [s_accum] is that loop, with the
    running index [ind] the Vigenère functions keep.  A character is
    shifted when [str.isupper()] or [str.islower()] holds, with the
    arithmetic of the source on code points and Python's floor [%]
    ([Z.modulo]).  The abstract specification is a rotation [rot] of the
    ASCII letters; the refinement lemmas show that the functions compute it
    on texts whose cased characters are ASCII letters ([cipher_safe]), from
    which the round trips follow.  Outside that alphabet, and for shifts
    outside [0..26], the theorems show where the code departs from it.
    Characters are Latin-1 ([ascii], code points 0..255): [chr] of a code
    point above 255, which only [decrypt_caesar] with a negative shift
    computes, is the model's [Exception] where Python returns that
    character; no theorem here concerns such a shift. *)

From S2P Require Import Prelude Py.

Open Scope Z_scope.

(** ** The accumulator loop and its specification *)

(** [for i in s: acc += f(ind, i); ind += 1], [f] possibly raising. *)
Fixpoint s_accum (f : Z -> ascii -> result ascii) (s : string) (ind : Z) (acc : string) : result string :=
  match s with
  | EmptyString => Ok acc
  | String i rest =>
      match f ind i with
      | Err e => Err e
      | Ok sym => s_accum f rest (ind + 1) (acc +:+ String sym EmptyString)%stdpp
      end
  end.

(** The pure map it computes when no character raises. *)
Fixpoint s_mapi (h : Z -> ascii -> ascii) (ind : Z) (s : string) : string :=
  match s with
  | EmptyString => EmptyString
  | String c rest => String (h ind c) (s_mapi h (ind + 1) rest)
  end.

(** A cased character that the ciphers can rotate back: an ASCII letter. *)
Definition ascii_letter (c : ascii) : bool :=
  ((65 <=? cp c) && (cp c <=? 90)) || ((97 <=? cp c) && (cp c <=? 122)).

Definition cipher_safe (c : ascii) : bool :=
  ascii_letter c || negb (py_isupper c || py_islower c).

(** [ord("A")] or [ord("a")], whichever the branch of a letter uses. *)
Definition letter_base (c : ascii) : Z := if py_isupper c then cp "A" else cp "a".

(** The abstract cipher: rotate an ASCII letter by [k] within its case. *)
Definition rot (k : Z) (c : ascii) : ascii :=
  if ascii_letter c then chr (letter_base c + (cp c - letter_base c + k) mod 26) else c.

(** A text with at least one ASCII letter. *)
Definition has_letter (w : string) : bool := negb (s_forall (fun c => negb (ascii_letter c)) w).

(** ** Lemmas on the loop and on single characters *)

Lemma s_append_nil_r s : (s +:+ EmptyString)%stdpp = s.
Proof. induction s as [|c s IH]; [done | by rewrite append_cons, IH]. Qed.

Lemma s_append_snoc acc c r : ((acc +:+ String c EmptyString) +:+ r)%stdpp = (acc +:+ String c r)%stdpp.
Proof. by rewrite <- s_append_assoc. Qed.

(** The loop computes the map when every character is in [P]. *)
Lemma s_accum_mapi (P : ascii -> bool) f h s ind acc :
  (forall n c, P c = true -> f n c = Ok (h n c)) -> s_forall P s = true ->
  s_accum f s ind acc = Ok (acc +:+ s_mapi h ind s)%stdpp.
Proof.
  intros Hf. revert ind acc. induction s as [|c s IH]; intros ind acc Hs; simpl in *.
  - by rewrite s_append_nil_r.
  - apply andb_true_iff in Hs as [Hc Hs]. rewrite (Hf _ _ Hc), IH by done. by rewrite s_append_snoc.
Qed.

(** The loop does not raise when no character does. *)
Lemma s_accum_total f s ind acc :
  (forall n c, exists c', f n c = Ok c') ->
  exists t, s_accum f s ind acc = Ok (acc +:+ t)%stdpp /\ String.length t = String.length s.
Proof.
  intros Hf. revert ind acc. induction s as [|c s IH]; intros ind acc; simpl.
  - exists EmptyString. by rewrite s_append_nil_r.
  - destruct (Hf ind c) as [c' ->]. destruct (IH (ind + 1) (acc +:+ String c' EmptyString)%stdpp) as (t & -> & Hl).
    exists (String c' t). rewrite s_append_snoc. split; [done | simpl; lia].
Qed.

Lemma s_forall_mapi (P Q : ascii -> bool) h s ind :
  (forall n c, P c = true -> Q (h n c) = true) -> s_forall P s = true -> s_forall Q (s_mapi h ind s) = true.
Proof.
  intros Hh. revert ind. induction s as [|c s IH]; intros ind Hs; simpl in *; [done|].
  apply andb_true_iff in Hs as [Hc Hs]. by rewrite Hh, IH.
Qed.

Lemma s_mapi_compose g h s ind : s_mapi g ind (s_mapi h ind s) = s_mapi (fun n c => g n (h n c)) ind s.
Proof. revert ind. induction s as [|c s IH]; intros ind; simpl; [done | by rewrite IH]. Qed.

Lemma s_mapi_id (P : ascii -> bool) h s ind :
  (forall n c, P c = true -> h n c = c) -> s_forall P s = true -> s_mapi h ind s = s.
Proof.
  intros Hh. revert ind. induction s as [|c s IH]; intros ind Hs; simpl in *; [done|].
  apply andb_true_iff in Hs as [Hc Hs]. by rewrite Hh, IH.
Qed.

(** Case analysis on a comparison of integers, as the definitions test them. *)
Ltac zcase :=
  repeat match goal with
  | |- context [?a <=? ?b] => destruct (Z.leb_spec a b)
  | |- context [?a <? ?b] => destruct (Z.ltb_spec a b)
  | |- context [?a =? ?b] => destruct (Z.eqb_spec a b)
  end; simpl; try reflexivity; try (exfalso; lia).

(** Checked on each of the 256 characters. *)
Lemma letter_case_check c :
  ascii_letter c = true ->
  (py_isupper c && (65 <=? cp c) && (cp c <=? 90)) ||
  (negb (py_isupper c) && py_islower c && (97 <=? cp c) && (cp c <=? 122)) = true.
Proof. destruct c as [[] [] [] [] [] [] [] []]; vm_compute; intros H; first [reflexivity | discriminate]. Qed.

Lemma letter_case c :
  ascii_letter c = true ->
  (py_isupper c = true /\ letter_base c = 65 /\ 65 <= cp c <= 90) \/
  (py_isupper c = false /\ py_islower c = true /\ letter_base c = 97 /\ 97 <= cp c <= 122).
Proof.
  intros Hl. apply letter_case_check in Hl. unfold letter_base.
  destruct (py_isupper c), (py_islower c); simpl in Hl; rewrite ?orb_false_r, ?andb_true_iff, ?Z.leb_le in Hl; [left..|right|]; try done.
Qed.

Lemma letter_range c : ascii_letter c = true -> letter_base c <= cp c < letter_base c + 26.
Proof. intros Hl. destruct (letter_case c Hl) as [(_ & -> & ?) | (_ & _ & -> & ?)]; lia. Qed.

(** An ASCII letter is determined by its case and its offset. *)
Lemma letter_of_offset c m :
  ascii_letter c = true -> 0 <= m < 26 ->
  ascii_letter (chr (letter_base c + m)) = true /\ letter_base (chr (letter_base c + m)) = letter_base c /\
  cp (chr (letter_base c + m)) = letter_base c + m.
Proof.
  intros Hl Hm.
  assert (Hcp : cp (chr (letter_base c + m)) = letter_base c + m)
    by (apply cp_chr; destruct (letter_case c Hl) as [(_ & -> & _) | (_ & _ & -> & _)]; lia).
  assert (Hl2 : ascii_letter (chr (letter_base c + m)) = true).
  { unfold ascii_letter. rewrite Hcp. destruct (letter_case c Hl) as [(_ & -> & _) | (_ & _ & -> & _)]; zcase. }
  split; [done|]. split; [|done].
  destruct (letter_case c Hl) as [(_ & E & _) | (_ & _ & E & _)], (letter_case _ Hl2) as [(_ & E2 & ?) | (_ & _ & E2 & ?)];
    rewrite ?E, ?E2 in *; lia.
Qed.

Lemma py_chr_ok z : 0 <= z < 256 -> py_chr z = Ok (chr z).
Proof. intros Hz. unfold py_chr. zcase. Qed.

Lemma py_chr_cp z y : py_chr z = Ok y -> cp y = z.
Proof. unfold py_chr. zcase; intros [= <-]. by apply cp_chr. Qed.

Lemma s_get_lt n s : (n < String.length s)%nat -> exists k, String.get n s = Some k.
Proof. revert n. induction s as [|c s IH]; intros [|n] Hn; simpl in *; eauto; [lia..|]. apply IH. lia. Qed.

Lemma s_forall_true s : s_forall (fun _ => true) s = true.
Proof. by induction s. Qed.

Lemma s_mapi_ext (P : ascii -> bool) h g s ind :
  (forall n c, P c = true -> h n c = g n c) -> s_forall P s = true -> s_mapi h ind s = s_mapi g ind s.
Proof.
  intros Hh. revert ind. induction s as [|c s IH]; intros ind Hs; simpl in *; [done|].
  apply andb_true_iff in Hs as [Hc Hs]. by rewrite Hh, IH.
Qed.

Lemma nonletter_uncased c :
  cipher_safe c = true -> ascii_letter c = false -> py_isupper c = false /\ py_islower c = false.
Proof. unfold cipher_safe. intros Hs Hl. rewrite Hl in Hs. by destruct (py_isupper c), (py_islower c). Qed.

(** Split a safe character into an upper-case letter, a lower-case
    letter and an uncased character, with what each case knows. *)
Ltac letter_cases c Hs :=
  let Hl := fresh "Hl" in
  destruct (ascii_letter c) eqn:Hl;
  [destruct (letter_case c Hl) as [(?Hu & ?Hb & ?Hr) | (?Hu & ?Hlo & ?Hb & ?Hr)]
  |destruct (nonletter_uncased c Hs Hl) as [?Hu ?Hlo]].

Lemma rot_nonletter k c : ascii_letter c = false -> rot k c = c.
Proof. unfold rot. by intros ->. Qed.

(** A letter stays a letter of the same case, at the rotated offset. *)
Lemma rot_letter k c :
  ascii_letter c = true ->
  ascii_letter (rot k c) = true /\ letter_base (rot k c) = letter_base c /\
  cp (rot k c) = letter_base c + (cp c - letter_base c + k) mod 26.
Proof. intros Hl. unfold rot. rewrite Hl. apply letter_of_offset; [done | apply Z.mod_pos_bound; lia]. Qed.

Lemma rot_safe k c : cipher_safe c = true -> cipher_safe (rot k c) = true.
Proof.
  intros Hs. destruct (ascii_letter c) eqn:Hl.
  - unfold cipher_safe. by rewrite (proj1 (rot_letter k c Hl)).
  - by rewrite rot_nonletter.
Qed.

Lemma rot_base k c : letter_base (rot k c) = letter_base c.
Proof. destruct (ascii_letter c) eqn:Hl; [apply (rot_letter k c Hl) | by rewrite rot_nonletter]. Qed.

(** Rotations compose by adding their offsets. *)
Lemma rot_rot a b c : rot a (rot b c) = rot (b + a) c.
Proof.
  destruct (ascii_letter c) eqn:Hl; [|by rewrite !(rot_nonletter _ c Hl)].
  destruct (rot_letter b c Hl) as (Hl' & Hb & Hcp).
  unfold rot at 1. rewrite Hl', Hb, Hcp. unfold rot. rewrite Hl.
  do 2 f_equal. rewrite Z.add_simpl_l, Zplus_mod_idemp_l. f_equal. lia.
Qed.

Lemma rot_0 k c : k mod 26 = 0 -> rot k c = c.
Proof.
  intros Hk. unfold rot. destruct (ascii_letter c) eqn:Hl; [|done].
  pose proof (letter_range c Hl).
  replace ((cp c - letter_base c + k) mod 26) with (cp c - letter_base c) by (Z.div_mod_to_equations; lia).
  rewrite Z.add_comm, Z.sub_add. apply chr_cp.
Qed.

Lemma rot_fixed k c : ascii_letter c = true -> rot k c = c -> k mod 26 = 0.
Proof.
  intros Hl E. pose proof (letter_range c Hl). destruct (rot_letter k c Hl) as (_ & _ & Hcp).
  rewrite E in Hcp. Z.div_mod_to_equations. lia.
Qed.

Module Caesar.

(** The loop body of [encrypt_caesar]. *)
Definition encrypt_char (shift : Z) (i : ascii) : result ascii :=
  if py_isupper i then py_chr ((cp i - cp "A" + shift) mod 26 + cp "A")
  else if py_islower i then py_chr ((cp i - cp "a" + shift) mod 26 + cp "a")
  else Ok i.

Definition encrypt_caesar (plaintext : string) (shift : Z) : result string :=
  s_accum (fun _ => encrypt_char shift) plaintext 0 EmptyString.

(** The loop body of [decrypt_caesar]. *)
Definition decrypt_char (shift : Z) (i : ascii) : result ascii :=
  if py_isupper i then
    let code := if cp i - cp "A" <? shift then 25 - ((shift - 1) - (cp i - cp "A")) + cp "A"
                else cp i - cp "A" - shift + cp "A" in
    py_chr code
  else if py_islower i then
    let code := if cp i - cp "a" <? shift then 25 - ((shift - 1) - (cp i - cp "a")) + cp "a"
                else cp i - cp "a" - shift + cp "a" in
    py_chr code
  else Ok i.

Definition decrypt_caesar (ciphertext : string) (shift : Z) : result string :=
  s_accum (fun _ => decrypt_char shift) ciphertext 0 EmptyString.

(** [for shift in range(25)] of one dictionary word; [inl] is a [return],
    [inr] the value the loop variable [shift] is left with. *)
Fixpoint shift_loop (ciphertext i : string) (shifts : list Z) (shift : option Z) : result (Z + option Z) :=
  match shifts with
  | [] => Ok (inr shift)
  | s :: rest =>
      match decrypt_caesar ciphertext s with
      | Err e => Err e
      | Ok word => if String.eqb word i then Ok (inl s) else shift_loop ciphertext i rest (Some s)
      end
  end.

(** [for i in dictionary], in the set's iteration order. *)
Fixpoint dict_loop (ciphertext : string) (dictionary : list string) (shift : option Z) : result (Z + option Z) :=
  match dictionary with
  | [] => Ok (inr shift)
  | i :: rest =>
      if String.eqb ciphertext i then Ok (inl 0)
      else match shift_loop ciphertext i (Z.of_nat <$> py_range 0 25 1) shift with
           | Err e => Err e
           | Ok (inl s) => Ok (inl s)
           | Ok (inr sh) => dict_loop ciphertext rest sh
           end
  end.

(** After the loops, [best_shift += shift] reads the loop variable, which
    is unbound when the dictionary is empty. *)
Definition caesar_breaker (ciphertext : string) (dictionary : list string) : result Z :=
  let best_shift := 0 in
  match dict_loop ciphertext dictionary None with
  | Err e => Err e
  | Ok (inl s) => Ok s
  | Ok (inr None) => Err UnboundLocalError
  | Ok (inr (Some shift)) => Ok (best_shift + shift)
  end.

(** ** Refinement: the loops compute the rotation *)

Lemma encrypt_char_rot k c : cipher_safe c = true -> encrypt_char k c = Ok (rot k c).
Proof.
  intros Hs. unfold encrypt_char. letter_cases c Hs.
  - unfold rot. rewrite Hu, Hl, Hb. change (cp "A") with 65.
    rewrite py_chr_ok by (Z.div_mod_to_equations; lia). do 2 f_equal. lia.
  - unfold rot. rewrite Hu, Hlo, Hl, Hb. change (cp "a") with 97.
    rewrite py_chr_ok by (Z.div_mod_to_equations; lia). do 2 f_equal. lia.
  - by rewrite Hu, Hlo, rot_nonletter.
Qed.

(** Both branches of [if ord(i) - ord("A") < shift] give the offset
    [(y - shift) mod 26] when [0 <= shift <= 26]. *)
Lemma decrypt_code b y j :
  0 <= y < 26 -> 0 <= j <= 26 ->
  (if y <? j then 25 - ((j - 1) - y) + b else y - j + b) = b + (y + - j) mod 26.
Proof. intros Hy Hj. destruct (Z.ltb_spec y j); Z.div_mod_to_equations; lia. Qed.

Lemma decrypt_char_rot j c : cipher_safe c = true -> 0 <= j <= 26 -> decrypt_char j c = Ok (rot (- j) c).
Proof.
  intros Hs Hj. unfold decrypt_char. letter_cases c Hs.
  - unfold rot. rewrite Hu, Hl, Hb. change (cp "A") with 65. rewrite decrypt_code by lia.
    apply py_chr_ok. Z.div_mod_to_equations; lia.
  - unfold rot. rewrite Hu, Hlo, Hl, Hb. change (cp "a") with 97. rewrite decrypt_code by lia.
    apply py_chr_ok. Z.div_mod_to_equations; lia.
  - by rewrite Hu, Hlo, rot_nonletter.
Qed.

(** C25 (refinement): on a text whose cased characters are ASCII
    letters, [encrypt_caesar] computes the rotation of every letter by
    [shift] within its case, leaving every other character. *)
Lemma encrypt_caesar_refines s shift :
  s_forall cipher_safe s = true -> encrypt_caesar s shift = Ok (s_mapi (fun _ => rot shift) 0 s).
Proof.
  intros Hs. unfold encrypt_caesar.
  rewrite (s_accum_mapi cipher_safe _ (fun _ => rot shift)); [done | intros; by apply encrypt_char_rot | done].
Qed.

Lemma decrypt_caesar_refines s shift :
  s_forall cipher_safe s = true -> 0 <= shift <= 26 ->
  decrypt_caesar s shift = Ok (s_mapi (fun _ => rot (- shift)) 0 s).
Proof.
  intros Hs Hj. unfold decrypt_caesar.
  rewrite (s_accum_mapi cipher_safe _ (fun _ => rot (- shift))); [done | intros; by apply decrypt_char_rot | done].
Qed.

Lemma rot_string_safe k s n : s_forall cipher_safe s = true -> s_forall cipher_safe (s_mapi (fun _ => rot k) n s) = true.
Proof. apply s_forall_mapi. eauto using rot_safe. Qed.

Lemma rot_string_rot a b s n : s_mapi (fun _ => rot a) n (s_mapi (fun _ => rot b) n s) = s_mapi (fun _ => rot (b + a)) n s.
Proof. rewrite s_mapi_compose. apply (s_mapi_ext (fun _ => true)); [intros; apply rot_rot | apply s_forall_true]. Qed.

(** Decrypting by [j] what was encrypted by [k] rotates by [k - j]. *)
Lemma decrypt_encrypted w k j :
  s_forall cipher_safe w = true -> 0 <= j <= 26 ->
  decrypt_caesar (s_mapi (fun _ => rot k) 0 w) j = Ok (s_mapi (fun _ => rot (k - j)) 0 w).
Proof. intros Hw Hj. rewrite decrypt_caesar_refines by auto using rot_string_safe. by rewrite rot_string_rot. Qed.

Lemma encrypt_char_ok k c : exists y, encrypt_char k c = Ok y.
Proof.
  unfold encrypt_char. change (cp "A") with 65; change (cp "a") with 97.
  destruct (py_isupper c); [|destruct (py_islower c)]; eauto; rewrite py_chr_ok by (Z.div_mod_to_equations; lia); eauto.
Qed.

(** A cased character is encrypted to an ASCII letter. *)
Lemma encrypt_char_cased k c y :
  py_isupper c || py_islower c = true -> encrypt_char k c = Ok y -> ascii_letter y = true.
Proof.
  unfold encrypt_char, ascii_letter. change (cp "A") with 65; change (cp "a") with 97.
  destruct (py_isupper c), (py_islower c); intros Hc E; try discriminate; apply py_chr_cp in E; rewrite E;
    pose proof (Z.mod_pos_bound (cp c - 65 + k) 26); pose proof (Z.mod_pos_bound (cp c - 97 + k) 26); zcase.
Qed.

Lemma decrypt_char_upper k x y :
  py_isupper x = true -> decrypt_char k x = Ok y ->
  cp y = (if cp x - 65 <? k then 25 - ((k - 1) - (cp x - 65)) else cp x - 65 - k) + 65.
Proof.
  unfold decrypt_char. intros -> H. apply py_chr_cp in H. rewrite H. change (cp "A") with 65.
  by destruct (_ <? _).
Qed.

Lemma decrypt_single k x u : decrypt_caesar (String x EmptyString) k = Ok u -> exists y, decrypt_char k x = Ok y /\ u = String y EmptyString.
Proof. unfold decrypt_caesar. cbn. destruct (decrypt_char k x); intros [=]; eauto. Qed.

Lemma rot_string_fixed k w n :
  s_forall cipher_safe w = true -> has_letter w = true ->
  s_mapi (fun _ => rot k) n w = w <-> k mod 26 = 0.
Proof.
  intros Hs Hw. split.
  - unfold has_letter in Hw. revert n Hs Hw. induction w as [|c w IH]; intros n Hs Hw E; simpl in *; [done|].
    injection E as Ec Ew. apply andb_true_iff in Hs as [_ Hs].
    destruct (ascii_letter c) eqn:Hl; [by apply (rot_fixed k c) | by apply (IH (n + 1))].
  - intros Hk. apply (s_mapi_id (fun _ => true)); [intros; by apply rot_0 | apply s_forall_true].
Qed.

(** The inner loop returns the first shift that rotates back to the word,
    and otherwise leaves [shift] at the last value of the range. *)
Lemma shift_loop_spec w k l sh :
  s_forall cipher_safe w = true -> has_letter w = true -> Forall (fun j => 0 <= j <= 26) l ->
  shift_loop (s_mapi (fun _ => rot k) 0 w) w l sh =
  Ok (match find (fun j => (k - j) mod 26 =? 0) l with Some j => inl j | None => inr (foldl (fun _ j => Some j) sh l) end).
Proof.
  intros Hs Hw Hl. revert sh. induction Hl as [|j l Hj Hl IH]; intros sh; [done|]. cbn [shift_loop find foldl].
  rewrite decrypt_encrypted by done.
  destruct (String.eqb_spec (s_mapi (fun _ => rot (k - j)) 0 w) w) as [E|E];
    rewrite rot_string_fixed in E by done; destruct (Z.eqb_spec ((k - j) mod 26) 0); done || contradiction || apply IH.
Qed.

Lemma range25_bounds : Forall (fun j => 0 <= j <= 26) (Z.of_nat <$> py_range 0 25 1).
Proof. apply (bool_decide_unpack _). vm_compute. reflexivity. Qed.

Lemma range25_find k :
  0 <= k <= 24 -> find (fun j => (k - j) mod 26 =? 0) (Z.of_nat <$> py_range 0 25 1) = Some k.
Proof.
  intros Hk. rewrite <- (Z2Nat.id k) by lia. assert (Hn : (Z.to_nat k < 25)%nat) by lia.
  generalize (Z.to_nat k) Hn. clear. intros n Hn. do 25 (destruct n as [|n]; [reflexivity|]). lia.
Qed.

(** ** Properties of the Caesar cipher *)

(** C8 (roundtrip): for a shift in [0..26], decrypting what
    [encrypt_caesar] returns gives the plaintext back, on every text whose
    cased characters are ASCII letters. *)
Theorem caesar_roundtrip s shift :
  s_forall cipher_safe s = true -> 0 <= shift <= 26 ->
  exists c, encrypt_caesar s shift = Ok c /\ decrypt_caesar c shift = Ok s.
Proof.
  intros Hs Hk. eexists. split; [by apply encrypt_caesar_refines|].
  rewrite decrypt_encrypted by done. f_equal. apply (s_mapi_id cipher_safe); [|done].
  intros _ c _. apply rot_0. by rewrite Z.sub_diag.
Qed.

(** The range of the round trip is tight: for a negative
    shift or one above 26 some one-letter text does not come back, since
    [decrypt_caesar] only subtracts [shift] without reducing it mod 26. *)
Theorem caesar_roundtrip_bounds shift :
  shift < 0 \/ 26 < shift ->
  exists s, s_forall cipher_safe s = true /\
            forall c, encrypt_caesar s shift = Ok c -> decrypt_caesar c shift <> Ok s.
Proof.
  intros Hk. set (x := if decide (shift < 0) then "A"%char else "Z"%char).
  assert (Hx : ascii_letter x = true /\ letter_base x = 65) by (unfold x; by destruct (decide _)).
  exists (String x EmptyString). split; [unfold cipher_safe; cbn; by rewrite (proj1 Hx)|].
  intros c Hc E. rewrite encrypt_caesar_refines in Hc by (cbn; unfold cipher_safe; by rewrite (proj1 Hx)).
  injection Hc as <-. apply decrypt_single in E as (y & E & [= <-]).
  destruct (rot_letter shift x (proj1 Hx)) as (Hl & Hb & Hcp).
  destruct (letter_case _ Hl) as [(Hu & _ & _) | (_ & _ & Hb' & _)]; [|rewrite Hb, (proj2 Hx) in Hb'; discriminate].
  apply decrypt_char_upper in E; [|done]. rewrite Hcp, (proj2 Hx) in E.
  unfold x in E; destruct (decide (shift < 0)); revert E; try change (cp "A") with 65; try change (cp "Z") with 90;
    zcase; intros E; Z.div_mod_to_equations; lia.
Qed.

(** [encrypt_caesar] never raises, whatever the text and the
    shift: every code it passes to [chr] lies in [65..90] or [97..122];
    the ciphertext has the plaintext's length. *)
Theorem encrypt_caesar_total s shift :
  exists c, encrypt_caesar s shift = Ok c /\ String.length c = String.length s.
Proof. unfold encrypt_caesar. destruct (s_accum_total (fun _ => encrypt_char shift) s 0 EmptyString) as (t & -> & Hl); eauto using encrypt_char_ok. Qed.

(** A cased Latin-1 letter outside ASCII (such as U+00C9
    or U+00E9) is encrypted to an ASCII letter, so for no shift in
    [0..26] does it come back from [decrypt_caesar]. *)
Theorem caesar_non_ascii c shift t :
  py_isupper c || py_islower c = true -> ascii_letter c = false -> 0 <= shift <= 26 ->
  encrypt_caesar (String c EmptyString) shift = Ok t -> decrypt_caesar t shift <> Ok (String c EmptyString).
Proof.
  intros Hc Hl Hk Ht E. unfold encrypt_caesar in Ht. cbn in Ht.
  destruct (encrypt_char shift c) as [y|] eqn:Ey; [|discriminate]. injection Ht as <-.
  change ("" +:+ String y "")%stdpp with (String y EmptyString) in E.
  pose proof (encrypt_char_cased shift c y Hc Ey) as Hy.
  rewrite decrypt_caesar_refines in E; [| cbn [s_forall]; unfold cipher_safe; by rewrite Hy | lia].
  injection E as E. rewrite <- E in Hl. by rewrite (proj1 (rot_letter _ y Hy)) in Hl.
Qed.

(** When the first dictionary word has an ASCII letter
    and the ciphertext is that word encrypted by a shift in [0..24],
    [caesar_breaker] returns that shift. *)
Theorem caesar_breaker_finds w ds shift c :
  s_forall cipher_safe w = true -> has_letter w = true -> 0 <= shift <= 24 ->
  encrypt_caesar w shift = Ok c -> caesar_breaker c (w :: ds) = Ok shift.
Proof.
  intros Hs Hw Hk Hc. rewrite encrypt_caesar_refines in Hc by done. injection Hc as <-.
  unfold caesar_breaker. cbn [dict_loop].
  destruct (String.eqb_spec (s_mapi (fun _ => rot shift) 0 w) w) as [E|E].
  - apply rot_string_fixed in E; [|done..]. f_equal. Z.div_mod_to_equations; lia.
  - rewrite shift_loop_spec, range25_find by auto using range25_bounds. done.
Qed.

(** C38 (finding): [range(25)] stops at 24, so a word encrypted with
    shift 25 is never found: [caesar_breaker] falls through and returns
    the loop variable's last value 24; with an empty dictionary that
    variable is unbound and [best_shift += shift] raises. *)
Theorem caesar_breaker_misses_25 w c :
  s_forall cipher_safe w = true -> has_letter w = true -> encrypt_caesar w 25 = Ok c ->
  caesar_breaker c [w] = Ok 24 /\ caesar_breaker c [] = Err UnboundLocalError.
Proof.
  intros Hs Hw Hc. rewrite encrypt_caesar_refines in Hc by done. injection Hc as <-. split; [|done].
  unfold caesar_breaker. cbn [dict_loop].
  destruct (String.eqb_spec (s_mapi (fun _ => rot 25) 0 w) w) as [E|E].
  - apply rot_string_fixed in E; [discriminate | done..].
  - rewrite shift_loop_spec by auto using range25_bounds. vm_compute. reflexivity.
Qed.

(** ** The examples of the docstrings as instances of the theorems *)

Lemma caesar_roundtrip_witness :
  s_forall cipher_safe "Python3.6" = true /\ 0 <= 3 <= 26 /\
  exists c, encrypt_caesar "Python3.6" 3 = Ok c /\ decrypt_caesar c 3 = Ok "Python3.6".
Proof.
  assert (H1 : s_forall cipher_safe "Python3.6" = true) by (vm_compute; reflexivity).
  assert (H2 : 0 <= 3 <= 26) by lia.
  split; [exact H1|]. split; [exact H2|]. exact (caesar_roundtrip _ _ H1 H2).
Defined.

Lemma encrypt_caesar_refines_witness :
  s_forall cipher_safe "Python3.6" = true /\
  encrypt_caesar "Python3.6" 3 = Ok (s_mapi (fun _ => rot 3) 0 "Python3.6").
Proof.
  assert (H1 : s_forall cipher_safe "Python3.6" = true) by (vm_compute; reflexivity).
  split; [exact H1 | exact (encrypt_caesar_refines _ 3 H1)].
Defined.

Lemma caesar_roundtrip_bounds_witness :
  (27 < 0 \/ 26 < 27) /\
  exists s, s_forall cipher_safe s = true /\ forall c, encrypt_caesar s 27 = Ok c -> decrypt_caesar c 27 <> Ok s.
Proof. assert (H : 27 < 0 \/ 26 < 27) by lia. split; [exact H | exact (caesar_roundtrip_bounds 27 H)]. Defined.

Lemma caesar_non_ascii_witness :
  py_isupper "201" || py_islower "201" = true /\ ascii_letter "201" = false /\ 0 <= 3 <= 26 /\
  encrypt_caesar (String "201" EmptyString) 3 = Ok "J" /\ decrypt_caesar "J" 3 <> Ok (String "201" EmptyString).
Proof.
  assert (H1 : py_isupper "201" || py_islower "201" = true) by reflexivity.
  assert (H2 : ascii_letter "201" = false) by reflexivity.
  assert (H3 : 0 <= 3 <= 26) by lia.
  assert (H4 : encrypt_caesar (String "201" EmptyString) 3 = Ok "J") by (vm_compute; reflexivity).
  split; [exact H1|]. split; [exact H2|]. split; [exact H3|]. split; [exact H4|].
  exact (caesar_non_ascii _ _ _ H1 H2 H3 H4).
Defined.

Lemma caesar_breaker_finds_witness :
  s_forall cipher_safe "python" = true /\ has_letter "python" = true /\ 0 <= 3 <= 24 /\
  encrypt_caesar "python" 3 = Ok "sbwkrq" /\ caesar_breaker "sbwkrq" ["python"; "java"; "ruby"] = Ok 3.
Proof.
  assert (H1 : s_forall cipher_safe "python" = true) by (vm_compute; reflexivity).
  assert (H2 : has_letter "python" = true) by (vm_compute; reflexivity).
  assert (H3 : 0 <= 3 <= 24) by lia.
  assert (H4 : encrypt_caesar "python" 3 = Ok "sbwkrq") by (vm_compute; reflexivity).
  split; [exact H1|]. split; [exact H2|]. split; [exact H3|]. split; [exact H4|].
  exact (caesar_breaker_finds _ _ _ _ H1 H2 H3 H4).
Defined.

Lemma caesar_breaker_misses_25_witness :
  s_forall cipher_safe "python" = true /\ has_letter "python" = true /\ encrypt_caesar "python" 25 = Ok "oxsgnm" /\
  caesar_breaker "oxsgnm" ["python"] = Ok 24 /\ caesar_breaker "oxsgnm" [] = Err UnboundLocalError.
Proof.
  assert (H1 : s_forall cipher_safe "python" = true) by (vm_compute; reflexivity).
  assert (H2 : has_letter "python" = true) by (vm_compute; reflexivity).
  assert (H3 : encrypt_caesar "python" 25 = Ok "oxsgnm") by (vm_compute; reflexivity).
  split; [exact H1|]. split; [exact H2|]. split; [exact H3|].
  exact (caesar_breaker_misses_25 _ _ H1 H2 H3).
Defined.

End Caesar.

Module Vigenere.

(** [keyword[ind % len(keyword)]] *)
Definition key_at (keyword : string) (ind : Z) : result ascii :=
  if Z.eqb (Z.of_nat (String.length keyword)) 0 then Err ZeroDivisionError
  else match String.get (Z.to_nat (ind mod Z.of_nat (String.length keyword))) keyword with
       | Some k => Ok k
       | None => Err IndexError
       end.

(** The loop body of [encrypt_vigenere] at index [ind]. *)
Definition encrypt_char (keyword : string) (ind : Z) (i : ascii) : result ascii :=
  if py_isupper i then
    match key_at keyword ind with
    | Err e => Err e
    | Ok k => py_chr ((cp i - cp "A" + (cp k - cp "A")) mod 26 + cp "A")
    end
  else if py_islower i then
    match key_at keyword ind with
    | Err e => Err e
    | Ok k => py_chr ((cp i - cp "a" + (cp k - cp "a")) mod 26 + cp "a")
    end
  else Ok i.

Definition encrypt_vigenere (plaintext keyword : string) : result string :=
  s_accum (encrypt_char keyword) plaintext 0 EmptyString.

(** The loop body of [decrypt_vigenere] at index [ind]. *)
Definition decrypt_char (keyword : string) (ind : Z) (i : ascii) : result ascii :=
  if py_isupper i then
    match key_at keyword ind with
    | Err e => Err e
    | Ok k => py_chr ((cp i - cp "A" - (cp k - cp "A")) mod 26 + cp "A")
    end
  else if py_islower i then
    match key_at keyword ind with
    | Err e => Err e
    | Ok k => py_chr ((cp i - cp "a" - (cp k - cp "a")) mod 26 + cp "a")
    end
  else Ok i.

Definition decrypt_vigenere (ciphertext keyword : string) : result string :=
  s_accum (decrypt_char keyword) ciphertext 0 EmptyString.

(** The keyword character [keyword[ind % len(keyword)]] reads. *)
Definition vig_key (keyword : string) (ind : Z) : ascii :=
  match String.get (Z.to_nat (ind mod Z.of_nat (String.length keyword))) keyword with
  | Some k => k
  | None => "A"%char
  end.

(** ** Refinement: the loops rotate each letter by its keyword letter *)

Lemma key_at_ok keyword ind : keyword <> EmptyString -> key_at keyword ind = Ok (vig_key keyword ind).
Proof.
  intros Hk. assert (Hlen : (0 < String.length keyword)%nat) by (destruct keyword; simpl; [done | lia]).
  unfold key_at, vig_key. rewrite (proj2 (Z.eqb_neq _ _)) by lia.
  destruct (s_get_lt (Z.to_nat (ind mod Z.of_nat (String.length keyword))) keyword) as [k ->]; [|done].
  pose proof (Z.mod_pos_bound ind (Z.of_nat (String.length keyword))). lia.
Qed.

Lemma vig_encrypt_char_rot keyword n c :
  keyword <> EmptyString -> cipher_safe c = true ->
  encrypt_char keyword n c = Ok (rot (cp (vig_key keyword n) - letter_base c) c).
Proof.
  intros Hk Hs. unfold encrypt_char. rewrite key_at_ok by done. letter_cases c Hs.
  - unfold rot. rewrite Hu, Hl, Hb. change (cp "A") with 65.
    rewrite py_chr_ok by (Z.div_mod_to_equations; lia). do 2 f_equal. lia.
  - unfold rot. rewrite Hu, Hlo, Hl, Hb. change (cp "a") with 97.
    rewrite py_chr_ok by (Z.div_mod_to_equations; lia). do 2 f_equal. lia.
  - by rewrite Hu, Hlo, rot_nonletter.
Qed.

Lemma vig_decrypt_char_rot keyword n c :
  keyword <> EmptyString -> cipher_safe c = true ->
  decrypt_char keyword n c = Ok (rot (- (cp (vig_key keyword n) - letter_base c)) c).
Proof.
  intros Hk Hs. unfold decrypt_char. rewrite key_at_ok by done. letter_cases c Hs.
  - unfold rot. rewrite Hu, Hl, Hb. change (cp "A") with 65.
    rewrite py_chr_ok by (Z.div_mod_to_equations; lia). do 2 f_equal. Z.div_mod_to_equations; lia.
  - unfold rot. rewrite Hu, Hlo, Hl, Hb. change (cp "a") with 97.
    rewrite py_chr_ok by (Z.div_mod_to_equations; lia). do 2 f_equal. Z.div_mod_to_equations; lia.
  - by rewrite Hu, Hlo, rot_nonletter.
Qed.

(** With a nonempty keyword, [encrypt_vigenere] rotates
    the letter at index [ind] by [ord(k) - ord("A")] for an upper-case
    letter and [ord(k) - ord("a")] for a lower-case one, [k] the keyword
    letter [keyword[ind % len(keyword)]]; other characters are kept. *)
Theorem encrypt_vigenere_refines s keyword :
  keyword <> EmptyString -> s_forall cipher_safe s = true ->
  encrypt_vigenere s keyword = Ok (s_mapi (fun n c => rot (cp (vig_key keyword n) - letter_base c) c) 0 s).
Proof.
  intros Hk Hs. unfold encrypt_vigenere.
  rewrite (s_accum_mapi cipher_safe _ (fun n c => rot (cp (vig_key keyword n) - letter_base c) c)); [done | | done].
  intros. by apply vig_encrypt_char_rot.
Qed.

Lemma decrypt_vigenere_refines s keyword :
  keyword <> EmptyString -> s_forall cipher_safe s = true ->
  decrypt_vigenere s keyword = Ok (s_mapi (fun n c => rot (- (cp (vig_key keyword n) - letter_base c)) c) 0 s).
Proof.
  intros Hk Hs. unfold decrypt_vigenere.
  rewrite (s_accum_mapi cipher_safe _ (fun n c => rot (- (cp (vig_key keyword n) - letter_base c)) c)); [done | | done].
  intros. by apply vig_decrypt_char_rot.
Qed.

(** C9 (roundtrip): with any nonempty keyword, [decrypt_vigenere] undoes
    [encrypt_vigenere] on every text whose cased characters are ASCII
    letters, whatever the case of the keyword's characters. *)
Theorem vigenere_roundtrip s keyword :
  keyword <> EmptyString -> s_forall cipher_safe s = true ->
  exists c, encrypt_vigenere s keyword = Ok c /\ decrypt_vigenere c keyword = Ok s.
Proof.
  intros Hk Hs. eexists. split; [by apply encrypt_vigenere_refines|].
  rewrite decrypt_vigenere_refines by (done || by apply (s_forall_mapi cipher_safe); [intros; apply rot_safe|]).
  rewrite s_mapi_compose. f_equal. apply (s_mapi_id cipher_safe); [|done].
  intros n c _. rewrite rot_base, rot_rot. apply rot_0. by rewrite Z.add_opp_diag_r.
Qed.

(** A loop body that raises on every cased character. *)
Lemma s_accum_uncased f s ind acc :
  (forall n c, f n c = if py_isupper c || py_islower c then Err ZeroDivisionError else Ok c) ->
  s_accum f s ind acc =
  if s_forall (fun c => negb (py_isupper c || py_islower c)) s then Ok (acc +:+ s)%stdpp else Err ZeroDivisionError.
Proof.
  intros Hf. revert ind acc. induction s as [|c s IH]; intros ind acc; simpl; [by rewrite s_append_nil_r|].
  rewrite Hf. destruct (py_isupper c || py_islower c); [done|]. by rewrite IH, s_append_snoc.
Qed.

(** With an empty keyword both functions raise
    [ZeroDivisionError] at the first cased character, from
    [ind % len(keyword)], and return a text without one unchanged. *)
Theorem vigenere_empty_keyword s :
  encrypt_vigenere s EmptyString =
    (if s_forall (fun c => negb (py_isupper c || py_islower c)) s then Ok s else Err ZeroDivisionError) /\
  decrypt_vigenere s EmptyString =
    (if s_forall (fun c => negb (py_isupper c || py_islower c)) s then Ok s else Err ZeroDivisionError).
Proof.
  unfold encrypt_vigenere, decrypt_vigenere.
  split; rewrite s_accum_uncased; try done; intros n c; unfold encrypt_char, decrypt_char;
    by destruct (py_isupper c), (py_islower c).
Qed.

(** The shift subtracts [ord("a")] from the keyword letter
    for a lower-case letter of the text, so an upper-case keyword is off
    by 6 places there: "attackatdawn" under "LEMON" is not "lxfopvefrnhr"
    but "frzijpyzlhbl" (decryption still inverts it). *)
Example vigenere_key_case :
  encrypt_vigenere "attackatdawn" "LEMON" = Ok "frzijpyzlhbl" /\
  decrypt_vigenere "frzijpyzlhbl" "LEMON" = Ok "attackatdawn".
Proof. split; vm_compute; reflexivity. Qed.

(** ** The examples of the docstrings as instances of the theorems *)

Lemma encrypt_vigenere_refines_witness :
  "LEMON" <> EmptyString /\ s_forall cipher_safe "ATTACKATDAWN" = true /\
  encrypt_vigenere "ATTACKATDAWN" "LEMON" =
    Ok (s_mapi (fun n c => rot (cp (vig_key "LEMON" n) - letter_base c) c) 0 "ATTACKATDAWN").
Proof.
  assert (H1 : "LEMON" <> EmptyString) by discriminate.
  assert (H2 : s_forall cipher_safe "ATTACKATDAWN" = true) by (vm_compute; reflexivity).
  split; [exact H1|]. split; [exact H2|]. exact (encrypt_vigenere_refines _ _ H1 H2).
Defined.

Lemma vigenere_roundtrip_witness :
  "LEMON" <> EmptyString /\ s_forall cipher_safe "ATTACKATDAWN" = true /\
  exists c, encrypt_vigenere "ATTACKATDAWN" "LEMON" = Ok c /\ decrypt_vigenere c "LEMON" = Ok "ATTACKATDAWN".
Proof.
  assert (H1 : "LEMON" <> EmptyString) by discriminate.
  assert (H2 : s_forall cipher_safe "ATTACKATDAWN" = true) by (vm_compute; reflexivity).
  split; [exact H1|]. split; [exact H2|]. exact (vigenere_roundtrip _ _ H1 H2).
Defined.

End Vigenere.
