(* ===== verification/Json.v ===== *)
(** * JSON documents as Python holds them ([response.json()])

    The VK client reads the server's answers with [response.json()] and
    then works on the Python objects [json.loads] builds: [None], [bool],
    [int], [str], [list] and [dict].  [json] is that value; a [dict] is the
    list of its items in insertion order.  Numbers are integers (a JSON
    fraction or exponent, a [float] in Python, is not modelled).  The
    operations are the ones the client applies: [key in doc], [doc[key]],
    [for x in doc] and [str(doc)], each raising the exception Python
    raises on a value of the wrong type.  The induction principle over the
    nested lists follows the usual pattern for nested inductives. *)

From S2P Require Import Prelude Py.

Open Scope Z_scope.

Unset Elimination Schemes.
Inductive json :=
| JNull
| JBool (b : bool)
| JNum (z : Z)
| JStr (s : string)
| JArr (l : list json)
| JObj (kvs : list (string * json)).
Set Elimination Schemes.

Definition json_ind (P : json -> Prop)
    (fnull : P JNull) (fbool : forall b, P (JBool b)) (fnum : forall z, P (JNum z))
    (fstr : forall s, P (JStr s)) (farr : forall l, Forall P l -> P (JArr l))
    (fobj : forall kvs, Forall (fun kv => P kv.2) kvs -> P (JObj kvs)) : forall j, P j :=
  fix F j :=
    match j with
    | JNull => fnull
    | JBool b => fbool b
    | JNum z => fnum z
    | JStr s => fstr s
    | JArr l => farr l ((fix G l : Forall P l :=
                          match l with [] => List.Forall_nil _ | x :: l' => List.Forall_cons _ _ _ (F x) (G l') end) l)
    | JObj kvs => fobj kvs ((fix G kvs : Forall (fun kv => P kv.2) kvs :=
                              match kvs with
                              | [] => List.Forall_nil _
                              | kv :: kvs' => List.Forall_cons _ _ _ (F kv.2) (G kvs')
                              end) kvs)
    end.

(** ** Operations on a document *)

(** [key in doc] for a string [key]: a dict tests its keys, a list its
    elements, a string its substrings; a number, a bool or [None] is not
    iterable. *)
Definition py_in (key : string) (doc : json) : result bool :=
  match doc with
  | JObj kvs => Ok (bool_decide (key ∈ kvs.*1))
  | JArr l => Ok (existsb (fun x => match x with JStr s => bool_decide (s = key) | _ => false end) l)
  | JStr s => Ok (s_contains key s)
  | _ => Err TypeError
  end.

(** [doc[key]] for a string [key]: [KeyError] when a dict lacks it,
    [TypeError] on a list (indices are integers), a string or a scalar. *)
Definition jget (doc : json) (key : string) : result json :=
  match doc with
  | JObj kvs => match list_find (fun kv => kv.1 = key) kvs with
                | Some (_, (_, v)) => Ok v
                | None => Err KeyError
                end
  | _ => Err TypeError
  end.

(** [for x in doc]: a list's elements, a dict's keys, a string's
    characters. *)
Definition py_iter (doc : json) : result (list json) :=
  match doc with
  | JArr l => Ok l
  | JObj kvs => Ok ((fun kv => JStr kv.1) <$> kvs)
  | JStr s => Ok ((fun c => JStr (String c EmptyString)) <$> String.list_ascii_of_string s)
  | _ => Err TypeError
  end.

(** ** [str()] and [repr()] *)

Definition dq : string := String "034"%char EmptyString.
Definition sq : string := String "039"%char EmptyString.
Definition bs : ascii := "092"%char.

(** Two lower-case hexadecimal digits, as in ["\x1b"]. *)
Definition hex2 (n : Z) : string := String (digit_char (n / 16)) (String (digit_char (n mod 16)) EmptyString).

(** One character of [repr(s)] quoted with [q]: the quote and the
    backslash escaped, [\t], [\n], [\r], other control characters and the
    non-printable Latin-1 ones (U+0080..U+00A0, U+00AD) as [\xNN]. *)
Definition repr_char (q c : ascii) : string :=
  let n := cp c in
  if bool_decide (c = q) || bool_decide (c = bs) then String bs (String c EmptyString)
  else if n =? 9 then String bs "t"
  else if n =? 10 then String bs "n"
  else if n =? 13 then String bs "r"
  else if (n <? 32) || (n =? 127) then String bs (String "x" (hex2 n))
  else if n <? 127 then String c EmptyString
  else if (n <=? 160) || (n =? 173) then String bs (String "x" (hex2 n))
  else String c EmptyString.

(** [repr(s)]: single quotes unless the text has a single quote and no
    double quote. *)
Definition repr_str (s : string) : string :=
  let q := if s_contains sq s && negb (s_contains dq s) then "034"%char else "039"%char in
  String q (String.concat "" (repr_char q <$> String.list_ascii_of_string s) +:+ String q EmptyString)%stdpp.

Fixpoint py_repr (j : json) : string :=
  match j with
  | JNull => "None"
  | JBool true => "True"
  | JBool false => "False"
  | JNum z => str_of_Z z
  | JStr s => repr_str s
  | JArr l => ("[" +:+ s_join ", " (py_repr <$> l) +:+ "]")%stdpp
  | JObj kvs => ("{" +:+ s_join ", " ((fun kv => repr_str kv.1 +:+ ": " +:+ py_repr kv.2) <$> kvs) +:+ "}")%stdpp
  end.

(** [str(x)]: a string is itself, anything else its [repr]. *)
Definition py_str (j : json) : string :=
  match j with JStr s => s | _ => py_repr j end.

(** ** Lemmas *)

Lemma jget_missing kvs key : key ∉ kvs.*1 -> jget (JObj kvs) key = Err KeyError.
Proof.
  intros Hk. simpl. rewrite (proj2 (list_find_None _ _)); [done|].
  apply Forall_forall. intros [k v] Hin; simpl; intros ->. apply Hk. apply list_elem_of_fmap. by exists (key, v).
Qed.

Lemma jget_first kvs1 key v kvs2 : key ∉ kvs1.*1 -> jget (JObj (kvs1 ++ (key, v) :: kvs2)) key = Ok v.
Proof.
  intros Hk. simpl. rewrite list_find_app_r.
  - simpl. by rewrite decide_True.
  - apply list_find_None, Forall_forall. intros [k w] Hin; simpl; intros ->. apply Hk. apply list_elem_of_fmap. by exists (key, w).
Qed.
