(* ===== verification/Grid.v ===== *)
(** * Rectangular grids: lists of rows

    Both the sudoku and the Game of Life keep a board as a Python list of
    rows, read with [grid[i][j]] and written with [grid[i][j] = v].  This
    file holds their specification-side view: [at_ g (i, j)] is the cell,
    when there is one; [upd g (i, j) v] is the grid after the assignment;
    [shape R C g] says the grid has [R] rows of [C] cells.  The lemmas are
    the ones both components use: reading after writing, shape
    preservation and extensionality. *)

From S2P Require Import Prelude Py.

Open Scope Z_scope.

Definition pos := (nat * nat)%type.

Section Grid.
Context {A : Type}.
Implicit Types g h : list (list A).

(** The cell at a position, when there is one. *)
Definition at_ g (p : pos) : option A := g !! p.1 ≫= (fun row => row !! p.2).

(** The grid after [grid[i][j] = v]. *)
Definition upd g (p : pos) (v : A) : list (list A) := alter (fun row => <[p.2 := v]> row) p.1 g.

Definition shape (R C : nat) g : Prop := length g = R /\ Forall (fun row => length row = C) g.

#[global] Instance shape_dec R C g : Decision (shape R C g).
Proof. unfold shape. apply _. Defined.

Context {R C : nat}.

Lemma shape_row g i row : shape R C g -> g !! i = Some row -> length row = C.
Proof. intros [_ Hr] Hi. exact (Forall_lookup_1 _ _ _ _ Hr Hi). Qed.

Lemma at_shape g i j : shape R C g -> (i < R)%nat -> (j < C)%nat ->
  exists row x, g !! i = Some row /\ row !! j = Some x /\ at_ g (i, j) = Some x.
Proof.
  intros Hs Hi Hj. destruct (lookup_lt_is_Some_2 g i) as [row Hrow]; [destruct Hs; lia|].
  pose proof (shape_row g i row Hs Hrow) as Hl.
  destruct (lookup_lt_is_Some_2 row j) as [x Hx]; [lia|].
  exists row, x. unfold at_. simpl. by rewrite Hrow, Hx.
Qed.

Lemma at_out g i j : shape R C g -> (R <= i \/ C <= j)%nat -> at_ g (i, j) = None.
Proof.
  intros Hs Hij. unfold at_. simpl. destruct (g !! i) as [row|] eqn:Hrow; [|done]. simpl.
  pose proof (lookup_lt_Some _ _ _ Hrow). pose proof (shape_row g i row Hs Hrow). destruct Hs.
  apply lookup_ge_None. lia.
Qed.

Lemma shape_upd g p v : shape R C g -> shape R C (upd g p v).
Proof.
  intros Hs. pose proof Hs as [Hg Hr]. split; [by unfold upd; rewrite length_alter|].
  apply Forall_lookup. intros k row Hk. unfold upd in Hk.
  destruct (decide (k = p.1)) as [->|Hne].
  - rewrite list_lookup_alter_eq in Hk. destruct (g !! p.1) as [r|] eqn:E; simpl in Hk; [|done]. injection Hk as <-.
    rewrite length_insert. exact (shape_row _ _ _ Hs E).
  - rewrite list_lookup_alter_ne in Hk by congruence. exact (shape_row _ _ _ Hs Hk).
Qed.

(** [grid[i][j]] for an in-range position. *)
Lemma cell_get g i j :
  shape R C g -> 0 <= i < Z.of_nat R -> 0 <= j < Z.of_nat C ->
  exists row x, py_get g i = Ok row /\ py_get row j = Ok x /\ at_ g (Z.to_nat i, Z.to_nat j) = Some x.
Proof.
  intros Hs Hi Hj. destruct (at_shape g (Z.to_nat i) (Z.to_nat j) Hs) as (row & x & Hrow & Hx & Hat); [lia..|].
  exists row, x. rewrite (py_get_ok g i row), (py_get_ok row j x) by (lia || done). done.
Qed.

(** [grid[i][j] = v] for an in-range position. *)
Lemma cell_set g i j v :
  shape R C g -> 0 <= i < Z.of_nat R -> 0 <= j < Z.of_nat C ->
  (r ← py_get g i; r' ← py_set r j v; py_set g i r') = Ok (upd g (Z.to_nat i, Z.to_nat j) v).
Proof.
  intros Hs Hi Hj. destruct (at_shape g (Z.to_nat i) (Z.to_nat j) Hs) as (row & x & Hrow & Hx & _); [lia..|].
  pose proof (shape_row g _ row Hs Hrow). pose proof Hs as [Hg _].
  rewrite (py_get_ok g i row) by (lia || done). cbn.
  rewrite py_set_ok by lia. cbn. rewrite py_set_ok by lia.
  f_equal. unfold upd. simpl. apply list_eq. intros k.
  destruct (decide (k = Z.to_nat i)) as [->|Hk].
  - by rewrite list_lookup_insert_eq, list_lookup_alter_eq, Hrow by lia.
  - by rewrite list_lookup_insert_ne, list_lookup_alter_ne by congruence.
Qed.

(** Two grids of the same shape with the same cells are equal. *)
Lemma grid_ext g h : shape R C g -> shape R C h ->
  (forall i j, (i < R)%nat -> (j < C)%nat -> at_ g (i, j) = at_ h (i, j)) -> g = h.
Proof.
  intros Hsg Hsh E. pose proof Hsg as [Hg _]. pose proof Hsh as [Hh _]. apply list_eq. intros i.
  destruct (decide (i < R)%nat) as [Hi|Hi]; [|rewrite !lookup_ge_None_2 by lia; done].
  destruct (lookup_lt_is_Some_2 g i) as [r1 H1]; [lia|]. destruct (lookup_lt_is_Some_2 h i) as [r2 H2]; [lia|].
  rewrite H1, H2. f_equal. apply list_eq. intros j.
  pose proof (shape_row g i r1 Hsg H1). pose proof (shape_row h i r2 Hsh H2).
  destruct (decide (j < C)%nat) as [Hj|Hj]; [|rewrite !lookup_ge_None_2 by lia; done].
  specialize (E i j Hi Hj). unfold at_ in E. simpl in E. by rewrite H1, H2 in E.
Qed.

End Grid.

Lemma at_upd {A} (g : list (list A)) p v q :
  at_ (upd g p v) q = if decide (q = p) then (at_ g p ≫= fun _ => Some v) else at_ g q.
Proof.
  destruct p as [i j], q as [i' j']. unfold at_, upd. simpl.
  destruct (decide (i' = i)) as [->|Hi].
  - rewrite list_lookup_alter_eq. destruct (g !! i) as [row|]; simpl; [|by case_decide].
    destruct (decide (j' = j)) as [->|Hj].
    + rewrite decide_True by done. destruct (decide (j < length row)%nat).
      * rewrite list_lookup_insert_eq by done. destruct (lookup_lt_is_Some_2 row j) as [x ->]; done.
      * rewrite list_insert_ge by lia. by rewrite lookup_ge_None_2 by lia.
    + rewrite decide_False by congruence. by rewrite list_lookup_insert_ne by done.
  - rewrite decide_False by congruence. by rewrite list_lookup_alter_ne by done.
Qed.

Lemma upd_upd {A} (g : list (list A)) p x y : upd (upd g p x) p y = upd g p y.
Proof. unfold upd. rewrite list_alter_alter_eq. apply list_alter_ext; [|done]. intros row _. apply list_insert_insert_eq. Qed.

Lemma upd_same {A} (g : list (list A)) p x : at_ g p = Some x -> upd g p x = g.
Proof.
  destruct p as [i j]. unfold at_, upd. simpl. intros E.
  destruct (g !! i) as [row|] eqn:Hrow; [|done]. simpl in E.
  apply list_eq. intros k. destruct (decide (k = i)) as [->|Hk].
  - rewrite list_lookup_alter_eq, Hrow. simpl. f_equal. by apply list_insert_id.
  - by rewrite list_lookup_alter_ne by congruence.
Qed.
