(* ===== verification/Sudoku.v ===== *)
(** * The sudoku solver ([homework02/sudoku.py])

    A grid is a list of rows, a row a list of one-character strings, each
    modelled by its character ([ascii]); ["."] marks an empty cell.  Pure
    functions return a [result] (Python's [IndexError] when a list index is
    out of range); [solve] mutates the grid it is given and returns that
    same object, so it runs in the state monad on the grid.  The iteration
    order of a Python [set] is not specified: [solve] takes it as a
    parameter [set_iter], any enumeration of the set's elements.  The
    [while] loops carry fuel, with a theorem that the fuel given is
    enough. *)

From S2P Require Import Prelude Py Fs Refs.

Open Scope Z_scope.

Module Sudoku.

Abbreviation cell := ascii.
Abbreviation grid := (list (list cell)).

(** [c in "123456789."] *)
Definition is_sudoku_char (c : cell) : bool := s_contains (String c EmptyString) "123456789.".

(** The [while values:] loop of [group]: [Lists.append(values[:n]);
    del values[:n]]; it returns the groups and the caller's list as the
    loop leaves it, emptied. *)
Fixpoint group_loop {A} (fuel : nat) (n : Z) (values : list A) (Lists : list (list A)) : result (list (list A) * list A) :=
  match fuel with
  | O => Err NoTermination
  | S f =>
      match values with
      | [] => Ok (Lists, values)
      | _ => group_loop f n (py_del_prefix values n) (Lists ++ [py_prefix values n])
      end
  end.

Definition group {A} (values : list A) (n : Z) : result (list (list A) * list A) :=
  group_loop (S (length values)) n values [].

Definition create_grid (puzzle : string) : result grid :=
  r ← group (filter (fun c => is_sudoku_char c = true) (String.list_ascii_of_string puzzle)) 9; Ok r.1.

Definition read_sudoku (filename : pypath) : IO grid :=
  s <- Refs.read_text filename ;; slift (create_grid s).

Definition get_row (grid : grid) (pos : Z * Z) : result (list cell) := py_get grid pos.1.

Definition get_col (grid : grid) (pos : Z * Z) : result (list cell) :=
  mapM (fun i => r ← py_get grid i; py_get r pos.2) (seqZ 0 (Z.of_nat (length grid))).

(** [start[pos[1] // 3]] is evaluated once per row of the slice. *)
Definition get_block (grid : grid) (pos : Z * Z) : result (list cell) :=
  let start := [0; 3; 6] in
  s0 ← py_get start (pos.1 `div` 3);
  blocks ← mapM (fun row => s1 ← py_get start (pos.2 `div` 3); Ok (py_slice row s1 (s1 + 3))) (py_slice grid s0 (s0 + 3));
  Ok (concat blocks).

(** [get_diagonal] returns a list, or a pair of lists for the centre. *)
Inductive diagonal := DList (l : list cell) | DPair (l r : list cell).

(** One [while] loop of [get_diagonal]: walk from [(i, j)] by [(di, dj)],
    reading [grid[i + oi][j + oj]] while the guard holds. *)
Definition diag_walk (grid : grid) (fuel : nat) (guard : Z -> Z -> bool) (oi oj di dj : Z)
    (i j : Z) (acc : list cell) : result (list cell) :=
  r ← py_while fuel (fun '(i, j, _) => guard i j)
        (fun '(i, j, acc) => row ← py_get grid (i + oi); x ← py_get row (j + oj); Ok (i + di, j + dj, acc ++ [x]))
        (i, j, acc);
  Ok r.2.

Definition get_diagonal (grid : grid) (pos : Z * Z) : result diagonal :=
  let fuel := S (2 * length grid) in
  dl ← diag_walk grid fuel (fun top left => negb (top =? 0) && negb (left =? 0)) (-1) (-1) (-1) (-1) pos.1 pos.2 [];
  dl ← diag_walk grid fuel (fun bottom right => negb (bottom =? 9) && negb (right =? 9)) 0 0 1 1 pos.1 pos.2 (reverse dl);
  dr ← diag_walk grid fuel (fun top right => negb (top =? 0) && negb (right =? 9)) (-1) 1 (-1) 1 pos.1 pos.2 [];
  dr ← diag_walk grid fuel (fun bottom left => negb (bottom =? 9) && negb (left =? -1)) 0 0 1 (-1) pos.1 pos.2 (reverse dr);
  if (pos.1 =? pos.2) && (pos.2 =? 4) then Ok (DPair dl dr)
  else if (length dl <? length dr)%nat then Ok (DList dr)
  else Ok (DList dl).

(** [display]: the nine printed rows, a rule after rows 2 and 5, an empty line. *)
Definition display_row (grid : grid) (row : Z) : result string :=
  cells ← mapM (fun col => r ← py_get grid row; c ← py_get r col;
                  Ok (py_center (String c EmptyString) 2 +:+ (if s_contains (str_of_Z col) "25" then "|" else ""))%stdpp)
                (seqZ 0 9);
  Ok (String.concat "" cells).

Definition display (grid : grid) : IO unit :=
  let line := s_join "+" (repeat "------" 3) in
  sfor (seqZ 0 9) (fun row =>
    l <- slift (display_row grid row) ;; print l ;;;
    if s_contains (str_of_Z row) "25" then print line else sret tt) ;;;
  print "".

(** [for x in xs: ... return ...] where the body may return early ([Some]). *)
Fixpoint py_first {A} (f : Z -> result (option A)) (xs : list Z) : result (option A) :=
  match xs with
  | [] => Ok None
  | x :: xs' => r ← f x; match r with Some a => Ok (Some a) | None => py_first f xs' end
  end.

(** The nested loops of [find_empty_positions]; the inner loop also
    ranges over [len(grid)]. *)
Definition find_empty_positions (grid : grid) : result (option (Z * Z)) :=
  let n := Z.of_nat (length grid) in
  py_first (fun i => py_first (fun j =>
      r ← py_get grid i; c ← py_get r j; Ok (if decide (c = "."%char) then Some (i, j) else None))
    (seqZ 0 n)) (seqZ 0 n).

(** [{str(i) for i in range(1, 10)}] *)
Definition all_digits : gset cell := list_to_set (digit_char <$> seqZ 1 9).

Definition find_possible_values (grid : grid) (pos : Z * Z) : result (gset cell) :=
  r ← get_row grid pos; c ← get_col grid pos; b ← get_block grid pos;
  Ok (all_digits ∖ list_to_set r ∖ list_to_set c ∖ list_to_set b).

(** [grid[row][col] = v] on the grid [solve] shares with its caller. *)
Definition set_cell (row col : Z) (v : cell) : stm grid unit :=
  g <- sget ;;
  g' <- slift (r ← py_get g row; r' ← py_set r col v; py_set g row r') ;;
  sput g'.

(** The loop [for i in find_possible_values(grid, pos): grid[row][col] = i;
    answer = solve(grid); if answer: return answer], then
    [grid[row][col] = "."; return None]; [rec] is the recursive call. *)
Fixpoint try_values (rec : stm grid (option grid)) (row col : Z) (vs : list cell) : stm grid (option grid) :=
  match vs with
  | [] => set_cell row col "." ;;; sret None
  | i :: vs' =>
      set_cell row col i ;;;
      answer <- rec ;;
      match answer with
      | Some (r :: rs) => sret (Some (r :: rs))
      | _ => try_values rec row col vs'
      end
  end.

Section Solve.
(** The order in which [for i in <set>] visits the set's elements. *)
Variable set_iter : gset cell -> list cell.

(** [solve]: the recursion has Python's recursion limit as fuel; the
    answer is the grid object itself, [if answer:] tests it is not empty. *)
Fixpoint solve_fuel (fuel : nat) : stm grid (option grid) :=
  match fuel with
  | O => sthrow RecursionError
  | S f =>
      grid <- sget ;;
      pos <- slift (find_empty_positions grid) ;;
      match pos with
      | None => sret (Some grid)
      | Some (row, col) =>
          vals <- slift (find_possible_values grid (row, col)) ;;
          try_values (solve_fuel f) row col (set_iter vals)
      end
  end.

Definition solve : stm grid (option grid) := solve_fuel recursion_limit.

(** [generate_sudoku(N)], with the values [random.randint(0, 8)] returns
    taken in order from [rand]; when they run out with the loop still
    running the result is [NoTermination]. *)
Fixpoint generate_loop (N : Z) (rand : list Z) (grid : option grid) : result (option (list (list cell))) :=
  if N =? 0 then Ok grid
  else match rand with
       | row :: col :: rand' =>
           match grid with
           | Some g =>
               c ← (r ← py_get g row; py_get r col);
               if decide (c <> "."%char) then
                 g' ← (r ← py_get g row; r' ← py_set r col "."%char; py_set g row r');
                 generate_loop (N - 1) rand' (Some g')
               else generate_loop N rand' (Some g)
           | None => generate_loop N rand' None
           end
       | _ => Err NoTermination
       end.

Definition empty_grid : grid := repeat (repeat "."%char 9) 9.

Definition generate_sudoku (N : Z) (rand : list Z) : result (option grid) :=
  match solve empty_grid with
  | (Err e, _) => Err e
  | (Ok grid, _) => generate_loop (81 - Z.min 81 N) rand grid
  end.

End Solve.

(** [for x in xs: if not f(x): return False] *)
Fixpoint py_all (f : Z -> result bool) (xs : list Z) : result bool :=
  match xs with
  | [] => Ok true
  | x :: xs' => match f x with Ok true => py_all f xs' | Ok false => Ok false | Err e => Err e end
  end.

(** [set("123456789")] *)
Definition digit_set : gset cell := list_to_set (String.list_ascii_of_string "123456789").

Definition check_solution (sol : grid) : result bool :=
  let n := length sol in
  rows_ok ← py_all (fun row => res ← get_row sol (row, 0); Ok (bool_decide (list_to_set res = digit_set))) (seqZ 0 (Z.of_nat n));
  if negb rows_ok then Ok false else
  cols_ok ← py_all (fun col => res ← get_col sol (0, col); Ok (bool_decide (list_to_set res = digit_set))) (seqZ 0 (Z.of_nat n));
  if negb cols_ok then Ok false else
  py_all (fun row => py_all (fun col => res ← get_block sol (row, col); Ok (bool_decide (list_to_set res = digit_set)))
                              (Z.of_nat <$> py_range 0 (n - 1) 3))
         (Z.of_nat <$> py_range 0 (n - 1) 3).

(** ** [group] *)

(** The reference: [[values[k*n:(k+1)*n] for k in range(ceil(len(values) / n))]]. *)
Definition chunks {A} (n : nat) (values : list A) : list (list A) :=
  (fun k => take n (drop (k * n) values)) <$> seq 0 ((length values + n - 1) / n).

Lemma py_prefix_pos {A} (l : list A) n : 0 < n -> py_prefix l n = take (Z.to_nat n) l.
Proof.
  intros Hn. unfold py_prefix, py_bound. destruct (Z.ltb_spec n 0); [lia|].
  destruct (Z.min_spec n (Z.of_nat (length l))) as [[_ ->] | [Hge ->]]; [done|].
  rewrite Nat2Z.id, firstn_all. rewrite take_ge; [done | lia].
Qed.

Lemma py_del_prefix_pos {A} (l : list A) n : 0 < n -> py_del_prefix l n = drop (Z.to_nat n) l.
Proof.
  intros Hn. unfold py_del_prefix, py_bound. destruct (Z.ltb_spec n 0); [lia|].
  destruct (Z.min_spec n (Z.of_nat (length l))) as [[_ ->] | [Hge ->]]; [done|].
  rewrite Nat2Z.id, drop_all. rewrite drop_ge; [done | lia].
Qed.

Lemma chunks_cons {A} n (values : list A) :
  (0 < n)%nat -> values <> [] -> chunks n values = take n values :: chunks n (drop n values).
Proof.
  intros Hn Hv. unfold chunks. rewrite length_drop.
  assert (Hl : (0 < length values)%nat) by (destruct values; simpl; [done | lia]).
  replace ((length values + n - 1) / n)%nat with (S ((length values - n + n - 1) / n)).
  - cbn [seq fmap list_fmap]. rewrite Nat.mul_0_l, drop_0. f_equal.
    rewrite <- fmap_S_seq, <- list_fmap_compose. apply list_fmap_ext. intros _ k _. simpl.
    by rewrite drop_drop, Nat.add_comm.
  - destruct (decide (length values <= n)%nat).
    + replace (length values - n + n - 1)%nat with (n - 1)%nat by lia.
      rewrite (Nat.div_small (n - 1)) by lia.
      apply (Nat.div_unique _ _ 1 (length values - 1)); lia.
    + replace (length values + n - 1)%nat with (1 * n + (length values - n + n - 1))%nat by lia.
      rewrite Nat.div_add_l by lia. lia.
Qed.

Lemma group_loop_ok {A} fuel n (values : list A) Lists :
  0 < n -> (length values < fuel)%nat ->
  group_loop fuel n values Lists = Ok (Lists ++ chunks (Z.to_nat n) values, []).
Proof.
  intros Hn. revert values Lists. induction fuel as [|f IH]; intros values Lists Hf; [lia|]. cbn [group_loop].
  destruct values as [|x values'] eqn:Hv.
  - unfold chunks. cbn [length]. rewrite Nat.div_small by lia. by rewrite app_nil_r.
  - rewrite <- Hv. rewrite py_prefix_pos, py_del_prefix_pos, IH by (subst; rewrite ?length_drop; simpl in *; lia).
    rewrite (chunks_cons _ values) by (subst; lia || done). by rewrite <- app_assoc.
Qed.

Lemma py_del_prefix_nonpos {A} (l : list A) n : n <= 0 -> l <> [] -> py_del_prefix l n <> [].
Proof.
  intros Hn Hl. unfold py_del_prefix, py_bound.
  assert (H0 : (0 < length l)%nat) by (destruct l; simpl; [done | lia]).
  intros E. apply (f_equal length) in E. rewrite length_drop in E. simpl in E.
  destruct (Z.ltb_spec n 0); lia.
Qed.

Lemma chunks_concat {A} n (values : list A) : (0 < n)%nat -> concat (chunks n values) = values.
Proof.
  intros Hn. remember (length values) as k eqn:Hk. revert values Hk.
  induction k as [k IH] using lt_wf_ind; intros values Hk.
  destruct values as [|x values'].
  - unfold chunks. simpl. by rewrite Nat.div_small by lia.
  - rewrite chunks_cons by done. simpl. rewrite (IH (length (drop n (x :: values')))); [apply take_drop | | done].
    rewrite length_drop. simpl in *. lia.
Qed.

(** C22 (equivalence): for a positive [n], [group] returns the chunks
    [values[k*n:(k+1)*n]] in order, whose concatenation is [values], and
    leaves the caller's list empty ([del values[:n]] mutates it). *)
Theorem group_chunks {A} (values : list A) n :
  0 < n -> group values n = Ok (chunks (Z.to_nat n) values, []) /\ concat (chunks (Z.to_nat n) values) = values.
Proof. intros Hn. split; [unfold group; rewrite group_loop_ok by (done || lia); done | apply chunks_concat; lia]. Qed.

(** For [n <= 0] and a nonempty list the [while values:]
    loop of [group] never ends: [values[:n]] leaves a nonempty remainder,
    so every amount of fuel runs out. *)
Theorem group_diverges {A} (values : list A) n fuel Lists :
  n <= 0 -> values <> [] -> group_loop fuel n values Lists = Err NoTermination.
Proof.
  intros Hn. revert values Lists. induction fuel as [|f IH]; intros values Lists Hv; [done|]. cbn [group_loop].
  destruct values as [|x values']; [done|]. apply IH. by apply py_del_prefix_nonpos.
Qed.

(** ** [get_diagonal] *)

(** Each walk reads the row [i + oi] with [i] moving one step at a time,
    so at most [2 * len(grid)] rounds succeed before the guard stops it or
    [grid[i + oi]] raises: the fuel [2 * len(grid) + 1] never runs out. *)
Lemma diag_walk_total grid fuel guard oi oj di dj i j acc :
  (di = 1 /\ oi = 0 \/ di = -1 /\ oi = -1) -> (2 * length grid < fuel)%nat ->
  diag_walk grid fuel guard oi oj di dj i j acc <> Err NoTermination.
Proof.
  intros Hd Hf. unfold diag_walk.
  set (n := Z.of_nat (length grid)).
  set (mu := fun (s : Z * Z * list cell) => let '(i, _, _) := s in if di =? 1 then n - 1 - i else i - 1 + n).
  destruct (py_while fuel _ _ (i, j, acc)) as [r|e] eqn:E; unfold mbind, result_bind; [discriminate|]. intros [= ->].
  revert E. apply (py_while_bounded _ _ mu (2 * n)); [| | lia | lia].
  - intros [[i' j'] acc'] s' _ Hb.
    destruct (py_get grid (i' + oi)) as [row|] eqn:Hr; [|discriminate]. simpl in Hb.
    destruct (py_get row (j' + oj)); [|discriminate]. injection Hb as <-.
    apply py_get_range in Hr. subst mu; simpl. destruct Hd as [[-> ->] | [-> ->]]; simpl; lia.
  - intros [[i' j'] acc'] E. simpl in E.
    destruct (py_get grid (i' + oi)) as [row|e] eqn:Hr; simpl in E; [|apply py_get_err in Hr; congruence].
    destruct (py_get row (j' + oj)) eqn:Hx; simpl in E; [discriminate|]. apply py_get_err in Hx. congruence.
Qed.

(** [get_diagonal] never runs out of fuel, on any grid
    and any position: each of its four [while] loops ends or raises
    [IndexError]. *)
Theorem get_diagonal_total grid pos : get_diagonal grid pos <> Err NoTermination.
Proof.
  intros E. unfold get_diagonal, mbind, result_bind in E.
  repeat match type of E with
  | context [match diag_walk ?a ?b ?c ?d ?e ?f ?g ?h ?i ?j with _ => _ end] =>
      let Hw := fresh "Hw" in destruct (diag_walk a b c d e f g h i j) eqn:Hw;
      [|simpl in E; injection E as ->; eapply diag_walk_total; [| | exact Hw]; lia]
  end.
  repeat case_match; discriminate.
Qed.

Definition is_index_error {A} (r : result A) : bool :=
  match r with Err IndexError => true | _ => false end.

(** A list of length 9 as its nine elements. *)
Ltac destruct_len9 l H :=
  do 9 (destruct l as [|? l]; [simpl in H; lia|]); destruct l; [|simpl in H; lia].

(** Whether [get_diagonal] raises depends only on the indices it reads:
    checked on the 81 positions of a grid of 81 unknown cells. *)
Lemma get_diagonal_error_check g r c :
  length g = 9%nat -> Forall (fun row => length row = 9%nat) g -> (r < 9)%nat -> (c < 9)%nat ->
  is_index_error (get_diagonal g (Z.of_nat r, Z.of_nat c)) = (9 <=? r + c)%nat.
Proof.
  intros Hg Hrows Hr Hc. destruct_len9 g Hg.
  repeat match goal with H : Forall _ (_ :: _) |- _ => inversion_clear H end.
  repeat match goal with H : length ?l = 9%nat |- _ => destruct_len9 l H; clear H end.
  do 9 (destruct r as [|r]; [do 9 (destruct c as [|c]; [vm_compute; reflexivity|]); lia|]). lia.
Qed.

(** C21 (finding): on a 9x9 grid, [get_diagonal] raises [IndexError]
    exactly at the positions [(row, col)] with [row + col >= 9]: the loop
    up and to the right reads [grid[top - 1][right + 1]] while [right != 9],
    i.e. column 9, before [top] reaches 0.  Its doctests for (7, 7) and
    (8, 8) expect a diagonal. *)
Theorem get_diagonal_index_error g row col :
  length g = 9%nat -> Forall (fun r => length r = 9%nat) g -> 0 <= row < 9 -> 0 <= col < 9 ->
  get_diagonal g (row, col) = Err IndexError <-> 9 <= row + col.
Proof.
  intros Hg Hrows Hr Hc.
  pose proof (get_diagonal_error_check g (Z.to_nat row) (Z.to_nat col) Hg Hrows ltac:(lia) ltac:(lia)) as E.
  rewrite !Z2Nat.id in E by lia.
  transitivity (is_index_error (get_diagonal g (row, col)) = true).
  - unfold is_index_error. destruct (get_diagonal g (row, col)) as [|[]]; split; congruence.
  - rewrite E, Nat.leb_le. lia.
Qed.

(** ** Instances *)

Lemma group_chunks_witness :
  0 < 3 /\ group (seq 0 7) 3 = Ok (chunks (Z.to_nat 3) (seq 0 7), []) /\
  concat (chunks (Z.to_nat 3) (seq 0 7)) = seq 0 7.
Proof. split; [lia | apply (group_chunks (seq 0 7) 3); lia]. Defined.

Lemma group_diverges_witness :
  0 <= 0 /\ [1%nat] <> [] /\ group_loop 5 0 [1%nat] [] = Err NoTermination.
Proof. split; [lia|]. split; [done|]. apply (group_diverges [1%nat] 0 5 []); [lia | done]. Defined.

Lemma get_diagonal_index_error_witness :
  length empty_grid = 9%nat /\ Forall (fun r => length r = 9%nat) empty_grid /\
  (get_diagonal empty_grid (8, 8) = Err IndexError <-> 9 <= 8 + 8).
Proof.
  assert (Hr : Forall (fun r => length r = 9%nat) empty_grid) by (repeat constructor).
  split; [reflexivity|]. split; [exact Hr|]. apply (get_diagonal_index_error empty_grid 8 8); [reflexivity | exact Hr | lia | lia].
Defined.

End Sudoku.
