(* ===== verification/SudokuSolve.v ===== *)
(** * Correctness of the sudoku solver ([solve] in [homework02/sudoku.py])

    The specification is stated on positions [(i, j)] of a 9x9 grid: a
    grid is well formed when it is 9x9, its cells are digits or ["."] and
    no digit occurs twice in a row, a column or a 3x3 block; a solution of
    [g] is a well-formed full grid that keeps every filled cell of [g].
    The theorems show that [solve] is a decision procedure for this
    specification whatever order a Python [set] is iterated in: it returns
    the grid it was given, completed, when a solution exists, and [None]
    with the grid restored when none does. *)

From S2P Require Import Prelude Py Fs Refs Grid Sudoku.

Open Scope Z_scope.

Module SudokuSolve.
Import Sudoku.
Implicit Types g h : grid.

Definition digit_list : list cell := String.list_ascii_of_string "123456789".

Definition positions : list pos := list_prod (seq 0 9) (seq 0 9).

Definition same_unit (p q : pos) : Prop :=
  p.1 = q.1 \/ p.2 = q.2 \/ (Nat.div p.1 3 = Nat.div q.1 3 /\ Nat.div p.2 3 = Nat.div q.2 3).

Abbreviation shape9 := (shape 9 9).

Definition cell_ok (o : option cell) : bool :=
  match o with Some x => bool_decide (x = "."%char \/ x ∈ digit_list) | None => false end.

Definition no_clash (o1 o2 : option cell) : bool :=
  match o1, o2 with Some x, Some y => bool_decide (x = "."%char \/ x <> y) | _, _ => true end.

Definition consistent (g : grid) : Prop :=
  Forall (fun p => Forall (fun q => p <> q -> same_unit p q -> no_clash (at_ g p) (at_ g q) = true) positions) positions.

Definition wf (g : grid) : Prop :=
  shape9 g /\ Forall (fun p => cell_ok (at_ g p) = true) positions /\ consistent g.

Definition full (g : grid) : Prop := Forall (fun p => at_ g p <> Some "."%char) positions.

(** [h] keeps every filled cell of [g]. *)
Definition extends (g h : grid) : Prop :=
  Forall (fun p => forall x, at_ g p = Some x -> x <> "."%char -> at_ h p = Some x) positions.

Definition solution (g h : grid) : Prop := wf h /\ full h /\ extends g h.

(** The number of empty cells. *)
Definition dots (g : grid) : nat := length (filter (fun p => at_ g p = Some "."%char) positions).

#[export] Instance same_unit_dec p q : Decision (same_unit p q).
Proof. unfold same_unit. apply _. Defined.

#[export] Instance consistent_dec g : Decision (consistent g).
Proof. unfold consistent. apply _. Defined.

#[export] Instance wf_dec g : Decision (wf g).
Proof. unfold wf. apply _. Defined.

#[export] Instance full_dec g : Decision (full g).
Proof. unfold full. apply _. Defined.

(** ** Positions and cells *)

Lemma elem_of_positions p : p ∈ positions <-> (p.1 < 9 /\ p.2 < 9)%nat.
Proof. destruct p as [i j]. unfold positions. rewrite list_elem_of_In, in_prod_iff, !in_seq. simpl. lia. Qed.

Lemma Forall_positions (P : pos -> Prop) : Forall P positions <-> forall i j, (i < 9)%nat -> (j < 9)%nat -> P (i, j).
Proof.
  rewrite Forall_forall. split.
  - intros H i j Hi Hj. apply H, elem_of_positions. simpl. lia.
  - intros H [i j] Hp. apply elem_of_positions in Hp. apply H; simpl in *; lia.
Qed.

(** ** The code on a 9x9 grid *)

Lemma elem_of_concat {A} (x : A) (ls : list (list A)) : x ∈ concat ls <-> exists l, x ∈ l /\ l ∈ ls.
Proof. rewrite list_elem_of_In, in_concat. setoid_rewrite list_elem_of_In. naive_solver. Qed.

Lemma set_cell_spec g i j v :
  shape9 g -> (i < 9)%nat -> (j < 9)%nat -> set_cell (Z.of_nat i) (Z.of_nat j) v g = (Ok tt, upd g (i, j) v).
Proof.
  intros Hs Hi Hj. unfold set_cell, sbind, sget, slift, sput. cbn [fst snd].
  rewrite cell_set, !Nat2Z.id by (done || lia). done.
Qed.

Lemma py_first_spec {A} (f : Z -> result (option A)) xs :
  (forall x, x ∈ xs -> exists o, f x = Ok o) ->
  (py_first f xs = Ok None /\ forall x, x ∈ xs -> f x = Ok None) \/
  (exists x a, x ∈ xs /\ f x = Ok (Some a) /\ py_first f xs = Ok (Some a)).
Proof.
  induction xs as [|x xs IH]; intros Hf; [left; split; [done | intros ? Hx; inversion Hx]|].
  destruct (Hf x) as [[a|] Hx]; [by left|..].
  - right. exists x, a. split; [by left|]. split; [done|]. simpl. by rewrite Hx.
  - destruct IH as [[H1 H2] | (y & a & Hy & H1 & H2)]; [intros y Hy; apply Hf; by right|..].
    + left. split; [simpl; by rewrite Hx|]. intros y Hy. apply elem_of_cons in Hy as [->|Hy]; auto.
    + right. exists y, a. split; [by right|]. split; [done|]. simpl. by rewrite Hx.
Qed.

Lemma find_empty_spec g :
  shape9 g ->
  (find_empty_positions g = Ok None /\ full g) \/
  (exists i j, (i < 9)%nat /\ (j < 9)%nat /\
     find_empty_positions g = Ok (Some (Z.of_nat i, Z.of_nat j)) /\ at_ g (i, j) = Some "."%char).
Proof.
  intros Hs. pose proof Hs as [Hg _]. unfold find_empty_positions. rewrite Hg.
  set (inner i j := r ← py_get g i; c ← py_get r j; Ok (if decide (c = "."%char) then Some (i, j) else None)).
  assert (Hin : forall i j, 0 <= i < 9 -> 0 <= j < 9 ->
    exists x, at_ g (Z.to_nat i, Z.to_nat j) = Some x /\ inner i j = Ok (if decide (x = "."%char) then Some (i, j) else None)).
  { intros i j Hi Hj. destruct (cell_get g i j Hs Hi Hj) as (row & x & H1 & H2 & H3).
    exists x. split; [done|]. unfold inner. by rewrite H1; simpl; rewrite H2. }
  assert (Hinner : forall i, 0 <= i < 9 -> forall j, j ∈ seqZ 0 9 -> exists o, inner i j = Ok o).
  { intros i Hi j Hj. apply elem_of_seqZ in Hj. destruct (Hin i j Hi) as (x & _ & ->); [lia|]. eauto. }
  destruct (py_first_spec (fun i => py_first (inner i) (seqZ 0 9)) (seqZ 0 9)) as [[H1 H2] | (i & a & Hi & H1 & H2)].
  - intros i Hi. apply elem_of_seqZ in Hi.
    destruct (py_first_spec (inner i) (seqZ 0 9)) as [[-> _] | (_ & a & _ & _ & ->)]; eauto; apply Hinner; lia.
  - left. split; [exact H1|]. apply Forall_positions. intros i j Hi Hj.
    specialize (H2 (Z.of_nat i) ltac:(apply elem_of_seqZ; lia)).
    destruct (py_first_spec (inner (Z.of_nat i)) (seqZ 0 9)) as [[_ H3] | (j' & a & _ & _ & E)];
      [apply Hinner; lia | | congruence].
    destruct (Hin (Z.of_nat i) (Z.of_nat j)) as (x & Hx & E); [lia..|].
    rewrite !Nat2Z.id in Hx. rewrite H3 in E by (apply elem_of_seqZ; lia). rewrite Hx. case_decide; congruence.
  - right. apply elem_of_seqZ in Hi.
    destruct (py_first_spec (inner i) (seqZ 0 9)) as [[E _] | (j & b & Hj & E1 & E2)];
      [apply Hinner; lia | congruence |].
    rewrite H1 in E2. injection E2 as ->. apply elem_of_seqZ in Hj.
    destruct (Hin i j) as (x & Hx & E); [lia..|]. rewrite E1 in E. case_decide as Hd; [|discriminate].
    injection E as Eb. subst. exists (Z.to_nat i), (Z.to_nat j). rewrite !Z2Nat.id by lia. repeat split; (lia || done).
Qed.

Lemma mapM_ok {A B} (f : A -> result B) (R : A -> B -> Prop) l :
  (forall x, x ∈ l -> exists y, f x = Ok y /\ R x y) -> exists ys, mapM f l = Ok ys /\ Forall2 R l ys.
Proof.
  induction l as [|x l IH]; intros Hf; [by exists []|].
  destruct (Hf x) as (y & Hy & Ry); [by left|].
  destruct IH as (ys & Hys & Hr); [intros z Hz; apply Hf; by right|].
  exists (y :: ys). split; [|by constructor]. simpl. by rewrite Hy; simpl; rewrite Hys.
Qed.

(** A list read along [seqZ 0 9] holds exactly the values read. *)
Lemma elem_of_read (R : Z -> cell -> Prop) ys v :
  Forall2 R (seqZ 0 9) ys -> (forall x y y', R x y -> R x y' -> y = y') ->
  v ∈ ys <-> exists k, (k < 9)%nat /\ R (Z.of_nat k) v.
Proof.
  intros Hr Hfun. rewrite list_elem_of_lookup. split.
  - intros [k Hk]. destruct (Forall2_lookup_r _ _ _ _ _ Hr Hk) as (x & Hx & Rx).
    apply lookup_seqZ in Hx as [-> Hlt]. exists k. split; [lia | done].
  - intros (k & Hk & Rk). pose proof (lookup_seqZ_lt 0 9 k ltac:(lia)) as Hx. rewrite Z.add_0_l in Hx.
    destruct (Forall2_lookup_l _ _ _ _ _ Hr Hx) as (y & Hy & Ry). exists k. by rewrite Hy, (Hfun _ _ _ Ry Rk).
Qed.

Lemma get_row_spec g i j :
  shape9 g -> (i < 9)%nat ->
  exists row, get_row g (Z.of_nat i, j) = Ok row /\ forall v, v ∈ row <-> exists k, at_ g (i, k) = Some v.
Proof.
  intros Hs Hi. destruct (at_shape g i 0 Hs Hi) as (row & _ & Hrow & _); [lia|].
  exists row. split; [unfold get_row; simpl; apply py_get_ok; rewrite ?Nat2Z.id; lia || done|].
  intros v. unfold at_. simpl. rewrite Hrow, list_elem_of_lookup. done.
Qed.

Lemma get_col_spec g i j :
  shape9 g -> (j < 9)%nat ->
  exists col, get_col g (i, Z.of_nat j) = Ok col /\ forall v, v ∈ col <-> exists k, at_ g (k, j) = Some v.
Proof.
  intros Hs Hj. pose proof Hs as [Hg _]. unfold get_col. simpl. rewrite Hg.
  destruct (mapM_ok (fun i => r ← py_get g i; py_get r (Z.of_nat j))
              (fun x y => at_ g (Z.to_nat x, j) = Some y) (seqZ 0 9)) as (col & Hcol & Hr).
  - intros x Hx. apply elem_of_seqZ in Hx. destruct (cell_get g x (Z.of_nat j) Hs) as (row & y & H1 & H2 & H3); [lia..|].
    exists y. rewrite Nat2Z.id in H3. split; [by rewrite H1; simpl; rewrite H2 | done].
  - exists col. split; [done|]. intros v. rewrite (elem_of_read _ _ _ Hr) by congruence.
    split; [intros (k & _ & Hk); rewrite Nat2Z.id in Hk; eauto|].
    intros [k Hk]. exists k. rewrite Nat2Z.id. split; [|done].
    destruct (decide (k < 9)%nat); [done|]. rewrite (at_out (R:=9) (C:=9)) in Hk by (done || lia). discriminate.
Qed.

(** [start[i // 3]] *)
Lemma start_get i : (i < 9)%nat -> py_get [0; 3; 6] (Z.of_nat i `div` 3) = Ok (Z.of_nat (3 * Nat.div i 3)).
Proof. intros Hi. do 9 (destruct i as [|i]; [reflexivity|]). lia. Qed.

Lemma py_slice_in {A} (l : list A) a b : 0 <= a <= b -> b <= Z.of_nat (length l) ->
  py_slice l a b = take (Z.to_nat (b - a)) (drop (Z.to_nat a) l).
Proof.
  intros Hab Hb. unfold py_slice, py_bound.
  destruct (Z.ltb_spec a 0), (Z.ltb_spec b 0); try lia. rewrite !Z.min_l by lia. f_equal. lia.
Qed.

Lemma elem_of_block g a0 b0 v :
  (a0 <= 6)%nat -> (b0 <= 6)%nat ->
  v ∈ concat ((fun row => take 3 (drop b0 row)) <$> take 3 (drop a0 g)) <->
  exists a b, (a < 3)%nat /\ (b < 3)%nat /\ at_ g (a0 + a, b0 + b)%nat = Some v.
Proof.
  intros Ha Hb. rewrite elem_of_concat. setoid_rewrite list_elem_of_fmap. split.
  - intros (l & Hv & row & -> & Hrow). apply list_elem_of_lookup in Hrow as [a Ha'].
    apply lookup_take_Some in Ha' as [Ha' Hlt]. rewrite lookup_drop in Ha'.
    apply list_elem_of_lookup in Hv as [b Hb']. apply lookup_take_Some in Hb' as [Hb' Hlt'].
    rewrite lookup_drop in Hb'. exists a, b. unfold at_. simpl. by rewrite Ha'.
  - intros (a & b & Ha' & Hb' & Hat). unfold at_ in Hat. simpl in Hat.
    destruct (g !! (a0 + a)%nat) as [row|] eqn:Hrow; [|discriminate]. simpl in Hat.
    exists (take 3 (drop b0 row)). split.
    + apply list_elem_of_lookup. exists b. apply lookup_take_Some. by rewrite lookup_drop.
    + exists row. split; [done|]. apply list_elem_of_lookup. exists a. apply lookup_take_Some. by rewrite lookup_drop.
Qed.

Lemma Forall2_eq_fmap {A B} (f : A -> B) l ys : Forall2 (fun x y => y = f x) l ys -> ys = f <$> l.
Proof. induction 1 as [|x y l ys Hxy _ IH]; [done|]. simpl. by rewrite Hxy, IH. Qed.

Lemma div3_iff a b : (a / 3 = b / 3)%nat <-> (3 * (b / 3) <= a < 3 * (b / 3) + 3)%nat.
Proof.
  split.
  - intros E. pose proof (Nat.div_mod a 3). pose proof (Nat.mod_upper_bound a 3). lia.
  - intros H. symmetry. apply (Nat.div_unique _ _ _ (a - 3 * (b / 3))); lia.
Qed.

Lemma get_block_spec g i j :
  shape9 g -> (i < 9)%nat -> (j < 9)%nat ->
  exists blk, get_block g (Z.of_nat i, Z.of_nat j) = Ok blk /\
    forall v, v ∈ blk <-> exists i' j', (i' / 3 = i / 3)%nat /\ (j' / 3 = j / 3)%nat /\ at_ g (i', j') = Some v.
Proof.
  intros Hs Hi Hj. pose proof Hs as [Hg _].
  assert (Hi3 : (3 * (i / 3) <= 6)%nat) by (pose proof (Nat.div_mod i 3); pose proof (Nat.mod_upper_bound i 3); lia).
  assert (Hj3 : (3 * (j / 3) <= 6)%nat) by (pose proof (Nat.div_mod j 3); pose proof (Nat.mod_upper_bound j 3); lia).
  unfold get_block. cbn [fst snd]. rewrite (start_get i), bind_ok by done.
  rewrite py_slice_in by lia. replace (Z.to_nat _) with 3%nat by lia. rewrite Nat2Z.id.
  destruct (mapM_ok (fun row => s1 ← py_get [0; 3; 6] (Z.of_nat j `div` 3); Ok (py_slice row s1 (s1 + 3)))
              (fun row y => y = take 3 (drop (3 * (j / 3)) row)) (take 3 (drop (3 * (i / 3)) g))) as (ys & Hys & Hr).
  - intros row Hrow. apply list_elem_of_lookup in Hrow as [a Ha]. apply lookup_take_Some in Ha as [Ha _].
    rewrite lookup_drop in Ha. pose proof (shape_row _ _ _ Hs Ha).
    rewrite (start_get j), bind_ok by done. rewrite py_slice_in by lia. eexists; split; [done|]. rewrite Nat2Z.id. do 2 f_equal. lia.
  - apply Forall2_eq_fmap in Hr. subst ys. eexists; split; [by rewrite Hys|]. intros v.
    rewrite elem_of_block by done. split.
    + intros (a & b & Ha & Hb & Hat). exists (3 * (i / 3) + a)%nat, (3 * (j / 3) + b)%nat. rewrite !div3_iff. auto with lia.
    + intros (i' & j' & Hi' & Hj' & Hat). rewrite div3_iff in Hi', Hj'.
      exists (i' - 3 * (i / 3))%nat, (j' - 3 * (j / 3))%nat. by replace (_ + _)%nat with i' by lia; replace (_ + (j' - _))%nat with j' by lia; auto with lia.
Qed.

Lemma all_digits_spec v : v ∈ all_digits <-> v ∈ digit_list.
Proof. unfold all_digits. rewrite elem_of_list_to_set. by replace (digit_char <$> seqZ 1 9) with digit_list by reflexivity. Qed.

(** [find_possible_values] returns the digits that no cell of the row,
    the column or the block of the position holds. *)
Lemma possible_spec g i j :
  shape9 g -> (i < 9)%nat -> (j < 9)%nat ->
  exists P, find_possible_values g (Z.of_nat i, Z.of_nat j) = Ok P /\
    forall v, v ∈ P <-> v ∈ digit_list /\ forall q, same_unit (i, j) q -> at_ g q <> Some v.
Proof.
  intros Hs Hi Hj.
  destruct (get_row_spec g i (Z.of_nat j) Hs Hi) as (row & Hrow & Er).
  destruct (get_col_spec g (Z.of_nat i) j Hs Hj) as (col & Hcol & Ec).
  destruct (get_block_spec g i j Hs Hi Hj) as (blk & Hblk & Eb).
  eexists. split; [unfold find_possible_values; by rewrite Hrow; simpl; rewrite Hcol; simpl; rewrite Hblk|].
  intros v. rewrite !elem_of_difference, !elem_of_list_to_set, all_digits_spec, Er, Ec, Eb.
  unfold same_unit. simpl. split.
  - intros [[[Hd Hr] Hc] Hb]. split; [done|]. intros [i' j'] Hu Hat. simpl in Hu.
    destruct Hu as [<-|[<-|[E1 E2]]]; [by apply Hr; eauto | by apply Hc; eauto|].
    apply Hb. exists i', j'. auto.
  - intros [Hd Hq]. split; [split; [split|]|].
    + done.
    + intros [k Hk]. by apply (Hq (i, k)); [left|].
    + intros [k Hk]. by apply (Hq (k, j)); [right; left|].
    + intros (i' & j' & E1 & E2 & Hk). by apply (Hq (i', j')); [right; right; simpl; auto|].
Qed.

(** ** The invariant of the search *)

Lemma same_unit_sym p q : same_unit p q -> same_unit q p.
Proof. unfold same_unit. naive_solver. Qed.

(** Filling an empty cell with a digit no cell of its units holds keeps
    the grid well formed. *)
Lemma wf_upd g p v :
  wf g -> at_ g p = Some "."%char -> v ∈ digit_list -> (forall q, same_unit p q -> at_ g q <> Some v) ->
  wf (upd g p v).
Proof.
  intros (Hs & Hc & Hk) Hp Hv Hq. split; [by apply shape_upd|]. split.
  - apply Forall_forall. intros q Hin. rewrite at_upd, Hp. simpl. case_decide; [|by apply (proj1 (Forall_forall _ _) Hc)].
    simpl. apply bool_decide_eq_true. by right.
  - unfold consistent. apply Forall_forall. intros p1 H1. apply Forall_forall. intros p2 H2 Hne Hu.
    rewrite !at_upd, Hp. simpl.
    pose proof (proj1 (Forall_forall _ _) Hk p1 H1) as Hk1. rewrite Forall_forall in Hk1.
    destruct (decide (p1 = p)) as [->|N1], (decide (p2 = p)) as [->|N2]; [done|..].
    + destruct (at_ g p2) as [y|] eqn:E; [|done]. simpl. apply bool_decide_eq_true. right. intros <-. by apply (Hq p2).
    + destruct (at_ g p1) as [y|] eqn:E; [|done]. simpl. apply bool_decide_eq_true. right. intros ->.
      apply (Hq p1); [by apply same_unit_sym | done].
    + by apply Hk1.
Qed.

Lemma extends_refl g : extends g g.
Proof. apply Forall_forall. auto. Qed.

Lemma extends_trans g1 g2 g3 : extends g1 g2 -> extends g2 g3 -> extends g1 g3.
Proof.
  intros H12 H23. apply Forall_forall. intros p Hp x H1 Hx.
  apply (proj1 (Forall_forall _ _) H23 p Hp); [apply (proj1 (Forall_forall _ _) H12 p Hp) |]; done.
Qed.

Lemma extends_upd g p v : at_ g p = Some "."%char -> extends g (upd g p v).
Proof.
  intros Hp. apply Forall_forall. intros q _ x Hq Hx. rewrite at_upd.
  case_decide as E; [subst; congruence | done].
Qed.

(** Filtering with a predicate that holds on fewer elements. *)
Lemma dots_upd g p v : at_ g p = Some "."%char -> p ∈ positions -> v <> "."%char -> (dots (upd g p v) < dots g)%nat.
Proof.
  intros Hp Hin Hv. unfold dots. apply (filter_length_lt _ _ _ p); [|done|done|].
  - intros q. rewrite at_upd. case_decide; [subst; congruence | done].
  - rewrite at_upd, decide_True, Hp by done. simpl. congruence.
Qed.

Lemma dots_bound g : (dots g <= 81)%nat.
Proof. unfold dots. change 81%nat with (length positions). apply length_filter. Qed.

(** ** [solve] decides the puzzle *)

(** What a run of [solve] from the grid [g] ends in: the grid it was given,
    completed, when [g] has a solution; [None] with the grid restored when
    it has none; never an exception. *)
Definition solve_post (g : grid) (r : result (option grid) * grid) : Prop :=
  match r with
  | (Ok (Some a), g') => a = g' /\ solution g g'
  | (Ok None, g') => g' = g /\ forall h, ~ solution g h
  | (Err _, _) => False
  end.

Lemma solution_nonempty g h : solution g h -> exists r rs, h = r :: rs.
Proof. intros ([[Hl _] _] & _). destruct h as [|r rs]; [done | eauto]. Qed.

(** The loop over the candidate values, from the grid with the empty cell
    [p] holding anything: it returns the first completion found, or
    restores the cell to ["."] when no candidate leads to one. *)
Lemma try_values_spec rec g i j vs x :
  shape9 g -> (i < 9)%nat -> (j < 9)%nat -> at_ g (i, j) = Some "."%char ->
  (forall v, v ∈ vs -> solve_post (upd g (i, j) v) (rec (upd g (i, j) v))) ->
  match try_values rec (Z.of_nat i) (Z.of_nat j) vs (upd g (i, j) x) with
  | (Ok (Some a), g') => a = g' /\ exists v, v ∈ vs /\ solution (upd g (i, j) v) g'
  | (Ok None, g') => g' = g /\ forall v h, v ∈ vs -> ~ solution (upd g (i, j) v) h
  | (Err _, _) => False
  end.
Proof.
  intros Hs Hi Hj Hp. induction vs as [|v vs IH] in x |- *; intros Hrec; cbn [try_values].
  - rewrite (sbind_apply _ _ _ _ _ (set_cell_spec _ i j "." (shape_upd _ _ _ Hs) Hi Hj)).
    rewrite upd_upd, upd_same by done. split; [done|]. intros ? ? Hv; inversion Hv.
  - rewrite (sbind_apply _ _ _ _ _ (set_cell_spec _ i j v (shape_upd _ _ _ Hs) Hi Hj)), upd_upd.
    pose proof (Hrec v ltac:(by left)) as Hv. unfold sbind.
    destruct (rec (upd g (i, j) v)) as [[[a|]|e] s'] eqn:E; simpl in Hv; [..|done].
    + destruct Hv as [<- Hsol]. destruct (solution_nonempty _ _ Hsol) as (r & rs & ->).
      split; [done|]. exists v. split; [by left | done].
    + destruct Hv as [-> Hno]. specialize (IH v ltac:(intros w Hw; apply Hrec; by right)).
      destruct (try_values rec _ _ vs (upd g (i, j) v)) as [[[a|]|e] s''] eqn:E2; [..|done].
      * destruct IH as [-> (w & Hw & Hsol)]. split; [done|]. exists w. split; [by right | done].
      * destruct IH as [-> Hno']. split; [done|]. intros w h Hw. apply elem_of_cons in Hw as [->|Hw]; auto.
Qed.

Lemma at_positions g p x : shape9 g -> at_ g p = Some x -> p ∈ positions.
Proof.
  destruct p as [i j]. intros Hs E. apply elem_of_positions; simpl.
  destruct (decide (9 <= i \/ 9 <= j)%nat) as [Ho|Ho]; [|lia].
  by rewrite (at_out (R:=9) (C:=9)) in E.
Qed.

Lemma digit_not_dot v : v ∈ digit_list -> v <> "."%char.
Proof. intros Hv ->. unfold digit_list in Hv. simpl in Hv. repeat (apply elem_of_cons in Hv as [Hv|Hv]; [discriminate|]). by apply elem_of_nil in Hv. Qed.

(** Every cell of a well-formed full grid holds a digit. *)
Lemma wf_full_digit h p : wf h -> full h -> p ∈ positions -> exists v, at_ h p = Some v /\ v ∈ digit_list.
Proof.
  intros (Hs & Hc & _) Hf Hp.
  pose proof (proj1 (Forall_forall _ _) Hc p Hp) as Hok.
  pose proof (proj1 (Forall_forall _ _) Hf p Hp) as Hd.
  simpl in Hok, Hd. destruct (at_ h p) as [v|]; [|done]. exists v. split; [done|].
  apply bool_decide_eq_true in Hok as [->|]; [congruence|done].
Qed.

Lemma solution_at g h p : solution g h -> p ∈ positions -> exists v, at_ h p = Some v /\ v ∈ digit_list.
Proof. intros (Hw & Hf & _). by apply wf_full_digit. Qed.

(** A value of a solution at an empty cell is a candidate there. *)
Lemma solution_candidate g h p v :
  shape9 g -> solution g h -> at_ g p = Some "."%char -> at_ h p = Some v -> v ∈ digit_list ->
  forall q, same_unit p q -> at_ g q <> Some v.
Proof.
  intros Hs ((_ & _ & Hk) & _ & He) Hp Hv Hd q Hu Hq.
  destruct (decide (q = p)) as [->|Hne].
  { rewrite Hp in Hq. injection Hq as Hq. exact (digit_not_dot v Hd (eq_sym Hq)). }
  assert (Hqp : q ∈ positions) by (eapply at_positions; eauto).
  assert (Hpp : p ∈ positions) by (eapply at_positions; eauto).
  pose proof (digit_not_dot v Hd) as Hvd.
  pose proof (proj1 (Forall_forall _ _) He q Hqp v Hq Hvd) as Hhq.
  pose proof (proj1 (Forall_forall _ _) (proj1 (Forall_forall _ _) Hk p Hpp) q Hqp (not_eq_sym Hne) Hu) as Hn.
  rewrite Hv, Hhq in Hn. apply bool_decide_eq_true in Hn as [|]; done.
Qed.

Lemma solution_upd g h p v : solution g h -> at_ h p = Some v -> solution (upd g p v) h.
Proof.
  intros (Hw & Hf & He) Hv. split; [done|]. split; [done|].
  apply Forall_forall. intros q Hq x Ex Hx. rewrite at_upd in Ex.
  case_decide as Hqp; [subst q; by destruct (at_ g p); simplify_eq/=|].
  exact (proj1 (Forall_forall _ _) He q Hq x Ex Hx).
Qed.

Lemma solution_of_upd g p v h : at_ g p = Some "."%char -> solution (upd g p v) h -> solution g h.
Proof. intros Hp (Hw & Hf & He). split_and!; [done..|]. eapply extends_trans; [by apply extends_upd | done]. Qed.

Lemma solution_refl g : wf g -> full g -> solution g g.
Proof. intros Hw Hf. split_and!; [done..| apply extends_refl]. Qed.

Section SolveSpec.

Context (set_iter : gset cell -> list cell).
Hypothesis Hperm : forall X, set_iter X ≡ₚ elements X.

Lemma solve_fuel_spec f g : wf g -> (dots g < f)%nat -> solve_post g (solve_fuel set_iter f g).
Proof.
  induction f as [|f IH] in g |- *; intros Hw Hd; [lia|].
  pose proof Hw as (Hs & _).
  cbn [solve_fuel]. unfold sbind at 1, sget. unfold sbind at 1, slift.
  destruct (find_empty_spec g Hs) as [[-> Hf] | (i & j & Hi & Hj & -> & Hp)].
  { split; [done|]. by apply solution_refl. }
  destruct (possible_spec g i j Hs Hi Hj) as (P & -> & HP). unfold sbind.
  rewrite <-(upd_same g (i, j) "."%char Hp) at 2.
  assert (Hrec : forall v, v ∈ set_iter P ->
    solve_post (upd g (i, j) v) (solve_fuel set_iter f (upd g (i, j) v))).
  { intros v Hv. rewrite Hperm, elem_of_elements, HP in Hv. destruct Hv as [Hv Hq].
    apply IH; [by apply wf_upd|].
    pose proof (dots_upd g (i, j) v Hp ltac:(apply elem_of_positions; simpl; lia) (digit_not_dot v Hv)). lia. }
  pose proof (try_values_spec (solve_fuel set_iter f) g i j (set_iter P) "."%char Hs Hi Hj Hp Hrec) as Ht.
  destruct (try_values _ _ _ _ _) as [[[a|]|e] g'] eqn:E; [..|done]; simpl.
  - destruct Ht as [-> (v & _ & Hsol)]. split; [done|]. by eapply solution_of_upd.
  - destruct Ht as [-> Hno]. split; [done|]. intros h Hsol.
    assert (Hpp : (i, j) ∈ positions) by (apply elem_of_positions; simpl; lia).
    destruct (solution_at g h (i, j) Hsol Hpp) as (v & Hv & Hdv).
    apply (Hno v h); [|by apply solution_upd].
    rewrite Hperm, elem_of_elements, HP. split; [done|].
    by apply (solution_candidate g h).
Qed.

(** C1 [solve] is correct whatever order a Python set is iterated in:
    on a well-formed grid it raises no exception and either returns the
    grid it mutated, now a solution extending the given clues, or returns
    [None] with the grid restored, and then the puzzle has no solution. *)
Theorem solve_correct g : wf g -> solve_post g (solve set_iter g).
Proof. intros Hw. apply solve_fuel_spec; [done|]. pose proof (dots_bound g). unfold recursion_limit. lia. Qed.

End SolveSpec.

(** ** [create_grid] *)

Lemma sudoku_char_cell c : is_sudoku_char c = true -> cell_ok (Some c) = true.
Proof. intros H. destruct c as [[] [] [] [] [] [] [] []]; vm_compute in H |- *; congruence. Qed.

Lemma chunks_shape {A} (vals : list A) :
  length vals = 81%nat -> length (chunks 9 vals) = 9%nat /\ Forall (fun r => length r = 9%nat) (chunks 9 vals).
Proof.
  intros Hl. unfold chunks. rewrite Hl. simpl (Nat.div _ _). rewrite length_fmap, length_seq. split; [done|].
  apply Forall_fmap, Forall_forall. intros k Hk%elem_of_seq. simpl. rewrite length_take, length_drop. lia.
Qed.

(** C31 (type) [create_grid] of a text holding 81 sudoku characters
    (digits and ["."], the others being dropped) is a 9x9 grid whose
    cells are digits or ["."]. *)
Theorem create_grid_shape s :
  length (filter (fun c => is_sudoku_char c = true) (String.list_ascii_of_string s)) = 81%nat ->
  exists g, create_grid s = Ok g /\ shape9 g /\ Forall (fun p => cell_ok (at_ g p) = true) positions.
Proof.
  intros Hl. unfold create_grid, group. rewrite group_loop_ok by lia. rewrite bind_ok. cbn [fst]. change (Z.to_nat 9) with 9%nat. rewrite app_nil_l.
  eexists; split; [done|]. destruct (chunks_shape _ Hl) as [Hg Hr]. split; [by split|].
  apply Forall_positions. intros i j Hi Hj.
  destruct (at_shape (R := 9) (C := 9) _ i j (conj Hg Hr) Hi Hj) as (row & x & Hrow & Hx & ->).
  apply sudoku_char_cell.
  assert (Hin : x ∈ filter (fun c => is_sudoku_char c = true) (String.list_ascii_of_string s)).
  { rewrite <-(chunks_concat 9) by lia. apply elem_of_concat. exists row.
    split; apply list_elem_of_lookup; eauto. }
  by apply list_elem_of_filter in Hin as [? _].
Qed.

(** The puzzle of [puzzle1.txt] used by the doctests of [solve]. *)
Definition puzzle1 : grid :=
  map String.list_ascii_of_string
    ["53..7...."; "6..195..."; ".98....6."; "8...6...3"; "4..8.3..1";
     "7...2...6"; ".6....28."; "...419..5"; "....8..79"]%string.

Lemma solve_correct_witness :
  wf puzzle1 /\ solve_post puzzle1 (solve elements puzzle1).
Proof.
  assert (Hw : wf puzzle1) by (apply (bool_decide_unpack _); vm_compute; reflexivity).
  split; [exact Hw|]. exact (solve_correct elements (fun X => reflexivity _) puzzle1 Hw).
Defined.

(** The text of [puzzle1.txt], one row per line. *)
Definition puzzle1_text : string :=
  ("53..7...." +:+ String "010" EmptyString +:+ "6..195..." +:+ String "010" EmptyString +:+
   ".98....6." +:+ String "010" EmptyString +:+ "8...6...3" +:+ String "010" EmptyString +:+
   "4..8.3..1" +:+ String "010" EmptyString +:+ "7...2...6" +:+ String "010" EmptyString +:+
   ".6....28." +:+ String "010" EmptyString +:+ "...419..5" +:+ String "010" EmptyString +:+
   "....8..79" +:+ String "010" EmptyString)%stdpp.

Lemma create_grid_shape_witness :
  length (filter (fun c => is_sudoku_char c = true) (String.list_ascii_of_string puzzle1_text)) = 81%nat /\
  exists g, create_grid puzzle1_text = Ok g /\ shape9 g /\ Forall (fun p => cell_ok (at_ g p) = true) positions.
Proof.
  assert (Hl : length (filter (fun c => is_sudoku_char c = true) (String.list_ascii_of_string puzzle1_text)) = 81%nat)
    by (vm_compute; reflexivity).
  split; [exact Hl | exact (create_grid_shape puzzle1_text Hl)].
Defined.

End SudokuSolve.
