(* ===== verification/SudokuCheck.v ===== *)
(** * The solution checker ([check_solution] in [homework02/sudoku.py])

    [check_solution] compares the set of values of every row, every column
    and every 3x3 block with [set("123456789")].  On a 9x9 grid this is
    exactly the specification of [SudokuSolve]: the grid is well formed and
    full.  The step between the two is a pigeonhole argument on the nine
    cells of a unit (a row, a column or a block): nine cells cover the nine
    digits exactly when each holds a digit and no two hold the same one. *)

From S2P Require Import Prelude Py Fs Refs Grid Sudoku SudokuSolve.

Open Scope Z_scope.

Module SudokuCheck.
Import Sudoku SudokuSolve.
Implicit Types g h : grid.

(** The cells of a row, a column and a block, as lists of positions. *)
Definition row_unit (i : nat) : list pos := (fun k => (i, k)) <$> seq 0 9.
Definition col_unit (j : nat) : list pos := (fun k => (k, j)) <$> seq 0 9.
Definition block_unit (a b : nat) : list pos :=
  (fun q : nat * nat => (a + q.1, b + q.2)%nat) <$> list_prod (seq 0 3) (seq 0 3).

(** The nine cells of [U] hold the nine digits. *)
Definition covers (h : grid) (U : list pos) : Prop :=
  forall v, v ∈ digit_list <-> exists q, q ∈ U /\ at_ h q = Some v.

(** Every cell of [U] holds a digit, no two the same. *)
Definition distinct_digits (h : grid) (U : list pos) : Prop :=
  (forall q, q ∈ U -> exists v, at_ h q = Some v /\ v ∈ digit_list) /\
  (forall q1 q2, q1 ∈ U -> q2 ∈ U -> q1 <> q2 -> at_ h q1 <> at_ h q2).

(** ** The pigeonhole step *)

Lemma digit_list_NoDup : NoDup digit_list.
Proof. apply (bool_decide_unpack _). vm_compute. reflexivity. Qed.

Lemma length_digit_list : length digit_list = 9%nat.
Proof. reflexivity. Qed.

Section Pigeon.

Context (h : grid) (U : list pos).
Hypothesis HU : NoDup U.
Hypothesis HU9 : length U = 9%nat.
Hypothesis Hdef : forall q, q ∈ U -> exists v, at_ h q = Some v.

Let vals : list cell := (fun q => default "."%char (at_ h q)) <$> U.

Lemma elem_of_vals v : v ∈ vals <-> exists q, q ∈ U /\ at_ h q = Some v.
Proof.
  unfold vals. rewrite list_elem_of_fmap. split.
  - intros (q & -> & Hq). destruct (Hdef q Hq) as [w Hw]. exists q. by rewrite Hw.
  - intros (q & Hq & Hv). exists q. by rewrite Hv.
Qed.

Lemma vals_perm_digits : vals ⊆ digit_list -> NoDup vals -> vals ≡ₚ digit_list.
Proof.
  intros Hsub Hnd. apply submseteq_length_Permutation; [by apply NoDup_submseteq|].
  unfold vals. by rewrite length_fmap, HU9.
Qed.

Lemma digits_perm_vals : digit_list ⊆ vals -> digit_list ≡ₚ vals.
Proof.
  intros Hsub. apply submseteq_length_Permutation; [apply NoDup_submseteq; [apply digit_list_NoDup | done]|].
  unfold vals. by rewrite length_fmap, HU9.
Qed.

Lemma vals_inj q1 q2 : NoDup vals -> q1 ∈ U -> q2 ∈ U -> at_ h q1 = at_ h q2 -> q1 = q2.
Proof.
  intros Hnd H1 H2 E. apply list_elem_of_lookup in H1 as [k1 H1], H2 as [k2 H2].
  assert (k1 = k2) as ->; [|congruence].
  apply (proj1 (NoDup_alt vals) Hnd k1 k2 (default "."%char (at_ h q1))); unfold vals;
    rewrite list_lookup_fmap; [by rewrite H1 | by rewrite H2, E].
Qed.

Lemma covers_distinct : covers h U <-> distinct_digits h U.
Proof.
  split.
  - intros Hc. assert (Hp : digit_list ≡ₚ vals).
    { apply digits_perm_vals. intros v Hv. by apply elem_of_vals, Hc. }
    assert (Hnd : NoDup vals) by (rewrite <-Hp; apply digit_list_NoDup). split.
    + intros q Hq. destruct (Hdef q Hq) as [v Hv]. exists v. split; [done|]. apply Hc. eauto.
    + intros q1 q2 H1 H2 Hne E. by apply Hne, vals_inj.
  - intros [Hd Hi]. assert (Hp : vals ≡ₚ digit_list).
    { apply vals_perm_digits.
      - intros v Hv. apply elem_of_vals in Hv as (q & Hq & Hv). destruct (Hd q Hq) as (w & Hw & ?). congruence.
      - unfold vals. apply NoDup_fmap_2_strong; [|done]. intros q1 q2 H1 H2 E.
        destruct (decide (q1 = q2)) as [|Hne]; [done|]. exfalso.
        destruct (Hd q1 H1) as (v1 & E1 & _), (Hd q2 H2) as (v2 & E2 & _).
        apply (Hi q1 q2 H1 H2 Hne). rewrite E1, E2 in *. simpl in E. by subst. }
    intros v. rewrite <-elem_of_vals, Hp. done.
Qed.

End Pigeon.

(** ** The units of a grid *)

Definition is_unit (U : list pos) : Prop :=
  (exists i, (i < 9)%nat /\ U = row_unit i) \/ (exists j, (j < 9)%nat /\ U = col_unit j) \/
  (exists a b, a ∈ [0; 3; 6]%nat /\ b ∈ [0; 3; 6]%nat /\ U = block_unit a b).

Lemma elem_of_block_unit a b q : q ∈ block_unit a b <-> (a <= q.1 < a + 3 /\ b <= q.2 < b + 3)%nat.
Proof.
  unfold block_unit. rewrite list_elem_of_fmap. split.
  - intros ([x y] & -> & Hq). rewrite list_elem_of_In, in_prod_iff, !in_seq in Hq. simpl. lia.
  - intros Hq. destruct q as [i j]; simpl in Hq. exists (i - a, j - b)%nat. split; [simpl; f_equal; lia|].
    apply list_elem_of_In, in_prod_iff. rewrite !in_seq. simpl. lia.
Qed.

Lemma div3_block a x : a ∈ [0; 3; 6]%nat -> (a <= x < a + 3)%nat -> (x / 3 = a / 3)%nat.
Proof.
  intros Ha Hx. repeat rewrite elem_of_cons, ?elem_of_nil in Ha.
  destruct Ha as [->|[->|[->|[]]]];
    [change (0 / 3)%nat with 0%nat; apply eq_sym, (Nat.div_unique _ _ _ x)
    | change (3 / 3)%nat with 1%nat; apply eq_sym, (Nat.div_unique _ _ _ (x - 3))
    | change (6 / 3)%nat with 2%nat; apply eq_sym, (Nat.div_unique _ _ _ (x - 6))]; lia.
Qed.

Lemma block_start a : a ∈ [0; 3; 6]%nat -> (3 * (a / 3))%nat = a.
Proof. intros Ha. set_unfold in Ha. by destruct Ha as [-> | [-> | [-> | []]]]. Qed.

Lemma elem_of_unit U q : is_unit U -> q ∈ U ->
  q ∈ positions /\ forall q', q' ∈ U -> same_unit q q'.
Proof.
  intros HU Hq. rewrite elem_of_positions. unfold same_unit.
  destruct HU as [(i & Hi & ->) | [(j & Hj & ->) | (a & b & Ha & Hb & ->)]].
  - unfold row_unit in *. apply list_elem_of_fmap in Hq as (k & -> & Hk). apply elem_of_seq in Hk.
    split; [simpl; lia|]. intros q' (k' & -> & _)%list_elem_of_fmap. simpl. auto.
  - unfold col_unit in *. apply list_elem_of_fmap in Hq as (k & -> & Hk). apply elem_of_seq in Hk.
    split; [simpl; lia|]. intros q' (k' & -> & _)%list_elem_of_fmap. simpl. auto.
  - rewrite elem_of_block_unit in Hq. setoid_rewrite elem_of_block_unit.
    assert (a <= 6 /\ b <= 6)%nat by (set_unfold in Ha; set_unfold in Hb; lia).
    split; [lia|]. intros q' Hq'. right; right.
    rewrite (div3_block a q.1), (div3_block a q'.1), (div3_block b q.2), (div3_block b q'.2) by (done || lia).
    done.
Qed.

Lemma unit_NoDup U : is_unit U -> NoDup U /\ length U = 9%nat.
Proof.
  intros [(i & _ & ->) | [(j & _ & ->) | (a & b & _ & _ & ->)]]; unfold row_unit, col_unit, block_unit;
    rewrite length_fmap; (split; [|reflexivity]); apply NoDup_fmap_2_strong; try apply NoDup_seq.
  - intros ? ? _ _. congruence.
  - intros ? ? _ _. congruence.
  - intros [x y] [x' y'] _ _ E. simpl in E. injection E as E1 E2. f_equal; lia.
  - apply (bool_decide_unpack _). vm_compute. reflexivity.
Qed.

Lemma unit_of_same p q : p ∈ positions -> q ∈ positions -> same_unit p q ->
  exists U, is_unit U /\ p ∈ U /\ q ∈ U.
Proof.
  destruct p as [i j], q as [i' j']. rewrite !elem_of_positions. simpl.
  intros Hp Hq [E | [E | [E1 E2]]]; cbn [fst snd] in *.
  - exists (row_unit i). split; [left; exists i; split; [lia | done]|]. unfold row_unit.
    subst. split; apply list_elem_of_fmap; eexists; (split; [done | apply elem_of_seq; lia]).
  - exists (col_unit j). split; [right; left; exists j; split; [lia | done]|]. unfold col_unit.
    subst. split; apply list_elem_of_fmap; eexists; (split; [done | apply elem_of_seq; lia]).
  - exists (block_unit (3 * (i / 3)) (3 * (j / 3))). split.
    + right; right. exists (3 * (i / 3))%nat, (3 * (j / 3))%nat.
      assert (i / 3 < 3 /\ j / 3 < 3)%nat by (split; apply Nat.Div0.div_lt_upper_bound; lia).
      split_and!; [set_unfold; lia | set_unfold; lia | done].
    + rewrite !elem_of_block_unit. cbn [fst snd]. split; split; apply div3_iff; congruence.
Qed.

(** ** Well-formed full grids are the grids whose units hold all nine digits *)

Lemma wf_full_distinct h U : wf h -> full h -> is_unit U -> distinct_digits h U.
Proof.
  intros Hw Hf HU. pose proof Hw as (Hs & _ & Hk). split.
  - intros q Hq. apply wf_full_digit; [done..|]. by apply (elem_of_unit U q HU Hq).
  - intros q1 q2 H1 H2 Hne E.
    destruct (elem_of_unit U q1 HU H1) as [Hp1 Hu], (elem_of_unit U q2 HU H2) as [Hp2 _].
    destruct (wf_full_digit h q1 Hw Hf Hp1) as (v & Hv & Hd).
    pose proof (proj1 (Forall_forall _ _) (proj1 (Forall_forall _ _) Hk q1 Hp1) q2 Hp2 Hne (Hu q2 H2)) as Hn.
    rewrite <-E, Hv in Hn. apply bool_decide_eq_true in Hn as [Hdot|]; [|done].
    by apply (digit_not_dot v).
Qed.

Lemma distinct_wf_full h : shape9 h -> (forall U, is_unit U -> distinct_digits h U) -> wf h /\ full h.
Proof.
  intros Hs HD.
  assert (Hdig : forall p, p ∈ positions -> exists v, at_ h p = Some v /\ v ∈ digit_list).
  { intros p Hp. destruct (unit_of_same p p Hp Hp (or_introl eq_refl)) as (U & HU & Hin & _).
    by apply (HD U HU). }
  unfold wf, consistent, full. split_and!; [done | ..]; apply Forall_forall.
  - intros p Hp. destruct (Hdig p Hp) as (v & -> & Hv). apply bool_decide_eq_true. by right.
  - intros p Hp. apply Forall_forall. intros q Hq Hne Hu.
    destruct (unit_of_same p q Hp Hq Hu) as (U & HU & Hpu & Hqu).
    pose proof (proj2 (HD U HU) p q Hpu Hqu Hne) as Hdiff.
    destruct (Hdig p Hp) as (x & Ex & _), (Hdig q Hq) as (y & Ey & _). rewrite Ex, Ey in *.
    apply bool_decide_eq_true. right. congruence.
  - intros p Hp. destruct (Hdig p Hp) as (v & -> & Hv). intros [= ->]. exact (digit_not_dot _ Hv eq_refl).
Qed.

Lemma wf_full_covers h : shape9 h -> (wf h /\ full h <-> forall U, is_unit U -> covers h U).
Proof.
  intros Hs.
  assert (Hcd : forall U, is_unit U -> covers h U <-> distinct_digits h U).
  { intros U HU. destruct (unit_NoDup U HU). apply covers_distinct; [done..|].
    intros q Hq. destruct (elem_of_unit U q HU Hq) as [Hp _]. apply elem_of_positions in Hp.
    destruct q as [i j]. destruct (at_shape h i j Hs) as (_ & x & _ & _ & ?); [apply Hp.. | eauto]. }
  split.
  - intros [Hw Hf] U HU. apply Hcd; [done|]. by apply wf_full_distinct.
  - intros Hc. apply distinct_wf_full; [done|]. intros U HU. by apply Hcd, Hc.
Qed.

(** ** What the loops of [check_solution] compute *)

Lemma set_digits (res : list cell) : list_to_set res = digit_set <-> forall v, v ∈ res <-> v ∈ digit_list.
Proof. unfold digit_set. rewrite <-leibniz_equiv_iff, set_equiv. by setoid_rewrite elem_of_list_to_set. Qed.

(** [for x in xs: if not f(x): return False] returns whether every [f x]
    holds, when no [f x] raises. *)
Lemma py_all_spec (f : Z -> result bool) (P : Z -> Prop) xs :
  (forall x, x ∈ xs -> exists b, f x = Ok b /\ (b = true <-> P x)) ->
  exists b, py_all f xs = Ok b /\ (b = true <-> forall x, x ∈ xs -> P x).
Proof.
  induction xs as [|x xs IH]; intros Hf; [exists true; split; [done | set_solver]|].
  destruct (Hf x) as ([|] & Hx & Hb); [by left | |]; simpl; rewrite Hx.
  - destruct IH as (b & -> & Hiff); [intros y Hy; apply Hf; by right|].
    exists b. split; [done|]. rewrite Hiff. setoid_rewrite elem_of_cons. naive_solver.
  - exists false. split; [done|]. split; [done|]. intros H. apply Hb, H. by left.
Qed.

Lemma forall_of_nat (P : nat -> Prop) (l : list nat) :
  (forall x, x ∈ Z.of_nat <$> l -> P (Z.to_nat x)) <-> forall a, a ∈ l -> P a.
Proof.
  setoid_rewrite list_elem_of_fmap. split.
  - intros H a Ha. rewrite <-(Nat2Z.id a). eauto.
  - intros H x (a & -> & Ha). rewrite Nat2Z.id. auto.
Qed.

Lemma unit_at h (f : nat -> pos) v : (forall k, (9 <= k)%nat -> at_ h (f k) = None) ->
  (exists k, at_ h (f k) = Some v) <-> exists q, q ∈ f <$> seq 0 9 /\ at_ h q = Some v.
Proof.
  intros Hout. setoid_rewrite list_elem_of_fmap. split.
  - intros [k Hk]. exists (f k). split; [|done]. exists k. split; [done|]. apply elem_of_seq.
    destruct (decide (k < 9)%nat); [lia|]. rewrite Hout in Hk by lia. discriminate.
  - intros (q & (k & -> & _) & Hk). eauto.
Qed.

(** One iteration of each loop tests whether its unit holds the nine digits. *)
Lemma check_unit h U (res : list cell) :
  (forall v, v ∈ res <-> exists q, q ∈ U /\ at_ h q = Some v) ->
  bool_decide (list_to_set res = digit_set) = true <-> covers h U.
Proof. intros Hres. rewrite bool_decide_eq_true, set_digits. unfold covers. setoid_rewrite Hres. firstorder. Qed.

Lemma check_row h i : shape9 h -> (i < 9)%nat -> exists b,
  (res ← get_row h (Z.of_nat i, 0); Ok (bool_decide (list_to_set res = digit_set))) = Ok b /\
  (b = true <-> covers h (row_unit i)).
Proof.
  intros Hs Hi. destruct (get_row_spec h i 0 Hs Hi) as (row & -> & Hrow).
  eexists; split; [done|]. apply check_unit. intros v. rewrite Hrow. apply unit_at.
  intros k Hk. apply (at_out (R:=9) (C:=9)); [done | lia].
Qed.

Lemma check_col h j : shape9 h -> (j < 9)%nat -> exists b,
  (res ← get_col h (0, Z.of_nat j); Ok (bool_decide (list_to_set res = digit_set))) = Ok b /\
  (b = true <-> covers h (col_unit j)).
Proof.
  intros Hs Hj. destruct (get_col_spec h 0 j Hs Hj) as (col & -> & Hcol).
  eexists; split; [done|]. apply check_unit. intros v. rewrite Hcol. apply unit_at.
  intros k Hk. apply (at_out (R:=9) (C:=9)); [done | lia].
Qed.

Lemma check_block h a b : shape9 h -> a ∈ [0; 3; 6]%nat -> b ∈ [0; 3; 6]%nat -> exists r,
  (res ← get_block h (Z.of_nat a, Z.of_nat b); Ok (bool_decide (list_to_set res = digit_set))) = Ok r /\
  (r = true <-> covers h (block_unit a b)).
Proof.
  intros Hs Ha Hb. assert (a <= 6 /\ b <= 6)%nat by (set_unfold in Ha; set_unfold in Hb; lia).
  destruct (get_block_spec h a b Hs) as (blk & -> & Hblk); [lia..|].
  eexists; split; [done|]. apply check_unit. intros v. rewrite Hblk. split.
  - intros (i' & j' & Hi & Hj & E). exists (i', j'). split; [|done]. apply elem_of_block_unit. simpl.
    apply div3_iff in Hi, Hj. rewrite !block_start in * by done. lia.
  - intros ([i' j'] & Hq & E). apply elem_of_block_unit in Hq. simpl in Hq.
    exists i', j'. by rewrite (div3_block a i'), (div3_block b j') by (done || lia).
Qed.

Definition rows_cover (h : grid) : Prop := forall i, (i < 9)%nat -> covers h (row_unit i).
Definition cols_cover (h : grid) : Prop := forall j, (j < 9)%nat -> covers h (col_unit j).
Definition blocks_cover (h : grid) : Prop :=
  forall a b, a ∈ [0; 3; 6]%nat -> b ∈ [0; 3; 6]%nat -> covers h (block_unit a b).

Lemma units_cover h :
  (forall U, is_unit U -> covers h U) <-> rows_cover h /\ cols_cover h /\ blocks_cover h.
Proof.
  unfold rows_cover, cols_cover, blocks_cover, is_unit. split.
  - intros H. split_and!; intros; apply H; eauto 10.
  - intros (Hr & Hc & Hb) U [(i & Hi & ->) | [(j & Hj & ->) | (a & b & Ha & Hb' & ->)]]; auto.
Qed.

Lemma elem_of_seq9 (i : nat) : i ∈ seq 0 9 <-> (i < 9)%nat.
Proof. rewrite elem_of_seq. lia. Qed.

Lemma check_solution_spec h : shape9 h -> exists b, check_solution h = Ok b /\
  (b = true <-> rows_cover h /\ cols_cover h /\ blocks_cover h).
Proof.
  intros Hs. pose proof Hs as [Hl _]. unfold check_solution. rewrite Hl.
  replace (seqZ 0 (Z.of_nat 9)) with (Z.of_nat <$> seq 0 9) by reflexivity.
  replace (Z.of_nat <$> py_range 0 (9 - 1) 3) with (Z.of_nat <$> [0; 3; 6]%nat) by reflexivity.
  unfold rows_cover, cols_cover, blocks_cover. setoid_rewrite <-elem_of_seq9.
  destruct (py_all_spec (fun row => res ← get_row h (row, 0); Ok (bool_decide (list_to_set res = digit_set)))
    (fun x => covers h (row_unit (Z.to_nat x))) (Z.of_nat <$> seq 0 9)) as ([|] & -> & Hr).
  { intros x (i & -> & Hi%elem_of_seq9)%list_elem_of_fmap. rewrite Nat2Z.id. by apply check_row. }
  2: { exists false. split; [done|]. rewrite (forall_of_nat (fun i => covers h (row_unit i))) in Hr. naive_solver. }
  rewrite bind_ok. simpl negb. cbv iota.
  destruct (py_all_spec (fun col => res ← get_col h (0, col); Ok (bool_decide (list_to_set res = digit_set)))
    (fun x => covers h (col_unit (Z.to_nat x))) (Z.of_nat <$> seq 0 9)) as ([|] & -> & Hc).
  { intros x (j & -> & Hj%elem_of_seq9)%list_elem_of_fmap. rewrite Nat2Z.id. by apply check_col. }
  2: { exists false. split; [done|]. rewrite (forall_of_nat (fun j => covers h (col_unit j))) in Hc. naive_solver. }
  rewrite bind_ok. simpl negb. cbv iota. rewrite (forall_of_nat (fun i => covers h (row_unit i))) in Hr. rewrite (forall_of_nat (fun j => covers h (col_unit j))) in Hc.
  edestruct (py_all_spec (fun row => py_all (fun col => res ← get_block h (row, col); Ok (bool_decide (list_to_set res = digit_set)))
    (Z.of_nat <$> [0; 3; 6]%nat)) (fun x => forall b, b ∈ [0; 3; 6]%nat -> covers h (block_unit (Z.to_nat x) b))
    (Z.of_nat <$> [0; 3; 6]%nat)) as (r & -> & Hb).
  - intros x (a & -> & Ha)%list_elem_of_fmap. rewrite Nat2Z.id.
    edestruct (py_all_spec (fun col => res ← get_block h (Z.of_nat a, col); Ok (bool_decide (list_to_set res = digit_set)))
      (fun y => covers h (block_unit a (Z.to_nat y))) (Z.of_nat <$> [0; 3; 6]%nat))
      as (r & -> & Hr'); [|exists r; split; [done|]; by rewrite Hr', (forall_of_nat (fun b => covers h (block_unit a b)))].
    intros y (b & -> & Hb)%list_elem_of_fmap. rewrite Nat2Z.id. by apply check_block.
  - exists r. split; [done|]. rewrite Hb, (forall_of_nat (fun a => forall b, b ∈ [0; 3; 6]%nat -> covers h (block_unit a b))). naive_solver.
Qed.

(** C6 [check_solution] decides the specification: on a 9x9 grid it
    raises no exception and returns [True] exactly when every cell holds a
    digit and no digit repeats in a row, a column or a block, which is
    the case exactly when every row, column and block holds all nine
    digits, the three tests the function makes. *)
Theorem check_solution_correct h : shape9 h ->
  check_solution h = Ok (bool_decide (wf h /\ full h)) /\
  (wf h /\ full h <-> rows_cover h /\ cols_cover h /\ blocks_cover h).
Proof.
  intros Hs. assert (Hc : wf h /\ full h <-> rows_cover h /\ cols_cover h /\ blocks_cover h)
    by (rewrite wf_full_covers, units_cover by done; done).
  split; [|exact Hc]. destruct (check_solution_spec h Hs) as (b & -> & Hb). f_equal.
  destruct b; symmetry; [apply bool_decide_eq_true | apply bool_decide_eq_false]; rewrite Hc, <-Hb; done.
Qed.

Lemma check_solution_correct_witness :
  shape9 puzzle1 /\ check_solution puzzle1 = Ok (bool_decide (wf puzzle1 /\ full puzzle1)) /\
  (wf puzzle1 /\ full puzzle1 <-> rows_cover puzzle1 /\ cols_cover puzzle1 /\ blocks_cover puzzle1).
Proof.
  assert (Hs : shape9 puzzle1) by (apply (bool_decide_unpack _); vm_compute; reflexivity).
  split; [exact Hs | exact (check_solution_correct puzzle1 Hs)].
Defined.

End SudokuCheck.
