(* ===== verification/SudokuGen.v ===== *)
(** * The puzzle generator ([generate_sudoku] in [homework02/sudoku.py])

    [generate_sudoku(N)] solves the empty grid and then blanks random cells
    until [81 - min(81, N)] cells are empty.  The draws of
    [random.randint(0, 8)] are a list [rand] of integers in [0, 8]; the
    theorems hold for every such list: when the loop ends, the grid has the
    number of empty cells the doctests count and the solution the generator
    started from completes it; draws that visit every cell, in any order,
    end the loop with such a grid; and for a negative [N] no sequence of
    draws does. *)

From S2P Require Import Prelude Py Fs Refs Grid Sudoku SudokuSolve.

Open Scope Z_scope.

Module SudokuGen.
Import Sudoku SudokuSolve.
Implicit Types g h : grid.

(** ** Blanking a cell *)

Lemma dots_clear g p c : at_ g p = Some c -> c <> "."%char -> p ∈ positions ->
  dots (upd g p "."%char) = S (dots g).
Proof.
  intros Hp Hc Hin. unfold dots. apply (filter_length_S _ _ _ p).
  - apply (bool_decide_unpack _). vm_compute. reflexivity.
  - done.
  - congruence.
  - by rewrite at_upd, decide_True, Hp.
  - intros q _ Hq. by rewrite at_upd, decide_False.
Qed.

Lemma extends_clear g a p : extends g a -> extends (upd g p "."%char) a.
Proof.
  intros He. apply Forall_forall. intros q Hq x. rewrite at_upd. case_decide as Hqp.
  - subst. destruct (at_ g p); simpl; congruence.
  - exact (proj1 (Forall_forall _ _) He q Hq x).
Qed.

(** [grid[row][col]] for in-range draws. *)
Lemma cell_read g row col : shape9 g -> 0 <= row < 9 -> 0 <= col < 9 ->
  exists c, (r ← py_get g row; py_get r col) = Ok c /\ at_ g (Z.to_nat row, Z.to_nat col) = Some c.
Proof. intros Hs Hr Hc. destruct (cell_get g row col Hs Hr Hc) as (r & c & -> & Hc' & Hat). exists c. by rewrite bind_ok. Qed.

Lemma draw_position row col : 0 <= row < 9 -> 0 <= col < 9 -> (Z.to_nat row, Z.to_nat col) ∈ positions.
Proof. intros. apply elem_of_positions. simpl. lia. Qed.

(** ** The [while N:] loop *)

(** The values [random.randint(0, 8)] returns. *)
Definition valid_draws (rand : list Z) : Prop := Forall (fun z => 0 <= z < 9) rand.

#[export] Instance valid_draws_dec rand : Decision (valid_draws rand).
Proof. unfold valid_draws. apply _. Defined.


(** What the loop ends in, from a grid whose filled cells agree with the
    solution [a]: a grid that still agrees with [a], with [N] more empty
    cells; the loop only fails by running out of draws. *)
Definition loop_post (a g : grid) (N : Z) (r : result (option grid)) : Prop :=
  match r with
  | Ok (Some g') => shape9 g' /\ extends g' a /\ Z.of_nat (dots g') = Z.of_nat (dots g) + N
  | Ok None => False
  | Err e => e = NoTermination
  end.

Lemma generate_loop_spec a rand N g :
  valid_draws rand -> shape9 g -> extends g a -> 0 <= N ->
  loop_post a g N (generate_loop N rand (Some g)).
Proof.
  remember (length rand) as n eqn:Hn. revert rand N g Hn.
  induction n as [n IH] using lt_wf_ind. intros rand N g Hn Hr Hs He HN.
  destruct rand as [|row [|col rand]]; cbn [generate_loop];
    (destruct (Z.eqb_spec N 0) as [->|HN0]; [split_and!; [done | done | lia]|]); [done..|].
  apply Forall_cons in Hr as [Hrow Hr]. apply Forall_cons in Hr as [Hcol Hr].
  destruct (cell_read g row col Hs Hrow Hcol) as (c & -> & Hc). rewrite bind_ok.
  assert (Hlt : (length rand < n)%nat) by (simpl in Hn; lia).
  case_decide as Hdot.
  - rewrite cell_set, bind_ok by done.
    pose proof (dots_clear g _ c Hc Hdot (draw_position row col Hrow Hcol)) as Hd.
    specialize (IH _ Hlt rand (N - 1) (upd g (Z.to_nat row, Z.to_nat col) "."%char) eq_refl Hr (shape_upd _ _ _ Hs) (extends_clear _ _ _ He) ltac:(lia)).
    destruct (generate_loop _ _ _) as [[g'|]|e]; simpl in *; [|done..]. rewrite Hd, Nat2Z.inj_succ in IH. destruct IH as (? & ? & ?). split_and!; [done | done | lia].
  - exact (IH _ Hlt rand N g eq_refl Hr Hs He HN).
Qed.

Lemma full_dots g : full g -> dots g = 0%nat.
Proof. intros Hf. unfold dots. by rewrite filter_none. Qed.

(** ** The empty grid and the solution the generator starts from *)

Lemma at_empty i j : (i < 9)%nat -> (j < 9)%nat -> at_ empty_grid (i, j) = Some "."%char.
Proof. intros Hi Hj. do 9 (destruct i as [|i]; [do 9 (destruct j as [|j]; [reflexivity|]); lia|]). lia. Qed.

Lemma extends_empty h : extends empty_grid h.
Proof.
  apply Forall_positions. intros i j Hi Hj x. rewrite at_empty by done. intros [= <-]. done.
Qed.

(** The grid of the doctest of [solve]: one solution of the empty grid. *)
Definition solution1 : grid :=
  map String.list_ascii_of_string
    ["534678912"; "672195348"; "198342567"; "859761423"; "426853791";
     "713924856"; "961537284"; "287419635"; "345286179"]%string.

Lemma empty_solvable : solution empty_grid solution1.
Proof.
  split_and!; [| |apply extends_empty]; apply (bool_decide_unpack _); vm_compute; reflexivity.
Qed.

(** ** Draws that visit every cell end the loop *)

(** The draws [row, col] that visit the positions of [L] in order. *)
Fixpoint draws (L : list pos) : list Z :=
  match L with [] => [] | p :: L' => Z.of_nat p.1 :: Z.of_nat p.2 :: draws L' end.

(** The number of filled cells of [g] among the positions [L]. *)
Definition filled_in (g : grid) (L : list pos) : nat := length (filter (fun p => at_ g p <> Some "."%char) L).

Lemma filled_in_clear g p L : p ∉ L -> filled_in (upd g p "."%char) L = filled_in g L.
Proof.
  intros Hp. unfold filled_in. f_equal. apply filter_ext_in. intros q Hq.
  rewrite at_upd, decide_False; [done|]. intros ->. contradiction.
Qed.

Lemma generate_loop_live L g N :
  NoDup L -> (forall p, p ∈ L -> p ∈ positions) -> shape9 g -> 0 <= N <= Z.of_nat (filled_in g L) ->
  exists g', generate_loop N (draws L) (Some g) = Ok (Some g').
Proof.
  induction L as [|[i j] L IH] in g, N |- *; intros Hnd HL Hs HN; cbn [draws generate_loop];
    (destruct (Z.eqb_spec N 0) as [->|HN0]; [by eexists|]); [unfold filled_in in HN; simpl in HN; lia|].
  apply NoDup_cons in Hnd as [Hp Hnd].
  assert (Hij : (i < 9 /\ j < 9)%nat) by (apply (elem_of_positions (i, j)), HL; by left).
  assert (HL' : forall p, p ∈ L -> p ∈ positions) by (intros p ?; apply HL; by right).
  cbn [fst snd]. destruct (cell_read g (Z.of_nat i) (Z.of_nat j) Hs ltac:(lia) ltac:(lia)) as (c & -> & Hc).
  rewrite !Nat2Z.id in Hc. rewrite bind_ok. unfold filled_in in HN.
  case_decide as Hdot.
  - rewrite cell_set, bind_ok, !Nat2Z.id by (done || lia).
    rewrite filter_cons_True in HN by (rewrite Hc; congruence). simpl in HN.
    apply IH; [done | done | by apply shape_upd | rewrite filled_in_clear by done; unfold filled_in; lia].
  - rewrite filter_cons_False in HN by (rewrite Hc, Hdot; congruence). by apply IH.
Qed.

Lemma filled_in_full g L : L ≡ₚ positions -> full g -> filled_in g L = 81%nat.
Proof. intros HL Hf. unfold filled_in. rewrite HL, filter_all; [done|]. exact Hf. Qed.



Section Generate.

Context (set_iter : gset cell -> list cell).
Hypothesis Hperm : forall X, set_iter X ≡ₚ elements X.

(** [solve] on the empty grid returns a solution. *)
Lemma solve_empty : exists a s, solve set_iter empty_grid = (Ok (Some a), s) /\ solution empty_grid a.
Proof.
  assert (Hw : wf empty_grid) by (apply (bool_decide_unpack _); vm_compute; reflexivity).
  pose proof (solve_fuel_spec set_iter Hperm recursion_limit empty_grid Hw) as Hpost.
  unfold solve. destruct (solve_fuel set_iter recursion_limit empty_grid) as [[[a|]|e] s]; simpl in Hpost.
  - destruct Hpost as [-> ?]; [pose proof (dots_bound empty_grid); unfold recursion_limit; lia|]. eauto.
  - exfalso. destruct Hpost as [_ Hno]; [pose proof (dots_bound empty_grid); unfold recursion_limit; lia|].
    exact (Hno _ empty_solvable).
  - exfalso. apply Hpost. pose proof (dots_bound empty_grid). unfold recursion_limit. lia.
Qed.

Lemma generate_sudoku_loop N rand : exists a, solution empty_grid a /\
  generate_sudoku set_iter N rand = generate_loop (81 - Z.min 81 N) rand (Some a).
Proof. destruct solve_empty as (a & s & Hsolve & Hsol). exists a. unfold generate_sudoku. by rewrite Hsolve. Qed.



(** For a negative [N], [generate_sudoku(N)] never returns: it must
    blank [81 - N > 81] cells of a 9x9 grid, and once every cell is empty
    [N] stays positive, whatever the draws. *)
Theorem generate_sudoku_negative N rand :
  N < 0 -> valid_draws rand -> generate_sudoku set_iter N rand = Err NoTermination.
Proof.
  intros HN Hr. destruct (generate_sudoku_loop N rand) as (a & ((Hs & _) & Hf & _) & ->).
  pose proof (generate_loop_spec a rand (81 - Z.min 81 N) a Hr Hs (extends_refl a) ltac:(lia)) as Hl.
  destruct (generate_loop _ _ _) as [[g|]|e]; simpl in Hl; [|done | by subst].
  destruct Hl as (_ & _ & Hd). rewrite (full_dots a Hf) in Hd. pose proof (dots_bound g). lia.
Qed.

(** C29 The loop of [generate_sudoku] ends once the draws have visited
    every cell: for [N >= 0] and the draws [0, 0, 0, 1, ..., 8, 8] it
    returns a grid. *)
Theorem generate_sudoku_terminates N :
  0 <= N -> exists g, generate_sudoku set_iter N (draws positions) = Ok (Some g).
Proof.
  intros HN. destruct (generate_sudoku_loop N (draws positions)) as (a & ((Hs & _) & Hf & _) & ->).
  apply generate_loop_live; [apply (bool_decide_unpack _); vm_compute; reflexivity | done | done |].
  rewrite (filled_in_full a positions) by done. lia.
Qed.

End Generate.

(** ** Instances, with the iteration order of [elements] *)

Lemma elements_perm : forall X : gset cell, elements X ≡ₚ elements X.
Proof. reflexivity. Qed.


Lemma generate_sudoku_negative_witness :
  -1 < 0 /\ valid_draws [4; 4] /\ generate_sudoku elements (-1) [4; 4] = Err NoTermination.
Proof.
  assert (Hr : valid_draws [4; 4]) by (apply (bool_decide_unpack _); vm_compute; reflexivity).
  split; [lia|]. split; [exact Hr|]. exact (generate_sudoku_negative elements elements_perm (-1) [4; 4] ltac:(lia) Hr).
Defined.

Lemma generate_sudoku_terminates_witness :
  0 <= 40 /\ exists g, generate_sudoku elements 40 (draws positions) = Ok (Some g).
Proof. split; [lia | exact (generate_sudoku_terminates elements elements_perm 40 ltac:(lia))]. Defined.

End SudokuGen.
