(* ===== verification/Life.v ===== *)
(** * Conway's Game of Life ([homework03/life.py])

    A [GameOfLife] object is the record [life]: its size, the previous and
    the current generation (lists of rows of Python [int]s), the generation
    limit, the generation counter and the attributes [checking] keeps.  The
    methods that change the object run in the state monad on it; the
    others are functions of it.  Local loops ([for i in range(...)]) are
    folds in the [result] monad ([rfold]), each list access a [py_get] that
    raises [IndexError] out of range.  The random cells of [create_grid]
    are a function [rand] of the position, any sequence of draws being one
    such function. *)

From S2P Require Import Prelude Py Fs Refs Grid.

Open Scope Z_scope.

(** [for x in xs: acc = body(x, acc)], the body possibly raising. *)
Fixpoint rfold {A B} (body : A -> B -> result B) (xs : list A) (acc : B) : result B :=
  match xs with
  | [] => Ok acc
  | x :: xs' => match body x acc with Ok acc' => rfold body xs' acc' | Err e => Err e end
  end.

(** [range(a, b)] *)
Definition range (a b : Z) : list Z := seqZ a (b - a).

(** [sum(xs)] *)
Definition py_sum (xs : list Z) : Z := foldr Z.add 0 xs.

Module Life.

Abbreviation grid := (list (list Z)).

(** The Python values [checking] and [is_max_generations_exceeded]
    compare: an [int], [float("inf")], [None], and a bound method (the
    value of [self.elements_sum] without a call). *)
Inductive pyobj := PInt (z : Z) | PInf | PNone | PMethod.

(** [a < b]: a method is not ordered, nor is [None]. *)
Definition py_lt (a b : pyobj) : result bool :=
  match a, b with
  | PInt x, PInt y => Ok (x <? y)
  | PInt _, PInf => Ok true
  | PInf, PInt _ => Ok false
  | PInf, PInf => Ok false
  | _, _ => Err TypeError
  end.

Record life := mkLife {
  rows : Z;
  cols : Z;
  prev_generation : grid;
  curr_generation : grid;
  max_generations : pyobj;
  generations : Z;
  minisum : pyobj;
  proizv : option Z   (* set by [checking]; [None] before *)
}.

(** [create_grid(randomize)]: [random.randint(0, 1)] at [(x, y)] is
    [rand x y]. *)
Definition create_grid (nrows ncols : Z) (randomize : bool) (rand : Z -> Z -> Z) : grid :=
  if randomize then (fun x => (fun y => rand x y) <$> range 0 ncols) <$> range 0 nrows
  else (fun x => (fun y => 0) <$> range 0 ncols) <$> range 0 nrows.

(** [GameOfLife(size, randomize, max_generations)] *)
Definition init (size : Z * Z) (randomize : bool) (maxg : pyobj) (rand : Z -> Z -> Z) : life :=
  {| rows := size.1; cols := size.2;
     prev_generation := create_grid size.1 size.2 false rand;
     curr_generation := create_grid size.1 size.2 randomize rand;
     max_generations := maxg; generations := 1; minisum := PInf; proizv := None |}.

(** [grid[i][j]] *)
Definition cell (g : grid) (i j : Z) : result Z := r ← py_get g i; py_get r j.

(** [grid[i][j] = v] *)
Definition set_cell (g : grid) (i j v : Z) : result grid :=
  r ← py_get g i; r' ← py_set r j v; py_set g i r'.

(** [get_neighbours(cell)] on the generation [g] of a [nrows] x [ncols] game. *)
Definition get_neighbours (g : grid) (nrows ncols : Z) (c : Z * Z) : result (list Z) :=
  let '(row, col) := c in
  rfold (fun i neighb =>
    rfold (fun j neighb =>
      if decide ((i, j) <> (row, col)) then v ← cell g i j; Ok (neighb ++ [v]) else Ok neighb)
      (range (Z.max 0 (col - 1)) (Z.min ncols (col + 2))) neighb)
    (range (Z.max 0 (row - 1)) (Z.min nrows (row + 2))) [].

(** One iteration of the loop of [get_next_generation]: the [if] and the
    [elif], each evaluating [curr[i][j] == ...] and, when it holds, the sum
    of the neighbours. *)
Definition next_cell (g : grid) (nrows ncols i j : Z) (copy : grid) : result grid :=
  c ← cell g i j;
  (if c =? 0 then n ← get_neighbours g nrows ncols (i, j); Ok (py_sum n =? 3) else Ok false) ≫= fun b1 : bool =>
  if b1 then set_cell copy i j 1 else
  c' ← cell g i j;
  (if c' =? 1 then n ← get_neighbours g nrows ncols (i, j); Ok ((1 <? py_sum n) && (py_sum n <? 4))
   else Ok false) ≫= fun b2 : bool =>
  if b2 then set_cell copy i j 1 else Ok copy.

Definition get_next_generation (s : life) : result grid :=
  rfold (fun i copy => rfold (fun j copy => next_cell (curr_generation s) (rows s) (cols s) i j copy)
                              (range 0 (cols s)) copy)
        (range 0 (rows s)) (create_grid (rows s) (cols s) false (fun _ _ => 0)).

(** [step()]: [prev_generation] is replaced before the next generation is
    computed, so it stays replaced when that raises. *)
Definition step : stm life unit :=
  s <- sget ;;
  sput {| rows := rows s; cols := cols s; prev_generation := curr_generation s;
          curr_generation := curr_generation s; max_generations := max_generations s;
          generations := generations s; minisum := minisum s; proizv := proizv s |} ;;;
  s <- sget ;;
  nxt <- slift (get_next_generation s) ;;
  sput {| rows := rows s; cols := cols s; prev_generation := prev_generation s;
          curr_generation := nxt; max_generations := max_generations s;
          generations := generations s + 1; minisum := minisum s; proizv := proizv s |}.

Definition elements_sum (s : life) : result Z :=
  rfold (fun i el_sum => rfold (fun j el_sum => v ← cell (curr_generation s) i j; Ok (el_sum + v))
                                (range 0 (cols s)) el_sum)
        (range 0 (rows s)) 0.

(** [checking()]: [el_sum = self.elements_sum] binds the method, not its
    value; [el_sum < self.minisum] compares it with a number. *)
Definition checking : stm life bool :=
  s <- sget ;;
  let el_sum := PMethod in
  sbind (slift (py_lt el_sum (minisum s))) (fun lt : bool =>
  if lt then
    sput {| rows := rows s; cols := cols s; prev_generation := prev_generation s;
            curr_generation := curr_generation s; max_generations := max_generations s;
            generations := generations s; minisum := el_sum; proizv := Some (rows s * cols s) |} ;;;
    sret false
  else
    p <- sof_option AttributeError (proizv s) ;;
    sput {| rows := rows s; cols := cols s; prev_generation := prev_generation s;
            curr_generation := curr_generation s; max_generations := max_generations s;
            generations := generations s; minisum := minisum s; proizv := Some (p - 1) |} ;;;
    sret (p - 1 =? 0)).

(** [is_max_generations_exceeded]: an [int] equals only the same [int]. *)
Definition is_max_generations_exceeded (s : life) : bool :=
  match max_generations s with PInt n => generations s =? n | _ => false end.

Definition is_changing (s : life) : bool := bool_decide (prev_generation s <> curr_generation s).

(** ** Files: [from_file] and [save] *)

(** [for row in doc]: the lines of the text, each with its ["\n"]. *)
Fixpoint text_lines (s : string) : list string :=
  match s with
  | EmptyString => []
  | String c s' =>
      if bool_decide (c = "010"%char) then String c EmptyString :: text_lines s'
      else match text_lines s' with
           | [] => [String c EmptyString]
           | l :: ls => String c l :: ls
           end
  end.

(** [[int(col) for col in row.strip()]] *)
Definition parse_row (row : string) : result (list Z) :=
  mapM (fun c => match py_int 10 (String c EmptyString) with Some v => Ok v | None => Err ValueError end)
       (String.list_ascii_of_string (s_strip row)).

(** The body of [from_file] once the file is read ([Refs.read_text]
    translates its line ends, [open(filename, "r")] reading with universal
    newlines): the game is created
    with the default arguments ([randomize=True]), then its current
    generation replaced. *)
Definition from_text (text : string) (rand : Z -> Z -> Z) : result life :=
  doc_grid ← mapM parse_row (text_lines text);
  first ← py_get doc_grid 0;
  let game := init (Z.of_nat (length doc_grid), Z.of_nat (length first)) true PInf rand in
  Ok {| rows := rows game; cols := cols game; prev_generation := prev_generation game;
        curr_generation := doc_grid; max_generations := max_generations game;
        generations := generations game; minisum := minisum game; proizv := proizv game |}.

Definition from_file (filename : pypath) (rand : Z -> Z -> Z) : IO life :=
  text <- Refs.read_text filename ;; slift (from_text text rand).

(** [save(filename)]: [open(filename, "w")] empties or creates the file,
    each [doc.write] appends the encoded text. *)
Definition save (s : life) (filename : pypath) : IO unit :=
  open_wb filename ;;;
  sfor (curr_generation s) (fun row =>
    sfor row (fun col => fwrite filename (encode (str_of_Z col))) ;;;
    fwrite filename (encode (String "010"%char EmptyString))).

End Life.
