(* ===== verification/LifeSpec.v ===== *)
(** * The Game of Life computes Conway's rule ([homework03/life.py])

    The specification is the textbook one, on a board of [R] rows and [C]
    columns whose cells are [0] (dead) or [1] (alive): the neighbours of a
    cell are the cells at the eight offsets around it that lie on the
    board, and a cell is alive in the next generation when it has three
    live neighbours, or two and is alive.  The theorems show that
    [get_neighbours] lists the neighbours in that order, that
    [get_next_generation] computes the next generation, and that [step]
    keeps the object a binary board of its size. *)

From S2P Require Import Prelude Py Fs Refs Grid Life.

Open Scope Z_scope.

Module LifeSpec.
Import Life.
Implicit Types g : grid.

(** ** The specification *)

(** The cell at [(i, j)], [0] off the board. *)
Definition val g (p : Z * Z) : Z := default 0 (at_ g (Z.to_nat p.1, Z.to_nat p.2)).

Definition offsets : list (Z * Z) :=
  [(-1, -1); (-1, 0); (-1, 1); (0, -1); (0, 1); (1, -1); (1, 0); (1, 1)].

Definition on_board (R C : nat) (p : Z * Z) : Prop := 0 <= p.1 < Z.of_nat R /\ 0 <= p.2 < Z.of_nat C.

#[global] Instance on_board_dec R C p : Decision (on_board R C p).
Proof. unfold on_board. apply _. Defined.

(** The neighbours of [c], in the order of [offsets]. *)
Definition moore (R C : nat) (c : Z * Z) : list (Z * Z) :=
  filter (on_board R C) ((fun d => (c.1 + d.1, c.2 + d.2)) <$> offsets).

Definition live_count g (R C : nat) (c : Z * Z) : nat := length (filter (fun p => val g p = 1) (moore R C c)).

(** Conway's rule. *)
Definition conway (alive : bool) (n : nat) : bool := if alive then (n =? 2)%nat || (n =? 3)%nat else (n =? 3)%nat.

(** Whether the cell at [p] is alive in the next generation. *)
Definition alive g (R C : nat) (p : Z * Z) : bool := conway (val g p =? 1) (live_count g R C p).

(** A board given cell by cell, as [create_grid] and [next_ref] build it. *)
Definition tab (R C : nat) (f : Z -> Z -> Z) : grid :=
  (fun i => (fun j => f i j) <$> range 0 (Z.of_nat C)) <$> range 0 (Z.of_nat R).

Definition next_ref g (R C : nat) : grid := tab R C (fun i j => if alive g R C (i, j) then 1 else 0).

(** A board of [R] x [C] cells, each [0] or [1]. *)
Definition binary (R C : nat) g : Prop := shape R C g /\ Forall (Forall (fun v => v = 0 \/ v = 1)) g.

#[export] Instance binary_dec R C g : Decision (binary R C g).
Proof. unfold binary. apply _. Defined.

(** ** Loops *)

(** A loop whose body never raises and keeps an invariant is a fold. *)
Lemma rfold_ok {A B} (body : A -> B -> result B) (f : A -> B -> B) (P : B -> Prop) xs acc :
  (forall x acc, x ∈ xs -> P acc -> body x acc = Ok (f x acc) /\ P (f x acc)) -> P acc ->
  rfold body xs acc = Ok (foldl (fun acc x => f x acc) acc xs) /\ P (foldl (fun acc x => f x acc) acc xs).
Proof.
  induction xs as [|x xs IH] in acc |- *; intros Hb Hp; [done|]. simpl.
  destruct (Hb x acc) as [-> Hp']; [by left | done |]. apply IH; [|done].
  intros y a Hy. apply Hb. by right.
Qed.

Lemma foldl_shape {A B} (f : B -> A -> B) (P : B -> Prop) xs acc :
  (forall acc x, P acc -> P (f acc x)) -> P acc -> P (foldl f acc xs).
Proof. intros Hf. induction xs as [|x xs IH] in acc |- *; intros Ha; [done|]. apply IH, Hf, Ha. Qed.

Lemma range_of_nat (n : nat) : range 0 (Z.of_nat n) = Z.of_nat <$> seq 0 n.
Proof.
  unfold range. rewrite Z.sub_0_r. apply list_eq. intros k.
  rewrite list_lookup_fmap. destruct (decide (k < n)%nat).
  - rewrite lookup_seqZ_lt, lookup_seq_lt by lia. done.
  - by rewrite lookup_seqZ_ge, lookup_seq_ge by lia.
Qed.

Lemma elem_of_range a b x : x ∈ range a b <-> a <= x < b.
Proof. unfold range. rewrite elem_of_seqZ. lia. Qed.

(** ** [get_neighbours] *)

(** [range(max(0, i - 1), min(n, i + 2))] is the part of [i - 1, i, i + 1]
    on the board. *)
Definition nb (n i : Z) : list Z := filter (fun x => 0 <= x < n) [i - 1; i; i + 1].

Lemma range_nb n i : 0 <= i < n -> range (Z.max 0 (i - 1)) (Z.min n (i + 2)) = nb n i.
Proof.
  intros Hi. unfold range, nb.
  assert (Hm : Z.max 0 (i - 1) = if decide (i = 0) then 0 else i - 1) by (destruct (decide (i = 0)); lia).
  assert (Hn : Z.min n (i + 2) = if decide (i + 1 = n) then n else i + 2) by (destruct (decide (i + 1 = n)); lia).
  rewrite Hm, Hn. clear Hm Hn.
  case_decide; case_decide; try subst i; try subst n;
    repeat (rewrite seqZ_cons by lia); rewrite seqZ_nil by lia;
    repeat first [rewrite filter_cons_True by lia | rewrite filter_cons_False by lia];
    rewrite ?filter_nil; repeat f_equal; lia.
Qed.

Lemma cell_val g (R C : nat) i j : shape R C g -> on_board R C (i, j) -> cell g i j = Ok (val g (i, j)).
Proof.
  intros Hs [Hi Hj]. destruct (cell_get g i j Hs Hi Hj) as (row & x & Hrow & Hx & Hat).
  unfold cell, val. cbn [fst snd]. by rewrite Hrow, bind_ok, Hx, Hat.
Qed.

(** The inner loop of [get_neighbours] reads the cells of row [i] at [ys]
    but [c]. *)
Lemma neighbours_row g (R C : nat) c i ys acc :
  shape R C g -> (forall j, j ∈ ys -> on_board R C (i, j)) ->
  rfold (fun j neighb => if decide ((i, j) <> c) then v ← cell g i j; Ok (neighb ++ [v]) else Ok neighb) ys acc =
  Ok (acc ++ (val g <$> filter (fun p => p <> c) ((fun j => (i, j)) <$> ys))).
Proof.
  intros Hs. induction ys as [|j ys IH] in acc |- *; intros Hb; [by rewrite app_nil_r|].
  cbn [rfold fmap list_fmap]. rewrite filter_cons.
  assert (Hb' : forall j', j' ∈ ys -> on_board R C (i, j')) by (intros; apply Hb; by right).
  case_decide as Hc.
  - rewrite (cell_val g R C i j Hs) by (apply Hb; by left). rewrite bind_ok, IH by done.
    by rewrite <-app_assoc.
  - by apply IH.
Qed.

(** The two loops read the cells of [xs] x [ys] but [c], row by row. *)
Lemma neighbours_loop g (R C : nat) c xs ys acc :
  shape R C g -> (forall i j, i ∈ xs -> j ∈ ys -> on_board R C (i, j)) ->
  rfold (fun i neighb =>
    rfold (fun j neighb => if decide ((i, j) <> c) then v ← cell g i j; Ok (neighb ++ [v]) else Ok neighb)
      ys neighb) xs acc = Ok (acc ++ (val g <$> filter (fun p => p <> c) (list_prod xs ys))).
Proof.
  intros Hs. induction xs as [|i xs IH] in acc |- *; intros Hb; [by rewrite app_nil_r|].
  cbn [rfold list_prod]. rewrite filter_app, fmap_app, app_assoc.
  rewrite neighbours_row with (R := R) (C := C) by (done || (intros; apply Hb; [by left | done])).
  apply IH. intros i' j' Hi' Hj'. apply Hb; [by right | done].
Qed.

Lemma filter_pair {A B} (P : A -> Prop) (Q : B -> Prop) `{forall x, Decision (P x)} `{forall y, Decision (Q y)} x ys :
  filter (fun p => P p.1 /\ Q p.2) (map (fun y => (x, y)) ys) =
  if decide (P x) then map (fun y => (x, y)) (filter Q ys) else [].
Proof.
  induction ys as [|y ys IH]; [by case_decide|]. cbn [map]. rewrite !filter_cons, IH. simpl.
  repeat case_decide; naive_solver.
Qed.

Lemma list_prod_filter {A B} (P : A -> Prop) (Q : B -> Prop) `{forall x, Decision (P x)} `{forall y, Decision (Q y)} xs ys :
  list_prod (filter P xs) (filter Q ys) = filter (fun p => P p.1 /\ Q p.2) (list_prod xs ys).
Proof.
  induction xs as [|x xs IH]; [done|]. cbn [list_prod]. rewrite filter_cons, filter_app, filter_pair, <-IH.
  by case_decide.
Qed.

(** The offsets around [c] are the cells of the 3 x 3 square but [c], row by row. *)
Lemma offsets_square i j :
  (fun d => (i + d.1, j + d.2)) <$> offsets =
  filter (fun p => p <> (i, j)) (list_prod [i - 1; i; i + 1] [j - 1; j; j + 1]).
Proof.
  unfold offsets. cbn [list_prod fmap list_fmap app map].
  repeat first [rewrite filter_cons_True by (intros [=]; lia) | rewrite filter_cons_False by (intros []; f_equal; lia)].
  rewrite filter_nil. cbn. repeat f_equal; lia.
Qed.

Lemma neighbours_moore (R C : nat) i j :
  0 <= i < Z.of_nat R -> 0 <= j < Z.of_nat C ->
  filter (fun p => p <> (i, j)) (list_prod (nb (Z.of_nat R) i) (nb (Z.of_nat C) j)) = moore R C (i, j).
Proof.
  intros Hi Hj. unfold moore, nb. cbn [fst snd]. rewrite offsets_square, list_prod_filter, !list_filter_filter.
  apply filter_ext_in. intros [x y] _. unfold on_board. simpl. naive_solver.
Qed.

(** [get_neighbours] lists the values of the neighbours of an on-board cell. *)
Lemma get_neighbours_spec g (R C : nat) i j :
  shape R C g -> 0 <= i < Z.of_nat R -> 0 <= j < Z.of_nat C ->
  get_neighbours g (Z.of_nat R) (Z.of_nat C) (i, j) = Ok (val g <$> moore R C (i, j)).
Proof.
  intros Hs Hi Hj. unfold get_neighbours. rewrite !range_nb by lia.
  rewrite neighbours_loop with (R := R) (C := C); [|done|].
  - by rewrite neighbours_moore.
  - intros x y Hx Hy. unfold nb in Hx, Hy. apply list_elem_of_filter in Hx as [? _], Hy as [? _]. split; simpl; lia.
Qed.

(** ** One cell of [get_next_generation] *)

Lemma binary_val (R C : nat) g p : binary R C g -> val g p = 0 \/ val g p = 1.
Proof.
  intros [_ Hb]. unfold val, at_. cbn [fst snd].
  destruct (g !! Z.to_nat p.1) as [row|] eqn:Hrow; simpl; [|by left].
  destruct (row !! Z.to_nat p.2) as [v|] eqn:Hv; simpl; [|by left].
  exact (Forall_lookup_1 _ _ _ _ (Forall_lookup_1 _ _ _ _ Hb Hrow) Hv).
Qed.

(** On a binary board the sum of the neighbours counts the live ones. *)
Lemma sum_count (R C : nat) g L :
  binary R C g -> py_sum (val g <$> L) = Z.of_nat (length (filter (fun p => val g p = 1) L)).
Proof.
  intros Hb. induction L as [|p L IH]; [done|]. cbn [fmap list_fmap py_sum foldr]. rewrite filter_cons.
  unfold py_sum in IH. rewrite IH. destruct (binary_val R C g p Hb) as [E|E]; rewrite E.
  - rewrite decide_False by lia. lia.
  - rewrite decide_True by done. simpl. lia.
Qed.

Lemma next_cell_spec (R C : nat) g copy i j :
  binary R C g -> shape R C copy -> on_board R C (i, j) ->
  next_cell g (Z.of_nat R) (Z.of_nat C) i j copy =
  Ok (if alive g R C (i, j) then upd copy (Z.to_nat i, Z.to_nat j) 1 else copy).
Proof.
  intros Hb Hc Hij. pose proof Hb as [Hs _]. pose proof Hij as [Hi Hj].
  unfold next_cell, alive. rewrite (cell_val g R C i j Hs Hij), bind_ok.
  rewrite get_neighbours_spec with (R := R) (C := C) by done. rewrite !bind_ok, (sum_count R C g) by done.
  assert (Hset : set_cell copy i j 1 = Ok (upd copy (Z.to_nat i, Z.to_nat j) 1)) by (unfold set_cell; apply (cell_set (R := R) (C := C)); [exact Hc | simpl in *; lia | simpl in *; lia]).
  remember (live_count g R C (i, j)) as n eqn:En. unfold live_count in En. rewrite <-En. unfold conway.
  destruct (binary_val R C g (i, j) Hb) as [E|E]; rewrite E; cbn -[Z.of_nat].
  - destruct (Nat.eqb_spec n 3), (Z.eqb_spec (Z.of_nat n) 3); try lia; done.
  - destruct (Nat.eqb_spec n 2), (Nat.eqb_spec n 3), (Z.ltb_spec 1 (Z.of_nat n)), (Z.ltb_spec (Z.of_nat n) 4);
      simpl; try lia; done.
Qed.

(** ** The loops of [get_next_generation] *)

Lemma shape_tab R C f : shape R C (tab R C f).
Proof.
  unfold tab, shape. rewrite !range_of_nat, length_fmap, length_fmap, length_seq. split; [done|].
  apply Forall_fmap, Forall_fmap, Forall_forall. intros i _. simpl. by rewrite length_fmap, length_fmap, length_seq.
Qed.

Lemma at_tab R C f a b : (a < R)%nat -> (b < C)%nat -> at_ (tab R C f) (a, b) = Some (f (Z.of_nat a) (Z.of_nat b)).
Proof.
  intros Ha Hb. unfold tab, at_. simpl. rewrite !range_of_nat, !list_lookup_fmap, lookup_seq_lt by done. simpl.
  by rewrite !list_lookup_fmap, lookup_seq_lt by done.
Qed.

(** The body of the loops, once it is known not to raise. *)
Definition set_alive g (R C : nat) (acc : grid) (p : Z * Z) : grid :=
  if alive g R C p then upd acc (Z.to_nat p.1, Z.to_nat p.2) 1 else acc.

Lemma foldl_map_pair {A B C'} (f : C' -> A * B -> C') x (ys : list B) acc :
  foldl f acc (map (fun y => (x, y)) ys) = foldl (fun acc y => f acc (x, y)) acc ys.
Proof. induction ys as [|y ys IH] in acc |- *; [done|]. apply IH. Qed.

Lemma foldl_prod {A B C'} (f : C' -> A * B -> C') xs ys acc :
  foldl (fun acc x => foldl (fun acc y => f acc (x, y)) acc ys) acc xs = foldl f acc (list_prod xs ys).
Proof.
  induction xs as [|x xs IH] in acc |- *; [done|]. cbn [list_prod]. by rewrite foldl_app, foldl_map_pair, <-IH.
Qed.

(** A cell of the board the loops build is set when some visit of it
    found it alive. *)
Lemma at_fold_alive g R C L acc q :
  at_ (foldl (set_alive g R C) acc L) q =
  if bool_decide (Exists (fun p => (Z.to_nat p.1, Z.to_nat p.2) = q /\ alive g R C p = true) L)
  then at_ acc q ≫= (fun _ => Some 1) else at_ acc q.
Proof.
  induction L as [|p L IH] in acc |- *; [by rewrite bool_decide_false by inversion 1|]. cbn [foldl].
  rewrite IH. unfold set_alive.
  case_bool_decide as H1; case_bool_decide as H2; rewrite Exists_cons in H2;
    destruct (alive g R C p) eqn:Ha; rewrite ?at_upd; try case_decide; try naive_solver.
  subst q. by destruct (at_ acc _).
Qed.

Lemma create_grid_tab R C randomize rand :
  create_grid (Z.of_nat R) (Z.of_nat C) randomize rand = tab R C (if randomize then rand else fun _ _ => 0).
Proof. by destruct randomize. Qed.

Lemma next_loops g (R C : nat) :
  binary R C g ->
  rfold (fun i copy => rfold (fun j copy => next_cell g (Z.of_nat R) (Z.of_nat C) i j copy)
                              (range 0 (Z.of_nat C)) copy)
        (range 0 (Z.of_nat R)) (tab R C (fun _ _ => 0)) =
  Ok (foldl (set_alive g R C) (tab R C (fun _ _ => 0)) (list_prod (range 0 (Z.of_nat R)) (range 0 (Z.of_nat C)))).
Proof.
  intros Hb. rewrite <-foldl_prod.
  apply (rfold_ok _ _ (shape R C)); [|apply shape_tab]. intros i copy Hi Hc.
  apply (rfold_ok _ (fun j acc => set_alive g R C acc (i, j)) (shape R C)); [|done]. intros j acc Hj Ha.
  apply elem_of_range in Hi, Hj. rewrite next_cell_spec by (done || (split; simpl; lia)).
  unfold set_alive. destruct (alive g R C (i, j)); split; [done | by apply shape_upd | done | done].
Qed.

(** C2 (equivalence) On a binary board of [rows] x [cols] cells,
    [get_next_generation] raises nothing and returns the next generation
    of Conway's rule, each cell alive when it has three live neighbours, or
    two and was alive. *)
Theorem get_next_generation_correct s (R C : nat) :
  rows s = Z.of_nat R -> cols s = Z.of_nat C -> binary R C (curr_generation s) ->
  get_next_generation s = Ok (next_ref (curr_generation s) R C).
Proof.
  intros Hr Hc Hb. unfold get_next_generation. rewrite Hr, Hc, create_grid_tab, next_loops by done. f_equal.
  apply (grid_ext (R := R) (C := C)); [|apply shape_tab|].
  - apply (foldl_shape _ (shape R C)); [|apply shape_tab]. intros acc p Ha. unfold set_alive.
    destruct (alive _ _ _ _); [by apply shape_upd | done].
  - intros a b Ha Hb'. unfold next_ref. rewrite at_fold_alive, !(at_tab R C) by done. simpl.
    case_bool_decide as Hex.
    + apply Exists_exists in Hex as ([x y] & Hin & Hxy & Hal). apply list_elem_of_In, in_prod_iff in Hin as [Hx Hy].
      rewrite <-!list_elem_of_In, !elem_of_range in Hx, Hy. injection Hxy as <- <-. simpl in *.
      by rewrite !Z2Nat.id, Hal by lia.
    + destruct (alive _ _ _ (Z.of_nat a, Z.of_nat b)) eqn:Hal; [|done]. exfalso. apply Hex, Exists_exists.
      exists (Z.of_nat a, Z.of_nat b). split; [|simpl; by rewrite !Nat2Z.id].
      apply list_elem_of_In, in_prod_iff. rewrite <-!list_elem_of_In, !elem_of_range. lia.
Qed.

(** ** [step] and the object's invariant *)

Lemma binary_tab R C f : (forall i j, f i j = 0 \/ f i j = 1) -> binary R C (tab R C f).
Proof.
  intros Hf. split; [apply shape_tab|]. unfold tab.
  apply Forall_fmap, Forall_forall. intros i _. apply Forall_fmap, Forall_forall. intros j _. apply Hf.
Qed.

Lemma binary_next g R C : binary R C (next_ref g R C).
Proof. apply binary_tab. intros i j. destruct (alive _ _ _ _); auto. Qed.

(** The object is a game of [R] x [C] binary cells. *)
Definition life_wf (R C : nat) (s : life) : Prop :=
  rows s = Z.of_nat R /\ cols s = Z.of_nat C /\
  binary R C (prev_generation s) /\ binary R C (curr_generation s).

(** The object after a step computed to give [nxt]. *)
Definition stepped (s : life) (nxt : grid) : life :=
  {| rows := rows s; cols := cols s; prev_generation := curr_generation s; curr_generation := nxt;
     max_generations := max_generations s; generations := generations s + 1;
     minisum := minisum s; proizv := proizv s |}.

(** C7 (invariant) [step] on a well-formed game raises nothing, makes the
    current generation the previous one, the next generation of Conway's
    rule the current one, counts one more generation, and keeps the game
    well formed. *)
Theorem step_spec (R C : nat) s :
  life_wf R C s ->
  step s = (Ok tt, stepped s (next_ref (curr_generation s) R C)) /\
  life_wf R C (stepped s (next_ref (curr_generation s) R C)).
Proof.
  intros (Hr & Hc & Hp & Hg). split.
  - unfold step, sbind, sget, sput, slift. cbn -[get_next_generation].
    by rewrite get_next_generation_correct with (R := R) (C := C).
  - split_and!; [done | done | done | apply binary_next].
Qed.

(** [GameOfLife((R, C), randomize)] is a well-formed game when the random
    cells are [0] or [1]. *)
Lemma init_wf (R C : nat) randomize maxg rand :
  (forall x y, rand x y = 0 \/ rand x y = 1) -> life_wf R C (init (Z.of_nat R, Z.of_nat C) randomize maxg rand).
Proof.
  intros Hrand. unfold init, life_wf. simpl. rewrite !create_grid_tab.
  split_and!; [done | done | apply binary_tab; auto | apply binary_tab; destruct randomize; auto].
Qed.

(** ** [checking] and the generation limit *)

(** [checking()] always raises [TypeError], leaving the game as it was:
    [el_sum = self.elements_sum] takes the method without calling it, and
    a method is not ordered with a number. *)
Lemma checking_type_error s : checking s = (Err TypeError, s).
Proof. unfold checking, sbind, sget, slift. cbn. by destruct (minisum s). Qed.

(** [n] calls of [step()]. *)
Fixpoint steps (n : nat) : stm life unit :=
  match n with O => sret tt | S n' => step ;;; steps n' end.

Lemma steps_spec (R C : nat) n s :
  life_wf R C s -> exists s', steps n s = (Ok tt, s') /\ life_wf R C s' /\
    generations s' = generations s + Z.of_nat n /\ max_generations s' = max_generations s.
Proof.
  induction n as [|n IH] in s |- *; intros Hw; [exists s; split_and!; [done | done | lia | done]|].
  destruct (step_spec R C s Hw) as [Hs Hw']. destruct (IH _ Hw') as (s' & Hs' & Hw'' & Hg & Hm).
  exists s'. cbn [steps]. rewrite (sbind_apply _ _ _ _ _ Hs). split_and!; [done | done | simpl in Hg; lia | done].
Qed.

(** C30 (liveness) A new game with [max_generations = m] reaches its limit:
    after [k] steps [is_max_generations_exceeded] holds exactly when
    [k + 1 = m], the counter starting at 1. *)
Theorem max_generations_reached (R C : nat) randomize m rand k :
  (forall x y, rand x y = 0 \/ rand x y = 1) ->
  exists s', steps k (init (Z.of_nat R, Z.of_nat C) randomize (PInt m) rand) = (Ok tt, s') /\
    is_max_generations_exceeded s' = (Z.of_nat k + 1 =? m).
Proof.
  intros Hrand. destruct (steps_spec R C k _ (init_wf R C randomize (PInt m) rand Hrand)) as (s' & Hs & _ & Hg & Hm).
  exists s'. split; [done|]. unfold is_max_generations_exceeded. rewrite Hm, Hg. simpl. f_equal. lia.
Qed.

(** ** Instances *)

(** A vertical blinker in the middle of a 5 x 5 board. *)
Definition blinker : grid :=
  [[0; 0; 0; 0; 0]; [0; 0; 1; 0; 0]; [0; 0; 1; 0; 0]; [0; 0; 1; 0; 0]; [0; 0; 0; 0; 0]].

Definition blinker_game : life :=
  {| rows := 5; cols := 5; prev_generation := tab 5 5 (fun _ _ => 0); curr_generation := blinker;
     max_generations := PInt 50; generations := 1; minisum := PInf; proizv := None |}.

(** The next generation of the vertical blinker is the horizontal one. *)
Example blinker_turns : next_ref blinker 5 5 =
  [[0; 0; 0; 0; 0]; [0; 0; 0; 0; 0]; [0; 1; 1; 1; 0]; [0; 0; 0; 0; 0]; [0; 0; 0; 0; 0]].
Proof. vm_compute. reflexivity. Qed.

Lemma blinker_wf : life_wf 5 5 blinker_game.
Proof. split_and!; [reflexivity | reflexivity | |]; apply (bool_decide_unpack _); vm_compute; reflexivity. Qed.

Lemma get_next_generation_correct_witness :
  rows blinker_game = Z.of_nat 5 /\ cols blinker_game = Z.of_nat 5 /\ binary 5 5 (curr_generation blinker_game) /\
  get_next_generation blinker_game = Ok (next_ref (curr_generation blinker_game) 5 5).
Proof.
  assert (Hb : binary 5 5 (curr_generation blinker_game)) by (apply (bool_decide_unpack _); vm_compute; reflexivity).
  split; [reflexivity|]. split; [reflexivity|]. split; [exact Hb|].
  exact (get_next_generation_correct blinker_game 5 5 eq_refl eq_refl Hb).
Defined.

Lemma step_spec_witness :
  life_wf 5 5 blinker_game /\
  step blinker_game = (Ok tt, stepped blinker_game (next_ref (curr_generation blinker_game) 5 5)) /\
  life_wf 5 5 (stepped blinker_game (next_ref (curr_generation blinker_game) 5 5)).
Proof. split; [exact blinker_wf | exact (step_spec 5 5 blinker_game blinker_wf)]. Defined.

(** [random.randint(0, 1)] always drawing 0. *)
Definition rand0 : Z -> Z -> Z := fun _ _ => 0.

Lemma max_generations_reached_witness :
  (forall x y, rand0 x y = 0 \/ rand0 x y = 1) /\
  exists s', steps 49 (init (Z.of_nat 3, Z.of_nat 3) false (PInt 50) rand0) = (Ok tt, s') /\
    is_max_generations_exceeded s' = (Z.of_nat 49 + 1 =? 50).
Proof.
  assert (Hr : forall x y, rand0 x y = 0 \/ rand0 x y = 1) by (intros; left; reflexivity).
  split; [exact Hr | exact (max_generations_reached 3 3 false 50 rand0 49 Hr)].
Defined.

End LifeSpec.
