(* ===== verification/LifeUI.v ===== *)
(** * The two front ends of the Game of Life
      ([homework03/life_console.py], [homework03/life_gui.py])

    Both front ends drive a [GameOfLife] object in a loop; what they draw
    (curses, pygame) is output and is not modelled.  [Console.run] steps the
    game while it changes and has not reached its limit, and stops when
    [checking()] is [True]; [GUI.run] handles the pygame events of each
    frame (quit, space to pause, clicks to toggle cells while paused) and,
    when not paused, calls [checking()] and then [step()].  The events of
    the frames are a list, one pair of batches per frame (the two
    [pygame.event.get()] calls); when the list runs out with the loop still
    running the result is [NoTermination].  Since [checking()] always
    raises ([LifeSpec.checking_type_error]), the console stops with [TypeError]
    after its first step and the GUI never steps the game at all. *)

From S2P Require Import Prelude Py Fs Refs Grid Life LifeSpec.

Open Scope Z_scope.

Module LifeUI.
Import Life LifeSpec.

(** ** [Console.run] *)

(** [while not life.is_max_generations_exceeded and life.is_changing:
    life.step(); ...; if life.checking() is True: break] *)
Fixpoint console_loop (fuel : nat) : stm life unit :=
  match fuel with
  | O => sthrow NoTermination
  | S f =>
      s <- sget ;;
      if negb (is_max_generations_exceeded s) && is_changing s then
        step ;;; sbind checking (fun c : bool => if c then sret tt else console_loop f)
      else sret tt
  end.

(** ** [GUI.run] *)

Inductive event := Quit | KeySpace | MouseUp (x y : Z) | OtherEvent.

#[export] Instance event_eq_dec : EqDecision event.
Proof. solve_decision. Defined.

Record gui := mkGui { game : life; cell_size : Z; pause : bool; running : bool }.

Definition set_game (st : gui) (s : life) : gui := mkGui s (cell_size st) (pause st) (running st).
Definition set_pause (st : gui) (b : bool) : gui := mkGui (game st) (cell_size st) b (running st).
Definition set_running (st : gui) (b : bool) : gui := mkGui (game st) (cell_size st) (pause st) b.

(** Run a method of the game inside the front end. *)
Definition on_game {A} (c : stm life A) : stm gui A :=
  fun st => let '(r, s') := c (game st) in (r, set_game st s').

(** The first [for event in pygame.event.get():] of a frame. *)
Definition first_event (e : event) : stm gui unit :=
  st <- sget ;;
  match e with
  | Quit => sput (set_running st false)
  | KeySpace => sput (set_pause st (negb (pause st)))
  | _ => sret tt
  end.

(** A click at [(x, y)] toggles [curr_generation[y // size][x // size]]. *)
Definition toggle (x y : Z) : stm gui unit :=
  st <- sget ;;
  let g := curr_generation (game st) in
  let row := y `div` cell_size st in
  let col := x `div` cell_size st in
  v <- slift (cell g row col) ;;
  g' <- slift (set_cell g row col (if v =? 0 then 1 else 0)) ;;
  let s := game st in
  sput (set_game st {| rows := rows s; cols := cols s; prev_generation := prev_generation s;
                       curr_generation := g'; max_generations := max_generations s;
                       generations := generations s; minisum := minisum s; proizv := proizv s |}).

(** The second loop, run while paused. *)
Definition paused_event (e : event) : stm gui unit :=
  st <- sget ;;
  match e with
  | Quit => sput (set_running st false)
  | KeySpace => sput (set_pause st (negb (pause st)))
  | MouseUp x y => toggle x y
  | OtherEvent => sret tt
  end.

Definition frame (evs : list event * list event) : stm gui unit :=
  sfor evs.1 first_event ;;;
  st <- sget ;;
  if pause st then sfor evs.2 paused_event
  else
    sbind (on_game checking) (fun c : bool =>
      (if c then st <- sget ;; sput (set_running st false) else sret tt) ;;;
      on_game step).

(** [while running:] over the frames the user produces. *)
Fixpoint gui_loop (frames : list (list event * list event)) : stm gui unit :=
  st <- sget ;;
  if running st then
    match frames with
    | [] => sthrow NoTermination
    | fr :: frs => frame fr ;;; gui_loop frs
    end
  else sret tt.

Definition gui_run (s : life) (size : Z) (frames : list (list event * list event)) : result unit * gui :=
  gui_loop frames (mkGui s size false true).

(** ** What the front ends do *)

(** C20 (error) The console front end raises [TypeError] right after its
    first step: on a well-formed game that changes and has not reached its
    limit, [run] steps it once and then [checking()] raises. *)
Theorem console_crashes (R C : nat) s fuel :
  life_wf R C s -> is_max_generations_exceeded s = false -> is_changing s = true ->
  console_loop (S fuel) s = (Err TypeError, stepped s (next_ref (curr_generation s) R C)).
Proof.
  intros Hw Hm Hc. destruct (step_spec R C s Hw) as [Hs _].
  cbn [console_loop]. unfold sbind at 1, sget. rewrite Hm, Hc. simpl.
  rewrite (sbind_apply _ _ _ _ _ Hs). by rewrite (sbind_apply_err _ _ _ _ _ (checking_type_error _)).
Qed.

Lemma on_game_checking st : on_game checking st = (Err TypeError, st).
Proof. unfold on_game. rewrite checking_type_error. by destruct st. Qed.

(** The generation counter of the game a front-end state holds. *)
Definition same_gen (a b : gui) : Prop := generations (game a) = generations (game b).

#[local] Instance same_gen_refl : Reflexive same_gen.
Proof. intros a. reflexivity. Qed.

#[local] Instance same_gen_trans : Transitive same_gen.
Proof. intros a b c. unfold same_gen. congruence. Qed.

Lemma frame_same_gen fr : preserves same_gen (frame fr).
Proof.
  unfold frame. apply (preserves_bind same_gen); [apply (preserves_sfor same_gen); intros e|intros _].
  { intros st r st'. unfold first_event, sbind, sget, sput. destruct e; intros [= _ <-]; done. }
  apply (preserves_bind same_gen); [apply (preserves_readonly same_gen); intros st; done | intros st].
  destruct (pause st).
  - apply (preserves_sfor same_gen). intros e st0 r st'. unfold paused_event, sbind at 1, sget.
    destruct e; [intros [= _ <-]; done | intros [= _ <-]; done | | intros [= _ <-]; done].
    unfold toggle, sbind, sget, slift, sput. cbn.
    destruct (cell _ _ _); [|intros [= _ <-]; done]. destruct (set_cell _ _ _ _); intros [= _ <-]; done.
  - intros st0 r st'. unfold sbind at 1. rewrite on_game_checking. intros [= _ <-]. done.
Qed.

Lemma gui_loop_same_gen frames : preserves same_gen (gui_loop frames).
Proof.
  induction frames as [|fr frs IH]; cbn [gui_loop];
    (apply (preserves_bind same_gen); [apply (preserves_readonly same_gen); intros st; done | intros st]);
    (destruct (running st); [|apply (preserves_ret same_gen)]).
  - apply (preserves_throw same_gen).
  - apply (preserves_bind same_gen); [apply frame_same_gen | intros; apply IH].
Qed.

(** C19 (safety) The pygame front end never advances the game: whatever the
    user does, the generation counter of the game it ends with is the one
    it started with, because every unpaused frame calls [checking()] before
    [step()]. *)
Theorem gui_never_steps s size frames :
  generations (game (snd (gui_run s size frames))) = generations s.
Proof.
  unfold gui_run. destruct (gui_loop frames (mkGui s size false true)) as [r st'] eqn:E.
  symmetry. exact (gui_loop_same_gen frames _ _ _ E).
Qed.

(** The first loop of a frame raises nothing; each space key press
    toggles the pause. *)
Lemma first_loop_spec evs st :
  exists st', sfor evs first_event st = (Ok tt, st') /\
    pause st' = if Nat.even (length (filter (fun e => e = KeySpace) evs)) then pause st else negb (pause st).
Proof.
  induction evs as [|e evs IH] in st |- *; [exists st; split; [done | by destruct (pause st)]|].
  cbn [sfor]. rewrite filter_cons.
  assert (He : exists st1, first_event e st = (Ok tt, st1) /\
            pause st1 = if decide (e = KeySpace) then negb (pause st) else pause st).
  { unfold first_event, sbind, sget, sput, sret. destruct e; eexists; split; done. }
  destruct He as (st1 & He & Hp). destruct (IH st1) as (st' & Hl & Hp').
  exists st'. rewrite (sbind_apply _ _ _ _ _ He). split; [done|]. rewrite Hp', Hp.
  case_decide; cbn [length]; [rewrite Nat.even_succ, <-Nat.negb_even|]; by repeat destruct (Nat.even _), (pause st).
Qed.

(** The pygame front end raises [TypeError] in its first frame
    unless the space key was pressed an odd number of times in it: the
    frame is then not paused and calls [checking()].  A [QUIT] event in the
    same frame does not prevent it, [running] being tested only at the
    next frame. *)
Theorem gui_first_frame_crash s size evs1 evs2 frs :
  Nat.even (length (filter (fun e => e = KeySpace) evs1)) = true ->
  exists st', gui_run s size ((evs1, evs2) :: frs) = (Err TypeError, st').
Proof.
  intros Hev. unfold gui_run. cbn [gui_loop]. unfold sbind at 1, sget. simpl.
  destruct (first_loop_spec evs1 (mkGui s size false true)) as (st1 & Hl & Hp). rewrite Hev in Hp. simpl in Hp.
  unfold frame. cbn [fst snd]. rewrite sbind_assoc, (sbind_apply _ _ _ _ _ Hl).
  unfold sbind, sget. rewrite Hp, on_game_checking. by eexists.
Qed.

(** ** Instances *)

Lemma console_crashes_witness :
  life_wf 5 5 blinker_game /\ is_max_generations_exceeded blinker_game = false /\ is_changing blinker_game = true /\
  console_loop 1 blinker_game = (Err TypeError, stepped blinker_game (next_ref (curr_generation blinker_game) 5 5)).
Proof.
  assert (Hc : is_changing blinker_game = true) by (vm_compute; reflexivity).
  split; [exact blinker_wf|]. split; [reflexivity|]. split; [exact Hc|].
  exact (console_crashes 5 5 blinker_game 0 blinker_wf eq_refl Hc).
Defined.

Lemma gui_first_frame_crash_witness :
  Nat.even (length (filter (fun e => e = KeySpace) [Quit])) = true /\
  exists st', gui_run blinker_game 10 [([Quit], [])] = (Err TypeError, st').
Proof.
  assert (He : Nat.even (length (filter (fun e => e = KeySpace) [Quit])) = true) by reflexivity.
  split; [exact He | exact (gui_first_frame_crash blinker_game 10 [Quit] [] [] He)].
Defined.

End LifeUI.
