(* ===== verification/LifeFile.v ===== *)
(** * Saving and loading a game ([GameOfLife.save], [GameOfLife.from_file])

    [save] writes each row of the current generation as the decimal text of
    its cells followed by a newline; [from_file] reads the lines back,
    strips them and converts each character with [int].  The theorem of
    this file is the round trip: on a writable path, a game whose cells are
    single digits is saved and loaded back to the same current generation
    and size.  An empty board does not come back: [len(doc_grid[0])]
    raises [IndexError]. *)

From S2P Require Import Prelude Py Fs Refs Repo Grid Life.

Open Scope Z_scope.

Module LifeFile.
Import Life.

Definition newline : string := String "010"%char EmptyString.

(** The text [save] writes. *)
Definition row_text (row : list Z) : string := foldr (fun v acc => str_of_Z v +:+ acc)%stdpp EmptyString row.

Definition render (g : grid) : string := foldr (fun row acc => row_text row +:+ newline +:+ acc)%stdpp EmptyString g.

Definition digit (v : Z) : Prop := 0 <= v <= 9.

(** ** Writing *)

Lemma w_fs_set_fs w fs : w_fs (set_fs w fs) = fs.
Proof. reflexivity. Qed.

Lemma fwrite_append w p d m data :
  abs_of w p <> [] -> w_fs w !! abs_of w p = Some (NFile d m) ->
  fwrite p data w = (Ok tt, set_fs w (<[abs_of w p := NFile (d ++ data) m]> (w_fs w))).
Proof. intros Hne Hl. unfold fwrite. by rewrite node_at_cons, Hl. Qed.

(** A sequence of writes to an open file appends their concatenation. *)
Lemma fwrite_seq {A} (xs : list A) (text : A -> string) w p d m :
  abs_of w p <> [] -> w_fs w !! abs_of w p = Some (NFile d m) ->
  sfor xs (fun x => fwrite p (encode (text x))) w =
  (Ok tt, set_fs w (<[abs_of w p := NFile (d ++ encode (foldr (fun x acc => text x +:+ acc)%stdpp EmptyString xs)) m]> (w_fs w))).
Proof.
  induction xs as [|x xs IH] in w, d |- *; intros Hne Hl; cbn [sfor foldr].
  - rewrite app_nil_r, insert_id by done. by destruct w.
  - rewrite (sbind_apply _ _ _ _ _ (fwrite_append w p d m _ Hne Hl)), (IH _ (d ++ encode (text x))).
    + by rewrite set_fs_set_fs, abs_of_set_fs, w_fs_set_fs, insert_insert_eq, encode_app, app_assoc.
    + done.
    + by rewrite abs_of_set_fs, w_fs_set_fs, lookup_insert_eq.
Qed.

Lemma save_rows g w p d m :
  abs_of w p <> [] -> w_fs w !! abs_of w p = Some (NFile d m) ->
  sfor g (fun row => sfor row (fun col => fwrite p (encode (str_of_Z col))) ;;; fwrite p (encode newline)) w =
  (Ok tt, set_fs w (<[abs_of w p := NFile (d ++ encode (render g)) m]> (w_fs w))).
Proof.
  induction g as [|row g IH] in w, d |- *; intros Hne Hl; cbn [sfor foldr render].
  - unfold render. simpl. rewrite app_nil_r, insert_id by done. by destruct w.
  - rewrite sbind_assoc, (sbind_apply _ _ _ _ _ (fwrite_seq row str_of_Z w p d m Hne Hl)).
    rewrite (sbind_apply _ _ _ _ _ (fwrite_append _ p (d ++ encode (row_text row)) m (encode newline)
               ltac:(by rewrite abs_of_set_fs) ltac:(by rewrite abs_of_set_fs, w_fs_set_fs, lookup_insert_eq))).
    rewrite (IH _ (d ++ encode (row_text row) ++ encode newline));
      rewrite ?set_fs_set_fs, ?abs_of_set_fs, ?w_fs_set_fs; [|done | by rewrite lookup_insert_eq, app_assoc].
    rewrite !insert_insert_eq. unfold render. cbn [foldr].
    by rewrite !encode_app, !app_assoc.
Qed.

(** [save] leaves the rendered text in the file. *)
Lemma save_spec s p w :
  abs_of w p <> [] -> w_fs w !! abs_of w p <> Some NDir ->
  node_at w (parent_loc (abs_of w p)) = Some NDir ->
  exists m w', save s p w = (Ok tt, w') /\ same_ctx w w' /\
    w_fs w' = <[abs_of w p := NFile (encode (render (curr_generation s))) m]> (w_fs w).
Proof.
  intros Hne Hnd Hpar. destruct (open_wb_spec w p Hne Hnd Hpar) as (m & w1 & Ho & Hfs & Hc & _).
  assert (Habs : abs_of w1 p = abs_of w p) by (by apply same_ctx_abs_of).
  exists m, (set_fs w1 (<[abs_of w p := NFile (encode (render (curr_generation s))) m]> (w_fs w1))).
  unfold save. rewrite (sbind_apply _ _ _ _ _ Ho), save_rows with (d := []) (m := m); rewrite ?Habs.
  - split; [done|]. split; [done|]. simpl. by rewrite Hfs, insert_insert_eq.
  - done.
  - by rewrite Hfs, lookup_insert_eq.
Qed.

(** ** Reading back *)

Lemma digit_cases v : digit v -> v = 0 \/ v = 1 \/ v = 2 \/ v = 3 \/ v = 4 \/ v = 5 \/ v = 6 \/ v = 7 \/ v = 8 \/ v = 9.
Proof. unfold digit. lia. Qed.

Ltac digit_cases H := destruct (digit_cases _ H) as [->|[->|[->|[->|[->|[->|[->|[->|[->| ->]]]]]]]]].

Lemma str_of_Z_digit v : digit v -> str_of_Z v = String (digit_char v) EmptyString.
Proof. intros Hv. digit_cases Hv; reflexivity. Qed.

Lemma py_int_digit v : digit v -> py_int 10 (String (digit_char v) EmptyString) = Some v.
Proof. intros Hv. digit_cases Hv; reflexivity. Qed.

(** The digit characters are neither line ends nor spaces. *)
Lemma digit_char_plain v : digit v ->
  digit_char v <> "010"%char /\ digit_char v <> "013"%char /\ is_space (digit_char v) = false.
Proof. intros Hv. digit_cases Hv; repeat split; discriminate. Qed.

Lemma row_text_digits row : Forall digit row -> row_text row = string_of_digits row.
Proof.
  induction 1 as [|v row Hv _ IH]; [done|]. cbn [row_text foldr]. fold (row_text row).
  rewrite IH, str_of_Z_digit by done. done.
Qed.

Lemma list_ascii_app s t : String.list_ascii_of_string (s +:+ t)%stdpp = String.list_ascii_of_string s ++ String.list_ascii_of_string t.
Proof. induction s as [|c s IH]; [done|]. simpl. by rewrite IH. Qed.

Lemma s_rev_snoc s c : s_rev (s +:+ String c EmptyString)%stdpp = String c (s_rev s).
Proof. unfold s_rev. by rewrite list_ascii_app, reverse_app. Qed.

Section Lines.
Context (row : list Z) (Hrow : Forall digit row).

Lemma digits_lt10 : Forall (fun d => 0 <= d < 10) row.
Proof. eapply Forall_impl; [exact Hrow|]. unfold digit. lia. Qed.

Lemma row_chars : Forall (fun c => c <> "010"%char /\ c <> "013"%char /\ is_space c = false)
                         (String.list_ascii_of_string (row_text row)).
Proof.
  rewrite row_text_digits by done. unfold string_of_digits. rewrite String.list_ascii_of_string_of_list_ascii.
  apply Forall_fmap. eapply Forall_impl; [exact Hrow|]. intros v Hv. by apply digit_char_plain.
Qed.

Lemma newlines_row t : universal_newlines (row_text row +:+ t)%stdpp = (row_text row +:+ universal_newlines t)%stdpp.
Proof.
  pose proof row_chars as Hc. induction (row_text row) as [|c s IH]; [done|].
  apply Forall_cons in Hc as [(_ & Hr & _) Hc]. simpl. rewrite bool_decide_false by done. by rewrite IH.
Qed.

Lemma text_lines_row t :
  text_lines (row_text row +:+ newline +:+ t)%stdpp = (row_text row +:+ newline)%stdpp :: text_lines t.
Proof.
  pose proof row_chars as Hc. induction (row_text row) as [|c s IH]; [done|].
  apply Forall_cons in Hc as [(Hn & _ & _) Hc]. simpl. rewrite bool_decide_false by done. by rewrite IH.
Qed.

Lemma strip_row : s_strip (row_text row +:+ newline)%stdpp = row_text row.
Proof.
  rewrite row_text_digits by done. pose proof (digits_nospace row digits_lt10) as Hns.
  pose proof Hrow as Hr. unfold s_strip. destruct row as [|v row'] eqn:E; [done|].
  apply Forall_cons in Hr as [Hv _]. destruct (digit_char_plain v Hv) as (_ & _ & Hsp).
  assert (Hl : s_lstrip_ws (string_of_digits (v :: row') +:+ newline) = (string_of_digits (v :: row') +:+ newline)%stdpp)
    by (unfold string_of_digits; simpl; by rewrite Hsp).
  rewrite Hl.
  unfold newline. rewrite s_rev_snoc. simpl. rewrite (s_lstrip_ws_nospace (s_rev _)) by (by rewrite s_forall_rev).
  apply s_rev_involutive.
Qed.

Lemma parse_row_text : parse_row (row_text row +:+ newline)%stdpp = Ok row.
Proof.
  unfold parse_row. rewrite strip_row, row_text_digits by done. unfold string_of_digits.
  rewrite String.list_ascii_of_string_of_list_ascii.
  induction Hrow as [|v row' Hv Hr IH]; [done|]. cbn [fmap list_fmap mapM].
  rewrite py_int_digit by done. rewrite bind_ok, IH by done. done.
Qed.

End Lines.

Lemma newlines_nl t : universal_newlines (newline +:+ t)%stdpp = (newline +:+ universal_newlines t)%stdpp.
Proof. reflexivity. Qed.

Lemma text_render g : Forall (Forall digit) g ->
  universal_newlines (render g) = render g /\
  mapM parse_row (text_lines (render g)) = Ok g.
Proof.
  induction 1 as [|row g Hrow _ [IHn IHp]]; [done|]. unfold render. cbn [foldr]. fold (render g).
  rewrite newlines_row, text_lines_row by done. split.
  - by rewrite newlines_nl, IHn.
  - cbn [mapM]. rewrite parse_row_text, bind_ok, IHp by done. done.
Qed.

(** Reading a rendered board gives it back, with its size. *)
Lemma from_text_render g rand : g <> [] -> Forall (Forall digit) g ->
  exists s', from_text (render g) rand = Ok s' /\ curr_generation s' = g /\
    rows s' = Z.of_nat (length g) /\ cols s' = Z.of_nat (length (default [] (head g))).
Proof.
  intros Hne Hg. destruct g as [|row0 g']; [done|]. destruct (text_render _ Hg) as [_ Hp].
  unfold from_text. rewrite Hp, bind_ok. simpl. by eexists.
Qed.

(** C5 (roundtrip) [save] then [from_file] on a writable path gives back
    the current generation and the size of a non-empty board of
    one-digit cells. *)
Theorem save_load s p w rand :
  abs_of w p <> [] -> w_fs w !! abs_of w p <> Some NDir -> node_at w (parent_loc (abs_of w p)) = Some NDir ->
  curr_generation s <> [] -> Forall (Forall digit) (curr_generation s) ->
  exists w' s', save s p w = (Ok tt, w') /\ from_file p rand w' = (Ok s', w') /\
    curr_generation s' = curr_generation s /\ rows s' = Z.of_nat (length (curr_generation s)) /\
    cols s' = Z.of_nat (length (default [] (head (curr_generation s)))).
Proof.
  intros Hne Hnd Hpar Hg Hd. destruct (save_spec s p w Hne Hnd Hpar) as (m & w' & Hs & Hc & Hfs).
  destruct (from_text_render _ rand Hg Hd) as (s' & Ht & Hcur).
  exists w', s'. split; [done|]. split; [|done].
  unfold from_file. rewrite (sbind_apply _ _ _ _ _ (Refs.read_text_file _ _ _ m _ (lookup_written w w' p _ m Hne Hc Hfs)
                                                    (decode_encode _))).
  by rewrite (proj1 (text_render _ Hd)), Ht.
Qed.

(** ** Instance: a 2 x 3 board saved to [grid.txt] in the demo world *)

Definition small_game : life :=
  {| rows := 2; cols := 3; prev_generation := [[0; 0; 0]; [0; 0; 0]]; curr_generation := [[0; 1; 0]; [1; 1; 1]];
     max_generations := PInf; generations := 1; minisum := PInf; proizv := None |}.

Definition grid_txt : pypath := path_of_string "grid.txt".

Lemma save_load_witness :
  abs_of demo_world grid_txt <> [] /\ w_fs demo_world !! abs_of demo_world grid_txt <> Some NDir /\
  node_at demo_world (parent_loc (abs_of demo_world grid_txt)) = Some NDir /\
  curr_generation small_game <> [] /\ Forall (Forall digit) (curr_generation small_game) /\
  exists w' s', save small_game grid_txt demo_world = (Ok tt, w') /\ from_file grid_txt (fun _ _ => 0) w' = (Ok s', w') /\
    curr_generation s' = curr_generation small_game /\ rows s' = Z.of_nat (length (curr_generation small_game)) /\
    cols s' = Z.of_nat (length (default [] (head (curr_generation small_game)))).
Proof.
  assert (Hw : writable demo_world grid_txt) by (apply (bool_decide_unpack _); vm_compute; reflexivity).
  destruct Hw as (H1 & H2 & H3).
  assert (Hne : curr_generation small_game <> []) by discriminate.
  assert (Hd : Forall (Forall digit) (curr_generation small_game)) by (repeat constructor; unfold digit; lia).
  split; [exact H1|]. split; [exact H2|]. split; [exact H3|]. split; [exact Hne|]. split; [exact Hd|].
  exact (save_load small_game grid_txt demo_world (fun _ _ => 0) H1 H2 H3 Hne Hd).
Defined.

End LifeFile.
