(* ===== verification/Vk.v ===== *)
(** * The VK API client ([homework05/vkapi/friends.py], [wall.py])

    Every function builds a dictionary of query parameters, sends one
    request through the shared [session] and reads the answer with
    [response.json()].  The session is a library the sources only call: it
    is modelled by its effect, the list of calls the program has made so
    far (requests and [time.sleep]s), and by the server, a function giving
    the response to a request from the calls before it; the theorems hold
    for every server.  [VK_CONFIG] (the access token and the API version)
    is a parameter of the section.  [progress] is a display callback,
    modelled by its default, the identity; a [pandas.DataFrame] is the list
    of its rows and [json_normalize] a parameter.  [get_wall_execute]
    calls [DataFrame.append], which pandas removed in version 2.0: the
    model is that of the pandas 1.x the code was written for, where
    [append] returns a new frame with the rows of both; under pandas 2 the
    first round raises [AttributeError]. *)

From S2P Require Import Prelude Py Json.

Open Scope Z_scope.

Module Vk.

(** The values of a parameter dictionary: [requests] leaves [None] out of
    the query string, which the log keeps as [PNone]. *)
Inductive pval := PStr (s : string) | PInt (z : Z) | PNone.
Abbreviation params := (list (string * pval)).

Inductive call :=
| Get (method : string) (p : params)    (* session.get(method, params=p) *)
| Post (method : string) (p : params)   (* session.post(method, data=p) *)
| Sleep (secs : Z).                     (* time.sleep(secs) *)

#[export] Instance pval_eq_dec : EqDecision pval.
Proof. solve_decision. Defined.
#[export] Instance call_eq_dec : EqDecision call.
Proof. solve_decision. Defined.

(** A response: its status code and its body, [None] when it is not JSON
    ([response.json()] then raises a [ValueError]). *)
Record response := mkResponse { status_code : Z; body : option json }.

(** [response.ok]: the status is below 400. *)
Definition ok (r : response) : bool := status_code r <? 400.

Definition response_json (r : response) : result json :=
  match body r with Some j => Ok j | None => Err ValueError end.

Abbreviation net := (list call).

Section Client.
Variable access_token version : string.
(** The server's answer to a request, given the calls made before it. *)
Variable server : list call -> call -> response.

Definition send (c : call) : stm net response :=
  fun log => (Ok (server log c), log ++ [c]).

Definition sleep (secs : Z) : stm net unit := fun log => (Ok tt, log ++ [Sleep secs]).

(** [if "error" in doc or not response.ok:
        raise APIError(doc["error"]["error_msg"])] *)
Definition check_response (r : response) (doc : json) : result unit :=
  e ← py_in "error" doc;
  if e || negb (ok r) then
    err ← jget doc "error"; msg ← jget err "error_msg"; Err (APIError (py_str msg))
  else Ok tt.

(** ** [get_friends] *)

Record FriendsResponse := mkFriendsResponse { fr_count : json; fr_items : json }.

Definition friends_params (user_id : option Z) (count offset : Z) (fields : option (list string)) : params :=
  [("access_token", PStr access_token); ("v", PStr version);
   ("user_id", match user_id with Some u => PInt u | None => PStr " " end);
   ("count", PInt count); ("offset", PInt offset);
   ("fields", match fields with Some fs => PStr (s_join "," fs) | None => PStr " " end)].

(** [response.json()] is called three times; each call parses the same body. *)
Definition get_friends (user_id : option Z) (count offset : Z) (fields : option (list string)) : stm net FriendsResponse :=
  response <- send (Get "friends.get" (friends_params user_id count offset fields)) ;;
  slift (document ← response_json response;
         check_response response document ≫= fun _ =>
         d1 ← response_json response; r1 ← jget d1 "response"; c ← jget r1 "count";
         d2 ← response_json response; r2 ← jget d2 "response"; items ← jget r2 "items";
         Ok (mkFriendsResponse c items)).

(** ** [get_mutual] *)

Record MutualFriends := mkMutual { mf_id : json; mf_common_friends : json; mf_common_count : json }.

(** [get_mutual] returns [response_json["response"]] for one target and a
    list of [MutualFriends] for a list of targets. *)
Inductive mutual_result := MutualOne (j : json) | MutualMany (l : list MutualFriends).

Definition mutual_one_params (source_uid target_uid : option Z) (order : string) : params :=
  [("access_token", PStr access_token); ("v", PStr version);
   ("source_uid", match source_uid with Some u => PInt u | None => PStr "" end);
   ("target_uid", match target_uid with Some u => PInt u | None => PNone end);
   ("order", PStr order)].

Definition mutual_params (target_uids : list Z) (order : string) (count : option Z) (offset i : Z) : params :=
  [("access_token", PStr access_token); ("v", PStr version);
   ("target_uids", PStr (s_join "," (str_of_Z <$> target_uids)));
   ("order", PStr order);
   ("count", match count with Some c => PInt c | None => PStr "" end);
   ("offset", PInt (offset + i * 100))].

(** [MutualFriends(id=arg["id"], common_friends=..., common_count=...)] *)
Definition mutual_of (arg : json) : result MutualFriends :=
  i ← jget arg "id"; cf ← jget arg "common_friends"; cc ← jget arg "common_count";
  Ok (mkMutual i cf cc).

(** One round of [for i in range((len(target_uids) + 99) // 100)]. *)
Definition mutual_round (target_uids : list Z) (order : string) (count : option Z) (offset : Z)
    (responses : list MutualFriends) (i : Z) : stm net (list MutualFriends) :=
  response <- send (Get "friends.getMutual" (mutual_params target_uids order count offset i)) ;;
  batch <- slift (filee ← response_json response;
                  check_response response filee ≫= fun _ =>
                  items ← jget filee "response"; args ← py_iter items; mapM mutual_of args) ;;
  (if i mod 3 =? 2 then sleep 1 else sret tt) ;;;
  sret (responses ++ batch).

Definition mutual_rounds (n : Z) : list Z := seqZ 0 ((n + 99) `div` 100).

Definition get_mutual (source_uid target_uid : option Z) (target_uids : option (list Z))
    (order : string) (count : option Z) (offset : Z) : stm net mutual_result :=
  match target_uids with
  | None =>
      response <- send (Get "friends.getMutual" (mutual_one_params source_uid target_uid order)) ;;
      slift (response_json ← response_json response;
             check_response response response_json ≫= fun _ =>
             r ← jget response_json "response"; Ok (MutualOne r))
  | Some uids =>
      l <- sfoldl (mutual_round uids order count offset) (mutual_rounds (Z.of_nat (length uids))) [] ;;
      sret (MutualMany l)
  end.

(** ** [get_posts_2500] and [get_wall_execute] *)

(** [f"{fields}"]: [str(None)] or the [repr] of the list of names. *)
Definition fields_str (fields : option (list string)) : string :=
  match fields with None => "None" | Some fs => py_repr (JArr (JStr <$> fs)) end.

(** The VKScript program [get_posts_2500] formats, line by line. *)
Definition posts_script (owner_id domain : string) (offset count max_count : Z) (filter : string)
    (extended : Z) (fields : option (list string)) : string :=
  s_join (String "010"%char EmptyString)
   [EmptyString;
     "    var i = 0; ";
     "        var result = [];";
     "            while (i < " +:+ str_of_Z max_count +:+ "){";
     "                if (" +:+ str_of_Z offset +:+ "+i+100 > " +:+ str_of_Z count +:+ "){";
     "                    result.push(API.wall.get({";
     "                    " +:+ dq +:+ "owner_id" +:+ dq +:+ ": " +:+ dq +:+ owner_id +:+ dq +:+ ",";
     "                    " +:+ dq +:+ "domain" +:+ dq +:+ ": " +:+ dq +:+ domain +:+ dq +:+ ",";
     "                    " +:+ dq +:+ "offset" +:+ dq +:+ ": " +:+ dq +:+ str_of_Z offset +:+ " +i" +:+ dq +:+ ",";
     "                    " +:+ dq +:+ "count" +:+ dq +:+ ": " +:+ dq +:+ str_of_Z count +:+ "-(i+" +:+ str_of_Z offset +:+ ")" +:+ dq +:+ ",";
     "                    " +:+ dq +:+ "filter" +:+ dq +:+ ": " +:+ dq +:+ filter +:+ dq +:+ ",";
     "                    " +:+ dq +:+ "extended" +:+ dq +:+ ": " +:+ dq +:+ str_of_Z extended +:+ dq +:+ ",";
     "                    " +:+ dq +:+ "fields" +:+ dq +:+ ": " +:+ dq +:+ fields_str fields +:+ dq;
     "                 }));";
     "            } ";
     "            result.push(API.wall.get({";
     "            " +:+ dq +:+ "owner_id" +:+ dq +:+ ": " +:+ dq +:+ owner_id +:+ dq +:+ ",";
     "            " +:+ dq +:+ "domain" +:+ dq +:+ ": " +:+ dq +:+ domain +:+ dq +:+ ",";
     "            " +:+ dq +:+ "offset" +:+ dq +:+ ": " +:+ dq +:+ str_of_Z offset +:+ " +i" +:+ dq +:+ ",";
     "            " +:+ dq +:+ "count" +:+ dq +:+ ": " +:+ dq +:+ str_of_Z count +:+ dq +:+ ",";
     "            " +:+ dq +:+ "filter" +:+ dq +:+ ": " +:+ dq +:+ filter +:+ dq +:+ ",";
     "            " +:+ dq +:+ "extended" +:+ dq +:+ ": " +:+ dq +:+ str_of_Z extended +:+ dq +:+ ",";
     "            " +:+ dq +:+ "fields" +:+ dq +:+ ": " +:+ dq +:+ fields_str fields +:+ dq;
     "            }));";
     "            i = i + " +:+ str_of_Z max_count +:+ ";";
     "        }";
     "        return result;";
     "    "]%stdpp.

Definition posts_data (owner_id domain : string) (offset count max_count : Z) (filter : string)
    (extended : Z) (fields : option (list string)) : params :=
  [("code", PStr (posts_script owner_id domain offset count max_count filter extended fields));
   ("access_token", PStr access_token); ("v", PStr version)].

Definition get_posts_2500 (owner_id domain : string) (offset count max_count : Z) (filter : string)
    (extended : Z) (fields : option (list string)) : stm net json :=
  response <- send (Post "execute" (posts_data owner_id domain offset count max_count filter extended fields)) ;;
  slift (doc ← response_json response;
         check_response response doc ≫= fun _ =>
         r ← jget doc "response"; jget r "items").

(** [json_normalize], a pandas function: the rows of a frame. *)
Variable json_normalize : json -> list json.

(** [for _ in range(math.ceil(count / 2500)): finish = finish.append(...);
    time.sleep(1)] *)
Definition wall_rounds (count : Z) : list Z := seqZ 0 ((count + 2499) `div` 2500).

Definition get_wall_execute (owner_id domain : string) (offset count max_count : Z) (filter : string)
    (extended : Z) (fields : option (list string)) : stm net (list json) :=
  sfoldl (fun finish _ =>
            posts <- get_posts_2500 owner_id domain offset count max_count filter extended fields ;;
            sleep 1 ;;;
            sret (finish ++ json_normalize posts))
         (wall_rounds count) [].

End Client.

End Vk.
