(* ===== verification/VkSpec.v ===== *)
(** * What the VK client does with the server's answers

    The theorems hold for every server: the responses are hypotheses on
    [server].  [check_response] is characterised once (a good answer
    passes, an answer with an ["error"] raises [APIError] with its message,
    and a failed request without one raises [KeyError]); [get_friends] is
    then specified on each kind of answer.  The loop of [get_mutual] is
    described by the calls it makes, [mutual_calls], of which it always
    makes a prefix, all of them when it returns; the bounds follow: one
    request per 100 targets, and never more than three requests between
    two sleeps.  [get_posts_2500] raises [TypeError] on the array its own
    script returns, and [get_wall_execute] makes no request for
    [count = 0], the value its docstring documents as "all posts". *)

From S2P Require Import Prelude Py Json Vk.

Open Scope Z_scope.

Module VkSpec.
Import Vk.

(** ** The calls of a sequence of requests *)

Definition is_request (c : call) : bool := match c with Sleep _ => false | _ => true end.

(** The number of requests a sequence of calls makes. *)
Definition requests (calls : list call) : nat := length (List.filter is_request calls).

(** [runs_ok k calls]: starting [k] requests after the last sleep, no
    stretch of [calls] without a sleep holds more than three requests. *)
Fixpoint runs_ok (k : nat) (calls : list call) : bool :=
  match calls with
  | [] => true
  | Sleep _ :: cs => runs_ok 0 cs
  | _ :: cs => (k <? 3)%nat && runs_ok (S k) cs
  end.

Lemma runs_ok_app k l1 l2 : runs_ok k (l1 ++ l2) = true -> runs_ok k l1 = true.
Proof.
  induction l1 as [|[] l1 IH] in k |- *; simpl; try done;
    rewrite ?andb_true_iff; intros; try (by apply IH); naive_solver.
Qed.

Lemma runs_ok_skip k pre rest : runs_ok k (pre ++ rest) = true -> exists k', runs_ok k' rest = true.
Proof.
  induction pre as [|c pre IH] in k |- *; simpl; [eauto|].
  destruct c; [rewrite andb_true_iff; intros [_ H]; eauto..|eauto].
Qed.

Lemma runs_ok_seg k seg post :
  runs_ok k (seg ++ post) = true -> Forall (fun c => is_request c = true) seg -> seg <> [] ->
  (k + length seg <= 3)%nat.
Proof.
  induction seg as [|c seg IH] in k |- *; intros H Hs Hne; [done|]. inversion Hs as [|? ? Hc Hs']; subst.
  destruct c; try done; simpl in H; rewrite andb_true_iff, Nat.ltb_lt in H; destruct H as [Hk H]; simpl;
    (destruct seg as [|c' seg'']; [simpl; lia|]); specialize (IH (S k) H Hs' ltac:(done)); cbn [length] in *; lia.
Qed.

(** Every stretch without a sleep of a sequence [runs_ok] accepts has at
    most three requests. *)
Lemma runs_ok_bursts k calls :
  runs_ok k calls = true -> forall pre seg post, calls = pre ++ seg ++ post ->
  Forall (fun c => is_request c = true) seg -> (length seg <= 3)%nat.
Proof.
  intros H pre seg post -> Hs. destruct seg as [|c seg]; [simpl; lia|].
  destruct (runs_ok_skip _ _ _ H) as [k' H']. pose proof (runs_ok_seg _ _ _ H' Hs ltac:(done)). lia.
Qed.

Section Spec.
Context (access_token version : string) (server : list call -> call -> response).

(** ** [check_response] *)

Lemma check_response_ok r doc : py_in "error" doc = Ok false -> ok r = true -> check_response r doc = Ok tt.
Proof. intros He Hok. unfold check_response. by rewrite He, Hok. Qed.

Lemma check_response_not_ok r kvs :
  "error" ∉ kvs.*1 -> ok r = false -> check_response r (JObj kvs) = Err KeyError.
Proof.
  intros He Hok. unfold check_response. cbn [py_in]. rewrite bool_decide_false by done.
  rewrite Hok, (jget_missing kvs "error" He). reflexivity.
Qed.

Lemma check_response_error r doc err m :
  py_in "error" doc = Ok true -> jget doc "error" = Ok err -> jget err "error_msg" = Ok (JStr m) ->
  check_response r doc = Err (APIError m).
Proof. intros He H1 H2. unfold check_response. rewrite He. simpl. by rewrite H1, bind_ok, H2. Qed.

(** ** [get_friends] *)

(** The request [get_friends] sends. *)
Definition friends_call (user_id : option Z) (count offset : Z) (fields : option (list string)) : call :=
  Get "friends.get" (friends_params access_token version user_id count offset fields).

(** C17 (functional) On an answer with status below 400 whose document has
    no ["error"] and holds [response.count] and [response.items],
    [get_friends] sends one [friends.get] request with its parameters and
    returns those two values. *)
Theorem get_friends_spec user_id count offset fields log code doc resp cnt items :
  server log (friends_call user_id count offset fields) =
    mkResponse code (Some doc) ->
  code < 400 -> py_in "error" doc = Ok false ->
  jget doc "response" = Ok resp -> jget resp "count" = Ok cnt -> jget resp "items" = Ok items ->
  get_friends access_token version server user_id count offset fields log =
    (Ok (mkFriendsResponse cnt items),
     log ++ [friends_call user_id count offset fields]).
Proof.
  intros Hs Hc He Hr Hcnt Hit. unfold get_friends, send, sbind, slift. unfold friends_call in *. rewrite Hs. cbn [response_json body].
  rewrite bind_ok, check_response_ok by (done || (unfold ok; simpl; lia)).
  by rewrite bind_ok, bind_ok, Hr, bind_ok, Hcnt, bind_ok, bind_ok, Hr, bind_ok, Hit.
Qed.

(** C26 (error) A failed request (status 400 or more) whose document is a
    dict without an ["error"] key makes [get_friends] raise [KeyError]
    while it reads [document["error"]], not the [APIError] it means to
    raise. *)
Theorem get_friends_not_ok_keyerror user_id count offset fields log code kvs :
  server log (friends_call user_id count offset fields) =
    mkResponse code (Some (JObj kvs)) ->
  400 <= code -> "error" ∉ kvs.*1 ->
  get_friends access_token version server user_id count offset fields log =
    (Err KeyError, log ++ [friends_call user_id count offset fields]).
Proof.
  intros Hs Hc He. unfold get_friends, send, sbind, slift. unfold friends_call in *. rewrite Hs. cbn [response_json body].
  rewrite bind_ok, check_response_not_ok by (done || (unfold ok; simpl; apply Z.ltb_ge; lia)). done.
Qed.

(** An answer carrying [{"error": {"error_msg": m}}] makes [get_friends]
    raise [APIError(m)], whatever its status. *)
Lemma get_friends_api_error user_id count offset fields log code doc err m :
  server log (friends_call user_id count offset fields) =
    mkResponse code (Some doc) ->
  py_in "error" doc = Ok true -> jget doc "error" = Ok err -> jget err "error_msg" = Ok (JStr m) ->
  get_friends access_token version server user_id count offset fields log =
    (Err (APIError m), log ++ [friends_call user_id count offset fields]).
Proof.
  intros Hs He H1 H2. unfold get_friends, send, sbind, slift. unfold friends_call in *. rewrite Hs. cbn [response_json body].
  by rewrite bind_ok, (check_response_error _ _ _ _ He H1 H2).
Qed.

(** ** [get_mutual] with a list of targets *)

(** The calls of round [i]: a [friends.getMutual] request with the whole
    comma-joined list of targets and the offset [offset + 100 * i], then a
    sleep after every third. *)
Definition round_calls (uids : list Z) (order : string) (count : option Z) (offset i : Z) : list call :=
  Get "friends.getMutual"
    [("access_token", PStr access_token); ("v", PStr version);
     ("target_uids", PStr (s_join "," (str_of_Z <$> uids)));
     ("order", PStr order);
     ("count", match count with Some c => PInt c | None => PStr "" end);
     ("offset", PInt (offset + 100 * i))] ::
  (if i mod 3 =? 2 then [Sleep 1] else []).

Definition mutual_calls (uids : list Z) (order : string) (count : option Z) (offset : Z) : list call :=
  concat (round_calls uids order count offset <$> mutual_rounds (Z.of_nat (length uids))).

Lemma round_spec uids order count offset acc i log :
  exists r calls, mutual_round access_token version server uids order count offset acc i log = (r, log ++ calls) /\
    calls `prefix_of` round_calls uids order count offset i /\
    (forall v, r = Ok v -> calls = round_calls uids order count offset i).
Proof.
  unfold mutual_round, send, sbind, slift, round_calls, mutual_params. rewrite (Z.mul_comm i 100).
  destruct (_ ≫= _) as [batch|e]; [destruct (i mod 3 =? 2)|].
  - eexists _, [_; _]. split; [unfold sleep; simpl; by rewrite <-app_assoc|]. split; [done|]. done.
  - eexists _, [_]. split; [done|]. split; [done|]. done.
  - eexists _, [_]. split; [done|]. split; [by apply prefix_cons, prefix_nil|]. done.
Qed.

Lemma rounds_spec uids order count offset xs acc log :
  exists r calls, sfoldl (mutual_round access_token version server uids order count offset) xs acc log = (r, log ++ calls) /\
    calls `prefix_of` concat (round_calls uids order count offset <$> xs) /\
    (forall v, r = Ok v -> calls = concat (round_calls uids order count offset <$> xs)).
Proof.
  induction xs as [|x xs IH] in acc, log |- *; [exists (Ok acc), []; rewrite app_nil_r; done|].
  destruct (round_spec uids order count offset acc x log) as ([v|e] & c1 & H1 & Hp1 & Hf1); cbn [sfoldl fmap list_fmap concat].
  - destruct (IH v (log ++ c1)) as (r & c2 & H2 & Hp2 & Hf2). rewrite (sbind_apply _ _ _ _ _ H1), H2, <-app_assoc.
    exists r, (c1 ++ c2). rewrite (Hf1 v eq_refl). split; [done|]. split; [by apply prefix_app|].
    intros w ->. by rewrite (Hf2 w eq_refl).
  - exists (Err e), c1. rewrite (sbind_apply_err _ _ _ _ _ H1). split; [done|]. split; [|done].
    by apply prefix_app_r.
Qed.

(** C18 (safety) Whatever the server answers, [get_mutual] with a list of
    targets makes a prefix of the calls [mutual_calls]: for each round [i]
    of [range((len(target_uids) + 99) // 100)] one [friends.getMutual]
    request with the whole comma-joined list of targets (not the [i]-th
    hundred) and the offset [offset + 100 * i], then a sleep after every
    third; it makes all of them when it returns. *)
Theorem get_mutual_calls uids order count offset source_uid target_uid log :
  exists r calls,
    get_mutual access_token version server source_uid target_uid (Some uids) order count offset log = (r, log ++ calls) /\
    calls `prefix_of` mutual_calls uids order count offset /\
    (forall v, r = Ok v -> calls = mutual_calls uids order count offset).
Proof.
  destruct (rounds_spec uids order count offset (mutual_rounds (Z.of_nat (length uids))) [] log)
    as ([v|e] & calls & H & Hp & Hf); unfold get_mutual.
  - exists (Ok (MutualMany v)), calls. rewrite (sbind_apply _ _ _ _ _ H). split; [done|]. split; [done|]. intros w [= <-]. by apply (Hf v eq_refl).
  - exists (Err e), calls. rewrite (sbind_apply_err _ _ _ _ _ H). split; [done|]. split; [done|]. done.
Qed.

Lemma get_mutual_some source_uid target_uid uids order count offset log :
  get_mutual access_token version server source_uid target_uid (Some uids) order count offset log =
    let '(r, l) := sfoldl (mutual_round access_token version server uids order count offset)
                          (mutual_rounds (Z.of_nat (length uids))) [] log in
    (r ≫= (fun v => Ok (MutualMany v)), l).
Proof. unfold get_mutual, sbind. by destruct (sfoldl _ _ _ _) as [[] ?]. Qed.

Lemma requests_rounds uids order count offset xs :
  requests (concat (round_calls uids order count offset <$> xs)) = length xs.
Proof.
  unfold requests. induction xs as [|x xs IH]; [done|]. cbn [fmap list_fmap concat length].
  rewrite List.filter_app, length_app, IH. unfold round_calls. by destruct (x mod 3 =? 2).
Qed.

Lemma requests_prefix l1 l2 : l1 `prefix_of` l2 -> (requests l1 <= requests l2)%nat.
Proof. intros [k ->]. unfold requests. rewrite List.filter_app, length_app. lia. Qed.

(** Round [j] starts [j mod 3] requests after the last sleep. *)
Lemma runs_rounds uids order count offset (k : nat) j :
  0 <= j -> runs_ok (Z.to_nat (j mod 3)) (concat (round_calls uids order count offset <$> seqZ j (Z.of_nat k))) = true.
Proof.
  induction k as [|k IH] in j |- *; intros Hj; [done|].
  rewrite seqZ_cons by lia. replace (Z.pred (Z.of_nat (S k))) with (Z.of_nat k) by lia.
  cbn [fmap list_fmap concat]. unfold round_calls at 1. cbn [app runs_ok].
  assert (Hm : 0 <= j mod 3 < 3) by (apply Z.mod_pos_bound; lia).
  apply andb_true_iff. split; [apply Nat.ltb_lt; lia|].
  specialize (IH (Z.succ j) ltac:(lia)). destruct (Z.eqb_spec (j mod 3) 2) as [E|E]; simpl.
  - replace (Z.succ j mod 3) with 0 in IH by (Z.div_mod_to_equations; lia). exact IH.
  - replace (Z.succ j mod 3) with (j mod 3 + 1) in IH by (Z.div_mod_to_equations; lia).
    replace (S (Z.to_nat (j mod 3))) with (Z.to_nat (j mod 3 + 1)) by lia. exact IH.
Qed.

Lemma mutual_rounds_nat n : 0 <= n -> mutual_rounds n = seqZ 0 (Z.of_nat (Z.to_nat ((n + 99) `div` 100))).
Proof. intros Hn. unfold mutual_rounds. rewrite Z2Nat.id; [done|]. apply Z.div_pos; lia. Qed.

(** C16 (bounds) [get_mutual] with [n] targets respects VK's rate limit and
    sends one request per hundred targets: whatever the server answers, no
    stretch of its calls without a sleep holds more than three requests, it
    sends at most [(n + 99) // 100] requests, and when it returns it has
    sent [r] requests with [n <= 100 * r < n + 100]. *)
Theorem get_mutual_bounds uids order count offset source_uid target_uid log :
  exists r calls,
    get_mutual access_token version server source_uid target_uid (Some uids) order count offset log = (r, log ++ calls) /\
    (forall pre seg post, calls = pre ++ seg ++ post ->
       Forall (fun c => is_request c = true) seg -> (length seg <= 3)%nat) /\
    (requests calls <= Z.to_nat ((Z.of_nat (length uids) + 99) `div` 100))%nat /\
    (forall v, r = Ok v -> (length uids <= 100 * requests calls < length uids + 100)%nat).
Proof.
  set (n := length uids). set (q := (Z.of_nat n + 99) `div` 100).
  assert (Hq : 100 * q <= Z.of_nat n + 99 < 100 * q + 100) by (subst q; Z.div_mod_to_equations; lia).
  assert (Hrounds : length (mutual_rounds (Z.of_nat n)) = Z.to_nat q).
  { rewrite mutual_rounds_nat by lia. rewrite length_seqZ. lia. }
  destruct (rounds_spec uids order count offset (mutual_rounds (Z.of_nat n)) [] log) as (r & calls & H & Hp & Hf).
  exists (r ≫= fun v => Ok (MutualMany v)), calls. rewrite get_mutual_some. fold n. rewrite H. split; [done|].
  pose proof (requests_prefix _ _ Hp) as Hle. rewrite requests_rounds, Hrounds in Hle. split; [|split; [done|]].
  - destruct Hp as [k Hk]. eapply runs_ok_bursts. apply (runs_ok_app 0 calls k). rewrite <-Hk.
    rewrite mutual_rounds_nat by lia. apply (runs_rounds uids order count offset _ 0); lia.
  - intros v Hv. destruct r as [w|]; [|done]. rewrite (Hf w eq_refl), requests_rounds, Hrounds. lia.
Qed.

(** ** [get_posts_2500] and [get_wall_execute] *)

(** The request [get_posts_2500] sends. *)
Definition posts_call (owner_id domain : string) (offset count max_count : Z) (filter : string)
    (extended : Z) (fields : option (list string)) : call :=
  Post "execute" (posts_data access_token version owner_id domain offset count max_count filter extended fields).

(** C27 (error) [get_posts_2500] raises [TypeError] on a successful answer
    to the VKScript it sends: the script returns the array [result], so
    [doc["response"]] is a list, and [doc["response"]["items"]] indexes a
    list with a string. *)
Theorem get_posts_type_error owner_id domain offset count max_count filter extended fields log code doc l :
  server log (posts_call owner_id domain offset count max_count filter extended fields) = mkResponse code (Some doc) ->
  code < 400 -> py_in "error" doc = Ok false -> jget doc "response" = Ok (JArr l) ->
  get_posts_2500 access_token version server owner_id domain offset count max_count filter extended fields log =
    (Err TypeError, log ++ [posts_call owner_id domain offset count max_count filter extended fields]).
Proof.
  intros Hs Hc He Hr. unfold get_posts_2500, send, sbind, slift. unfold posts_call in *. rewrite Hs.
  cbn [response_json body]. rewrite bind_ok, check_response_ok by (done || (unfold ok; simpl; lia)).
  by rewrite bind_ok, Hr.
Qed.

Lemma posts_sends owner_id domain offset count max_count filter extended fields log :
  exists r, get_posts_2500 access_token version server owner_id domain offset count max_count filter extended fields log =
    (r, log ++ [posts_call owner_id domain offset count max_count filter extended fields]).
Proof. unfold get_posts_2500, send, sbind, slift. by eexists. Qed.

(** The calls of [k] rounds of [get_wall_execute]: the same request each
    time, then a sleep. *)
Definition wall_calls (owner_id domain : string) (offset count max_count : Z) (filter : string)
    (extended : Z) (fields : option (list string)) (k : nat) : list call :=
  concat (repeat [posts_call owner_id domain offset count max_count filter extended fields; Sleep 1] k).

Lemma wall_fold (json_normalize : json -> list json) owner_id domain offset count max_count filter extended fields
    (xs : list Z) (acc : list json) log :
  exists r calls,
    sfoldl (fun finish _ =>
              posts <- get_posts_2500 access_token version server owner_id domain offset count max_count filter extended fields ;;
              sleep 1 ;;;
              sret (finish ++ json_normalize posts)) xs acc log = (r, log ++ calls) /\
    calls `prefix_of` wall_calls owner_id domain offset count max_count filter extended fields (length xs).
Proof.
  induction xs as [|x xs IH] in acc, log |- *; [exists (Ok acc), []; rewrite app_nil_r; done|].
  destruct (posts_sends owner_id domain offset count max_count filter extended fields log) as ([p|e] & Hp);
    cbn [sfoldl length]; unfold wall_calls; cbn [repeat concat].
  - destruct (IH (acc ++ json_normalize p) ((log ++ [posts_call owner_id domain offset count max_count filter extended fields]) ++ [Sleep 1]))
      as (r & calls & H & Hpre).
    exists r, ([posts_call owner_id domain offset count max_count filter extended fields; Sleep 1] ++ calls).
    cbv beta. rewrite sbind_assoc, (sbind_apply _ _ _ _ _ Hp), sbind_assoc, (sbind_apply _ _ _ _ _ (eq_refl : sleep 1 _ = _)).
    rewrite sbind_ret_l, H, <-!app_assoc. split; [done|]. by apply prefix_app.
  - exists (Err e), [posts_call owner_id domain offset count max_count filter extended fields].
    cbv beta. rewrite sbind_assoc, (sbind_apply_err _ _ _ _ _ Hp). split; [done|]. by apply prefix_cons, prefix_nil.
Qed.

(** C28 (safety) Whatever the server answers, [get_wall_execute] repeats
    one and the same [execute] request, with the same offset, in each of
    its [math.ceil(count / 2500)] rounds, each followed by a sleep; with
    [count = 0], documented as "all posts", or a negative count it makes no
    request at all and returns an empty frame. *)
Theorem get_wall_calls json_normalize owner_id domain offset count max_count filter extended fields log :
  exists r calls,
    get_wall_execute access_token version server json_normalize owner_id domain offset count max_count filter extended fields log =
      (r, log ++ calls) /\
    calls `prefix_of` wall_calls owner_id domain offset count max_count filter extended fields (length (wall_rounds count)) /\
    (count <= 0 -> r = Ok [] /\ calls = []).
Proof.
  destruct (wall_fold json_normalize owner_id domain offset count max_count filter extended fields (wall_rounds count) [] log)
    as (r & calls & H & Hp).
  exists r, calls. unfold get_wall_execute. split; [exact H|]. split; [exact Hp|]. intros Hc.
  assert (E : wall_rounds count = []).
  { unfold wall_rounds. apply seqZ_nil. assert ((count + 2499) `div` 2500 <= 0) by (Z.div_mod_to_equations; lia). lia. }
  rewrite E in H, Hp. unfold wall_calls in Hp. cbn [length repeat concat] in Hp. apply prefix_nil_inv in Hp. subst calls.
  rewrite app_nil_r in H. simpl in H. by injection H as ->.
Qed.

End Spec.

(** ** Instances *)

Definition friends_doc : json :=
  JObj [("response", JObj [("count", JNum 2); ("items", JArr [JNum 17; JNum 42])])].

(** A server that answers every request with [friends_doc], one that fails
    with an empty document, and one that returns what the VKScript of
    [get_posts_2500] returns, an array. *)
Definition good_server : list call -> call -> response := fun _ _ => mkResponse 200 (Some friends_doc).
Definition failing_server : list call -> call -> response := fun _ _ => mkResponse 500 (Some (JObj [])).
Definition execute_server : list call -> call -> response :=
  fun _ _ => mkResponse 200 (Some (JObj [("response", JArr [JArr []])])).

Lemma get_friends_spec_witness :
  good_server [] (friends_call "token" "5.131" (Some 1) 5000 0 None) =
    mkResponse 200 (Some friends_doc) /\
  200 < 400 /\ py_in "error" friends_doc = Ok false /\
  jget friends_doc "response" = Ok (JObj [("count", JNum 2); ("items", JArr [JNum 17; JNum 42])]) /\
  jget (JObj [("count", JNum 2); ("items", JArr [JNum 17; JNum 42])]) "count" = Ok (JNum 2) /\
  jget (JObj [("count", JNum 2); ("items", JArr [JNum 17; JNum 42])]) "items" = Ok (JArr [JNum 17; JNum 42]) /\
  get_friends "token" "5.131" good_server (Some 1) 5000 0 None [] =
    (Ok (mkFriendsResponse (JNum 2) (JArr [JNum 17; JNum 42])),
     [] ++ [friends_call "token" "5.131" (Some 1) 5000 0 None]).
Proof.
  pose proof (get_friends_spec "token" "5.131" good_server (Some 1) 5000 0 None [] 200 friends_doc _ (JNum 2) _
           eq_refl ltac:(lia) eq_refl eq_refl eq_refl eq_refl) as H.
  split_and!; [reflexivity .. | exact H].
Defined.

Lemma get_friends_not_ok_keyerror_witness :
  failing_server [] (friends_call "token" "5.131" None 10 0 (Some ["bdate"])) =
    mkResponse 500 (Some (JObj [])) /\ 400 <= 500 /\ ("error" ∉ (([] : list (string * json)).*1)) /\
  get_friends "token" "5.131" failing_server None 10 0 (Some ["bdate"]) [] =
    (Err KeyError, [] ++ [friends_call "token" "5.131" None 10 0 (Some ["bdate"])]).
Proof.
  assert (He : ("error" ∉ (([] : list (string * json)).*1))) by apply not_elem_of_nil.
  split_and!; [reflexivity | lia | exact He |].
  exact (get_friends_not_ok_keyerror "token" "5.131" failing_server None 10 0 (Some ["bdate"]) [] 500 []
           eq_refl ltac:(lia) He).
Defined.

Lemma get_posts_type_error_witness :
  execute_server [] (posts_call "token" "5.131" "-1" "" 0 10 2500 "owner" 0 None) =
    mkResponse 200 (Some (JObj [("response", JArr [JArr []])])) /\
  200 < 400 /\ py_in "error" (JObj [("response", JArr [JArr []])]) = Ok false /\
  jget (JObj [("response", JArr [JArr []])]) "response" = Ok (JArr [JArr []]) /\
  get_posts_2500 "token" "5.131" execute_server "-1" "" 0 10 2500 "owner" 0 None [] =
    (Err TypeError, [] ++ [posts_call "token" "5.131" "-1" "" 0 10 2500 "owner" 0 None]).
Proof.
  pose proof (get_posts_type_error "token" "5.131" execute_server "-1" "" 0 10 2500 "owner" 0 None [] 200 _ _
           eq_refl ltac:(lia) eq_refl eq_refl) as H.
  split_and!; [reflexivity .. | exact H].
Defined.


(** The offset a [wall.get] call of the script receives is the string
    literal ["0 +i"], not the sum the script seems to compute. *)
Example posts_script_offset_literal :
  s_contains (dq +:+ "0 +i" +:+ dq)%stdpp (posts_script "-1" "" 0 10 2500 "owner" 0 None) = true.
Proof. vm_compute. reflexivity. Qed.

End VkSpec.
